(** * Quiz synchronisation service (addons/mod/quiz/services/quiz-sync.ts)

    A shallow embedding of [AddonModQuizSyncProvider]: the reconciliation of
    a locally stored (offline) quiz attempt with the attempt held by the
    site, and the batch operation that drives it over every quiz with
    offline data.

    The service is glue code: every step is a call to a collaborator (the
    offline store, the remote quiz API, the question delegate, the network
    oracle, the lock registry, the event bus).  The collaborators are an
    interface here, a type class over an abstract world; the code of the
    service is written once, against that interface, in a small monad that
    threads the world, carries a rejection, and records every call together
    with the answer it got.  The theorems speak about those recorded calls.

    A second part embeds the helpers of the utilities provider
    (core/services/utils/utils.ts) that compute something themselves:
    the unique identifiers, the prefixed keys, the tests for true and
    false, the menu made from a list, the tree made from a list, the
    debounced and throttled functions, and the test for errors of the web
    service. *)

From Stdlib Require Import ZArith String Ascii List Bool Lia.
From stdpp Require Import base option list gmap strings sorting pretty.

Local Open Scope string_scope.
Local Open Scope Z_scope.
Local Open Scope list_scope.

(** ** Data model *)

(** [AddonModQuizQuizWSData]: the fields the service reads. *)
Record AddonModQuizQuizWSData := mkQuiz {
  quiz_id : Z;
  quiz_course : Z;
  quiz_coursemodule : Z;
}.

(** Modelled from the spec: the offline attempt record
    ([AddonModQuizAttemptDBRecord], declared in ./database/quiz), with the
    identifier, the owning quiz and course, the current page and the
    finished flag the data model lists. *)
Record AddonModQuizAttemptDBRecord := mkOfflineAttempt {
  oa_id : Z;
  oa_quizid : Z;
  oa_courseid : Z;
  oa_currentpage : Z;
  oa_finished : bool;
}.

(** [AddonModQuizAttemptWSData]: the online attempt. *)
Record AddonModQuizAttemptWSData := mkOnlineAttempt {
  at_id : Z;
  at_state : string;
  at_layout : string;
}.

(** A stored answer value: [CoreQuestionsAnswers] is
    [Record<string, string | boolean>]. *)
Inductive AnswerValue :=
| AString (s : string)
| ABoolean (b : bool).

(** [CoreQuestionQuestionParsed]: the online question of a slot. *)
Record CoreQuestionQuestionParsed := mkQuestion {
  q_slot : Z;
  q_type : string;
  q_sequencecheck : option Z;
}.

(** An entry of [AddonModQuizQuestionsWithAnswers]: an offline question and
    the answers stored for it, keyed by answer name. *)
Record OfflineQuestion := mkOfflineQuestion {
  oq_slot : Z;
  oq_answers : gmap string AnswerValue;
}.

(** A row of the offline answers table. *)
Record AnswerDBRecord := mkAnswerRecord {
  ans_attemptid : Z;
  ans_slot : Z;
  ans_name : string;
  ans_value : AnswerValue;
}.

(** [CoreCourseModuleBasicInfo]. *)
Record CoreCourseModuleBasicInfo := mkModule {
  module_id : Z;
}.

(** An entry of the module updates reported by the site. *)
Record UpdateEntry := mkUpdate {
  upd_name : string;
}.

Inductive CoreSitesReadingStrategy :=
| ONLY_NETWORK
| PREFER_CACHE.

(** The options object handed to the quiz web services. *)
Record ModOptions := mkModOptions {
  mo_cmId : Z;
  mo_readingStrategy : option CoreSitesReadingStrategy;
  mo_siteId : string;
}.

(** What a rejected promise carries: a [CoreError] built by the service from
    a message, or whatever a collaborator rejected with. *)
Inductive Error :=
| CoreError (message : string)
| Rejected (reason : string).

Inductive result (A : Type) :=
| Ok (a : A)
| Err (e : Error).
Arguments Ok {A} a.
Arguments Err {A} e.

(** [CoreSyncResult & { attemptFinished }]. *)
Record AddonModQuizSyncResult := mkSyncResult {
  warnings : list string;
  attemptFinished : bool;
  updated : bool;
}.

(** [FinishSyncOptions]; every field is optional in the source. *)
Record FinishSyncOptions := mkFinishOptions {
  fo_attemptId : option Z;
  fo_offlineAttempt : option AddonModQuizAttemptDBRecord;
  fo_onlineAttempt : option AddonModQuizAttemptWSData;
  fo_removeAttempt : option bool;
  fo_updated : option bool;
  fo_onlineQuestions : option (gmap Z CoreQuestionQuestionParsed);
}.

(** [options || {}]. *)
Definition no_options : FinishSyncOptions :=
  mkFinishOptions None None None None None None.

(** [AddonModQuizAutoSyncData], the payload of the AUTO_SYNCED event. *)
Record AddonModQuizAutoSyncData := mkAutoSyncData {
  ev_quizId : Z;
  ev_attemptFinished : bool;
  ev_warnings : list string;
}.

Definition AUTO_SYNCED : string := "addon_mod_quiz_autom_synced".

(** ** JavaScript odds and ends *)

(** Truthiness of an optional number: [undefined], [0] are falsy. *)
Definition truthy_number (n : option Z) : bool :=
  match n with
  | Some k => negb (Z.eqb k 0)
  | None => false
  end.

(** [!!b] for an optional boolean. *)
Definition truthy_bool (b : option bool) : bool :=
  match b with
  | Some true => true
  | _ => false
  end.

(** [a || b] on strings: the empty string and [undefined] are falsy. *)
Definition string_or (a : option string) (b : string) : string :=
  match a with
  | Some s => if String.eqb s "" then b else s
  | None => b
  end.

(** [String(n)] for an optional integer. *)
Definition String_of_number (n : option Z) : string :=
  match n with
  | Some k => pretty k
  | None => "undefined"
  end.

(** [Object.keys] and [for .. in] over an object keyed by slot numbers:
    integer keys are enumerated in ascending order. *)
Definition Object_keys {A} (o : gmap Z A) : list Z :=
  merge_sort Z.le (map fst (map_to_list o)).

(** [Array.prototype.find]. *)
Definition Array_find {A} (p : A -> bool) (l : list A) : option A :=
  List.find p l.

(** [Array.prototype.pop], the value it returns. *)
Definition Array_pop {A} (l : list A) : option A :=
  last l.

(** The regular expression [/^.*files$/] of [prefetchAfterUpdateQuiz].
    Without flags, [.] matches any character but a line terminator and [$]
    only the end of the input: the name must end in [files] and hold no
    line terminator before that. Strings are taken as sequences of 8-bit
    units, where the line terminators are LF and CR. *)
Definition is_line_terminator (c : ascii) : bool :=
  (Ascii.eqb c "010"%char || Ascii.eqb c "013"%char)%bool.

Fixpoint single_line (s : string) : bool :=
  match s with
  | EmptyString => true
  | String c s' => negb (is_line_terminator c) && single_line s'
  end.

Fixpoint ends_with_files (s : string) : bool :=
  match s with
  | EmptyString => false
  | String _ s' => String.eqb s "files" || ends_with_files s'
  end.

Definition matches_files_regex (name : string) : bool :=
  single_line name && ends_with_files name.

Abbreviation AccessInformation := (list string).
Abbreviation PreflightData := (gmap string string).
Abbreviation Answers := (gmap string AnswerValue).
Abbreviation OnlineQuestions := (gmap Z CoreQuestionQuestionParsed).
Abbreviation OfflineQuestions := (gmap Z OfflineQuestion).

(** ** The calls the service makes

    One constructor per collaborator method the service calls, with the
    arguments it passes and the answer the call got. The last three are
    about the promises of a synchronisation: the two methods of the
    in-flight registry, and what a wait on such a promise observed. *)
Inductive Event :=
| EvSyncActivity (component : string) (quizId : Z) (siteId : string)
    (r : result unit)
| EvGetQuizAttempts (quizId : Z) (siteId : string)
    (r : result (list AddonModQuizAttemptDBRecord))
| EvIsOnline (r : bool)
| EvGetUserAttempts (quizId : Z) (options : ModOptions)
    (r : result (list AddonModQuizAttemptWSData))
| EvGetAttemptAnswers (attemptId : Z) (siteId : string)
    (r : result (list AnswerDBRecord))
| EvGetQuizAccessInformation (quizId : Z) (options : ModOptions)
    (r : result AccessInformation)
| EvGetPreflightData (quiz : AddonModQuizQuizWSData) (info : AccessInformation)
    (attempt : AddonModQuizAttemptWSData) (askPreflight : option bool)
    (title : string) (siteId : string) (r : result PreflightData)
| EvGetAllQuestionsData (quiz : AddonModQuizQuizWSData)
    (attempt : AddonModQuizAttemptWSData) (preflightData : PreflightData)
    (pages : list Z) (readingStrategy : CoreSitesReadingStrategy)
    (siteId : string) (r : result OnlineQuestions)
| EvRemoveQuestionAndAnswers (attemptId : Z) (slot : Z) (siteId : string)
    (r : result unit)
| EvPrepareSyncData (question : option CoreQuestionQuestionParsed)
    (answers : Answers) (component : string) (cmId : Z) (siteId : string)
    (r : result Answers)
| EvProcessAttempt (quiz : AddonModQuizQuizWSData)
    (attempt : AddonModQuizAttemptWSData) (answers : Answers)
    (preflightData : PreflightData) (finish timeUp offline : bool)
    (siteId : string) (r : result unit)
| EvLogViewAttempt (attemptId : Z) (page : Z) (preflightData : PreflightData)
    (offline : bool) (siteId : string) (r : result unit)
| EvInvalidateAllQuizData (quizId : Z) (courseId : Z) (attemptId : option Z)
    (siteId : string) (r : result unit)
| EvRemoveAttemptAndAnswers (attemptId : Z) (siteId : string)
    (r : result unit)
| EvDeleteOfflineData (question : CoreQuestionQuestionParsed)
    (component : string) (cmId : Z) (siteId : string) (r : result unit)
| EvGetModuleBasicInfoByInstance (quizId : Z) (modname : string)
    (siteId : string) (r : result CoreCourseModuleBasicInfo)
| EvGetModuleUpdates (module : CoreCourseModuleBasicInfo) (courseId : Z)
    (ignoreCache : bool) (siteId : string)
    (r : result (option (list UpdateEntry)))
| EvDownload (module : CoreCourseModuleBasicInfo) (courseId : Z)
    (r : result unit)
| EvSetStatusAfterPrefetch (quiz : AddonModQuizQuizWSData) (cmId : Z)
    (readingStrategy : option CoreSitesReadingStrategy) (siteId : string)
    (r : result unit)
| EvSetSyncTime (quizId : Z) (siteId : string) (r : result unit)
| EvGetAllAttempts (siteId : string)
    (r : result (list AddonModQuizAttemptDBRecord))
| EvIsBlocked (component : string) (quizId : Z) (siteId : string) (r : bool)
| EvGetQuizById (courseId : Z) (quizId : Z) (siteId : string)
    (r : result AddonModQuizQuizWSData)
| EvIsSyncNeeded (quizId : Z) (siteId : option string) (r : result bool)
| EvSetSyncWarnings (quizId : Z) (warnings : list string) (siteId : string)
    (r : result unit)
| EvTrigger (eventName : string) (data : AddonModQuizAutoSyncData)
    (siteId : string)
| EvGetOngoingSync (quizId : Z) (siteId : string) (r : option nat)
| EvAddOngoingSync (quizId : Z) (promise : nat) (siteId : string)
| EvAwait (promise : nat) (r : result AddonModQuizSyncResult).

(** ** The collaborators

    The services the provider is wired to, none of which is part of this
    file: asynchronous methods answer with a result and may change the
    world; synchronous getters read it; the helpers that only compute are
    plain functions. *)
Class Collaborators (W : Type) := {
  (* AddonModQuizProvider.COMPONENT *)
  COMPONENT : string;
  (* CoreSites *)
  getCurrentSiteId : W -> string;
  (* CoreNetwork *)
  isOnline : W -> bool;
  (* CoreSync *)
  isBlocked : string -> Z -> string -> W -> bool;
  (* CoreCourseLogHelper *)
  syncActivity : string -> Z -> string -> W -> result unit * W;
  (* AddonModQuizOffline *)
  getQuizAttempts :
    Z -> string -> W -> result (list AddonModQuizAttemptDBRecord) * W;
  getAllAttempts :
    string -> W -> result (list AddonModQuizAttemptDBRecord) * W;
  getAttemptAnswers : Z -> string -> W -> result (list AnswerDBRecord) * W;
  removeAttemptAndAnswers : Z -> string -> W -> result unit * W;
  removeQuestionAndAnswers : Z -> Z -> string -> W -> result unit * W;
  classifyAnswersInQuestions : Answers -> OfflineQuestions;
  extractAnswersFromQuestions : OfflineQuestions -> Answers;
  (* CoreQuestion *)
  convertAnswersArrayToObject : list AnswerDBRecord -> Answers;
  (* AddonModQuiz *)
  isAttemptFinished : string -> bool;
  getUserAttempts :
    Z -> ModOptions -> W -> result (list AddonModQuizAttemptWSData) * W;
  getQuizAccessInformation :
    Z -> ModOptions -> W -> result AccessInformation * W;
  getPagesFromLayoutAndQuestions : string -> OfflineQuestions -> list Z;
  getAllQuestionsData :
    AddonModQuizQuizWSData -> AddonModQuizAttemptWSData -> PreflightData ->
    list Z -> CoreSitesReadingStrategy -> string ->
    W -> result OnlineQuestions * W;
  processAttempt :
    AddonModQuizQuizWSData -> AddonModQuizAttemptWSData -> Answers ->
    PreflightData -> bool -> bool -> bool -> string -> W -> result unit * W;
  logViewAttempt :
    Z -> Z -> PreflightData -> bool -> string -> W -> result unit * W;
  invalidateAllQuizData :
    Z -> Z -> option Z -> string -> W -> result unit * W;
  getQuizById : Z -> Z -> string -> W -> result AddonModQuizQuizWSData * W;
  (* CoreQuestionDelegate *)
  validateSequenceCheck :
    CoreQuestionQuestionParsed -> option AnswerValue -> bool;
  prepareSyncData :
    option CoreQuestionQuestionParsed -> Answers -> string -> Z -> string ->
    W -> result Answers * W;
  deleteOfflineData :
    CoreQuestionQuestionParsed -> string -> Z -> string ->
    W -> result unit * W;
  (* AddonModQuizPrefetchHandler *)
  getPreflightData :
    AddonModQuizQuizWSData -> AccessInformation ->
    AddonModQuizAttemptWSData -> option bool -> string -> string ->
    W -> result PreflightData * W;
  download : CoreCourseModuleBasicInfo -> Z -> W -> result unit * W;
  setStatusAfterPrefetch :
    AddonModQuizQuizWSData -> Z -> option CoreSitesReadingStrategy ->
    string -> W -> result unit * W;
  (* CoreCourse, CoreCourseModulePrefetchDelegate *)
  getModuleBasicInfoByInstance :
    Z -> string -> string -> W -> result CoreCourseModuleBasicInfo * W;
  getModuleUpdates :
    CoreCourseModuleBasicInfo -> Z -> bool -> string ->
    W -> result (option (list UpdateEntry)) * W;
  (* CoreSyncBaseProvider, the base class *)
  setSyncTime : Z -> string -> W -> result unit * W;
  isSyncNeeded : Z -> option string -> W -> result bool * W;
  setSyncWarnings : Z -> list string -> string -> W -> result unit * W;
  (* CoreEvents *)
  trigger : string -> AddonModQuizAutoSyncData -> string -> W -> W;
}.

(** ** The state and the monad *)

(** A reconciliation that was started and whose promise has not settled:
    what [performSyncQuiz] holds while it waits for the first time, the
    quiz and the flag it was called with and the site it settled on. *)
Record PendingSync := mkPending {
  ps_quiz : AddonModQuizQuizWSData;
  ps_askPreflight : option bool;
  ps_siteId : string;
}.

(** The world of the collaborators, and the promises of the service.
    Modelled from the spec: the in-flight registry of the base class
    ([syncPromises], read by [getOngoingSync] and written by
    [addOngoingSync]), a map from a (site, quiz) pair to the promise of the
    synchronisation in flight for it. Promises are handles: [pending] holds
    the reconciliations started and not yet run to their end, [settled] the
    outcome of those that were. *)
Record State (W : Type) := mkState {
  world : W;
  syncPromises : gmap (string * Z) nat;
  pending : gmap nat PendingSync;
  settled : gmap nat (result AddonModQuizSyncResult);
  nextPromise : nat;
}.
Arguments mkState {W} _ _ _ _ _.
Arguments world {W} _.
Arguments syncPromises {W} _.
Arguments pending {W} _.
Arguments settled {W} _.
Arguments nextPromise {W} _.

Definition initial_state {W} (w : W) : State W :=
  mkState w ∅ ∅ ∅ 0%nat.

Definition set_world {W} (st : State W) (w : W) : State W :=
  mkState w (syncPromises st) (pending st) (settled st) (nextPromise st).

(** An asynchronous computation run to its end: the value it resolves with
    or the error it rejects with, the state it leaves, and the calls it
    made, oldest first. *)
Definition M (W A : Type) : Type :=
  State W -> result A * State W * list Event.

Definition ret {W A} (a : A) : M W A :=
  fun st => (Ok a, st, []).

Definition bind {W A B} (m : M W A) (f : A -> M W B) : M W B :=
  fun st =>
    match m st with
    | (Ok a, st1, t1) =>
        match f a st1 with
        | (r, st2, t2) => (r, st2, t1 ++ t2)
        end
    | (Err e, st1, t1) => (Err e, st1, t1)
    end.

(** [throw]. *)
Definition throw {W A} (e : Error) : M W A :=
  fun st => (Err e, st, []).

(** [CoreUtils.ignoreErrors(promise)]: a rejection becomes [undefined].
    The same shape models [try { .. } catch { }] with an empty handler. *)
Definition ignoreErrors {W A} (m : M W A) : M W (option A) :=
  fun st =>
    match m st with
    | (Ok a, st1, t1) => (Ok (Some a), st1, t1)
    | (Err _, st1, t1) => (Ok None, st1, t1)
    end.

(** A call to an asynchronous method of a collaborator. *)
Definition call {W A} (h : W -> result A * W) (ev : result A -> Event)
  : M W A :=
  fun st =>
    match h (world st) with
    | (r, w) => (r, set_world st w, [ev r])
    end.

(** A call to a synchronous getter of a collaborator. *)
Definition ask {W A} (h : W -> A) (ev : A -> Event) : M W A :=
  fun st => (Ok (h (world st)), st, [ev (h (world st))]).

(** A call to an asynchronous function that is not waited for at once: the
    call is made, and its outcome is what a later [await] gives. *)
Definition started {W A} (m : M W A) : M W (result A) :=
  fun st =>
    match m st with
    | (r, st1, t1) => (Ok r, st1, t1)
    end.

(** [await] of a call made earlier. *)
Definition waited {W A} (r : result A) : M W A :=
  fun st => (r, st, []).

(** A synchronous read that is not recorded. *)
Definition gets {W A} (h : W -> A) : M W A :=
  fun st => (Ok (h (world st)), st, []).

(** [await Promise.all(promises)] over calls that were all issued before the
    wait: every one of them runs, whatever the others do, and the wait
    rejects with the first rejection if there is one. *)
Fixpoint Promise_all {W A} (ps : list (M W A)) : M W (list A) :=
  fun st =>
    match ps with
    | [] => (Ok [], st, [])
    | p :: ps' =>
        match p st with
        | (r, st1, t1) =>
            match Promise_all ps' st1 with
            | (rs, st2, t2) =>
                (match r, rs with
                 | Ok a, Ok l => Ok (a :: l)
                 | Err e, _ => Err e
                 | Ok _, Err e => Err e
                 end, st2, t1 ++ t2)
            end
        end
    end.

(** [await Promise.all(keys.map(async (key) => { .. }))] where the callbacks
    update variables of the enclosing function: a callback that resolves
    hands its updates on, one that rejects leaves the variables as they
    were when it stopped, and the others still run. *)
Fixpoint Promise_all_map {W L K} (f : K -> L -> M W L) (keys : list K)
  (vars : L) : M W L :=
  fun st =>
    match keys with
    | [] => (Ok vars, st, [])
    | k :: keys' =>
        match f k vars st with
        | (Ok vars1, st1, t1) =>
            match Promise_all_map f keys' vars1 st1 with
            | (r, st2, t2) => (r, st2, t1 ++ t2)
            end
        | (Err e, st1, t1) =>
            match Promise_all_map f keys' vars st1 with
            | (_, st2, t2) => (Err e, st2, t1 ++ t2)
            end
        end
    end.

Declare Scope sync_scope.
Delimit Scope sync_scope with sync.
Notation "'let*' x := m 'in' k" := (bind m (fun x => k))
  (at level 10, x name, m at level 100, k at level 200) : sync_scope.
Local Open Scope sync_scope.

(** ** The service *)

Section Service.
Context {W : Type} `{Collaborators W}.

(** *** Calls, as the source writes them *)

Definition CoreSites_getCurrentSiteId : M W string :=
  gets getCurrentSiteId.

Definition CoreNetwork_isOnline : M W bool :=
  ask isOnline EvIsOnline.

Definition CoreSync_isBlocked (component : string) (id : Z)
  (siteId : string) : M W bool :=
  ask (isBlocked component id siteId) (EvIsBlocked component id siteId).

Definition CoreCourseLogHelper_syncActivity (component : string) (id : Z)
  (siteId : string) : M W unit :=
  call (syncActivity component id siteId) (EvSyncActivity component id siteId).

Definition AddonModQuizOffline_getQuizAttempts (quizId : Z)
  (siteId : string) : M W (list AddonModQuizAttemptDBRecord) :=
  call (getQuizAttempts quizId siteId) (EvGetQuizAttempts quizId siteId).

Definition AddonModQuizOffline_getAllAttempts (siteId : string)
  : M W (list AddonModQuizAttemptDBRecord) :=
  call (getAllAttempts siteId) (EvGetAllAttempts siteId).

Definition AddonModQuizOffline_getAttemptAnswers (attemptId : Z)
  (siteId : string) : M W (list AnswerDBRecord) :=
  call (getAttemptAnswers attemptId siteId)
       (EvGetAttemptAnswers attemptId siteId).

Definition AddonModQuizOffline_removeAttemptAndAnswers (attemptId : Z)
  (siteId : string) : M W unit :=
  call (removeAttemptAndAnswers attemptId siteId)
       (EvRemoveAttemptAndAnswers attemptId siteId).

Definition AddonModQuizOffline_removeQuestionAndAnswers (attemptId slot : Z)
  (siteId : string) : M W unit :=
  call (removeQuestionAndAnswers attemptId slot siteId)
       (EvRemoveQuestionAndAnswers attemptId slot siteId).

Definition AddonModQuiz_getUserAttempts (quizId : Z) (options : ModOptions)
  : M W (list AddonModQuizAttemptWSData) :=
  call (getUserAttempts quizId options) (EvGetUserAttempts quizId options).

Definition AddonModQuiz_getQuizAccessInformation (quizId : Z)
  (options : ModOptions) : M W AccessInformation :=
  call (getQuizAccessInformation quizId options)
       (EvGetQuizAccessInformation quizId options).

Definition AddonModQuiz_getAllQuestionsData (quiz : AddonModQuizQuizWSData)
  (attempt : AddonModQuizAttemptWSData) (preflightData : PreflightData)
  (pages : list Z) (readingStrategy : CoreSitesReadingStrategy)
  (siteId : string) : M W OnlineQuestions :=
  call (getAllQuestionsData quiz attempt preflightData pages readingStrategy
          siteId)
       (EvGetAllQuestionsData quiz attempt preflightData pages readingStrategy
          siteId).

Definition AddonModQuiz_processAttempt (quiz : AddonModQuizQuizWSData)
  (attempt : AddonModQuizAttemptWSData) (answers : Answers)
  (preflightData : PreflightData) (finish timeUp offline : bool)
  (siteId : string) : M W unit :=
  call (processAttempt quiz attempt answers preflightData finish timeUp
          offline siteId)
       (EvProcessAttempt quiz attempt answers preflightData finish timeUp
          offline siteId).

Definition AddonModQuiz_logViewAttempt (attemptId page : Z)
  (preflightData : PreflightData) (offline : bool) (siteId : string)
  : M W unit :=
  call (logViewAttempt attemptId page preflightData offline siteId)
       (EvLogViewAttempt attemptId page preflightData offline siteId).

Definition AddonModQuiz_invalidateAllQuizData (quizId courseId : Z)
  (attemptId : option Z) (siteId : string) : M W unit :=
  call (invalidateAllQuizData quizId courseId attemptId siteId)
       (EvInvalidateAllQuizData quizId courseId attemptId siteId).

Definition AddonModQuiz_getQuizById (courseId quizId : Z) (siteId : string)
  : M W AddonModQuizQuizWSData :=
  call (getQuizById courseId quizId siteId)
       (EvGetQuizById courseId quizId siteId).

Definition CoreQuestionDelegate_prepareSyncData
  (question : option CoreQuestionQuestionParsed) (answers : Answers)
  (component : string) (cmId : Z) (siteId : string) : M W Answers :=
  call (prepareSyncData question answers component cmId siteId)
       (EvPrepareSyncData question answers component cmId siteId).

Definition CoreQuestionDelegate_deleteOfflineData
  (question : CoreQuestionQuestionParsed) (component : string) (cmId : Z)
  (siteId : string) : M W unit :=
  call (deleteOfflineData question component cmId siteId)
       (EvDeleteOfflineData question component cmId siteId).

Definition AddonModQuizPrefetchHandler_getPreflightData
  (quiz : AddonModQuizQuizWSData) (info : AccessInformation)
  (attempt : AddonModQuizAttemptWSData) (askPreflight : option bool)
  (title siteId : string) : M W PreflightData :=
  call (getPreflightData quiz info attempt askPreflight title siteId)
       (EvGetPreflightData quiz info attempt askPreflight title siteId).

Definition AddonModQuizPrefetchHandler_download
  (module : CoreCourseModuleBasicInfo) (courseId : Z) : M W unit :=
  call (download module courseId) (EvDownload module courseId).

Definition AddonModQuizPrefetchHandler_setStatusAfterPrefetch
  (quiz : AddonModQuizQuizWSData) (cmId : Z)
  (readingStrategy : option CoreSitesReadingStrategy) (siteId : string)
  : M W unit :=
  call (setStatusAfterPrefetch quiz cmId readingStrategy siteId)
       (EvSetStatusAfterPrefetch quiz cmId readingStrategy siteId).

Definition CoreCourse_getModuleBasicInfoByInstance (id : Z)
  (modname siteId : string) : M W CoreCourseModuleBasicInfo :=
  call (getModuleBasicInfoByInstance id modname siteId)
       (EvGetModuleBasicInfoByInstance id modname siteId).

Definition CoreCourseModulePrefetchDelegate_getModuleUpdates
  (module : CoreCourseModuleBasicInfo) (courseId : Z) (ignoreCache : bool)
  (siteId : string) : M W (option (list UpdateEntry)) :=
  call (getModuleUpdates module courseId ignoreCache siteId)
       (EvGetModuleUpdates module courseId ignoreCache siteId).

Definition this_setSyncTime (id : Z) (siteId : string) : M W unit :=
  call (setSyncTime id siteId) (EvSetSyncTime id siteId).

Definition this_isSyncNeeded (id : Z) (siteId : option string) : M W bool :=
  call (isSyncNeeded id siteId) (EvIsSyncNeeded id siteId).

Definition this_setSyncWarnings (id : Z) (warnings : list string)
  (siteId : string) : M W unit :=
  call (setSyncWarnings id warnings siteId)
       (EvSetSyncWarnings id warnings siteId).

Definition CoreEvents_trigger (eventName : string)
  (data : AddonModQuizAutoSyncData) (siteId : string) : M W unit :=
  fun st =>
    (Ok tt, set_world st (trigger eventName data siteId (world st)),
     [EvTrigger eventName data siteId]).

(** [Translate.instant(key)]: messages are identified by their key. *)
Definition Translate_instant (key : string) : string := key.

(** *** prefetchAfterUpdateQuiz *)

Definition prefetchAfterUpdateQuiz (module : CoreCourseModuleBasicInfo)
  (quiz : AddonModQuizQuizWSData) (courseId : Z) (siteId : string)
  : M W unit :=
  (* Get the module updates to check if the data was updated or not. *)
  let* result := CoreCourseModulePrefetchDelegate_getModuleUpdates module
                   courseId true siteId in
  let* shouldDownload :=
    match result with
    | Some updates =>
        match updates with
        | _ :: _ =>
            (* Only prefetch if files haven't changed. *)
            let shouldDownload :=
              match Array_find
                      (fun entry => matches_files_regex (upd_name entry))
                      updates with
              | Some _ => false
              | None => true
              end in
            let* _ := if shouldDownload
                      then AddonModQuizPrefetchHandler_download module
                             courseId
                      else ret tt in
            ret shouldDownload
        | [] => ret false
        end
    | None => ret false
    end in
  (* Prefetch finished or not needed, set the right status. *)
  AddonModQuizPrefetchHandler_setStatusAfterPrefetch quiz (module_id module)
    (if shouldDownload then Some PREFER_CACHE else None) siteId.

(** *** finishSync *)

(** The promises [finishSync] collects when it removes the offline data:
    the removal of the attempt, then the offline data of every online
    question, in the order of [for (const slot in onlineQuestions)]. *)
Definition removal_promises (siteId : string) (quiz : AddonModQuizQuizWSData)
  (attemptId : Z) (onlineQuestions : option OnlineQuestions)
  : list (M W unit) :=
  AddonModQuizOffline_removeAttemptAndAnswers attemptId siteId
  :: match onlineQuestions with
     | Some onlineQuestions =>
         omap (fun slot =>
                 question ← onlineQuestions !! slot;
                 Some (CoreQuestionDelegate_deleteOfflineData question
                         COMPONENT (quiz_coursemodule quiz) siteId))
              (Object_keys onlineQuestions)
     | None => []
     end.

Definition finishSync (siteId : string) (quiz : AddonModQuizQuizWSData)
  (courseId : Z) (warnings : list string) (options : option FinishSyncOptions)
  : M W AddonModQuizSyncResult :=
  let options := default no_options options in
  (* Invalidate the data for the quiz and attempt. *)
  let* _ := ignoreErrors
              (AddonModQuiz_invalidateAllQuizData (quiz_id quiz) courseId
                 (fo_attemptId options) siteId) in
  let* _ :=
    match fo_attemptId options with
    | Some attemptId =>
        if truthy_bool (fo_removeAttempt options)
           && truthy_number (Some attemptId)
        then Promise_all (removal_promises siteId quiz attemptId
                            (fo_onlineQuestions options))
        else ret []
    | None => ret []
    end in
  let* _ :=
    if truthy_bool (fo_updated options)
    then
      ignoreErrors
        ((* Data has been sent. Update prefetched data. *)
         let* module := CoreCourse_getModuleBasicInfoByInstance (quiz_id quiz)
                          "quiz" siteId in
         prefetchAfterUpdateQuiz module quiz courseId siteId)
    else ret None in
  let* _ := ignoreErrors (this_setSyncTime (quiz_id quiz) siteId) in
  (* Check if online attempt was finished because of the sync. *)
  let* attemptFinished :=
    match fo_onlineAttempt options with
    | Some onlineAttempt =>
        if negb (isAttemptFinished (at_state onlineAttempt))
        then
          (* Attempt wasn't finished at start. Check if it's finished now. *)
          let* attempts :=
            AddonModQuiz_getUserAttempts (quiz_id quiz)
              (mkModOptions (quiz_coursemodule quiz) None siteId) in
          ret match Array_find
                      (fun a => Z.eqb (at_id a) (at_id onlineAttempt))
                      attempts with
              | Some attempt => isAttemptFinished (at_state attempt)
              | None => false
              end
        else ret false
    | None => ret false
    end in
  ret (mkSyncResult warnings attemptFinished
         (truthy_bool (fo_updated options)
          || truthy_bool (fo_removeAttempt options))).

(** *** hasDataToSync *)

Definition hasDataToSync (quizId : Z) (siteId : string) : M W bool :=
  let* r := ignoreErrors
              (let* attempts :=
                 AddonModQuizOffline_getQuizAttempts quizId siteId in
               ret (negb (Nat.eqb (length attempts) 0))) in
  ret (default false r).

(** *** validateQuestions *)

(** [offlineQuestion.answers[':sequencecheck'] = value]. *)
Definition set_sequencecheck (offlineQuestion : OfflineQuestion)
  (value : string) : OfflineQuestion :=
  mkOfflineQuestion (oq_slot offlineQuestion)
    (<[":sequencecheck" := AString value]> (oq_answers offlineQuestion)).

(** The callback mapped over the slots of the offline questions. The
    variables it shares with the other callbacks are [discardedData] and
    the object [offlineQuestions], which it updates in place. *)
Definition validate_slot (attemptId : Z) (onlineQuestions : OnlineQuestions)
  (siteId : string) (slot : Z) (vars : bool * OfflineQuestions)
  : M W (bool * OfflineQuestions) :=
  let '(discardedData, offlineQuestions) := vars in
  match offlineQuestions !! slot with
  | None => throw (Rejected "TypeError")
  | Some offlineQuestion =>
      let offlineSequenceCheck :=
        oq_answers offlineQuestion !! ":sequencecheck" in
      match onlineQuestions !! slot with
      | Some onlineQuestion =>
          (* We found the online data for the question, validate that the
             sequence check is ok. *)
          if negb (validateSequenceCheck onlineQuestion offlineSequenceCheck)
          then
            (* Sequence check is not valid, remove the offline data. *)
            let* _ := AddonModQuizOffline_removeQuestionAndAnswers attemptId
                        slot siteId in
            ret (true, delete slot offlineQuestions)
          else
            (* Sequence check is valid. Use the online one to prevent
               synchronization errors. *)
            ret (discardedData,
                 <[slot := set_sequencecheck offlineQuestion
                             (String_of_number
                                (q_sequencecheck onlineQuestion))]>
                   offlineQuestions)
      | None =>
          (* Online question not found. *)
          let* _ := AddonModQuizOffline_removeQuestionAndAnswers attemptId
                      slot siteId in
          ret (true, delete slot offlineQuestions)
      end
  end.

(** What the callback decides for a slot: the offline question it keeps,
    with the sequence check of the online question, or nothing when the
    slot is discarded. *)
Definition validated_slot (onlineQuestions : OnlineQuestions) (slot : Z)
  (offlineQuestion : OfflineQuestion) : option OfflineQuestion :=
  match onlineQuestions !! slot with
  | Some onlineQuestion =>
      if validateSequenceCheck onlineQuestion
           (oq_answers offlineQuestion !! ":sequencecheck")
      then Some (set_sequencecheck offlineQuestion
                   (String_of_number (q_sequencecheck onlineQuestion)))
      else None
  | None => None
  end.

(** Resolves with [discardedData]; the offline questions, which the source
    updates in place, are handed back next to it. *)
Definition validateQuestions (attemptId : Z)
  (onlineQuestions : OnlineQuestions) (offlineQuestions : OfflineQuestions)
  (siteId : string) : M W (bool * OfflineQuestions) :=
  Promise_all_map (validate_slot attemptId onlineQuestions siteId)
    (Object_keys offlineQuestions) (false, offlineQuestions).

(** *** performSyncQuiz *)

(** The callback that lets a question prepare the data to send; the
    delegate rewrites the answers of the slot in place. *)
Definition prepare_slot (quiz : AddonModQuizQuizWSData)
  (onlineQuestions : OnlineQuestions) (siteId : string) (slot : Z)
  (offlineQuestions : OfflineQuestions) : M W OfflineQuestions :=
  let onlineQuestion := onlineQuestions !! slot in
  match offlineQuestions !! slot with
  | None => throw (Rejected "TypeError")
  | Some offlineQuestion =>
      let* answers := CoreQuestionDelegate_prepareSyncData onlineQuestion
                        (oq_answers offlineQuestion) COMPONENT
                        (quiz_coursemodule quiz) siteId in
      ret (<[slot := mkOfflineQuestion (oq_slot offlineQuestion) answers]>
             offlineQuestions)
  end.

(** [performSyncQuiz] from the point where it first waits, which is for
    the call that syncs the offline logs: the part a caller that does not
    wait for the synchronisation leaves for later. Its constants
    [warnings], [courseId] and [modOptions], which the source declares
    before that call, are written where they are used. *)
Definition performSyncQuiz_rest (quiz : AddonModQuizQuizWSData)
  (askPreflight : option bool) (siteId : string)
  : M W AddonModQuizSyncResult :=
  let warnings : list string := [] in
  let courseId := quiz_course quiz in
  let modOptions :=
    mkModOptions (quiz_coursemodule quiz) (Some ONLY_NETWORK) siteId in
  (* Get all the offline attempts for the quiz. It should always be 0 or 1
     attempt. *)
  let* offlineAttempts :=
    AddonModQuizOffline_getQuizAttempts (quiz_id quiz) siteId in
  match Array_pop offlineAttempts with
  | None =>
      (* Nothing to sync, finish. *)
      finishSync siteId quiz courseId warnings None
  | Some offlineAttempt =>
      let* online := CoreNetwork_isOnline in
      if negb online
      then
        (* Cannot sync in offline. *)
        throw (CoreError (Translate_instant "core.cannotconnect"))
      else
        (* Now get the list of online attempts to make sure this attempt
           exists and isn't finished. *)
        let* onlineAttempts :=
          AddonModQuiz_getUserAttempts (quiz_id quiz) modOptions in
        let lastAttemptId := at_id <$> last onlineAttempts in
        let onlineAttempt :=
          Array_find (fun attempt => Z.eqb (at_id attempt)
                                       (oa_id offlineAttempt))
            onlineAttempts in
        let discard :=
          (* Attempt not found or it's finished in online. Discard it. *)
          finishSync siteId quiz courseId
            (warnings
             ++ [Translate_instant "addon.mod_quiz.warningattemptfinished"])
            (Some (mkFinishOptions (Some (oa_id offlineAttempt))
                     (Some offlineAttempt) onlineAttempt (Some true) None
                     None)) in
        match onlineAttempt with
        | None => discard
        | Some onlineAttempt =>
            if isAttemptFinished (at_state onlineAttempt) then discard
            else
              (* Get the data stored in offline. *)
              let* answersList :=
                AddonModQuizOffline_getAttemptAnswers (oa_id offlineAttempt)
                  siteId in
              match answersList with
              | [] =>
                  (* No answers stored, finish. *)
                  finishSync siteId quiz courseId warnings
                    (Some (mkFinishOptions lastAttemptId (Some offlineAttempt)
                             (Some onlineAttempt) (Some true) None None))
              | _ :: _ =>
                  let offlineAnswers :=
                    convertAnswersArrayToObject answersList in
                  let offlineQuestions :=
                    classifyAnswersInQuestions offlineAnswers in
                  (* We're going to need preflightData, get it. *)
                  let* info := AddonModQuiz_getQuizAccessInformation
                                 (quiz_id quiz) modOptions in
                  let* preflightData :=
                    AddonModQuizPrefetchHandler_getPreflightData quiz info
                      onlineAttempt askPreflight
                      "core.settings.synchronization" siteId in
                  (* Now get the online questions data. *)
                  let* onlineQuestions :=
                    AddonModQuiz_getAllQuestionsData quiz onlineAttempt
                      preflightData
                      (getPagesFromLayoutAndQuestions
                         (string_or (Some (at_layout onlineAttempt)) "")
                         offlineQuestions)
                      ONLY_NETWORK siteId in
                  (* Validate questions, discarding the offline answers that
                     can't be synchronized. *)
                  let* validated :=
                    validateQuestions (at_id onlineAttempt) onlineQuestions
                      offlineQuestions siteId in
                  let discardedData := fst validated in
                  let offlineQuestions := snd validated in
                  (* Let questions prepare the data to send. *)
                  let* offlineQuestions :=
                    Promise_all_map (prepare_slot quiz onlineQuestions siteId)
                      (Object_keys offlineQuestions) offlineQuestions in
                  (* Get the answers to send. *)
                  let answers :=
                    extractAnswersFromQuestions offlineQuestions in
                  let finish :=
                    oa_finished offlineAttempt && negb discardedData in
                  let warnings :=
                    if discardedData
                    then
                      if oa_finished offlineAttempt
                      then warnings ++ [Translate_instant
                             "addon.mod_quiz.warningdatadiscardedfromfinished"]
                      else warnings ++ [Translate_instant
                             "addon.mod_quiz.warningdatadiscarded"]
                    else warnings in
                  (* Send the answers. *)
                  let* _ := AddonModQuiz_processAttempt quiz onlineAttempt
                              answers preflightData finish false false
                              siteId in
                  let* _ :=
                    if negb finish
                    then
                      (* Answers sent, now set the current page. *)
                      ignoreErrors
                        (AddonModQuiz_logViewAttempt (at_id onlineAttempt)
                           (oa_currentpage offlineAttempt) preflightData
                           false siteId)
                    else ret None in
                  (* Data sent. Finish the sync. *)
                  finishSync siteId quiz courseId warnings
                    (Some (mkFinishOptions lastAttemptId (Some offlineAttempt)
                             (Some onlineAttempt) (Some true) (Some true)
                             (Some onlineQuestions)))
              end
        end
  end.

Definition performSyncQuiz (quiz : AddonModQuizQuizWSData)
  (askPreflight : option bool) (siteId : option string)
  : M W AddonModQuizSyncResult :=
  let* currentSiteId := CoreSites_getCurrentSiteId in
  let siteId := string_or siteId currentSiteId in
  (* Sync offline logs. *)
  let* _ := ignoreErrors
              (CoreCourseLogHelper_syncActivity COMPONENT (quiz_id quiz)
                 siteId) in
  performSyncQuiz_rest quiz askPreflight siteId.

(** The condition of the discard branch of [performSyncQuiz],
    [!onlineAttempt || AddonModQuiz.isAttemptFinished(onlineAttempt.state)],
    as a function of the offline attempt and of the online attempts
    fetched. *)
Definition attempt_is_stale (offlineAttempt : AddonModQuizAttemptDBRecord)
  (onlineAttempts : list AddonModQuizAttemptWSData) : bool :=
  match Array_find (fun attempt => Z.eqb (at_id attempt) (oa_id offlineAttempt))
          onlineAttempts with
  | Some onlineAttempt => isAttemptFinished (at_state onlineAttempt)
  | None => true
  end.

(** *** Promises of a synchronisation *)

(** Calling [performSyncQuiz] without waiting for it. An asynchronous
    function runs, when it is called, up to its first [await]: the site is
    settled and the call that syncs the offline logs is made, and the
    caller is handed a promise. Calls to collaborators are atomic in this
    model, so that call is recorded with its outcome. The rest of the
    reconciliation, [performSyncQuiz_rest], runs when the promise is first
    waited for; until then the promise is pending. *)
Definition promise_performSyncQuiz (quiz : AddonModQuizQuizWSData)
  (askPreflight : option bool) (siteId : option string) : M W nat :=
  let* currentSiteId := CoreSites_getCurrentSiteId in
  let siteId := string_or siteId currentSiteId in
  (* Sync offline logs. *)
  let* _ := ignoreErrors
              (CoreCourseLogHelper_syncActivity COMPONENT (quiz_id quiz)
                 siteId) in
  fun st =>
    (Ok (nextPromise st),
     mkState (world st) (syncPromises st)
       (<[nextPromise st := mkPending quiz askPreflight siteId]> (pending st))
       (settled st) (S (nextPromise st)),
     []).

(** Modelled from the spec: [getOngoingSync] of the base class, the lookup
    of the in-flight registry, [get(resourceId, site) -> Promise?]. *)
Definition getOngoingSync (id : Z) (siteId : string) : M W (option nat) :=
  fun st =>
    (Ok (syncPromises st !! (siteId, id)), st,
     [EvGetOngoingSync id siteId (syncPromises st !! (siteId, id))]).

(** Modelled from the spec: [addOngoingSync] of the base class,
    [register(resourceId, promise, site)]; the promise it returns settles as
    the one registered does, and is the same handle here. *)
Definition addOngoingSync (id : Z) (promise : nat) (siteId : string)
  : M W nat :=
  fun st =>
    (Ok promise,
     mkState (world st) (<[(siteId, id) := promise]> (syncPromises st))
       (pending st) (settled st) (nextPromise st),
     [EvAddOngoingSync id promise siteId]).

(** Modelled from the spec: what completion does to the registry, the
    operation is deregistered exactly once on completion, success or
    failure. *)
Definition settle (promise : nat) (p : PendingSync)
  (r : result AddonModQuizSyncResult) (st : State W) : State W :=
  mkState (world st)
    (delete (ps_siteId p, quiz_id (ps_quiz p)) (syncPromises st))
    (delete promise (pending st))
    (<[promise := r]> (settled st))
    (nextPromise st).

(** [await promise] for the promise of a synchronisation: a settled promise
    gives its outcome again; a pending one runs the rest of its
    reconciliation to the end, settles and leaves the registry. What the
    wait observed is recorded after the calls of the reconciliation. The
    calls of the rest are made in one go here; the registry and the
    promises are the same before each of them, so what a call of
    [syncQuiz] made in between would find is what it finds in any state
    that has the promise pending. *)
Definition await (promise : nat) : M W AddonModQuizSyncResult :=
  fun st =>
    match settled st !! promise with
    | Some r => (r, st, [EvAwait promise r])
    | None =>
        match pending st !! promise with
        | Some p =>
            match performSyncQuiz_rest (ps_quiz p) (ps_askPreflight p)
                    (ps_siteId p) st with
            | (r, st1, t) =>
                (r, settle promise p r st1, t ++ [EvAwait promise r])
            end
        | None =>
            (Err (Rejected "promise never made"), st,
             [EvAwait promise (Err (Rejected "promise never made"))])
        end
    end.

(** *** syncQuiz *)

(** Not an async function: it returns a promise, or throws. *)
Definition syncQuiz (quiz : AddonModQuizQuizWSData)
  (askPreflight : option bool) (siteId : option string) : M W nat :=
  let* currentSiteId := CoreSites_getCurrentSiteId in
  let siteId := string_or siteId currentSiteId in
  let* currentSyncPromise := getOngoingSync (quiz_id quiz) siteId in
  match currentSyncPromise with
  | Some currentSyncPromise =>
      (* There's already a sync ongoing for this quiz, return the promise. *)
      ret currentSyncPromise
  | None =>
      (* Verify that quiz isn't blocked. *)
      let* blocked := CoreSync_isBlocked COMPONENT (quiz_id quiz) siteId in
      if blocked
      then throw (CoreError (Translate_instant "core.errorsyncblocked"))
      else
        let* promise :=
          promise_performSyncQuiz quiz askPreflight (Some siteId) in
        addOngoingSync (quiz_id quiz) promise siteId
  end.

(** *** syncQuizIfNeeded *)

Definition syncQuizIfNeeded (quiz : AddonModQuizQuizWSData)
  (askPreflight : option bool) (siteId : option string)
  : M W (option AddonModQuizSyncResult) :=
  let* needed := this_isSyncNeeded (quiz_id quiz) siteId in
  if needed
  then
    let* promise := syncQuiz quiz askPreflight siteId in
    let* data := await promise in
    ret (Some data)
  else ret None.

(** *** syncAllQuizzesFunc *)

(** The callback mapped over the offline attempts is an asynchronous
    function: [map] runs it, for each attempt in turn, up to its first
    [await], which is for the fetch of the quiz. So, attempt by attempt:
    the duplicate check, the mark in [quizIds], the lock check and, for a
    quiz that is not locked, the call of [getQuizById], before the next
    attempt is looked at. This is that first part, over all attempts; it
    gives, for the callbacks that go on, the calls they wait for. *)
Fixpoint sync_callbacks_start (siteId : string)
  (attempts : list AddonModQuizAttemptDBRecord) (quizIds : gset Z)
  : M W (list (result AddonModQuizQuizWSData)) :=
  match attempts with
  | [] => ret []
  | attempt :: attempts' =>
      if decide (oa_quizid attempt ∈ quizIds)
      then
        (* Quiz already treated. *)
        sync_callbacks_start siteId attempts' quizIds
      else
        let quizIds := {[oa_quizid attempt]} ∪ quizIds in
        let* blocked :=
          CoreSync_isBlocked COMPONENT (oa_quizid attempt) siteId in
        if blocked
        then sync_callbacks_start siteId attempts' quizIds
        else
          (* Quiz not blocked, try to synchronize it. *)
          let* quiz := started (AddonModQuiz_getQuizById (oa_courseid attempt)
                                  (oa_quizid attempt) siteId) in
          let* rest := sync_callbacks_start siteId attempts' quizIds in
          ret (quiz :: rest)
  end.

(** The callback once it has the quiz. *)
Definition sync_callback_rest (force : bool) (siteId : string)
  (quiz : AddonModQuizQuizWSData) : M W unit :=
  let* data :=
    if force
    then
      let* promise := syncQuiz quiz (Some false) (Some siteId) in
      let* data := await promise in
      ret (Some data)
    else syncQuizIfNeeded quiz (Some false) (Some siteId) in
  let* _ :=
    match data with
    | Some data =>
        match warnings data with
        | _ :: _ =>
            (* Store the warnings to show them when the user opens the
               quiz. *)
            this_setSyncWarnings (quiz_id quiz) (warnings data) siteId
        | [] => ret tt
        end
    | None => ret tt
    end in
  match data with
  | Some data =>
      (* Sync successful. Send event. *)
      CoreEvents_trigger AUTO_SYNCED
        (mkAutoSyncData (quiz_id quiz) (attemptFinished data) (warnings data))
        siteId
  | None => ret tt
  end.

(** The callback of one attempt, taken alone, from the fetch of the quiz
    on. *)
Definition sync_callback (force : bool) (siteId : string)
  (attempt : AddonModQuizAttemptDBRecord) : M W unit :=
  (* Quiz not blocked, try to synchronize it. *)
  let* quiz := AddonModQuiz_getQuizById (oa_courseid attempt)
                 (oa_quizid attempt) siteId in
  sync_callback_rest force siteId quiz.

(** The callbacks that go on do so when [Promise.all] is waited for, each
    from the outcome of its fetch. *)
Definition syncAllQuizzesFunc (force : bool) (siteId : string) : M W unit :=
  (* Get all offline attempts. *)
  let* attempts := AddonModQuizOffline_getAllAttempts siteId in
  (* Sync all quizzes that haven't been synced for a while and that aren't
     attempted right now. *)
  let* callbacks := sync_callbacks_start siteId attempts ∅ in
  let* _ := Promise_all
              (map (fun fetched =>
                      let* quiz := waited fetched in
                      sync_callback_rest force siteId quiz)
                 callbacks) in
  ret tt.

End Service.

(** ** A small backend to run the service on

    A world with an offline store, the attempts and questions the site
    holds, a network switch, a list of locked quizzes and a list of
    (method, identifier) pairs whose call is rejected. It is used to run
    the service on concrete data. The site-wide listing of offline attempts
    is a field of its own, so that a run can start from a listing taken
    before the store last changed. Its sequence check accepts a stored
    token that, read as a number, is the counter of the online question. *)
Record TestWorld := mkTestWorld {
  tw_site : string;
  tw_network : bool;
  tw_blocked : list Z;
  tw_allAttempts : list AddonModQuizAttemptDBRecord;
  tw_attempts : list AddonModQuizAttemptDBRecord;
  tw_answers : list AnswerDBRecord;
  tw_userAttempts : list (Z * AddonModQuizAttemptWSData);
  tw_questions : OnlineQuestions;
  tw_updates : option (list UpdateEntry);
  tw_rejecting : list (string * Z);
  tw_syncNeeded : bool;
}.

Definition rejects (w : TestWorld) (method : string) (id : Z) : bool :=
  existsb (fun p => String.eqb (fst p) method && Z.eqb (snd p) id)
    (tw_rejecting w).

Definition answer {A} (w : TestWorld) (method : string) (id : Z) (a : A)
  (w' : TestWorld) : result A * TestWorld :=
  if rejects w method id then (Err (Rejected method), w) else (Ok a, w').

Definition tw_set_store (w : TestWorld)
  (attempts : list AddonModQuizAttemptDBRecord)
  (answers : list AnswerDBRecord) : TestWorld :=
  mkTestWorld (tw_site w) (tw_network w) (tw_blocked w) (tw_allAttempts w)
    attempts answers (tw_userAttempts w) (tw_questions w) (tw_updates w)
    (tw_rejecting w) (tw_syncNeeded w).

Definition tw_set_userAttempts (w : TestWorld)
  (userAttempts : list (Z * AddonModQuizAttemptWSData)) : TestWorld :=
  mkTestWorld (tw_site w) (tw_network w) (tw_blocked w) (tw_allAttempts w)
    (tw_attempts w) (tw_answers w) userAttempts (tw_questions w)
    (tw_updates w) (tw_rejecting w) (tw_syncNeeded w).

Definition slot_of_ascii (c : ascii) : Z := Z.of_nat (nat_of_ascii c) - 48.
Definition ascii_of_slot (slot : Z) : ascii :=
  ascii_of_nat (Z.to_nat (slot + 48)).

(** Answer names of the small backend are a digit, the slot, followed by
    the name of the answer within the question. *)
Definition test_classify (answers : Answers) : OfflineQuestions :=
  fold_right
    (fun '(name, v) acc =>
       match name with
       | String c rest =>
           let slot := slot_of_ascii c in
           <[slot := mkOfflineQuestion slot
                       (<[rest := v]>
                          (default ∅ (oq_answers <$> acc !! slot)))]> acc
       | EmptyString => acc
       end)
    ∅ (map_to_list answers).

Definition test_extract (questions : OfflineQuestions) : Answers :=
  fold_right
    (fun '(slot, question) acc =>
       fold_right
         (fun '(name, v) acc' => <[String (ascii_of_slot slot) name := v]> acc')
         acc (map_to_list (oq_answers question)))
    ∅ (map_to_list questions).

(** A token of decimal digits read as a number. *)
Fixpoint test_digits (s : string) (acc : Z) : option Z :=
  match s with
  | EmptyString => Some acc
  | String c s' =>
      let d := slot_of_ascii c in
      if (0 <=? d) && (d <=? 9) then test_digits s' (10 * acc + d) else None
  end.

Definition test_number (s : string) : option Z :=
  match s with
  | EmptyString => None
  | _ => test_digits s 0
  end.

Definition test_finish (attemptId : Z) (finish : bool)
  (p : Z * AddonModQuizAttemptWSData) : Z * AddonModQuizAttemptWSData :=
  if finish && Z.eqb (at_id (snd p)) attemptId
  then (fst p, mkOnlineAttempt (at_id (snd p)) "finished" (at_layout (snd p)))
  else p.

#[export] Instance test_backend : Collaborators TestWorld := {
  COMPONENT := "mmaModQuiz";
  getCurrentSiteId w := tw_site w;
  isOnline w := tw_network w;
  isBlocked _ id _ w := existsb (Z.eqb id) (tw_blocked w);
  syncActivity _ id _ w := answer w "syncActivity" id tt w;
  getQuizAttempts quizId _ w :=
    answer w "getQuizAttempts" quizId
      (filter (fun a => oa_quizid a = quizId) (tw_attempts w)) w;
  getAllAttempts _ w := answer w "getAllAttempts" 0 (tw_allAttempts w) w;
  getAttemptAnswers attemptId _ w :=
    answer w "getAttemptAnswers" attemptId
      (filter (fun a => ans_attemptid a = attemptId) (tw_answers w)) w;
  removeAttemptAndAnswers attemptId _ w :=
    answer w "removeAttemptAndAnswers" attemptId tt
      (tw_set_store w
         (filter (fun a => oa_id a ≠ attemptId) (tw_attempts w))
         (filter (fun a => ans_attemptid a ≠ attemptId) (tw_answers w)));
  removeQuestionAndAnswers attemptId slot _ w :=
    answer w "removeQuestionAndAnswers" attemptId tt
      (tw_set_store w (tw_attempts w)
         (filter (fun a => ¬ (ans_attemptid a = attemptId ∧ ans_slot a = slot))
            (tw_answers w)));
  classifyAnswersInQuestions := test_classify;
  extractAnswersFromQuestions := test_extract;
  convertAnswersArrayToObject l :=
    fold_left (fun acc a => <[ans_name a := ans_value a]> acc) l ∅;
  isAttemptFinished state :=
    String.eqb state "finished" || String.eqb state "abandoned";
  getUserAttempts quizId _ w :=
    answer w "getUserAttempts" quizId
      (map snd (filter (fun p => fst p = quizId) (tw_userAttempts w))) w;
  getQuizAccessInformation quizId _ w :=
    answer w "getQuizAccessInformation" quizId [] w;
  getPagesFromLayoutAndQuestions _ _ := [];
  getAllQuestionsData quiz _ _ _ _ _ w :=
    answer w "getAllQuestionsData" (quiz_id quiz) (tw_questions w) w;
  processAttempt quiz attempt _ _ finish _ _ _ w :=
    answer w "processAttempt" (quiz_id quiz) tt
      (tw_set_userAttempts w
         (map (test_finish (at_id attempt) finish) (tw_userAttempts w)));
  logViewAttempt attemptId _ _ _ _ w :=
    answer w "logViewAttempt" attemptId tt w;
  invalidateAllQuizData quizId _ _ _ w :=
    answer w "invalidateAllQuizData" quizId tt w;
  getQuizById courseId quizId _ w :=
    answer w "getQuizById" quizId (mkQuiz quizId courseId (quizId + 100)) w;
  validateSequenceCheck question token :=
    match token, q_sequencecheck question with
    | Some (AString s), Some n => bool_decide (test_number s = Some n)
    | _, _ => false
    end;
  prepareSyncData _ answers _ cmId _ w :=
    answer w "prepareSyncData" cmId answers w;
  deleteOfflineData question _ _ _ w :=
    answer w "deleteOfflineData" (q_slot question) tt w;
  getPreflightData quiz _ _ _ _ _ w :=
    answer w "getPreflightData" (quiz_id quiz) ∅ w;
  download module _ w := answer w "download" (module_id module) tt w;
  setStatusAfterPrefetch quiz _ _ _ w :=
    answer w "setStatusAfterPrefetch" (quiz_id quiz) tt w;
  getModuleBasicInfoByInstance id _ _ w :=
    answer w "getModuleBasicInfoByInstance" id (mkModule (id + 100)) w;
  getModuleUpdates module _ _ _ w :=
    answer w "getModuleUpdates" (module_id module) (tw_updates w) w;
  setSyncTime id _ w := answer w "setSyncTime" id tt w;
  isSyncNeeded id _ w := answer w "isSyncNeeded" id (tw_syncNeeded w) w;
  setSyncWarnings id _ _ w := answer w "setSyncWarnings" id tt w;
  trigger _ _ _ w := w;
}.

(** The result, the world left and the calls made by a computation started
    from a world with no synchronisation in flight. *)
Definition run {A} (m : M TestWorld A) (w : TestWorld)
  : result A * TestWorld * list Event :=
  match m (initial_state w) with
  | (r, st, t) => (r, world st, t)
  end.

(** ** What the statements are written with *)

Section Properties.
Context {W : Type}.

(** Computations that make only calls of a given kind. *)
Definition only {A} (P : Event -> bool) (m : M W A) : Prop :=
  forall st r st' t, m st = (r, st', t) -> Forall (fun ev => P ev = true) t.

(** Computations of the collaborators alone: what they do depends on the
    world only, and they leave the promises of the service alone. *)
Definition worldly {A} (m : M W A) : Prop :=
  forall st1 st2,
    world st1 = world st2 ->
    exists r w t,
      m st1 = (r, set_world st1 w, t) /\ m st2 = (r, set_world st2 w, t).

End Properties.

(** The calls [prefetchAfterUpdateQuiz] makes. *)
Definition prefetch_event (ev : Event) : bool :=
  match ev with
  | EvGetModuleUpdates _ _ _ _ _
  | EvDownload _ _ _
  | EvSetStatusAfterPrefetch _ _ _ _ _ => true
  | _ => false
  end.

(** The calls [finishSync] makes when its options carry [attemptId]: the
    invalidation names that attempt, a removal of an attempt is a removal
    of that very attempt, and the online attempts are read again without a
    reading strategy. *)
Definition finish_event (attemptId : option Z) (ev : Event) : bool :=
  match ev with
  | EvInvalidateAllQuizData _ _ id _ _ => bool_decide (id = attemptId)
  | EvDeleteOfflineData _ _ _ _ _
  | EvGetModuleBasicInfoByInstance _ _ _ _
  | EvSetSyncTime _ _ _ => true
  | EvRemoveAttemptAndAnswers id _ _ =>
      bool_decide (attemptId = Some id) && negb (Z.eqb id 0)
  | EvGetUserAttempts _ options _ =>
      bool_decide (mo_readingStrategy options = None)
  | _ => prefetch_event ev
  end.

(** The calls [validateQuestions] makes. *)
Definition validate_event (ev : Event) : bool :=
  match ev with
  | EvRemoveQuestionAndAnswers _ _ _ _ => true
  | _ => false
  end.

(** The calls of the callbacks that prepare the data to send. *)
Definition prepare_event (ev : Event) : bool :=
  match ev with
  | EvPrepareSyncData _ _ _ _ _ _ => true
  | _ => false
  end.

(** The calls a reconciliation makes: none of those of the batch operation
    and of the promise registry. *)
Definition reconcile_event (ev : Event) : bool :=
  match ev with
  | EvGetAllAttempts _ _
  | EvIsBlocked _ _ _ _
  | EvGetQuizById _ _ _ _
  | EvIsSyncNeeded _ _ _
  | EvSetSyncWarnings _ _ _ _
  | EvTrigger _ _ _
  | EvGetOngoingSync _ _ _
  | EvAddOngoingSync _ _ _
  | EvAwait _ _ => false
  | _ => true
  end.

(** A submission of answers to the site. *)
Definition is_submission (ev : Event) : bool :=
  match ev with
  | EvProcessAttempt _ _ _ _ _ _ _ _ _ => true
  | _ => false
  end.

(** The number of submissions among the calls of a run. *)
Definition submissions (t : list Event) : nat :=
  length (List.filter is_submission t).

(** The failures that make [finishSync] reject: a removal of offline data
    or the read of the online attempts that did not succeed, with the error
    of the call. *)
Definition finish_failure (ev : Event) : option Error :=
  match ev with
  | EvRemoveAttemptAndAnswers _ _ (Err e)
  | EvDeleteOfflineData _ _ _ _ (Err e)
  | EvGetUserAttempts _ _ (Err e) => Some e
  | _ => None
  end.

(** A removal of offline data asked for by [finishSync]. *)
Definition is_removal (ev : Event) : bool :=
  match ev with
  | EvRemoveAttemptAndAnswers _ _ _
  | EvDeleteOfflineData _ _ _ _ _ => true
  | _ => false
  end.

(** The failures of the calls a reconciliation waits for before it reaches
    [finishSync]; the online attempts are read there with the reading
    strategy ONLY_NETWORK. *)
Definition reconcile_failure (ev : Event) : option Error :=
  match ev with
  | EvGetQuizAttempts _ _ (Err e)
  | EvGetAttemptAnswers _ _ (Err e)
  | EvGetQuizAccessInformation _ _ (Err e)
  | EvGetPreflightData _ _ _ _ _ _ (Err e)
  | EvGetAllQuestionsData _ _ _ _ _ _ (Err e)
  | EvRemoveQuestionAndAnswers _ _ _ (Err e)
  | EvPrepareSyncData _ _ _ _ _ (Err e)
  | EvProcessAttempt _ _ _ _ _ _ _ _ (Err e) => Some e
  | EvGetUserAttempts _ options (Err e) =>
      match mo_readingStrategy options with
      | Some ONLY_NETWORK => Some e
      | _ => None
      end
  | _ => None
  end.

(** The calls by which [finishSync] changes what is stored: the
    invalidation it starts with, the removals, the sync time. *)
Definition is_finalisation (ev : Event) : bool :=
  match ev with
  | EvInvalidateAllQuizData _ _ _ _ _
  | EvRemoveAttemptAndAnswers _ _ _
  | EvDeleteOfflineData _ _ _ _ _
  | EvSetSyncTime _ _ _ => true
  | _ => false
  end.

(** A fetch of the quiz with a given identifier, and how many of them a
    run made. *)
Definition is_fetch_of (quizId : Z) (ev : Event) : bool :=
  match ev with
  | EvGetQuizById _ q _ _ => Z.eqb q quizId
  | _ => false
  end.

Definition quiz_fetches (quizId : Z) (t : list Event) : nat :=
  length (List.filter (is_fetch_of quizId) t).

(** The calls by which [syncQuiz] starts a synchronisation: the look-up
    and the entry in the registry, the lock check, and the call that syncs
    the offline logs, which [performSyncQuiz] makes before it first
    waits. *)
Definition is_start (ev : Event) : bool :=
  match ev with
  | EvGetOngoingSync _ _ _
  | EvAddOngoingSync _ _ _
  | EvIsBlocked _ _ _ _
  | EvSyncActivity _ _ _ _ => true
  | _ => false
  end.

(** The calls a reconciliation makes from its first wait on. *)
Definition rest_event (ev : Event) : bool :=
  reconcile_event ev && negb (is_start ev).

Section InFlight.
Context {W : Type} `{Collaborators W}.

(** A synchronisation of the quiz on the site is in flight in a state: its
    promise is in the registry under the pair, and the rest of its
    reconciliation has yet to run. *)
Definition in_flight (quiz : AddonModQuizQuizWSData)
  (askPreflight : option bool) (site : string) (promise : nat)
  (st : State W) : Prop :=
  syncPromises st !! (site, quiz_id quiz) = Some promise
  /\ pending st !! promise = Some (mkPending quiz askPreflight site)
  /\ settled st !! promise = None.

(** The synchronisation of a quiz was requested with [syncQuiz] among the
    calls [t]: the registry was looked up for the quiz, and then either the
    quiz was found locked, which refuses the request, or the promise found
    or registered was waited for. *)
Definition sync_requested (quiz : AddonModQuizQuizWSData) (t : list Event)
  : Prop :=
  exists site current,
    EvGetOngoingSync (quiz_id quiz) site current ∈ t
    /\ (EvIsBlocked COMPONENT (quiz_id quiz) site true ∈ t
        \/ exists promise outcome,
            (current = Some promise
             \/ EvAddOngoingSync (quiz_id quiz) promise site ∈ t)
            /\ EvAwait promise outcome ∈ t).

(** What becomes of a fetched quiz in the batch: its synchronisation is
    requested, at once when the batch is forced and otherwise when the
    check says that it is needed. *)
Definition quiz_processed (force : bool) (siteId : string)
  (quiz : AddonModQuizQuizWSData) (t : list Event) : Prop :=
  if force then sync_requested quiz t
  else
    exists needed,
      EvIsSyncNeeded (quiz_id quiz) (Some siteId) needed ∈ t
      /\ (needed = Ok true -> sync_requested quiz t).

End InFlight.

(** ** Helpers of the utilities provider (core/services/utils/utils.ts)

    The methods of [CoreUtilsProvider] that compute something themselves;
    the others forward to singletons that are not part of this file.
    Strings are sequences of 8-bit code units. *)

(** *** getUniqueId *)

(** What the counters hold: a number that is an integer, or NaN. *)
Inductive NumberValue := Num (n : Z) | NaN.

(** What reading [uniqueIds[name]] finds. The object is created empty by
    an object literal, so besides its own properties a read can find one
    inherited from [Object.prototype], which is a function or an object. *)
Inductive PropertyRead :=
| ReadUndefined
| ReadNumber (x : NumberValue)
| ReadInherited.

(** The property names [Object.prototype] defines. *)
Definition Object_prototype_names : list string :=
  ["constructor"; "__defineGetter__"; "__defineSetter__"; "hasOwnProperty";
   "__lookupGetter__"; "__lookupSetter__"; "isPrototypeOf";
   "propertyIsEnumerable"; "toString"; "valueOf"; "__proto__";
   "toLocaleString"].

Definition get_property (o : gmap string NumberValue) (name : string)
  : PropertyRead :=
  match o !! name with
  | Some x => ReadNumber x
  | None =>
      if bool_decide (name ∈ Object_prototype_names) then ReadInherited
      else ReadUndefined
  end.

(** [o[name] = v]: an assignment to [__proto__] goes to the setter of
    [Object.prototype] and creates no property. *)
Definition set_property {V} (o : gmap string V) (name : string) (v : V)
  : gmap string V :=
  if String.eqb name "__proto__" then o else <[name := v]> o.

(** [!!v]. *)
Definition truthy_read (v : PropertyRead) : bool :=
  match v with
  | ReadUndefined => false
  | ReadNumber (Num n) => negb (Z.eqb n 0)
  | ReadNumber NaN => false
  | ReadInherited => true
  end.

(** The number [++] starts from: a function or an object converts to
    NaN. *)
Definition ToNumber (v : PropertyRead) : NumberValue :=
  match v with
  | ReadNumber x => x
  | _ => NaN
  end.

(** [x + 1] on a counter, which holds an integer from 0 to 2^53: the sum
    is exact below 2^53, and 2^53 + 1 rounds back to 2^53. *)
Definition increment (x : NumberValue) : NumberValue :=
  match x with
  | Num n => Num (if n <? 2 ^ 53 then n + 1 else n)
  | NaN => NaN
  end.

(** The identifier returned and the counters left. *)
Definition getUniqueId (name : string) (uniqueIds : gmap string NumberValue)
  : NumberValue * gmap string NumberValue :=
  let uniqueIds :=
    if negb (truthy_read (get_property uniqueIds name))
    then set_property uniqueIds name (Num 0)
    else uniqueIds in
  let id := increment (ToNumber (get_property uniqueIds name)) in
  (id, set_property uniqueIds name id).

(** The counters after a series of requests. *)
Definition getUniqueIds (names : list string)
  (uniqueIds : gmap string NumberValue) : gmap string NumberValue :=
  fold_left (fun ids name => snd (getUniqueId name ids)) names uniqueIds.

(** How many requests of a series were made under a name. *)
Definition requests (name : string) (names : list string) : nat :=
  length (List.filter (String.eqb name) names).

(** *** prefixKeys *)

(** The own properties of the object returned. *)
Definition prefixKeys {V} (data : gmap string V) (prefix : string)
  : gmap string V :=
  fold_left
    (fun newObj key =>
       match data !! key with
       | Some v => set_property newObj (prefix ++ key)%string v
       | None => newObj
       end)
    (map fst (map_to_list data)) ∅.

(** *** isFalseOrZero, isTrueOrOne *)

(** The values the two tests are given: the primitive values, a number
    being an integer below 10^21 in absolute value, which [String] writes
    in decimal notation. *)
Inductive JSValue :=
| JSUndefined
| JSNull
| JSBoolean (b : bool)
| JSNumber (n : Z)
| JSString (s : string).

(** White space and line terminators among the code units below 256: TAB,
    LF, VT, FF, CR, SP and NBSP. *)
Definition is_whitespace (c : ascii) : bool :=
  bool_decide (nat_of_ascii c ∈ [9; 10; 11; 12; 13; 32; 160]%nat).

Definition digit_value (c : ascii) : option Z :=
  let n := Z.of_nat (nat_of_ascii c) in
  if (48 <=? n) && (n <=? 57) then Some (n - 48) else None.

Fixpoint skip_whitespace (s : string) : string :=
  match s with
  | String c s' => if is_whitespace c then skip_whitespace s' else s
  | EmptyString => EmptyString
  end.

(** The value of the longest prefix of decimal digits, if there is one. *)
Fixpoint read_digits (s : string) (acc : option Z) : option Z :=
  match s with
  | String c s' =>
      match digit_value c with
      | Some d => read_digits s' (Some (10 * default 0 acc + d))
      | None => acc
      end
  | EmptyString => acc
  end.

(** [parseInt(string, 10)]: leading white space is skipped, a sign is
    read, then the digits up to the first other character; [None] is NaN.
    The results are only compared with 0 and 1, so that -0 is 0. *)
Definition parseInt10 (s : string) : option Z :=
  match skip_whitespace s with
  | String c s' =>
      if Ascii.eqb c "-" then Z.opp <$> read_digits s' None
      else if Ascii.eqb c "+" then read_digits s' None
      else read_digits (String c s') None
  | EmptyString => None
  end.

(** [String(value)], which [parseInt] applies to its argument. *)
Definition ToString (value : JSValue) : string :=
  match value with
  | JSUndefined => "undefined"
  | JSNull => "null"
  | JSBoolean true => "true"
  | JSBoolean false => "false"
  | JSNumber n => pretty n
  | JSString s => s
  end.

Definition parseInt (value : JSValue) : option Z :=
  parseInt10 (ToString value).

(** [value === b], [value === s] and [x === n]. *)
Definition strict_equal_boolean (value : JSValue) (b : bool) : bool :=
  match value with
  | JSBoolean b' => Bool.eqb b' b
  | _ => false
  end.

Definition strict_equal_string (value : JSValue) (s : string) : bool :=
  match value with
  | JSString s' => String.eqb s' s
  | _ => false
  end.

Definition strict_equal_number (x : option Z) (n : Z) : bool :=
  match x with
  | Some k => Z.eqb k n
  | None => false
  end.

Definition is_undefined (value : JSValue) : bool :=
  match value with
  | JSUndefined => true
  | _ => false
  end.

Definition isFalseOrZero (value : JSValue) : bool :=
  negb (is_undefined value)
  && (strict_equal_boolean value false
      || strict_equal_string value "false"
      || strict_equal_number (parseInt value) 0).

Definition isTrueOrOne (value : JSValue) : bool :=
  negb (is_undefined value)
  && (strict_equal_boolean value true
      || strict_equal_string value "true"
      || strict_equal_number (parseInt value) 1).

Definition starts_with_digit (s : string) : bool :=
  match s with
  | String c _ => bool_decide (is_Some (digit_value c))
  | EmptyString => false
  end.

(** *** makeMenuFromList *)

(** [CoreMenuItem], with numbers as values. *)
Record CoreMenuItem := mkMenuItem {
  label : string;
  value : Z;
}.

(** [s.split(separator)] for a separator that is not empty: the parts
    between the occurrences of the separator, found from left to right.
    [skip] counts the code units of an occurrence still to pass, [part]
    is the part being read. *)
Fixpoint split_from (separator : string) (s : string) (skip : nat)
  (part : string) : list string :=
  match s with
  | EmptyString => [part]
  | String c s' =>
      match skip with
      | S skip' => split_from separator s' skip' part
      | O =>
          if String.prefix separator s
          then part :: split_from separator s' (String.length separator - 1) ""
          else split_from separator s' O (part ++ String c "")
      end
  end.

(** [s.split(separator)]; the empty separator splits into code units. *)
Definition String_split (s separator : string) : list string :=
  match separator with
  | EmptyString => (fun c => String c "") <$> list_ascii_of_string s
  | _ => split_from separator s O ""
  end.

(** [items.join(separator)]. *)
Fixpoint Array_join (separator : string) (items : list string) : string :=
  match items with
  | [] => ""
  | [item] => item
  | item :: items' => item ++ separator ++ Array_join separator items'
  end.

(** [s.trim()]. *)
Fixpoint trim_end (s : string) : string :=
  match s with
  | String c s' =>
      let rest := trim_end s' in
      if is_whitespace c && String.eqb rest "" then "" else String c rest
  | EmptyString => ""
  end.

Definition String_trim (s : string) : string :=
  trim_end (skip_whitespace s).

(** [a || b] on numbers. *)
Definition number_or (a : option Z) (b : Z) : Z :=
  match a with
  | Some n => if Z.eqb n 0 then b else n
  | None => b
  end.

(** [!!s] for an optional string. *)
Definition truthy_string (s : option string) : bool :=
  match s with
  | Some s => negb (String.eqb s "")
  | None => false
  end.

(** [separator] is [undefined] when the caller leaves it out, and then
    defaults to a comma. *)
Definition makeMenuFromList (list : string) (defaultLabel : option string)
  (separator : option string) (defaultValue : option Z)
  : Datatypes.list CoreMenuItem :=
  let separator := default "," separator in
  (* Split and format the list. *)
  let split :=
    imap (fun index label =>
            mkMenuItem (String_trim label) (Z.of_nat index + 1))
      (String_split list separator) in
  if truthy_string defaultLabel
  then mkMenuItem (default "" defaultLabel) (number_or defaultValue 0) :: split
  else split.

(** *** formatTree *)

(** A node of the list: the identifier and the parent, which hold a number
    or are undefined, and the children, an array of references to nodes of
    the list, given by their positions.  The three field names are taken to
    be different. *)
Record TreeNode := mkTreeNode {
  node_id : option Z;
  node_parent : option Z;
  node_children : option (list nat);
}.

(** The errors the function logs. *)
Inductive TreeLog :=
| IncorrectId (id : option Z)
| IncorrectIdOrParent (id parent : option Z)
| ParentOfParentNotFound (parentOfParent : option Z)
| ParentNotFound (parent : option Z).

(** The objects of the list, all different, which the function changes in
    place, and its local variables.  The property names of [map] and [mapDepth] are the
    strings of the identifiers; different numbers have different strings,
    none of which reads [undefined] or is defined by [Object.prototype], so
    the maps are keyed by the identifiers themselves.  A depth is a number
    or NaN. *)
Record TreeState := mkTreeState {
  ts_list : list TreeNode;
  ts_map : gmap (option Z) nat;
  ts_mapDepth : gmap (option Z) NumberValue;
  ts_tree : list nat;
  ts_errors : list TreeLog;
}.

(** How the function ends: it returns, or a [TypeError] is thrown from
    reading [children] of [undefined]; the objects are as they were left. *)
Inductive Completion :=
| Returns (s : TreeState)
| ThrowsTypeError (s : TreeState).

Definition logger_error (entry : TreeLog) (s : TreeState) : TreeState :=
  mkTreeState (ts_list s) (ts_map s) (ts_mapDepth s) (ts_tree s)
    (ts_errors s ++ [entry]).

Definition set_node (index : nat) (node : TreeNode) (s : TreeState)
  : TreeState :=
  mkTreeState (<[index := node]> (ts_list s)) (ts_map s) (ts_mapDepth s)
    (ts_tree s) (ts_errors s).

Definition is_undefined_number (v : option Z) : bool :=
  match v with
  | Some _ => false
  | None => true
  end.

(** The first pass, on the node at a position. *)
Definition index_node (s : TreeState) (index : nat) : TreeState :=
  match ts_list s !! index with
  | Some node =>
      let id := node_id node in
      let s :=
        if is_undefined_number id then logger_error (IncorrectId id) s
        else s in
      let s :=
        match node_children node with
        | None =>
            set_node index
              (mkTreeNode (node_id node) (node_parent node) (Some [])) s
        | Some _ => s
        end in
      mkTreeState (ts_list s) (<[id := index]> (ts_map s)) (ts_mapDepth s)
        (ts_tree s) (ts_errors s)
  | None => s
  end.

(** [list[map[key]]], with its position. *)
Definition node_of (s : TreeState) (key : option Z)
  : option (nat * TreeNode) :=
  index ← ts_map s !! key;
  node ← ts_list s !! index;
  Some (index, node).

(** [target.children.push(node)], where [target] may be [undefined]. *)
Definition children_push (target : option (nat * TreeNode)) (index : nat)
  (s : TreeState) : Completion :=
  match target with
  | Some (position, node) =>
      match node_children node with
      | Some children =>
          Returns
            (set_node position
               (mkTreeNode (node_id node) (node_parent node)
                  (Some (children ++ [index]))) s)
      | None => ThrowsTypeError s
      end
  | None => ThrowsTypeError s
  end.

(** [mapDepth[id] = depth], where the depth may be [undefined]: a later
    read finds [undefined] again. *)
Definition set_depth (id : option Z) (depth : option NumberValue)
  (s : TreeState) : TreeState :=
  mkTreeState (ts_list s) (ts_map s)
    (partial_alter (fun _ => depth) id (ts_mapDepth s)) (ts_tree s)
    (ts_errors s).

(** [depth == maxDepth]. *)
Definition depth_equals (depth : option NumberValue) (maxDepth : Z) : bool :=
  match depth with
  | Some (Num d) => Z.eqb d maxDepth
  | _ => false
  end.

(** [depth + 1]: [undefined + 1] is NaN. *)
Definition depth_plus_one (depth : option NumberValue) : NumberValue :=
  match depth with
  | Some d => increment d
  | None => NaN
  end.

(** [node[parentFieldName] = parent] on the node at a position. *)
Definition set_parent (index : nat) (parent : option Z) (s : TreeState)
  : TreeState :=
  match ts_list s !! index with
  | Some node =>
      set_node index (mkTreeNode (node_id node) parent (node_children node)) s
  | None => s
  end.

Definition tree_push (index : nat) (s : TreeState) : TreeState :=
  mkTreeState (ts_list s) (ts_map s) (ts_mapDepth s) (ts_tree s ++ [index])
    (ts_errors s).

(** The second pass, on the node at a position. *)
Definition place_node (rootParentId maxDepth : Z) (s : TreeState)
  (index : nat) : Completion :=
  match ts_list s !! index with
  | Some node =>
      let id := node_id node in
      let parent := node_parent node in
      let s :=
        if is_undefined_number id || is_undefined_number parent
        then logger_error (IncorrectIdOrParent id parent) s
        else s in
      (* Use map to look-up the parents. *)
      if negb (bool_decide (parent = Some rootParentId))
      then
        match node_of s parent with
        | Some parentNode =>
            if depth_equals (ts_mapDepth s !! parent) maxDepth
            then
              (* Reached max level of depth. *)
              let parentOfParent := node_parent parentNode.2 in
              if truthy_number parentOfParent
              then
                match children_push (node_of s parentOfParent) index s with
                | Returns s =>
                    let s := set_depth id (ts_mapDepth s !! parent) s in
                    Returns (set_parent index parentOfParent s)
                | ThrowsTypeError s => ThrowsTypeError s
                end
              else
                Returns (logger_error (ParentOfParentNotFound parentOfParent) s)
            else
              match children_push (Some parentNode) index s with
              | Returns s =>
                  (* Increase the depth level. *)
                  Returns
                    (set_depth id
                       (Some (depth_plus_one (ts_mapDepth s !! parent))) s)
              | ThrowsTypeError s => ThrowsTypeError s
              end
        | None => Returns (logger_error (ParentNotFound parent) s)
        end
      else
        Returns (set_depth id (Some (Num 1)) (tree_push index s))
  | None => Returns s
  end.

Fixpoint place_nodes (rootParentId maxDepth : Z) (s : TreeState)
  (indices : list nat) : Completion :=
  match indices with
  | [] => Returns s
  | index :: indices =>
      match place_node rootParentId maxDepth s index with
      | Returns s => place_nodes rootParentId maxDepth s indices
      | ThrowsTypeError s => ThrowsTypeError s
      end
  end.

(** The state the function ends in: [ts_tree] is the array returned, of
    references to the objects of [ts_list].  The root defaults to 0 and
    the depth to 5. *)
Definition formatTree (list : list TreeNode) (rootParentId maxDepth : option Z)
  : Completion :=
  let rootParentId := default 0 rootParentId in
  let maxDepth := default 5 maxDepth in
  (* Create a map first to avoid problems with not sorted. *)
  let s :=
    fold_left index_node (seq 0 (length list)) (mkTreeState list ∅ ∅ [] []) in
  place_nodes rootParentId maxDepth s (seq 0 (length list)).

(** What the statements on [formatTree] are written with. *)

(** The node as the first pass leaves it. *)
Definition indexed (node : TreeNode) : TreeNode :=
  mkTreeNode (node_id node) (node_parent node)
    (Some (default [] (node_children node))).

Definition children_of (node : TreeNode) : list nat :=
  default [] (node_children node).

(** Every reference the function has stored: the roots and the children of
    all the nodes. *)
Definition all_children (nodes : list TreeNode) : list nat :=
  concat (children_of <$> nodes).

Definition placements (s : TreeState) : list nat :=
  ts_tree s ++ all_children (ts_list s).

Definition is_root (rootParentId : Z) (nodes : list TreeNode) (index : nat)
  : bool :=
  bool_decide (node_parent <$> nodes !! index = Some (Some rootParentId)).

Definition id_errors (nodes : list TreeNode) : list TreeLog :=
  omap (fun node =>
          if is_undefined_number (node_id node)
          then Some (IncorrectId (node_id node)) else None) nodes.

Record indexed_upto (nodes : list TreeNode) (k : nat) (s : TreeState)
  : Prop := {
  iu_list : ts_list s = (indexed <$> take k nodes) ++ drop k nodes;
  iu_map : forall key p,
    ts_map s !! key = Some p
    <-> (p < k)%nat /\ node_id <$> nodes !! p = Some key
        /\ forall q, (p < q < k)%nat -> node_id <$> nodes !! q <> Some key;
  iu_mapDepth : ts_mapDepth s = ∅;
  iu_tree : ts_tree s = [];
  iu_errors : ts_errors s = id_errors (take k nodes);
}.

Definition push_node (index : nat) (node : TreeNode) : TreeNode :=
  mkTreeNode (node_id node) (node_parent node)
    (Some (children_of node ++ [index])).

Definition with_parent (parent : option Z) (node : TreeNode) : TreeNode :=
  mkTreeNode (node_id node) parent (node_children node).

(** The errors logged for the fields of a node in the second pass. *)
Definition field_errors (node : TreeNode) : list TreeLog :=
  if is_undefined_number (node_id node)
     || is_undefined_number (node_parent node)
  then [IncorrectIdOrParent (node_id node) (node_parent node)]
  else [].

(** What the second pass does with a node. *)
Inductive Placement :=
| Rooted
| Orphan
| Unplaced (parentOfParent : option Z)
| Attached (position : nat)
| Flattened (position : nat) (parentOfParent : option Z).

(** The state after a node was dealt with in one of these ways. *)
Definition placed (maxDepth : Z) (s : TreeState) (index : nat)
  (node : TreeNode) (how : Placement) : TreeState :=
  let id := node_id node in
  let parent := node_parent node in
  let errors := ts_errors s ++ field_errors node in
  match how with
  | Rooted =>
      mkTreeState (ts_list s) (ts_map s) (<[id := Num 1]> (ts_mapDepth s))
        (ts_tree s ++ [index]) errors
  | Orphan =>
      mkTreeState (ts_list s) (ts_map s) (ts_mapDepth s) (ts_tree s)
        (errors ++ [ParentNotFound parent])
  | Unplaced parentOfParent =>
      mkTreeState (ts_list s) (ts_map s) (ts_mapDepth s) (ts_tree s)
        (errors ++ [ParentOfParentNotFound parentOfParent])
  | Attached position =>
      mkTreeState (alter (push_node index) position (ts_list s)) (ts_map s)
        (<[id := depth_plus_one (ts_mapDepth s !! parent)]> (ts_mapDepth s))
        (ts_tree s) errors
  | Flattened position parentOfParent =>
      mkTreeState
        (alter (with_parent parentOfParent) index
           (alter (push_node index) position (ts_list s)))
        (ts_map s) (<[id := Num maxDepth]> (ts_mapDepth s)) (ts_tree s) errors
  end.

(** When the second pass deals with a node in each of these ways. *)
Definition placement_of (rootParentId maxDepth : Z) (s : TreeState)
  (node : TreeNode) (how : Placement) : Prop :=
  let parent := node_parent node in
  match how with
  | Rooted => parent = Some rootParentId
  | Orphan => parent <> Some rootParentId /\ ts_map s !! parent = None
  | Unplaced parentOfParent =>
      parent <> Some rootParentId
      /\ ts_mapDepth s !! parent = Some (Num maxDepth)
      /\ truthy_number parentOfParent = false
      /\ exists position parentNode,
          ts_map s !! parent = Some position
          /\ ts_list s !! position = Some parentNode
          /\ node_parent parentNode = parentOfParent
  | Attached position =>
      parent <> Some rootParentId
      /\ ts_mapDepth s !! parent <> Some (Num maxDepth)
      /\ ts_map s !! parent = Some position
  | Flattened target parentOfParent =>
      parent <> Some rootParentId
      /\ ts_mapDepth s !! parent = Some (Num maxDepth)
      /\ truthy_number parentOfParent = true
      /\ ts_map s !! parentOfParent = Some target
      /\ exists position parentNode,
          ts_map s !! parent = Some position
          /\ ts_list s !! position = Some parentNode
          /\ node_parent parentNode = parentOfParent
  end.

(** The states the second pass works on: the map points into the list and
    every node has its children. *)
Record indexed_state (s : TreeState) : Prop := {
  is_map : forall key position,
    ts_map s !! key = Some position -> is_Some (ts_list s !! position);
  is_children : forall position node,
    ts_list s !! position = Some node -> is_Some (node_children node);
}.

(** What holds of the state when the second pass reaches position [k]. *)
Record placing (nodes : list TreeNode) (r : Z) (k : nat) (s : TreeState)
  : Prop := {
  pl_length : length (ts_list s) = length nodes;
  pl_children : forall i node,
    ts_list s !! i = Some node -> is_Some (node_children node);
  pl_map : forall key p,
    ts_map s !! key = Some p
    <-> (p < length nodes)%nat /\ node_id <$> nodes !! p = Some key
        /\ forall q, (p < q < length nodes)%nat ->
                     node_id <$> nodes !! q <> Some key;
  pl_ids : forall i, node_id <$> ts_list s !! i = node_id <$> nodes !! i;
  pl_parents : forall i,
    (k <= i)%nat -> node_parent <$> ts_list s !! i = node_parent <$> nodes !! i;
  pl_tree : ts_tree s = List.filter (is_root r nodes) (seq 0 k);
}.

(** What holds of the references stored when the second pass reaches
    position [k], for nodes that came without children. *)
Record placed_once (k : nat) (s : TreeState) : Prop := {
  po_bound : forall c, c ∈ placements s -> (c < k)%nat;
  po_nodup : NoDup (placements s);
  po_parent : forall p node c,
    ts_list s !! p = Some node -> c ∈ children_of node ->
    node_parent <$> ts_list s !! c = Some (node_id node);
}.

(** What the depths recorded say, for identifiers that are all different:
    a node at depth 1 has the root identifier as parent, a node at a
    greater depth has a parent that is in the list. *)
Definition depths_sound (r : Z) (s : TreeState) : Prop :=
  forall i node d,
    ts_list s !! i = Some node ->
    ts_mapDepth s !! node_id node = Some (Num d) ->
    d = 1 /\ node_parent node = Some r
    \/ 2 <= d /\ is_Some (ts_map s !! node_parent node).

(** The lists the function is meant for: the identifiers are numbers other
    than 0, all different; every parent is the root identifier or the
    identifier of a node; no node comes with children. *)
Record well_formed (r : Z) (nodes : list TreeNode) : Prop := {
  wf_nodup : NoDup (node_id <$> nodes);
  wf_ids : forall node,
    node ∈ nodes -> exists id, node_id node = Some id /\ id <> 0;
  wf_parents : forall node,
    node ∈ nodes ->
    node_parent node = Some r \/ node_parent node ∈ node_id <$> nodes;
  wf_children : Forall (fun node => children_of node = []) nodes;
}.

(** The level of a node in the tree returned: the roots are at level 1, the
    children of a node one level below it. *)
Inductive at_level (s : TreeState) : nat -> nat -> Prop :=
| level_root index :
    index ∈ ts_tree s -> at_level s 1 index
| level_child level position node index :
    at_level s level position ->
    ts_list s !! position = Some node ->
    index ∈ children_of node ->
    at_level s (S level) index.

(** The parent of every node that is not a root comes before it. *)
Definition sorted_by_depth (r : Z) (nodes : list TreeNode) : Prop :=
  forall k node,
    nodes !! k = Some node ->
    node_parent node = Some r
    \/ exists j parentNode,
        (j < k)%nat /\ nodes !! j = Some parentNode
        /\ node_parent node = node_id parentNode.

(** What the depths recorded say of a sorted list when the second pass
    reaches position [k]. *)
Record leveled (m : Z) (k : nat) (s : TreeState) : Prop := {
  lv_processed : forall i node,
    (i < k)%nat -> ts_list s !! i = Some node ->
    exists d,
      ts_mapDepth s !! node_id node = Some (Num d)
      /\ 1 <= d <= m /\ d <= Z.of_nat k;
  lv_unprocessed : forall i node,
    (k <= i)%nat -> ts_list s !! i = Some node ->
    ts_mapDepth s !! node_id node = None;
  lv_parent : forall i node d,
    ts_list s !! i = Some node ->
    ts_mapDepth s !! node_id node = Some (Num d) -> 2 <= d ->
    exists g gn,
      ts_map s !! node_parent node = Some g /\ ts_list s !! g = Some gn
      /\ ts_mapDepth s !! node_id gn = Some (Num (d - 1));
  lv_root : forall c,
    c ∈ ts_tree s ->
    exists node,
      ts_list s !! c = Some node
      /\ ts_mapDepth s !! node_id node = Some (Num 1);
  lv_child : forall p node c,
    ts_list s !! p = Some node -> c ∈ children_of node ->
    exists child d,
      ts_list s !! c = Some child
      /\ ts_mapDepth s !! node_id child = Some (Num d) /\ 2 <= d;
}.

(** The parent field of the node once it is dealt with, and the node that
    received it as a child. *)
Definition new_parent (how : Placement) (node : TreeNode) : option Z :=
  match how with
  | Flattened _ parentOfParent => parentOfParent
  | _ => node_parent node
  end.

Definition holder (how : Placement) : option nat :=
  match how with
  | Attached position | Flattened position _ => Some position
  | _ => None
  end.

(** *** debounce, throttle *)

(** The timers of the window.  A timer that is set holds the time from
    which the event loop may run its callback and the callback.
    Identifiers are handed out in order.  Times and delays are whole
    numbers of milliseconds. *)
Record Timers (C : Type) := mkTimers {
  tm_set : gmap nat (Z * C);
  tm_next : nat;
}.
Arguments mkTimers {C} _ _.
Arguments tm_set {C} _.
Arguments tm_next {C} _.

(** The delay of a timer as the host takes it.  [setTimeout] declares its
    delay as a [long]: the number is brought into the signed 32-bit
    integers by wrapping around, so a delay from 2^31 on is not kept, and a
    negative delay counts as 0. *)
Definition timer_delay (delay : Z) : Z :=
  Z.max 0 ((delay + 2 ^ 31) mod 2 ^ 32 - 2 ^ 31).

Definition setTimeout {C} (now delay : Z) (callback : C) (timers : Timers C)
  : nat * Timers C :=
  (tm_next timers,
   mkTimers (<[tm_next timers := (now + timer_delay delay, callback)]>
               (tm_set timers))
     (S (tm_next timers))).

(** [clearTimeout(id)], where [id] may be [undefined] or the identifier of a
    timer that is gone. *)
Definition clearTimeout {C} (id : option nat) (timers : Timers C)
  : Timers C :=
  match id with
  | Some id => mkTimers (delete id (tm_set timers)) (tm_next timers)
  | None => timers
  end.

(** The callback of a timer the event loop may run now; the timer is gone
    once it ran. *)
Definition due_timer {C} (now : Z) (id : nat) (timers : Timers C)
  : option (C * Timers C) :=
  match tm_set timers !! id with
  | Some (due, callback) =>
      if due <=? now
      then Some (callback, mkTimers (delete id (tm_set timers)) (tm_next timers))
      else None
  | None => None
  end.

(** What happens to a function returned by [debounce] or [throttle]: it is
    called, or the event loop runs one of its timers. *)
Inductive Tick (A : Type) :=
| Called (now : Z) (args : A)
| Expired (now : Z) (id : nat).
Arguments Called {A} now args.
Arguments Expired {A} now id.

Definition tick_time {A} (tick : Tick A) : Z :=
  match tick with
  | Called now _ | Expired now _ => now
  end.

Definition is_call {A} (tick : Tick A) : bool :=
  match tick with
  | Called _ _ => true
  | Expired _ _ => false
  end.

(** The variable of the closure [debounce] returns, the timers, whose
    callbacks apply [fn] to the arguments they hold, the time of the last
    tick, and the applications of [fn] made.  [fn] is applied by the event
    loop: whether it returns or throws changes nothing for the closure, and
    a call of the debounced function that it makes is a call like any
    other, at the time of the timer. *)
Record Debounced (A : Type) := mkDebounced {
  db_timeoutID : option nat;
  db_timers : Timers A;
  db_clock : Z;
  db_applied : list (Z * A);
}.
Arguments mkDebounced {A} _ _ _ _.
Arguments db_timeoutID {A} _.
Arguments db_timers {A} _.
Arguments db_clock {A} _.
Arguments db_applied {A} _.

Definition debounce {A} : Debounced A :=
  mkDebounced None (mkTimers ∅ 1) 0 [].

Definition debounced {A} (delay now : Z) (args : A) (st : Debounced A)
  : Debounced A :=
  let timers := clearTimeout (db_timeoutID st) (db_timers st) in
  let '(timeoutID, timers) := setTimeout now delay args timers in
  mkDebounced (Some timeoutID) timers now (db_applied st).

(** A tick, which cannot go back in time nor run a timer that is not due. *)
Definition debounce_tick {A} (delay : Z) (st : Debounced A) (tick : Tick A)
  : option (Debounced A) :=
  if tick_time tick <? db_clock st then None
  else
    match tick with
    | Called now args => Some (debounced delay now args st)
    | Expired now id =>
        match due_timer now id (db_timers st) with
        | Some (args, timers) =>
            Some (mkDebounced (db_timeoutID st) timers now
                    (db_applied st ++ [(now, args)]))
        | None => None
        end
    end.

Fixpoint debounce_run {A} (delay : Z) (st : Debounced A)
  (ticks : list (Tick A)) : option (Debounced A) :=
  match ticks with
  | [] => Some st
  | tick :: ticks =>
      match debounce_tick delay st tick with
      | Some st => debounce_run delay st ticks
      | None => None
      end
  end.

(** [throttle] applies [fn] within the call, before it sets [shouldWait]
    and the timer.  So what an application of [fn] does matters: while it
    runs it may call the throttled function again, and it returns or
    throws.  An application is described by the calls of the throttled
    function it makes, each with its arguments and with what [fn] does if
    that call applies it, and by whether it ends in an exception. *)
#[warnings="-register-all"]
Inductive Application (A : Type) :=
| Applies (reentrant : list (A * Application A)) (throws : bool).
Arguments Applies {A} reentrant throws.

(** An application that returns without calling the throttled function. *)
Definition returns {A} : Application A := Applies [] false.

(** The variable of the closure [throttle] returns, the timers, which
    reset [shouldWait], the time of the last tick, and the applications of
    [fn] made. *)
Record Throttled (A : Type) := mkThrottled {
  th_shouldWait : bool;
  th_timers : Timers ();
  th_clock : Z;
  th_applied : list (Z * A);
}.
Arguments mkThrottled {A} _ _ _ _.
Arguments th_shouldWait {A} _.
Arguments th_timers {A} _.
Arguments th_clock {A} _.
Arguments th_applied {A} _.

Definition throttle {A} : Throttled A :=
  mkThrottled false (mkTimers ∅ 1) 0 [].

(** A call at the time [now], where [fn], if it is applied, does
    [application]: an exception of [fn] leaves [throttled] before
    [shouldWait] and the timer are set. *)
Fixpoint throttled {A} (duration now : Z) (args : A)
  (application : Application A) (st : Throttled A) {struct application}
  : Throttled A :=
  if negb (th_shouldWait st)
  then
    match application with
    | Applies reentrant throws =>
        (* fn.apply(null, args) *)
        let st :=
          mkThrottled (th_shouldWait st) (th_timers st) now
            (th_applied st ++ [(now, args)]) in
        let st :=
          (fix calls (l : list (A * Application A)) (st : Throttled A) :=
             match l with
             | [] => st
             | (args', application') :: l' =>
                 calls l' (throttled duration now args' application' st)
             end) reentrant st in
        if throws then st
        else
          let '(_, timers) := setTimeout now duration () (th_timers st) in
          mkThrottled true timers now (th_applied st)
    end
  else mkThrottled (th_shouldWait st) (th_timers st) now (th_applied st).

Definition throttle_tick {A} (duration : Z) (st : Throttled A)
  (tick : Tick (A * Application A)) : option (Throttled A) :=
  if tick_time tick <? th_clock st then None
  else
    match tick with
    | Called now (args, application) =>
        Some (throttled duration now args application st)
    | Expired now id =>
        match due_timer now id (th_timers st) with
        | Some (_, timers) =>
            Some (mkThrottled false timers now (th_applied st))
        | None => None
        end
    end.

Fixpoint throttle_run {A} (duration : Z) (st : Throttled A)
  (ticks : list (Tick (A * Application A))) : option (Throttled A) :=
  match ticks with
  | [] => Some st
  | tick :: ticks =>
      match throttle_tick duration st tick with
      | Some st => throttle_run duration st ticks
      | None => None
      end
  end.

(** What holds of a debounced function after the ticks [ticks]. *)
Record debouncing {A} (delay : Z) (ticks : list (Tick A))
  (st : Debounced A) : Prop := {
  db_timer : forall id due args,
    tm_set (db_timers st) !! id = Some (due, args) ->
    db_timeoutID st = Some id
    /\ exists i t0,
        ticks !! i = Some (Called t0 args)
        /\ due = t0 + timer_delay delay
        /\ forall l tick,
            (i < l)%nat -> ticks !! l = Some tick -> is_call tick = false;
  db_quiet : forall t args,
    (t, args) ∈ db_applied st ->
    exists i j t0 id,
      ticks !! i = Some (Called t0 args)
      /\ ticks !! j = Some (Expired t id)
      /\ (i < j)%nat
      /\ t0 + timer_delay delay <= t
      /\ forall l tick,
          (i < l < j)%nat -> ticks !! l = Some tick -> is_call tick = false;
}.

(** What holds of a throttled function after the ticks [ticks], when every
    application of [fn] returned without calling it. *)
Record throttling {A} (duration : Z) (ticks : list (Tick (A * Application A)))
  (st : Throttled A) : Prop := {
  th_idle : th_shouldWait st = false -> tm_set (th_timers st) = ∅;
  th_single : forall id1 id2 timer1 timer2,
    tm_set (th_timers st) !! id1 = Some timer1 ->
    tm_set (th_timers st) !! id2 = Some timer2 -> id1 = id2;
  th_timer : forall id due u,
    tm_set (th_timers st) !! id = Some (due, u) ->
    exists t args,
      last (th_applied st) = Some (t, args) /\ due = t + timer_delay duration;
  th_rested : forall t args,
    th_shouldWait st = false -> last (th_applied st) = Some (t, args) ->
    t + timer_delay duration <= th_clock st;
  th_spaced : forall i t1 args1 t2 args2,
    th_applied st !! i = Some (t1, args1) ->
    th_applied st !! S i = Some (t2, args2) ->
    t1 + timer_delay duration <= t2;
  th_calls : forall t args,
    (t, args) ∈ th_applied st -> Called t (args, returns) ∈ ticks;
}.

(** *** isWebServiceError, isExpiredTokenError *)

(** The fields the two tests read of an error: codes and message are
    strings or undefined, the status a number or undefined. *)
Record WSError := mkWSError {
  warningcode : option string;
  errorcode : option string;
  message : option string;
  status : option Z;
}.

(** How the evaluation of an expression ends: with a value, or with a
    [TypeError] from reading a property of [undefined]. *)
Inductive Evaluation (A : Type) :=
| Evaluates (a : A)
| ThrowsError.
Arguments Evaluates {A} a.
Arguments ThrowsError {A}.

(** [s.includes(sub)]. *)
Fixpoint String_includes (s sub : string) : bool :=
  String.prefix sub s
  || match s with
     | String _ s' => String_includes s' sub
     | EmptyString => false
     end.

(** [code === s] for a code that may be undefined. *)
Definition code_is (code : option string) (s : string) : bool :=
  match code with
  | Some c => String.eqb c s
  | None => false
  end.

Definition isExpiredTokenError (error : option WSError) : Evaluation bool :=
  match error with
  | Some error =>
      if code_is (errorcode error) "invalidtoken" then Evaluates true
      else if code_is (errorcode error) "accessexception"
      then
        match message error with
        | Some message =>
            Evaluates (String_includes message "Invalid token - token expired")
        | None => ThrowsError
        end
      else Evaluates false
  | None => ThrowsError
  end.

(** The error codes of errors the app treats as its own. *)
Definition app_error_codes : list string :=
  ["userdeleted"; "upgraderunning"; "forcepasswordchangenotice";
   "usernotfullysetup"; "sitepolicynotagreed"; "sitemaintenance";
   "wsaccessusersuspended"; "wsaccessuserdeleted"].

(** [error.status && error.status >= 400]. *)
Definition status_from_400 (error : WSError) : JSValue :=
  match status error with
  | Some n => if Z.eqb n 0 then JSNumber n else JSBoolean (400 <=? n)
  | None => JSUndefined
  end.

(** The value of the expression returned, which is the operand that
    decides it: the error itself when it is undefined. *)
Definition isWebServiceError (error : option WSError) : Evaluation JSValue :=
  match error with
  | Some e =>
      if bool_decide (warningcode e <> None) then Evaluates (JSBoolean true)
      else
        let returned :=
          if bool_decide (errorcode e <> None)
             && forallb (fun code => negb (code_is (errorcode e) code))
                  app_error_codes
          then
            match isExpiredTokenError error with
            | Evaluates expired => Evaluates (negb expired)
            | ThrowsError => ThrowsError
            end
          else Evaluates false in
        match returned with
        | Evaluates true => Evaluates (JSBoolean true)
        | Evaluates false => Evaluates (status_from_400 e)
        | ThrowsError => ThrowsError
        end
  | None => Evaluates JSUndefined
  end.

(** [!!value]. *)
Definition truthy_value (value : JSValue) : bool :=
  match value with
  | JSUndefined | JSNull => false
  | JSBoolean b => b
  | JSNumber n => negb (Z.eqb n 0)
  | JSString s => negb (String.eqb s "")
  end.

(** ** Concrete sites

    Small sites for the test backend and the runs of the service on them.
    Quiz 1 has the offline attempt 7, marked finished, on page 2; quiz 2 has
    the offline attempt 9. *)

Definition quiz1 : AddonModQuizQuizWSData := mkQuiz 1 10 101.
Definition offline7 : AddonModQuizAttemptDBRecord :=
  mkOfflineAttempt 7 1 10 2 true.
Definition offline9 : AddonModQuizAttemptDBRecord :=
  mkOfflineAttempt 9 2 10 0 false.
Definition online7 (state : string) : AddonModQuizAttemptWSData :=
  mkOnlineAttempt 7 state "5,6,0".

(** Nothing is stored on the device. *)
Definition world_nothing : TestWorld :=
  mkTestWorld "site1" true [] [] [] [] [] ∅ None [] true.

(** An offline attempt is stored and the network is down. *)
Definition world_unreachable : TestWorld :=
  mkTestWorld "site1" false [] [offline7] [offline7] []
    [(1, online7 "inprogress")] ∅ None [] true.

(** The online attempt of the stored one is already finished. *)
Definition world_finished : TestWorld :=
  mkTestWorld "site1" true [] [offline7] [offline7] []
    [(1, online7 "finished")] ∅ None [] true.

(** Stored answers of attempt 7: slot 5 with a sequence check that the
    site does not expect, slot 6 with the expected one. *)
Definition answers7 : list AnswerDBRecord :=
  [mkAnswerRecord 7 5 "5:sequencecheck" (AString "3");
   mkAnswerRecord 7 5 "5_answer" (AString "42");
   mkAnswerRecord 7 6 "6:sequencecheck" (AString "1");
   mkAnswerRecord 7 6 "6_answer" (AString "x")].

Definition questions7 : OnlineQuestions :=
  <[5 := mkQuestion 5 "numerical" (Some 4)]>
    (<[6 := mkQuestion 6 "shortanswer" (Some 1)]> ∅).

(** Attempt 7 is in progress online and has stored answers. *)
Definition world_answers : TestWorld :=
  mkTestWorld "site1" true [] [offline7] [offline7] answers7
    [(1, online7 "inprogress")] questions7
    (Some [mkUpdate "configuration"]) [] true.

(** No stored answers; the last online attempt is not the stored one. *)
Definition world_other_last : TestWorld :=
  mkTestWorld "site1" true [] [offline7] [offline7] []
    [(1, online7 "inprogress"); (1, mkOnlineAttempt 8 "inprogress" "")]
    ∅ None [] true.



(** Two quizzes to synchronise; fetching the online attempts of quiz 1
    fails. *)
Definition world_two_quizzes : TestWorld :=
  mkTestWorld "site1" true [] [offline7; offline9] [offline7; offline9] []
    [(2, mkOnlineAttempt 9 "inprogress" "")] ∅ None
    [("getUserAttempts", 1)] true.

Definition only_network : ModOptions :=
  mkModOptions 101 (Some ONLY_NETWORK) "site1".

Definition two_online : list AddonModQuizAttemptWSData :=
  [online7 "inprogress"; mkOnlineAttempt 8 "inprogress" ""].

(** The runs, evaluated once. *)
Definition run_nothing :=
  Eval vm_compute in
    performSyncQuiz quiz1 None None (initial_state world_nothing).
Definition run_unreachable :=
  Eval vm_compute in
    performSyncQuiz quiz1 None None (initial_state world_unreachable).
Definition run_finished :=
  Eval vm_compute in
    performSyncQuiz quiz1 None None (initial_state world_finished).
Definition run_other_last :=
  Eval vm_compute in
    performSyncQuiz quiz1 None None (initial_state world_other_last).
Definition run_answers :=
  Eval vm_compute in
    performSyncQuiz quiz1 None None (initial_state world_answers).

(** Stored answers of attempt 7 with tokens written otherwise than the
    site writes its counters: slot 5 holds 04 for the counter 4, slot 6
    holds 2 where the site expects 1. *)
Definition answers7_padded : list AnswerDBRecord :=
  [mkAnswerRecord 7 5 "5:sequencecheck" (AString "04");
   mkAnswerRecord 7 5 "5_answer" (AString "42");
   mkAnswerRecord 7 6 "6:sequencecheck" (AString "2");
   mkAnswerRecord 7 6 "6_answer" (AString "x")].

Definition offline_questions7_padded : OfflineQuestions :=
  Eval vm_compute in
    test_classify
      (fold_left (fun acc a => <[ans_name a := ans_value a]> acc)
         answers7_padded ∅).

Definition offline_question5_padded : OfflineQuestion :=
  Eval vm_compute in
    mkOfflineQuestion 5
      (<[":sequencecheck" := AString "04"]> (<["_answer" := AString "42"]> ∅)).

Definition world_padded : TestWorld :=
  mkTestWorld "site1" true [] [offline7] [offline7] answers7_padded
    [(1, online7 "inprogress")] questions7
    (Some [mkUpdate "configuration"]) [] true.

Definition run_validation_padded :=
  Eval vm_compute in
    validateQuestions 7 questions7 offline_questions7_padded "site1"
      (initial_state world_padded).



Definition sent_answers : Answers :=
  Eval vm_compute in
    <["6:sequencecheck" := AString "1"]> (<["6_answer" := AString "x"]> ∅).

Definition run_prefetch :=
  Eval vm_compute in
    prefetchAfterUpdateQuiz (mkModule 101) quiz1 10 "site1"
      (initial_state world_answers).



Definition run_two_quizzes :=
  Eval vm_compute in
    syncAllQuizzesFunc true "site1" (initial_state world_two_quizzes).

Definition run_syncQuiz :=
  Eval vm_compute in syncQuiz quiz1 None None (initial_state world_answers).

(** The first wait on the promise that call hands out. *)
Definition run_await :=
  Eval vm_compute in await 0%nat run_syncQuiz.1.2.

(** Two callers ask for the synchronisation of a quiz, the second while
    the first is in flight, and both wait for it. *)
Definition two_callers (quiz : AddonModQuizQuizWSData)
  : M TestWorld (AddonModQuizSyncResult * AddonModQuizSyncResult) :=
  let* first := syncQuiz quiz None None in
  let* second := syncQuiz quiz None None in
  let* outcome1 := await first in
  let* outcome2 := await second in
  ret (outcome1, outcome2).

Definition run_two_callers_nothing :=
  Eval vm_compute in two_callers quiz1 (initial_state world_nothing).

(** Quiz 1 was synchronised a moment ago. *)
Definition world_recent : TestWorld :=
  mkTestWorld "site1" true [] [offline7] [offline7] []
    [(1, online7 "inprogress")] ∅ None [] false.

(** Quiz 1 is locked. *)
Definition world_locked : TestWorld :=
  mkTestWorld "site1" true [1] [offline7] [offline7] []
    [(1, online7 "inprogress")] ∅ None [] true.

(** As [world_answers], but the site refuses the submission. *)
Definition world_refused : TestWorld :=
  mkTestWorld "site1" true [] [offline7] [offline7] answers7
    [(1, online7 "inprogress")] questions7
    (Some [mkUpdate "configuration"]) [("processAttempt", 1)] true.

(** As [world_answers], but the offline data of the question in slot 6
    cannot be deleted. *)
Definition world_stuck : TestWorld :=
  mkTestWorld "site1" true [] [offline7] [offline7] answers7
    [(1, online7 "inprogress")] questions7
    (Some [mkUpdate "configuration"]) [("deleteOfflineData", 6)] true.

(** Two offline attempts of quiz 1 are listed. *)
Definition world_duplicates : TestWorld :=
  mkTestWorld "site1" true []
    [offline7; mkOfflineAttempt 8 1 10 0 false] [offline7] []
    [(1, online7 "finished")] ∅ None [] true.

(** The options of the finalisation that follows a submission. *)
Definition options_sent : FinishSyncOptions :=
  mkFinishOptions (Some 7) (Some offline7) (Some (online7 "inprogress"))
    (Some true) (Some true) (Some questions7).

Definition run_hasData :=
  Eval vm_compute in hasDataToSync 1 "site1" (initial_state world_answers).
Definition run_ifNeeded :=
  Eval vm_compute in
    syncQuizIfNeeded quiz1 None None (initial_state world_recent).
Definition run_locked :=
  Eval vm_compute in syncQuiz quiz1 None None (initial_state world_locked).
Definition run_finish_stuck :=
  Eval vm_compute in
    finishSync "site1" quiz1 10 [] (Some options_sent)
      (initial_state world_stuck).
Definition run_finish :=
  Eval vm_compute in
    finishSync "site1" quiz1 10 [] (Some options_sent)
      (initial_state world_answers).
Definition run_refused :=
  Eval vm_compute in
    performSyncQuiz quiz1 None None (initial_state world_refused).
Definition run_duplicates :=
  Eval vm_compute in
    syncAllQuizzesFunc true "site1" (initial_state world_duplicates).

(** What the runs that resolve resolve with. *)
Definition result_of (r : result AddonModQuizSyncResult)
  : AddonModQuizSyncResult :=
  match r with
  | Ok x => x
  | Err _ => mkSyncResult [] false false
  end.
Definition result_answers : AddonModQuizSyncResult :=
  Eval vm_compute in result_of run_answers.1.1.
Definition result_finish : AddonModQuizSyncResult :=
  Eval vm_compute in result_of run_finish.1.1.
Definition run_finish_closed :=
  Eval vm_compute in
    finishSync "site1" quiz1 10 [] (Some options_sent)
      (initial_state world_finished).
Definition result_finish_closed : AddonModQuizSyncResult :=
  Eval vm_compute in result_of run_finish_closed.1.1.

(** A chain of four nodes, each the child of the one before, and what
    [formatTree] makes of it with the maximum depth 2. *)
Definition chain : list TreeNode :=
  [mkTreeNode (Some 1) (Some 0) None; mkTreeNode (Some 2) (Some 1) None;
   mkTreeNode (Some 3) (Some 2) None; mkTreeNode (Some 4) (Some 3) None].

Definition state_of (c : Completion) : TreeState :=
  match c with
  | Returns s | ThrowsTypeError s => s
  end.

Definition chain_tree : TreeState :=
  Eval vm_compute in state_of (formatTree chain None (Some 2)).

(** A root under the identifier 9, which no node has, and its child. *)
Definition stray : list TreeNode :=
  [mkTreeNode (Some 1) (Some 9) None; mkTreeNode (Some 2) (Some 1) None].

(** Two calls of a function debounced by 300 ms, 100 ms apart, and the
    timer of the second call, which runs at 400 ms. *)
Definition keystrokes : list (Tick string) :=
  [Called 0 "a"; Called 100 "ab"; Expired 400 2].

Definition keystrokes_end : Debounced string :=
  Eval vm_compute in default debounce (debounce_run 300 debounce keystrokes).

(** Three calls of a function throttled by 1000 ms, the second within the
    second after the first, the third after the timer ran. *)
Definition clicks : list (Tick (string * Application string)) :=
  [Called 0 ("a", returns); Called 500 ("b", returns); Expired 1000 1;
   Called 1200 ("c", returns)].

(** A function throttled by 1000 ms that throws when it is applied to the
    first call, and the call that follows a millisecond later. *)
Definition clicks_thrown : list (Tick (string * Application string)) :=
  [Called 0 ("a", Applies [] true); Called 1 ("b", returns)].

(** A function throttled by 1000 ms that, applied to the first call,
    calls the throttled function again. *)
Definition clicks_reentrant : list (Tick (string * Application string)) :=
  [Called 0 ("a", Applies [("b", returns)] false)].

(** A call of a function debounced by 2^31 ms, and its timer, which the
    event loop may run at once. *)
Definition keystrokes_long : list (Tick string) :=
  [Called 0 "a"; Expired 0 1].

Definition clicks_end : Throttled string :=
  Eval vm_compute in default throttle (throttle_run 1000 throttle clicks).

(** The error of a site under maintenance, answered with the status 200. *)
Definition maintenance_error : WSError :=
  mkWSError None (Some "sitemaintenance") None (Some 200).

(** ** Runs of the monad, step by step *)

Section Runs.
Context {W : Type}.

Lemma ret_run {A} (a : A) (st st' : State W) r t :
  ret a st = (r, st', t) -> r = Ok a /\ st' = st /\ t = [].
Proof. unfold ret. intros [= <- <- <-]. auto. Qed.

Lemma throw_run {A} (e : Error) (st st' : State W) (r : result A) t :
  throw e st = (r, st', t) -> r = Err e /\ st' = st /\ t = [].
Proof. unfold throw. intros [= <- <- <-]. auto. Qed.

Lemma bind_run {A B} (m : M W A) (f : A -> M W B) st r st' t :
  bind m f st = (r, st', t) ->
  (exists a st1 t1 t2,
      m st = (Ok a, st1, t1) /\ f a st1 = (r, st', t2) /\ t = t1 ++ t2)
  \/ (exists e, m st = (Err e, st', t) /\ r = Err e).
Proof.
  unfold bind. destruct (m st) as [[[a | e] st1] t1].
  - destruct (f a st1) as [[r2 st2] t2] eqn:Hf. intros [= <- <- <-].
    left. exists a, st1, t1, t2. auto.
  - intros [= <- <- <-]. right. exists e. auto.
Qed.

Lemma ignoreErrors_run {A} (m : M W A) st (r : result (option A)) st' t :
  ignoreErrors m st = (r, st', t) ->
  exists r0, m st = (r0, st', t)
             /\ r = Ok match r0 with Ok a => Some a | Err _ => None end.
Proof.
  unfold ignoreErrors. destruct (m st) as [[[a | e] st1] t1];
    intros [= <- <- <-]; eauto.
Qed.

Lemma call_run {A} (h : W -> result A * W) (ev : result A -> Event)
  st r st' t :
  call h ev st = (r, st', t) ->
  h (world st) = (r, world st') /\ st' = set_world st (world st')
  /\ t = [ev r].
Proof.
  unfold call. destruct (h (world st)) as [r0 w]. intros [= <- <- <-]. auto.
Qed.

Lemma ask_run {A} (h : W -> A) (ev : A -> Event) st r st' t :
  ask h ev st = (r, st', t) ->
  r = Ok (h (world st)) /\ st' = st /\ t = [ev (h (world st))].
Proof. unfold ask. intros [= <- <- <-]. auto. Qed.

Lemma gets_run {A} (h : W -> A) st r st' t :
  gets h st = (r, st', t) -> r = Ok (h (world st)) /\ st' = st /\ t = [].
Proof. unfold gets. intros [= <- <- <-]. auto. Qed.

Lemma started_run {A} (m : M W A) st (r : result (result A)) st' t :
  started m st = (r, st', t) -> exists r0, m st = (r0, st', t) /\ r = Ok r0.
Proof.
  unfold started. destruct (m st) as [[r0 st1] t1]. intros [= <- <- <-]. eauto.
Qed.

Lemma waited_run {A} (r0 : result A) (st st' : State W) r t :
  waited r0 st = (r, st', t) -> r = r0 /\ st' = st /\ t = [].
Proof. unfold waited. intros [= <- <- <-]. auto. Qed.

(** A call that is waited for as soon as it is made. *)
Lemma started_waited {A B} (m : M W A) (k : A -> M W B) st :
  bind (started m) (fun r => bind (waited r) k) st = bind m k st.
Proof.
  unfold bind, started, waited. destruct (m st) as [[[a | e] st1] t1].
  - by destruct (k a st1) as [[r2 st2] t2].
  - by rewrite app_nil_r.
Qed.

Lemma Promise_all_cons_run {A} (p : M W A) ps st r st' t :
  Promise_all (p :: ps) st = (r, st', t) ->
  exists r1 st1 t1 rs t2,
    p st = (r1, st1, t1) /\ Promise_all ps st1 = (rs, st', t2)
    /\ t = t1 ++ t2
    /\ r = match r1, rs with
           | Ok a, Ok l => Ok (a :: l)
           | Err e, _ => Err e
           | Ok _, Err e => Err e
           end.
Proof.
  simpl. destruct (p st) as [[r1 st1] t1].
  destruct (Promise_all ps st1) as [[rs st2] t2] eqn:Hps.
  intros [= <- <- <-]. by exists r1, st1, t1, rs, t2.
Qed.

Lemma Promise_all_map_cons_run {L K} (f : K -> L -> M W L) k keys vars
  st r st' t :
  Promise_all_map f (k :: keys) vars st = (r, st', t) ->
  exists r1 st1 t1 r2 t2,
    f k vars st = (r1, st1, t1)
    /\ Promise_all_map f keys
         match r1 with Ok vars1 => vars1 | Err _ => vars end st1
       = (r2, st', t2)
    /\ t = t1 ++ t2
    /\ r = match r1 with Ok _ => r2 | Err e => Err e end.
Proof.
  simpl. destruct (f k vars st) as [[[vars1 | e] st1] t1].
  - destruct (Promise_all_map f keys vars1 st1) as [[r2 st2] t2] eqn:Hk.
    intros [= <- <- <-]. by exists (Ok vars1), st1, t1, r2, t2.
  - destruct (Promise_all_map f keys vars st1) as [[r2 st2] t2] eqn:Hk.
    intros [= <- <- <-]. by exists (Err e), st1, t1, r2, t2.
Qed.

Lemma Promise_all_map_nil_run {L K} (f : K -> L -> M W L) vars st r st' t :
  Promise_all_map f [] vars st = (r, st', t) ->
  r = Ok vars /\ st' = st /\ t = [].
Proof. simpl. intros [= <- <- <-]. auto. Qed.

Lemma Promise_all_nil_run {A} st (r : result (list A)) (st' : State W) t :
  Promise_all [] st = (r, st', t) -> r = Ok [] /\ st' = st /\ t = [].
Proof. simpl. intros [= <- <- <-]. auto. Qed.

(** *** Computations that make only calls of a given kind *)

Lemma only_ret {A} P (a : A) : only P (ret (W:=W) a).
Proof. intros st r st' t (_ & _ & ->)%ret_run. constructor. Qed.

Lemma only_throw {A} P e : only P (@throw W A e).
Proof. intros st r st' t (_ & _ & ->)%throw_run. constructor. Qed.

Lemma only_gets {A} P (h : W -> A) : only P (gets h).
Proof. intros st r st' t (_ & _ & ->)%gets_run. constructor. Qed.

Lemma only_bind {A B} P (m : M W A) (f : A -> M W B) :
  only P m -> (forall a, only P (f a)) -> only P (bind m f).
Proof.
  intros Hm Hf st r st' t
    [(a & st1 & t1 & t2 & H1 & H2 & ->) | (e & H1 & _)]%bind_run.
  - apply Forall_app. split; [eapply Hm | eapply Hf]; eauto.
  - eapply Hm; eauto.
Qed.

Lemma only_ignoreErrors {A} P (m : M W A) : only P m -> only P (ignoreErrors m).
Proof. intros Hm st r st' t (r0 & H1 & _)%ignoreErrors_run. eapply Hm; eauto. Qed.

Lemma only_call {A} P (h : W -> result A * W) ev :
  (forall r, P (ev r) = true) -> only P (call h ev).
Proof.
  intros HP st r st' t (_ & _ & ->)%call_run. repeat constructor. apply HP.
Qed.

Lemma only_ask {A} P (h : W -> A) ev :
  (forall r, P (ev r) = true) -> only P (ask h ev).
Proof.
  intros HP st r st' t (_ & _ & ->)%ask_run. repeat constructor. apply HP.
Qed.

Lemma only_Promise_all {A} P (ps : list (M W A)) :
  Forall (only P) ps -> only P (Promise_all ps).
Proof.
  induction 1 as [| p ps Hp _ IH]; intros st r st' t; simpl.
  - intros [= <- <- <-]. constructor.
  - destruct (p st) as [[r1 st1] t1] eqn:H1.
    destruct (Promise_all ps st1) as [[rs st2] t2] eqn:H2.
    intros [= <- <- <-]. apply Forall_app. split; [eapply Hp | eapply IH]; eauto.
Qed.

Lemma only_Promise_all_map {L K} P (f : K -> L -> M W L) keys :
  (forall k vars, only P (f k vars)) ->
  forall vars, only P (Promise_all_map f keys vars).
Proof.
  intros Hf. induction keys as [| k keys IH]; intros vars st r st' t; simpl.
  - intros [= <- <- <-]. constructor.
  - destruct (f k vars st) as [[[vars1 | e] st1] t1] eqn:H1.
    + destruct (Promise_all_map f keys vars1 st1) as [[r2 st2] t2] eqn:H2.
      intros [= <- <- <-].
      apply Forall_app. split; [eapply Hf | eapply IH]; eauto.
    + destruct (Promise_all_map f keys vars st1) as [[r2 st2] t2] eqn:H2.
      intros [= <- <- <-].
      apply Forall_app. split; [eapply Hf | eapply IH]; eauto.
Qed.

Lemma only_weaken {A} (P Q : Event -> bool) (m : M W A) :
  (forall ev, P ev = true -> Q ev = true) -> only P m -> only Q m.
Proof.
  intros HPQ Hm st r st' t Hrun. eapply Forall_impl; [eapply Hm; eauto |].
  auto.
Qed.

(** *** Computations of the collaborators alone *)

Lemma set_world_same (st : State W) : set_world st (world st) = st.
Proof. by destruct st. Qed.

Lemma worldly_ret {A} (a : A) : worldly (ret (W:=W) a).
Proof.
  intros st1 st2 Hw. exists (Ok a), (world st1), []. unfold ret.
  by rewrite set_world_same, Hw, set_world_same.
Qed.

Lemma worldly_throw {A} e : worldly (@throw W A e).
Proof.
  intros st1 st2 Hw. exists (Err e), (world st1), []. unfold throw.
  by rewrite set_world_same, Hw, set_world_same.
Qed.

Lemma worldly_gets {A} (h : W -> A) : worldly (gets h).
Proof.
  intros st1 st2 Hw. exists (Ok (h (world st1))), (world st1), [].
  unfold gets. by rewrite set_world_same, Hw, set_world_same.
Qed.

Lemma worldly_ask {A} (h : W -> A) ev : worldly (ask h ev).
Proof.
  intros st1 st2 Hw.
  exists (Ok (h (world st1))), (world st1), [ev (h (world st1))].
  unfold ask. by rewrite set_world_same, Hw, set_world_same.
Qed.

Lemma worldly_call {A} (h : W -> result A * W) ev : worldly (call h ev).
Proof.
  intros st1 st2 Hw. unfold call. rewrite <- Hw.
  destruct (h (world st1)) as [r w]. by exists r, w, [ev r].
Qed.

Lemma worldly_bind {A B} (m : M W A) (f : A -> M W B) :
  worldly m -> (forall a, worldly (f a)) -> worldly (bind m f).
Proof.
  intros Hm Hf st1 st2 Hw. unfold bind.
  destruct (Hm st1 st2 Hw) as (r & w & t & -> & ->).
  destruct r as [a | e]; [| by exists (Err e), w, t].
  destruct (Hf a (set_world st1 w) (set_world st2 w) eq_refl)
    as (r' & w' & t' & -> & ->).
  by exists r', w', (t ++ t').
Qed.

Lemma worldly_ignoreErrors {A} (m : M W A) :
  worldly m -> worldly (ignoreErrors m).
Proof.
  intros Hm st1 st2 Hw. unfold ignoreErrors.
  destruct (Hm st1 st2 Hw) as (r & w & t & -> & ->).
  destruct r as [a | e]; [by exists (Ok (Some a)), w, t |].
  by exists (Ok None), w, t.
Qed.

Lemma worldly_Promise_all {A} (ps : list (M W A)) :
  Forall worldly ps -> worldly (Promise_all ps).
Proof.
  induction 1 as [| p ps Hp _ IH]; intros st1 st2 Hw; simpl.
  - exists (Ok []), (world st1), [].
    by rewrite set_world_same, Hw, set_world_same.
  - destruct (Hp st1 st2 Hw) as (r & w & t & -> & ->).
    destruct (IH (set_world st1 w) (set_world st2 w) eq_refl)
      as (r' & w' & t' & -> & ->).
    by eexists _, w', (t ++ t').
Qed.

Lemma worldly_Promise_all_map {L K} (f : K -> L -> M W L) keys :
  (forall k vars, worldly (f k vars)) ->
  forall vars, worldly (Promise_all_map f keys vars).
Proof.
  intros Hf. induction keys as [| k keys IH]; intros vars st1 st2 Hw; simpl.
  - exists (Ok vars), (world st1), [].
    by rewrite set_world_same, Hw, set_world_same.
  - destruct (Hf k vars st1 st2 Hw) as (r & w & t & -> & ->).
    destruct r as [vars1 | e].
    + destruct (IH vars1 (set_world st1 w) (set_world st2 w) eq_refl)
        as (r' & w' & t' & -> & ->).
      by exists r', w', (t ++ t').
    + destruct (IH vars (set_world st1 w) (set_world st2 w) eq_refl)
        as (r' & w' & t' & -> & ->).
      by exists (Err e), w', (t ++ t').
Qed.

End Runs.

(** ** What each part of the service calls *)

Section Calls.
Context {W : Type} `{Collaborators W}.

Ltac only_step :=
  first
    [ apply only_ret
    | apply only_throw
    | apply only_gets
    | apply only_ignoreErrors
    | apply only_call; intros; reflexivity
    | apply only_ask; intros; reflexivity
    | apply only_bind; [| intros ?]
    | match goal with
      | |- only _ (match ?x with _ => _ end) => destruct x
      end ].

Lemma prefetchAfterUpdateQuiz_only module quiz courseId siteId :
  only prefetch_event (prefetchAfterUpdateQuiz module quiz courseId siteId).
Proof.
  unfold prefetchAfterUpdateQuiz,
    CoreCourseModulePrefetchDelegate_getModuleUpdates,
    AddonModQuizPrefetchHandler_download,
    AddonModQuizPrefetchHandler_setStatusAfterPrefetch.
  repeat only_step.
Qed.

Lemma removal_promises_only siteId quiz attemptId onlineQuestions :
  attemptId <> 0 ->
  Forall (only (finish_event (Some attemptId)))
    (removal_promises siteId quiz attemptId onlineQuestions).
Proof.
  intros Hid. unfold removal_promises. constructor.
  - apply only_call. intros r. simpl.
    rewrite bool_decide_eq_true_2 by done. simpl.
    apply negb_true_iff, Z.eqb_neq, Hid.
  - destruct onlineQuestions as [onlineQuestions |]; [| constructor].
    induction (Object_keys onlineQuestions) as [| slot l IH]; simpl;
      [constructor |].
    destruct (onlineQuestions !! slot); simpl; [constructor |]; auto.
    apply only_call. reflexivity.
Qed.

Lemma finishSync_only siteId quiz courseId warnings options :
  only (finish_event (fo_attemptId (default no_options options)))
    (finishSync siteId quiz courseId warnings options).
Proof.
  unfold finishSync. generalize (default no_options options) as o. intros o.
  unfold AddonModQuiz_invalidateAllQuizData,
    CoreCourse_getModuleBasicInfoByInstance, this_setSyncTime,
    AddonModQuiz_getUserAttempts.
  apply only_bind; [| intros _].
  { apply only_ignoreErrors, only_call. intros r. simpl.
    by apply bool_decide_eq_true_2. }
  apply only_bind; [| intros _].
  { destruct (fo_attemptId o) as [attemptId |]; [| apply only_ret].
    unfold truthy_number.
    destruct (truthy_bool (fo_removeAttempt o)); cbn [andb];
      [| apply only_ret].
    destruct (Z.eqb_spec attemptId 0); cbn [negb]; [apply only_ret |].
    apply only_Promise_all, removal_promises_only. done. }
  apply only_bind; [| intros _].
  { destruct (truthy_bool (fo_updated o)); [| apply only_ret].
    apply only_ignoreErrors, only_bind; [repeat only_step | intros module].
    eapply only_weaken; [| apply prefetchAfterUpdateQuiz_only].
    intros [] Hev; done. }
  repeat only_step.
Qed.

Lemma validate_slot_only attemptId onlineQuestions siteId slot vars :
  only validate_event
    (validate_slot attemptId onlineQuestions siteId slot vars).
Proof.
  unfold validate_slot, AddonModQuizOffline_removeQuestionAndAnswers.
  destruct vars as [discardedData offlineQuestions].
  repeat only_step.
Qed.

Lemma validateQuestions_only attemptId onlineQuestions offlineQuestions
  siteId :
  only validate_event
    (validateQuestions attemptId onlineQuestions offlineQuestions siteId).
Proof.
  unfold validateQuestions. apply only_Promise_all_map.
  intros. apply validate_slot_only.
Qed.

Lemma prepare_slot_only quiz onlineQuestions siteId slot offlineQuestions :
  only prepare_event
    (prepare_slot quiz onlineQuestions siteId slot offlineQuestions).
Proof.
  unfold prepare_slot, CoreQuestionDelegate_prepareSyncData.
  repeat only_step.
Qed.

Lemma performSyncQuiz_rest_quiet quiz askPreflight siteId :
  only rest_event (performSyncQuiz_rest quiz askPreflight siteId).
Proof.
  assert (Hfinish : forall s q c w o,
             only rest_event (finishSync s q c w o)).
  { intros. eapply only_weaken; [| apply finishSync_only].
    intros [] Hev; done. }
  unfold performSyncQuiz_rest, AddonModQuizOffline_getQuizAttempts,
    CoreNetwork_isOnline, AddonModQuiz_getUserAttempts,
    AddonModQuizOffline_getAttemptAnswers,
    AddonModQuiz_getQuizAccessInformation,
    AddonModQuizPrefetchHandler_getPreflightData,
    AddonModQuiz_getAllQuestionsData, AddonModQuiz_processAttempt,
    AddonModQuiz_logViewAttempt.
  repeat first
    [ apply Hfinish
    | eapply only_weaken; [| apply validateQuestions_only];
      intros [] Hev; done
    | apply only_Promise_all_map; intros;
      eapply only_weaken; [| apply prepare_slot_only]; intros [] Hev; done
    | only_step ].
Qed.

Lemma performSyncQuiz_rest_only quiz askPreflight siteId :
  only reconcile_event (performSyncQuiz_rest quiz askPreflight siteId).
Proof.
  eapply only_weaken; [| apply performSyncQuiz_rest_quiet].
  by intros ev [? _]%andb_true_iff.
Qed.

Lemma performSyncQuiz_only quiz askPreflight siteId :
  only reconcile_event (performSyncQuiz quiz askPreflight siteId).
Proof.
  unfold performSyncQuiz, CoreSites_getCurrentSiteId,
    CoreCourseLogHelper_syncActivity.
  repeat first [apply performSyncQuiz_rest_only | only_step].
Qed.

Ltac worldly_step :=
  first
    [ apply worldly_ret
    | apply worldly_throw
    | apply worldly_gets
    | apply worldly_ignoreErrors
    | apply worldly_call
    | apply worldly_ask
    | apply worldly_bind; [| intros ?]
    | match goal with
      | |- worldly (match ?x with _ => _ end) => destruct x
      | |- worldly (if ?x then _ else _) => destruct x
      end ].

Lemma prefetchAfterUpdateQuiz_worldly module quiz courseId siteId :
  worldly (prefetchAfterUpdateQuiz module quiz courseId siteId).
Proof.
  unfold prefetchAfterUpdateQuiz,
    CoreCourseModulePrefetchDelegate_getModuleUpdates,
    AddonModQuizPrefetchHandler_download,
    AddonModQuizPrefetchHandler_setStatusAfterPrefetch.
  repeat worldly_step.
Qed.

Lemma removal_promises_worldly siteId quiz attemptId onlineQuestions :
  Forall worldly (removal_promises siteId quiz attemptId onlineQuestions).
Proof.
  unfold removal_promises. constructor; [apply worldly_call |].
  destruct onlineQuestions as [onlineQuestions |]; [| constructor].
  induction (Object_keys onlineQuestions) as [| slot l IH]; simpl;
    [constructor |].
  destruct (onlineQuestions !! slot); simpl; [constructor |]; auto.
  apply worldly_call.
Qed.

Lemma finishSync_worldly siteId quiz courseId warnings options :
  worldly (finishSync siteId quiz courseId warnings options).
Proof.
  unfold finishSync. generalize (default no_options options) as o. intros o.
  unfold AddonModQuiz_invalidateAllQuizData,
    CoreCourse_getModuleBasicInfoByInstance, this_setSyncTime,
    AddonModQuiz_getUserAttempts.
  repeat first
    [ apply worldly_Promise_all, removal_promises_worldly
    | apply prefetchAfterUpdateQuiz_worldly
    | worldly_step ].
Qed.

Lemma validateQuestions_worldly attemptId onlineQuestions offlineQuestions
  siteId :
  worldly (validateQuestions attemptId onlineQuestions offlineQuestions siteId).
Proof.
  unfold validateQuestions. apply worldly_Promise_all_map.
  intros slot [discardedData questions].
  unfold validate_slot, AddonModQuizOffline_removeQuestionAndAnswers.
  repeat worldly_step.
Qed.

Lemma prepare_slot_worldly quiz onlineQuestions siteId slot offlineQuestions :
  worldly (prepare_slot quiz onlineQuestions siteId slot offlineQuestions).
Proof.
  unfold prepare_slot, CoreQuestionDelegate_prepareSyncData.
  repeat worldly_step.
Qed.

Lemma performSyncQuiz_rest_worldly quiz askPreflight siteId :
  worldly (performSyncQuiz_rest quiz askPreflight siteId).
Proof.
  unfold performSyncQuiz_rest, AddonModQuizOffline_getQuizAttempts,
    CoreNetwork_isOnline, AddonModQuiz_getUserAttempts,
    AddonModQuizOffline_getAttemptAnswers,
    AddonModQuiz_getQuizAccessInformation,
    AddonModQuizPrefetchHandler_getPreflightData,
    AddonModQuiz_getAllQuestionsData, AddonModQuiz_processAttempt,
    AddonModQuiz_logViewAttempt.
  repeat first
    [ apply finishSync_worldly
    | apply validateQuestions_worldly
    | apply worldly_Promise_all_map; intros; apply prepare_slot_worldly
    | worldly_step ].
Qed.

(** The rest of a reconciliation leaves the registry and the promises as
    they are, from its first call to its last. *)
Lemma performSyncQuiz_rest_keeps_registry quiz askPreflight siteId
  (st : State W) r st' t :
  performSyncQuiz_rest quiz askPreflight siteId st = (r, st', t) ->
  st' = set_world st (world st').
Proof.
  destruct (performSyncQuiz_rest_worldly quiz askPreflight siteId st st
              eq_refl) as (r' & w & t' & -> & _).
  by intros [= <- <- <-].
Qed.

End Calls.

(** ** Following a run *)

Arguments Promise_all : simpl never.
Arguments Promise_all_map : simpl never.
Arguments Array_find : simpl never.

Ltac run_step :=
  match goal with
  | H : ret _ _ = _ |- _ => apply ret_run in H as (? & ? & ?)
  | H : throw _ _ = _ |- _ => apply throw_run in H as (? & ? & ?)
  | H : gets _ _ = _ |- _ => apply gets_run in H as (? & ? & ?)
  | H : ask _ _ _ = _ |- _ => apply ask_run in H as (? & ? & ?)
  | H : waited _ _ = _ |- _ => apply waited_run in H as (? & ? & ?)
  | H : started _ _ = _ |- _ =>
      let r0 := fresh "r" in
      apply started_run in H as (r0 & H & ?)
  | H : call _ _ _ = _ |- _ => apply call_run in H as (_ & _ & ?)
  | H : ignoreErrors _ _ = _ |- _ =>
      let r0 := fresh "r" in
      apply ignoreErrors_run in H as (r0 & H & ?)
  | H : bind _ _ _ = _ |- _ =>
      apply bind_run in H as [(? & ? & ? & ? & ? & H & ?) | (? & H & ?)]
  | H : Promise_all [] _ = _ |- _ =>
      apply Promise_all_nil_run in H as (? & ? & ?)
  | H : Promise_all (_ :: _) _ = _ |- _ =>
      apply Promise_all_cons_run in H as (? & ? & ? & ? & ? & ? & H & ? & ?)
  end; simplify_eq/=.

Ltac case_result :=
  match goal with
  | H : context [match ?r with Ok _ => _ | Err _ => _ end] |- _ =>
      is_var r; destruct r
  end; simplify_eq/=.

Ltac run_case :=
  match goal with
  | H : (match ?x with _ => _ end) _ = (_, _, _) |- _ => destruct x eqn:?
  end; simplify_eq/=.

Ltac run_all := repeat (first [run_step | run_case]).

Ltac unfold_calls :=
  unfold CoreSites_getCurrentSiteId, CoreCourseLogHelper_syncActivity,
    AddonModQuizOffline_getQuizAttempts, CoreNetwork_isOnline,
    AddonModQuiz_getUserAttempts, AddonModQuizOffline_getAttemptAnswers,
    AddonModQuiz_getQuizAccessInformation,
    AddonModQuizPrefetchHandler_getPreflightData,
    AddonModQuiz_getAllQuestionsData, AddonModQuiz_processAttempt,
    AddonModQuiz_logViewAttempt, AddonModQuiz_invalidateAllQuizData,
    this_setSyncTime, AddonModQuizOffline_removeAttemptAndAnswers,
    CoreCourse_getModuleBasicInfoByInstance in *.

Section Reconciliation.
Context {W : Type} `{Collaborators W}.

Lemma finishSync_event siteId quiz courseId warnings options st r st' t ev :
  finishSync siteId quiz courseId warnings options st = (r, st', t) ->
  ev ∈ t ->
  finish_event (fo_attemptId (default no_options options)) ev = true.
Proof.
  intros Hrun Hin. apply finishSync_only in Hrun.
  rewrite Forall_forall in Hrun. auto.
Qed.

Lemma validateQuestions_event attemptId onlineQuestions offlineQuestions
  siteId st r st' t ev :
  validateQuestions attemptId onlineQuestions offlineQuestions siteId st
  = (r, st', t) ->
  ev ∈ t -> validate_event ev = true.
Proof.
  intros Hrun Hin. apply validateQuestions_only in Hrun.
  rewrite Forall_forall in Hrun. auto.
Qed.

Lemma prepare_event_of quiz onlineQuestions siteId keys offlineQuestions
  st r st' t ev :
  Promise_all_map (prepare_slot quiz onlineQuestions siteId) keys
    offlineQuestions st = (r, st', t) ->
  ev ∈ t -> prepare_event ev = true.
Proof.
  intros Hrun Hin.
  apply (only_Promise_all_map prepare_event) in Hrun;
    [| intros; apply prepare_slot_only].
  rewrite Forall_forall in Hrun. auto.
Qed.

(** Finalisation when there was nothing to synchronise. *)
Lemma finishSync_nothing siteId quiz courseId warnings st r st' t :
  finishSync siteId quiz courseId warnings None st = (r, st', t) ->
  r = Ok (mkSyncResult warnings false false)
  /\ exists r1 r2,
      t = [EvInvalidateAllQuizData (quiz_id quiz) courseId None siteId r1;
           EvSetSyncTime (quiz_id quiz) siteId r2].
Proof.
  unfold finishSync, AddonModQuiz_invalidateAllQuizData, this_setSyncTime.
  simpl. intros Hrun. run_all. eauto.
Qed.

(** Finalisation of the discard branch: the offline attempt is removed,
    and nothing is read back since the online attempt, if there is one, was
    finished from the start. *)
Lemma finishSync_discard siteId quiz courseId warnings attemptId
  offlineAttempt onlineAttempt st r st' t :
  finishSync siteId quiz courseId warnings
    (Some (mkFinishOptions (Some attemptId) offlineAttempt onlineAttempt
             (Some true) None None)) st = (r, st', t) ->
  attemptId <> 0 ->
  match onlineAttempt with
  | Some attempt => isAttemptFinished (at_state attempt) = true
  | None => True
  end ->
  exists r1 r2 rest,
    t = [EvInvalidateAllQuizData (quiz_id quiz) courseId (Some attemptId)
           siteId r1;
         EvRemoveAttemptAndAnswers attemptId siteId r2] ++ rest
    /\ match r2 with
       | Ok _ =>
           r = Ok (mkSyncResult warnings false true)
           /\ exists r3, rest = [EvSetSyncTime (quiz_id quiz) siteId r3]
       | Err e => r = Err e /\ rest = []
       end.
Proof.
  intros Hrun Hid Hfin. apply Z.eqb_neq in Hid.
  unfold finishSync, removal_promises in Hrun. unfold_calls.
  cbn [default from_option id fo_attemptId fo_removeAttempt fo_updated
         fo_onlineAttempt fo_onlineQuestions truthy_bool truthy_number
         andb orb] in Hrun.
  rewrite Hid in Hrun. cbn [negb] in Hrun.
  destruct onlineAttempt as [attempt |]; [rewrite Hfin in Hrun |];
    run_all; repeat case_result; run_all;
    do 3 eexists; (split; [reflexivity |]); simpl; eauto.
Qed.

End Reconciliation.

Ltac event_eq :=
  repeat match goal with
         | H : @eq Event _ _ |- _ =>
             first [discriminate H | injection H; clear H; intros]
         end.

Ltac mem_step :=
  match goal with
  | H : _ ∈ [] |- _ => apply elem_of_nil in H; destruct H
  | H : _ ∈ _ :: _ |- _ => apply elem_of_cons in H as [H | H]
  | H : _ ∈ _ ++ _ |- _ => apply elem_of_app in H as [H | H]
  | H : ?ev ∈ ?t, Hf : finishSync _ _ _ _ _ _ = (_, _, ?t) |- _ =>
      apply (finishSync_event _ _ _ _ _ _ _ _ _ _ Hf) in H; simpl in H
  | H : ?ev ∈ ?t, Hf : validateQuestions _ _ _ _ _ = (_, _, ?t) |- _ =>
      apply (validateQuestions_event _ _ _ _ _ _ _ _ _ Hf) in H; simpl in H
  | H : ?ev ∈ ?t, Hf : Promise_all_map (prepare_slot _ _ _) _ _ _ = (_, _, ?t)
    |- _ =>
      apply (prepare_event_of _ _ _ _ _ _ _ _ _ _ Hf) in H; simpl in H
  end; event_eq; simplify_eq/=.

Section SyncQuiz.
Context {W : Type} `{Collaborators W}.

(** C4. A quiz with no offline attempt stored: when the offline store lists
    no attempt for the quiz, the synchronisation resolves with no warning,
    [updated = false] and [attemptFinished = false]; besides the log
    synchronisation and the listing it only invalidates the cached quiz
    data and records the synchronisation time, so that no offline data is
    deleted and nothing is submitted. *)
Theorem sync_nothing_to_do quiz askPreflight siteId st r st' t quizId site :
  performSyncQuiz quiz askPreflight siteId st = (r, st', t) ->
  EvGetQuizAttempts quizId site (Ok []) ∈ t ->
  r = Ok (mkSyncResult [] false false)
  /\ exists r0 r1 r2,
      t = [EvSyncActivity COMPONENT quizId site r0;
           EvGetQuizAttempts quizId site (Ok []);
           EvInvalidateAllQuizData quizId (quiz_course quiz) None site r1;
           EvSetSyncTime quizId site r2].
Proof.
  unfold performSyncQuiz, performSyncQuiz_rest. unfold_calls. intros Hrun Hin.
  run_all; repeat mem_step.
  match goal with
  | Hf : finishSync _ _ _ _ None _ = _ |- _ =>
      apply finishSync_nothing in Hf as (-> & r1 & r2 & ->)
  end.
  repeat mem_step. eauto.
Qed.

(** C5. An offline attempt exists and the network is unreachable: once the
    offline store has listed an attempt, the next thing the synchronisation
    does is ask whether the device is online, and when the answer is no it
    rejects with the cannot-connect error having called nothing else: no
    fetch, no submission, no removal from the offline store. *)
Theorem sync_offline_cannot_connect quiz askPreflight siteId st r st' t
  quizId site offlineAttempts :
  performSyncQuiz quiz askPreflight siteId st = (r, st', t) ->
  EvGetQuizAttempts quizId site (Ok offlineAttempts) ∈ t ->
  offlineAttempts <> [] ->
  exists r0 online rest,
    t = EvSyncActivity COMPONENT quizId site r0
        :: EvGetQuizAttempts quizId site (Ok offlineAttempts)
        :: EvIsOnline online :: rest
    /\ (online = false ->
        r = Err (CoreError "core.cannotconnect") /\ rest = []).
Proof.
  unfold performSyncQuiz, performSyncQuiz_rest. unfold_calls. intros Hrun Hin Hne.
  run_all; repeat mem_step;
    try (do 3 eexists; split; [reflexivity |]; intros Hoff;
         first [ by rewrite Hoff in * | done ]).
  all: match goal with
       | Hp : Array_pop ?l = None |- _ =>
           apply last_None in Hp; congruence
       end.
Qed.

(** C3. An offline attempt exists, and no online attempt shares its
    identifier or the one that does is already finished: the
    synchronisation discards. After the fetch of the online attempts it
    invalidates the cached data and asks the offline store to remove the
    offline attempt and its answers; nothing else is called but the record
    of the synchronisation time, so nothing is submitted and the offline
    data is not merged. When the store has removed the attempt, the
    synchronisation resolves with exactly one warning and [updated = true].
    Attempt identifiers are row identifiers of the site, never 0. *)
Theorem sync_discards_stale_attempt quiz askPreflight siteId st r st' t
  quizId site offlineAttempts offlineAttempt options onlineAttempts :
  performSyncQuiz quiz askPreflight siteId st = (r, st', t) ->
  EvGetQuizAttempts quizId site (Ok offlineAttempts) ∈ t ->
  Array_pop offlineAttempts = Some offlineAttempt ->
  oa_id offlineAttempt <> 0 ->
  EvGetUserAttempts quizId options (Ok onlineAttempts) ∈ t ->
  mo_readingStrategy options = Some ONLY_NETWORK ->
  attempt_is_stale offlineAttempt onlineAttempts = true ->
  exists r0 r1 r2 rest,
    t = [EvSyncActivity COMPONENT quizId site r0;
         EvGetQuizAttempts quizId site (Ok offlineAttempts);
         EvIsOnline true;
         EvGetUserAttempts quizId options (Ok onlineAttempts);
         EvInvalidateAllQuizData quizId (quiz_course quiz)
           (Some (oa_id offlineAttempt)) site r1;
         EvRemoveAttemptAndAnswers (oa_id offlineAttempt) site r2] ++ rest
    /\ match r2 with
       | Ok _ =>
           r = Ok (mkSyncResult ["addon.mod_quiz.warningattemptfinished"]
                     false true)
           /\ exists r3, rest = [EvSetSyncTime quizId site r3]
       | Err e => r = Err e /\ rest = []
       end.
Proof.
  unfold performSyncQuiz, performSyncQuiz_rest, attempt_is_stale.
  unfold_calls.
  intros Hrun Hin Hpop Hid Hin' Hstrategy Hstale.
  run_all; repeat mem_step.
  all: try match goal with
           | Hs : bool_decide (_ = None) = true |- _ =>
               apply bool_decide_eq_true in Hs; congruence
           end.
  all: try match goal with
           | Hf : Array_find _ _ = _ |- _ => rewrite Hf in Hstale
           end; try congruence.
  all: match goal with
       | Hf : finishSync _ _ _ _ _ _ = _ |- _ =>
           apply finishSync_discard in Hf as (r1 & r2 & rest & -> & Hres);
             [| done | by simpl]
       end.
  all: match goal with
       | Hb : negb _ = false |- _ => apply negb_false_iff in Hb; rewrite Hb
       end.
  all: eexists _, r1, r2, rest; split; [reflexivity | exact Hres].
Qed.

Lemma finishSync_starts siteId quiz courseId warnings options st r st' t :
  finishSync siteId quiz courseId warnings options st = (r, st', t) ->
  exists r1 rest,
    t = EvInvalidateAllQuizData (quiz_id quiz) courseId
          (fo_attemptId (default no_options options)) siteId r1 :: rest.
Proof.
  unfold finishSync. unfold_calls. intros Hrun.
  do 3 run_step; eauto.
Qed.

(** C10. Which attempt finalisation is told to remove. Once the offline
    attempt and the freshly fetched online attempts are known, every
    finalisation of the run is handed one attempt identifier, seen in the
    invalidation it starts with and in the removal from the offline store:
    the offline attempt's own identifier in the discard branch, and the
    identifier of the last online attempt of the list, [lastAttemptId], in
    the two other branches, the one where no answer is stored and the one
    that follows the submission, both of which do reach finalisation with
    it. So outside the discard branch the offline attempt itself is removed
    only when it is the last online attempt. *)
Theorem removal_targets_last_online_attempt quiz askPreflight siteId st r st'
  t quizId site offlineAttempts offlineAttempt options onlineAttempts :
  performSyncQuiz quiz askPreflight siteId st = (r, st', t) ->
  EvGetQuizAttempts quizId site (Ok offlineAttempts) ∈ t ->
  Array_pop offlineAttempts = Some offlineAttempt ->
  EvGetUserAttempts quizId options (Ok onlineAttempts) ∈ t ->
  mo_readingStrategy options = Some ONLY_NETWORK ->
  let lastAttemptId := at_id <$> last onlineAttempts in
  let target :=
    if attempt_is_stale offlineAttempt onlineAttempts
    then Some (oa_id offlineAttempt) else lastAttemptId in
  (forall q c attemptId s r',
      EvInvalidateAllQuizData q c attemptId s r' ∈ t -> attemptId = target)
  /\ (forall attemptId s r',
         EvRemoveAttemptAndAnswers attemptId s r' ∈ t ->
         target = Some attemptId)
  /\ (attempt_is_stale offlineAttempt onlineAttempts = false ->
      (forall s r',
          EvRemoveAttemptAndAnswers (oa_id offlineAttempt) s r' ∈ t ->
          lastAttemptId = Some (oa_id offlineAttempt))
      /\ (forall attemptId s,
             EvGetAttemptAnswers attemptId s (Ok []) ∈ t ->
             exists r', EvInvalidateAllQuizData quizId (quiz_course quiz)
                          lastAttemptId site r' ∈ t)
      /\ (forall q a answers p finish timeUp offline s,
             EvProcessAttempt q a answers p finish timeUp offline s (Ok tt)
             ∈ t ->
             exists r', EvInvalidateAllQuizData quizId (quiz_course quiz)
                          lastAttemptId site r' ∈ t)).
Proof.
  unfold performSyncQuiz, performSyncQuiz_rest, attempt_is_stale.
  unfold_calls.
  intros Hrun Hin Hpop Hin' Hstrategy.
  run_all; repeat mem_step.
  all: try match goal with
           | Hs : bool_decide (_ = None) = true |- _ =>
               apply bool_decide_eq_true in Hs; congruence
           end.
  all: try match goal with
           | Hf : Array_find _ _ = _ |- _ => rewrite Hf
           end.
  all: try match goal with
           | Hf : isAttemptFinished _ = _ |- _ => rewrite Hf
           end.
  all: cbn zeta; repeat split; intros; repeat mem_step.
  all: repeat match goal with
         | Hs : bool_decide _ = true |- _ => apply bool_decide_eq_true in Hs
         | Hs : _ && _ = true |- _ => apply andb_true_iff in Hs as [? ?]
         end; simplify_eq/=; try done.
  all: match goal with
       | Hf : finishSync _ _ _ _ _ _ = _ |- _ =>
           apply finishSync_starts in Hf as (? & ? & ->)
       end; eexists;
       repeat first [ apply list_elem_of_here
                    | apply list_elem_of_further
                    | apply elem_of_app; right ].
Qed.

Lemma Object_keys_elem {A} (o : gmap Z A) slot :
  slot ∈ Object_keys o <-> is_Some (o !! slot).
Proof.
  unfold Object_keys. rewrite merge_sort_Permutation.
  rewrite list_elem_of_fmap. split.
  - intros [[k a] [-> Hin]]. apply elem_of_map_to_list in Hin. eauto.
  - intros [a Ha]. exists (slot, a). split; [done |].
    by apply elem_of_map_to_list.
Qed.

Lemma Object_keys_NoDup {A} (o : gmap Z A) : NoDup (Object_keys o).
Proof.
  unfold Object_keys. rewrite merge_sort_Permutation.
  apply NoDup_fst_map_to_list.
Qed.


(** One callback of the validation. *)
Lemma validate_slot_run attemptId onlineQuestions siteId slot discardedData
  offlineQuestions offlineQuestion st r st' t :
  validate_slot attemptId onlineQuestions siteId slot
    (discardedData, offlineQuestions) st = (r, st', t) ->
  offlineQuestions !! slot = Some offlineQuestion ->
  match validated_slot onlineQuestions slot offlineQuestion with
  | Some kept =>
      r = Ok (discardedData, <[slot := kept]> offlineQuestions) /\ t = []
  | None =>
      exists res,
        t = [EvRemoveQuestionAndAnswers attemptId slot siteId res]
        /\ r = match res with
               | Ok _ => Ok (true, delete slot offlineQuestions)
               | Err e => Err e
               end
  end.
Proof.
  unfold validate_slot, validated_slot,
    AddonModQuizOffline_removeQuestionAndAnswers.
  intros Hrun Hq. rewrite Hq in Hrun.
  destruct (onlineQuestions !! slot) as [onlineQuestion |].
  - destruct (validateSequenceCheck _ _); simpl in Hrun.
    + run_all. auto.
    + run_all; eexists; eauto.
  - run_all; eexists; eauto.
Qed.

(** The callbacks of the validation over distinct slots of the offline
    questions: which removals are asked for, and what the variables hold
    when all callbacks resolve. *)
Lemma validate_slots_run attemptId onlineQuestions siteId keys :
  forall discardedData offlineQuestions st r st' t,
    Promise_all_map (validate_slot attemptId onlineQuestions siteId) keys
      (discardedData, offlineQuestions) st = (r, st', t) ->
    NoDup keys ->
    (forall slot, slot ∈ keys -> is_Some (offlineQuestions !! slot)) ->
    (forall ev, ev ∈ t ->
       exists slot offlineQuestion res,
         ev = EvRemoveQuestionAndAnswers attemptId slot siteId res
         /\ slot ∈ keys
         /\ offlineQuestions !! slot = Some offlineQuestion
         /\ validated_slot onlineQuestions slot offlineQuestion = None)
    /\ (forall slot offlineQuestion,
          slot ∈ keys ->
          offlineQuestions !! slot = Some offlineQuestion ->
          validated_slot onlineQuestions slot offlineQuestion = None ->
          exists res,
            EvRemoveQuestionAndAnswers attemptId slot siteId res ∈ t)
    /\ (forall discarded validated,
          r = Ok (discarded, validated) ->
          (forall slot,
              validated !! slot =
              if decide (slot ∈ keys)
              then offlineQuestions !! slot
                   ≫= validated_slot onlineQuestions slot
              else offlineQuestions !! slot)
          /\ (discarded = true <->
              discardedData = true
              \/ exists slot offlineQuestion,
                  slot ∈ keys
                  /\ offlineQuestions !! slot = Some offlineQuestion
                  /\ validated_slot onlineQuestions slot offlineQuestion
                     = None)).
Proof.
  induction keys as [| k keys IH];
    intros discardedData offlineQuestions st r st' t Hrun Hnodup Hdom.
  - apply Promise_all_map_nil_run in Hrun as (-> & -> & ->).
    split; [| split].
    + intros ev []%elem_of_nil.
    + intros slot q []%elem_of_nil.
    + intros d v [= <- <-]. split; [done |].
      split; [auto | intros [| (slot & q & []%elem_of_nil & _)]; done].
  - apply Promise_all_map_cons_run in Hrun
      as (r1 & st1 & t1 & r2 & t2 & Hk & Hrest & -> & ->).
    apply NoDup_cons in Hnodup as [Hk_fresh Hnodup].
    destruct (Hdom k) as [qk Hqk]; [apply list_elem_of_here |].
    eapply validate_slot_run in Hk; [| exact Hqk].
    destruct (validated_slot onlineQuestions k qk) as [kept |] eqn:Hverdict.
    + destruct Hk as [-> ->].
      assert (Hdom' : forall slot,
                 slot ∈ keys ->
                 is_Some (<[k:=kept]> offlineQuestions !! slot)).
      { intros slot Hslot. rewrite lookup_insert_ne by (by intros ->).
        apply Hdom. by apply list_elem_of_further. }
      destruct (IH _ _ _ _ _ _ Hrest Hnodup Hdom') as (Hev & Hrm & Hok).
      split; [| split].
      * intros ev Hin. simpl in Hin.
        destruct (Hev ev Hin) as (slot & q & res & -> & Hslot & Hq & Hv).
        rewrite lookup_insert_ne in Hq by (by intros ->).
        exists slot, q, res. repeat split; try done.
        by apply list_elem_of_further.
      * intros slot q [-> | Hslot]%elem_of_cons Hq Hv; [congruence |].
        simpl. eapply Hrm; eauto. rewrite lookup_insert_ne; [done | by intros ->].
      * intros d v ->. destruct (Hok d v eq_refl) as [Hmap Hdisc].
        split.
        -- intros slot. rewrite Hmap.
           destruct (decide (slot = k)) as [-> |].
           ++ rewrite decide_False by done.
              rewrite decide_True by apply list_elem_of_here.
              rewrite lookup_insert_eq, Hqk. simpl. by rewrite Hverdict.
           ++ rewrite lookup_insert_ne by done.
              destruct (decide (slot ∈ keys)).
              ** rewrite decide_True; [done | by apply list_elem_of_further].
              ** rewrite decide_False; [done | by intros [? | ?]%elem_of_cons].
        -- rewrite Hdisc. split.
           ++ intros [? | (slot & q & Hslot & Hq & Hv)]; [auto |].
              right. exists slot, q.
              rewrite lookup_insert_ne in Hq by (by intros ->).
              repeat split; try done. by apply list_elem_of_further.
           ++ intros [? | (slot & q & [-> | Hslot]%elem_of_cons & Hq & Hv)];
                [auto | congruence |].
              right. exists slot, q. repeat split; try done.
              rewrite lookup_insert_ne; [done | by intros ->].
    + destruct Hk as (res & -> & ->).
      assert (Hframe : forall slot,
                 slot ∈ keys ->
                 match res with
                 | Ok _ => (true, delete k offlineQuestions)
                 | Err _ => (discardedData, offlineQuestions)
                 end.2 !! slot = offlineQuestions !! slot).
      { intros slot Hslot. destruct res; simpl; [| done].
        rewrite lookup_delete_ne; [done | by intros ->]. }
      replace (match
                   match res with
                   | Ok _ => Ok (true, delete k offlineQuestions)
                   | Err e => Err e
                   end
                 with
                 | Ok vars1 => vars1
                 | Err _ => (discardedData, offlineQuestions)
                 end)
        with (match res with
              | Ok _ => true
              | Err _ => discardedData
              end,
              match res with
              | Ok _ => (true, delete k offlineQuestions)
              | Err _ => (discardedData, offlineQuestions)
              end.2) in Hrest by (by destruct res).
      assert (Hdom' : forall slot,
                 slot ∈ keys ->
                 is_Some (match res with
                          | Ok _ => (true, delete k offlineQuestions)
                          | Err _ => (discardedData, offlineQuestions)
                          end.2 !! slot)).
      { intros slot Hslot. rewrite Hframe by done.
        apply Hdom. by apply list_elem_of_further. }
      destruct (IH _ _ _ _ _ _ Hrest Hnodup Hdom') as (Hev & Hrm & Hok).
      split; [| split].
      * intros ev [-> | Hin]%elem_of_cons.
        -- exists k, qk, res. repeat split; try done. apply list_elem_of_here.
        -- destruct (Hev ev Hin) as (slot & q & res' & -> & Hslot & Hq & Hv).
           rewrite Hframe in Hq by done.
           exists slot, q, res'. repeat split; try done.
           by apply list_elem_of_further.
      * intros slot q [-> | Hslot]%elem_of_cons Hq Hv.
        -- exists res. apply list_elem_of_here.
        -- destruct (Hrm slot q) as [res' Hin]; try done.
           { by rewrite Hframe. }
           exists res'. by apply list_elem_of_further.
      * intros d v Hr. destruct res as [[] | e]; [| done].
        destruct (Hok d v Hr) as [Hmap Hdisc]. simpl in *.
        split.
        -- intros slot. rewrite Hmap.
           destruct (decide (slot = k)) as [-> |].
           ++ rewrite decide_False by done.
              rewrite decide_True by apply list_elem_of_here.
              rewrite lookup_delete_eq, Hqk. simpl. by rewrite Hverdict.
           ++ rewrite lookup_delete_ne by done.
              destruct (decide (slot ∈ keys)).
              ** rewrite decide_True; [done | by apply list_elem_of_further].
              ** rewrite decide_False; [done | by intros [? | ?]%elem_of_cons].
        -- rewrite Hdisc. split; [| auto].
           intros _. right. exists k, qk. repeat split; try done.
           apply list_elem_of_here.
Qed.

(** The callbacks of the validation all resolve when every removal they
    ask for succeeds. *)
Lemma validate_slots_resolve attemptId onlineQuestions siteId keys :
  forall discardedData offlineQuestions st r st' t,
    Promise_all_map (validate_slot attemptId onlineQuestions siteId) keys
      (discardedData, offlineQuestions) st = (r, st', t) ->
    NoDup keys ->
    (forall slot, slot ∈ keys -> is_Some (offlineQuestions !! slot)) ->
    (forall slot res,
        EvRemoveQuestionAndAnswers attemptId slot siteId res ∈ t ->
        exists u, res = Ok u) ->
    exists discarded validated, r = Ok (discarded, validated).
Proof.
  induction keys as [| k keys IH];
    intros discardedData offlineQuestions st r st' t Hrun Hnodup Hdom Hok.
  - apply Promise_all_map_nil_run in Hrun as (-> & _ & _). eauto.
  - apply Promise_all_map_cons_run in Hrun
      as (r1 & st1 & t1 & r2 & t2 & Hk & Hrest & -> & ->).
    apply NoDup_cons in Hnodup as [Hk_fresh Hnodup].
    destruct (Hdom k) as [qk Hqk]; [apply list_elem_of_here |].
    eapply validate_slot_run in Hk; [| exact Hqk].
    destruct (validated_slot onlineQuestions k qk) as [kept |].
    + destruct Hk as [-> ->]. simpl in *. eapply IH; eauto.
      intros slot Hslot. rewrite lookup_insert_ne by (by intros ->).
      apply Hdom. by apply list_elem_of_further.
    + destruct Hk as (res & -> & ->).
      destruct (Hok k res) as [u ->]; [apply list_elem_of_here |].
      simpl in *. eapply IH; eauto.
      * intros slot Hslot. rewrite lookup_delete_ne by (by intros ->).
        apply Hdom. by apply list_elem_of_further.
      * intros slot res Hin. apply (Hok slot res).
        by apply list_elem_of_further.
Qed.

(** C2. Per-slot validation. For every slot of the offline answers: when
    no online question exists for it, the offline store is asked to remove
    the slot's data and the slot is dropped from the offline set; when an
    online question exists and the delegate's sequence check rejects the
    offline token, likewise; when the check accepts it, no removal is asked
    for and the slot survives: under the name [:sequencecheck] its answers
    hold [String] of the online question's sequence check, whatever the
    token was, and its other answers are as they were. The validation
    resolves with true exactly when some slot of the offline set was
    dropped, and it does resolve when the removals it asks for succeed. *)
Theorem validateQuestions_per_slot attemptId onlineQuestions offlineQuestions
  siteId st r st' t :
  validateQuestions attemptId onlineQuestions offlineQuestions siteId st
  = (r, st', t) ->
  (forall slot offlineQuestion,
      offlineQuestions !! slot = Some offlineQuestion ->
      let removed :=
        exists res, EvRemoveQuestionAndAnswers attemptId slot siteId res ∈ t in
      let dropped :=
        forall discarded validated,
          r = Ok (discarded, validated) -> validated !! slot = None in
      match onlineQuestions !! slot with
      | None => removed /\ dropped
      | Some onlineQuestion =>
          if validateSequenceCheck onlineQuestion
               (oq_answers offlineQuestion !! ":sequencecheck")
          then
            ~ removed
            /\ (forall discarded validated,
                   r = Ok (discarded, validated) ->
                   exists kept,
                     validated !! slot = Some kept
                     /\ oq_slot kept = oq_slot offlineQuestion
                     /\ oq_answers kept !! ":sequencecheck"
                        = Some (AString
                                  (String_of_number
                                     (q_sequencecheck onlineQuestion)))
                     /\ forall name,
                         name <> ":sequencecheck" ->
                         oq_answers kept !! name
                         = oq_answers offlineQuestion !! name)
          else removed /\ dropped
      end)
  /\ (forall discarded validated,
         r = Ok (discarded, validated) ->
         (discarded = true <->
          exists slot,
            is_Some (offlineQuestions !! slot) /\ validated !! slot = None))
  /\ ((forall slot res,
          EvRemoveQuestionAndAnswers attemptId slot siteId res ∈ t ->
          exists u, res = Ok u) ->
      exists discarded validated, r = Ok (discarded, validated)).
Proof.
  unfold validateQuestions. intros Hrun.
  assert (Hdom : forall slot,
             slot ∈ Object_keys offlineQuestions ->
             is_Some (offlineQuestions !! slot))
    by (by intros slot ?%Object_keys_elem).
  destruct (validate_slots_run _ _ _ _ _ _ _ _ _ _ Hrun
              (Object_keys_NoDup _) Hdom) as (Hev & Hrm & Hok).
  split; [| split].
  - intros slot q Hq.
    set (removed :=
           exists res,
             EvRemoveQuestionAndAnswers attemptId slot siteId res ∈ t).
    set (dropped := forall (discarded : bool) (validated : OfflineQuestions),
             r = Ok (discarded, validated) -> validated !! slot = None).
    assert (Hslot : slot ∈ Object_keys offlineQuestions)
      by (apply Object_keys_elem; eauto).
    assert (Hdropped :
              validated_slot onlineQuestions slot q = None -> dropped).
    { intros Hv d v Hr. destruct (Hok d v Hr) as [Hmap _].
      rewrite Hmap, decide_True, Hq by done. simpl. done. }
    assert (Hkept : forall kept,
               validated_slot onlineQuestions slot q = Some kept ->
               ~ removed
               /\ (forall d v, r = Ok (d, v) -> v !! slot = Some kept)).
    { intros kept Hv. split.
      - intros [res Hin].
        destruct (Hev _ Hin) as (slot' & q' & res' & [= <- <-] & _ & Hq' & Hv').
        congruence.
      - intros d v Hr. destruct (Hok d v Hr) as [Hmap _].
        rewrite Hmap, decide_True, Hq by done. simpl. done. }
    specialize (Hrm slot q Hslot Hq).
    unfold validated_slot in *.
    destruct (onlineQuestions !! slot) as [onlineQuestion |].
    + destruct (validateSequenceCheck _ _).
      * destruct (Hkept _ eq_refl) as [Hnot Hvalidated].
        split; [done |]. intros d v Hr. eexists.
        split; [by apply (Hvalidated d v) |]. split; [done |]. simpl.
        split; [by rewrite lookup_insert_eq |].
        intros name Hname. by rewrite lookup_insert_ne.
      * split; [by apply Hrm | by apply Hdropped].
    + split; [by apply Hrm | by apply Hdropped].
  - intros d v Hr. destruct (Hok d v Hr) as [Hmap ->]. split.
    + intros [[=] | (slot & q & Hslot & Hq & Hv)].
      exists slot. split; [eauto |].
      rewrite Hmap, decide_True, Hq by done. simpl. done.
    + intros (slot & [q Hq] & Hnone). right.
      assert (Hslot : slot ∈ Object_keys offlineQuestions)
        by (apply Object_keys_elem; eauto).
      rewrite Hmap, decide_True, Hq in Hnone by done. simpl in Hnone.
      eauto 6.
  - intros Hall.
    eapply validate_slots_resolve; eauto using Object_keys_NoDup.
Qed.

(** When the validation resolves: it resolves with true exactly when some
    slot is rejected, which is exactly when it asked for a removal. *)
Lemma validateQuestions_discarded attemptId onlineQuestions offlineQuestions
  siteId st discarded validated st' t :
  validateQuestions attemptId onlineQuestions offlineQuestions siteId st
  = (Ok (discarded, validated), st', t) ->
  let rejected :=
    exists slot offlineQuestion,
      offlineQuestions !! slot = Some offlineQuestion
      /\ validated_slot onlineQuestions slot offlineQuestion = None in
  (discarded = true <-> rejected)
  /\ ((exists slot res,
          EvRemoveQuestionAndAnswers attemptId slot siteId res ∈ t)
      <-> rejected).
Proof.
  unfold validateQuestions. intros Hrun.
  assert (Hdom : forall slot,
             slot ∈ Object_keys offlineQuestions ->
             is_Some (offlineQuestions !! slot))
    by (by intros slot ?%Object_keys_elem).
  destruct (validate_slots_run _ _ _ _ _ _ _ _ _ _ Hrun
              (Object_keys_NoDup _) Hdom) as (Hev & Hrm & Hok).
  destruct (Hok _ _ eq_refl) as [_ Hdisc].
  split.
  - rewrite Hdisc. split.
    + intros [[=] | (slot & q & _ & Hq & Hv)]. eauto.
    + intros (slot & q & Hq & Hv). right. exists slot, q.
      split; [apply Object_keys_elem; eauto | done].
  - split.
    + intros (slot & res & Hin).
      destruct (Hev _ Hin) as (slot' & q & res' & _ & _ & Hq & Hv). eauto.
    + intros (slot & q & Hq & Hv).
      destruct (Hrm slot q) as [res Hin]; eauto.
      apply Object_keys_elem; eauto.
Qed.

(** C1. The finish flag of the submission. Whenever a synchronisation
    reaches the submission call, the offline attempt, its stored answers
    and the online questions it was validated against are on record, and
    the finish flag sent is true if and only if the offline attempt is
    marked finished and no slot was discarded by the validation, that is,
    no removal of a slot's data was asked for; a slot is discarded exactly
    when the callback of the validation rejects it. In particular, if the
    sequence check of any slot fails, the flag sent is false, whatever the
    finished flag of the offline attempt. *)
Theorem finish_flag_of_submission quiz askPreflight siteId st r st' t
  q attempt answers preflightData finish timeUp offline site res :
  performSyncQuiz quiz askPreflight siteId st = (r, st', t) ->
  EvProcessAttempt q attempt answers preflightData finish timeUp offline site
    res ∈ t ->
  exists offlineAttempts offlineAttempt answersList pages onlineQuestions,
    EvGetQuizAttempts (quiz_id quiz) site (Ok offlineAttempts) ∈ t
    /\ Array_pop offlineAttempts = Some offlineAttempt
    /\ EvGetAttemptAnswers (oa_id offlineAttempt) site (Ok answersList) ∈ t
    /\ EvGetAllQuestionsData quiz attempt preflightData pages ONLY_NETWORK
         site (Ok onlineQuestions) ∈ t
    /\ let offlineQuestions :=
         classifyAnswersInQuestions
           (convertAnswersArrayToObject answersList) in
       let discarded :=
         exists slot res',
           EvRemoveQuestionAndAnswers (at_id attempt) slot site res' ∈ t in
       (finish = true <-> oa_finished offlineAttempt = true /\ ~ discarded)
       /\ (discarded <->
           exists slot offlineQuestion,
             offlineQuestions !! slot = Some offlineQuestion
             /\ validated_slot onlineQuestions slot offlineQuestion = None)
       /\ (forall slot offlineQuestion onlineQuestion,
              offlineQuestions !! slot = Some offlineQuestion ->
              onlineQuestions !! slot = Some onlineQuestion ->
              validateSequenceCheck onlineQuestion
                (oq_answers offlineQuestion !! ":sequencecheck") = false ->
              finish = false).
Proof.
  unfold performSyncQuiz, performSyncQuiz_rest. unfold_calls. intros Hrun Hin.
  run_all; repeat mem_step.
  all: match goal with
       | Hv : validateQuestions _ _ _ _ _ = (Ok ?x, _, _) |- _ =>
           destruct x as [discarded validated];
           pose proof (validateQuestions_discarded _ _ _ _ _ _ _ _ _ Hv)
             as [Hdisc Hrem]; cbn zeta in Hdisc, Hrem
       end.
  all: simpl in *.
  all: match goal with
       | |- context [EvRemoveQuestionAndAnswers ?att _ ?site _ ∈ ?t] =>
           assert (Hcalls :
                     (exists slot res',
                         EvRemoveQuestionAndAnswers att slot site res' ∈ t)
                     <-> discarded = true)
       end.
  all: try (rewrite Hdisc, <- Hrem; split;
            [ intros (slot & res' & Hin'); repeat (first [by eauto | mem_step])
            | intros (slot & res' & Hin'); exists slot, res';
              repeat first [ apply list_elem_of_here
                           | apply list_elem_of_further
                           | by (apply elem_of_app; left)
                           | apply elem_of_app; right ] ]; fail).
  all: do 5 eexists; split; [| split; [eassumption |]; split; [| split]].
  all: try (repeat first [ apply list_elem_of_here
                         | apply list_elem_of_further
                         | apply elem_of_app; right ]; fail).
  all: cbn zeta; rewrite Hcalls.
  all: split; [| split].
  all: try (destruct (oa_finished _), discarded; simpl; intuition congruence).
  all: try (by rewrite Hdisc).
  all: intros slot offlineQuestion onlineQuestion Hq Honline Hcheck;
       assert (Hd : discarded = true)
         by (apply Hdisc; exists slot, offlineQuestion; split; [done |];
             unfold validated_slot; by rewrite Honline, Hcheck);
       rewrite Hd; apply andb_false_r.
Qed.





End SyncQuiz.

(** ** The promises and the batch operation *)

Section Promises.
Context {W : Type} `{Collaborators W}.

Lemma getOngoingSync_run id siteId (st : State W) r st' t :
  getOngoingSync id siteId st = (r, st', t) ->
  r = Ok (syncPromises st !! (siteId, id)) /\ st' = st
  /\ t = [EvGetOngoingSync id siteId (syncPromises st !! (siteId, id))].
Proof. unfold getOngoingSync. intros [= <- <- <-]. auto. Qed.

Lemma promise_performSyncQuiz_run quiz askPreflight siteId
  (st : State W) r st' t :
  promise_performSyncQuiz quiz askPreflight siteId st = (r, st', t) ->
  exists res w,
    syncActivity COMPONENT (quiz_id quiz)
      (string_or siteId (getCurrentSiteId (world st))) (world st) = (res, w)
    /\ r = Ok (nextPromise st)
    /\ st' = mkState w (syncPromises st)
               (<[nextPromise st :=
                    mkPending quiz askPreflight
                      (string_or siteId (getCurrentSiteId (world st)))]>
                  (pending st))
               (settled st) (S (nextPromise st))
    /\ t = [EvSyncActivity COMPONENT (quiz_id quiz)
              (string_or siteId (getCurrentSiteId (world st))) res].
Proof.
  unfold promise_performSyncQuiz, CoreSites_getCurrentSiteId,
    CoreCourseLogHelper_syncActivity, bind, gets, ignoreErrors, call.
  destruct (syncActivity _ _ _ _) as [[u | e] w] eqn:Hcall; simpl;
    intros [= <- <- <-]; eauto 10.
Qed.

Lemma addOngoingSync_run id promise siteId (st : State W) r st' t :
  addOngoingSync id promise siteId st = (r, st', t) ->
  r = Ok promise
  /\ st' = mkState (world st)
             (<[(siteId, id) := promise]> (syncPromises st))
             (pending st) (settled st) (nextPromise st)
  /\ t = [EvAddOngoingSync id promise siteId].
Proof. unfold addOngoingSync. intros [= <- <- <-]. auto. Qed.

Lemma CoreEvents_trigger_run eventName data siteId (st : State W) r st' t :
  CoreEvents_trigger eventName data siteId st = (r, st', t) ->
  r = Ok tt /\ t = [EvTrigger eventName data siteId].
Proof. unfold CoreEvents_trigger. intros [= <- <- <-]. auto. Qed.

Lemma await_run promise (st : State W) r st' t :
  await promise st = (r, st', t) ->
  exists t0,
    t = t0 ++ [EvAwait promise r]
    /\ Forall (fun ev => reconcile_event ev = true) t0.
Proof.
  unfold await. destruct (settled st !! promise) as [r0 |].
  - intros [= <- <- <-]. by exists [].
  - destruct (pending st !! promise) as [p |].
    + destruct (performSyncQuiz_rest _ _ _ st) as [[r1 st1] t1] eqn:Hrun.
      intros [= <- <- <-]. exists t1. split; [done |].
      by apply performSyncQuiz_rest_only in Hrun.
    + intros [= <- <- <-]. by exists [].
Qed.

(** A synchronisation that is started and waited for is [performSyncQuiz]
    run to its end: the same calls with the same answers, the same
    outcome, the same world left. *)
Lemma promise_performSyncQuiz_await quiz askPreflight siteId (st : State W)
  promise st1 t1 r st2 t2 :
  promise_performSyncQuiz quiz askPreflight siteId st = (Ok promise, st1, t1) ->
  settled st !! nextPromise st = None ->
  await promise st1 = (r, st2, t2) ->
  exists calls st',
    t2 = calls ++ [EvAwait promise r]
    /\ performSyncQuiz quiz askPreflight siteId st = (r, st', t1 ++ calls)
    /\ world st' = world st2.
Proof.
  unfold promise_performSyncQuiz, performSyncQuiz, CoreSites_getCurrentSiteId,
    CoreCourseLogHelper_syncActivity, bind, gets, ignoreErrors, call, await.
  set (site := string_or siteId (getCurrentSiteId (world st))).
  destruct (syncActivity COMPONENT (quiz_id quiz) site (world st))
    as [logs w] eqn:Hlogs.
  intros Hpromise Hfresh.
  assert (Hmade : promise = nextPromise st
                  /\ st1 = mkState w (syncPromises st)
                             (<[nextPromise st :=
                                  mkPending quiz askPreflight site]>
                                (pending st))
                             (settled st) (S (nextPromise st))
                  /\ t1 = [EvSyncActivity COMPONENT (quiz_id quiz) site logs]).
  { destruct logs; simpl in Hpromise; by injection Hpromise as <- <- <-. }
  destruct Hmade as (-> & -> & ->). clear Hpromise. simpl.
  rewrite Hfresh, lookup_insert_eq. simpl.
  match goal with
  | |- context [performSyncQuiz_rest quiz askPreflight site ?s] =>
      destruct (performSyncQuiz_rest_worldly quiz askPreflight site
                  s (set_world st w) eq_refl)
        as (r' & w' & calls & -> & Hrest)
  end.
  intros [= <- <- <-]. exists calls. eexists.
  split; [done |].
  destruct logs; simpl; rewrite Hrest; simpl; done.
Qed.

End Promises.

Ltac run_promise_step :=
  match goal with
  | H : getOngoingSync _ _ _ = _ |- _ =>
      apply getOngoingSync_run in H as (? & ? & ?)
  | H : promise_performSyncQuiz _ _ _ _ = _ |- _ =>
      apply promise_performSyncQuiz_run in H as (? & ? & _ & ? & ? & ?)
  | H : addOngoingSync _ _ _ _ = _ |- _ =>
      apply addOngoingSync_run in H as (? & ? & ?)
  | H : CoreEvents_trigger _ _ _ _ = _ |- _ =>
      apply CoreEvents_trigger_run in H as (? & ?)
  | H : await _ _ = _ |- _ =>
      let Hkind := fresh "Hkind" in
      apply await_run in H as (? & ? & Hkind);
      rewrite Forall_forall in Hkind
  end; simplify_eq/=.

Ltac run_callback :=
  repeat (first [run_promise_step | run_step | run_case]).

Ltac mem_promise_step :=
  match goal with
  | H : _ ∈ [] |- _ => apply elem_of_nil in H; destruct H
  | H : _ ∈ _ :: _ |- _ => apply elem_of_cons in H as [H | H]
  | H : _ ∈ _ ++ _ |- _ => apply elem_of_app in H as [H | H]
  | H : ?ev ∈ ?t, Hkind : forall ev, ev ∈ ?t -> reconcile_event ev = true
    |- _ => apply Hkind in H; simpl in H
  end; event_eq; simplify_eq/=.

Ltac mem_find :=
  repeat first [ apply list_elem_of_here
               | apply list_elem_of_further
               | apply elem_of_app; right ].

Section Batch.
Context {W : Type} `{Collaborators W}.


(** The callback of one attempt taken alone is its part up to the fetch
    followed by its part from the outcome of the fetch on. *)
Lemma sync_callback_alone force siteId attempt (st : State W) :
  (let* fetched := started (AddonModQuiz_getQuizById (oa_courseid attempt)
                              (oa_quizid attempt) siteId) in
   let* quiz := waited fetched in
   sync_callback_rest force siteId quiz) st
  = sync_callback force siteId attempt st.
Proof. apply started_waited. Qed.

(** Where a single attempt is listed and its quiz is not locked, the batch
    operation is the listing, the lock check and the callback of that
    attempt. *)
Lemma syncAllQuizzesFunc_single force siteId attempt (st : State W) w :
  getAllAttempts siteId (world st) = (Ok [attempt], w) ->
  isBlocked COMPONENT (oa_quizid attempt) siteId w = false ->
  exists r st' t,
    sync_callback force siteId attempt (set_world st w) = (r, st', t)
    /\ syncAllQuizzesFunc force siteId st
       = (match r with Ok _ => Ok tt | Err e => Err e end, st',
          EvGetAllAttempts siteId (Ok [attempt])
          :: EvIsBlocked COMPONENT (oa_quizid attempt) siteId false :: t).
Proof.
  intros Hlist Hlock.
  destruct (sync_callback force siteId attempt (set_world st w))
    as [[r st'] t] eqn:Hcallback.
  exists r, st', t. split; [done |].
  rewrite <- sync_callback_alone in Hcallback.
  unfold syncAllQuizzesFunc, AddonModQuizOffline_getAllAttempts, bind, call,
    started, waited in *.
  rewrite Hlist. cbn [sync_callbacks_start].
  rewrite decide_False by apply not_elem_of_empty.
  unfold CoreSync_isBlocked, AddonModQuiz_getQuizById, bind, ask, call,
    started, ret in *.
  cbn [world set_world] in *. rewrite Hlock.
  unfold set_world in *. cbn [world syncPromises pending settled nextPromise] in *.
  destruct (getQuizById _ _ _ w) as [fetched w1].
  cbn [map Promise_all] in *.
  destruct fetched as [quiz | e]; simpl in *.
  - destruct (Promise_all _ _) as [[rs st3] t3] eqn:Hall.
    apply Promise_all_cons_run in Hall
      as (r1 & st1 & t1 & rs' & t2 & Hcb & Hnil & -> & ->).
    apply Promise_all_nil_run in Hnil as (-> & -> & ->).
    destruct (sync_callback_rest force siteId quiz _) as [[r2 st2] t2].
    injection Hcallback as <- <- <-. injection Hcb as <- <- <-.
    rewrite ?app_nil_r. by destruct r2.
  - injection Hcallback as <- <- <-. by rewrite ?app_nil_r.
Qed.

(** The first part of the callbacks never rejects and makes lock checks
    and fetches on the site of the batch only; every quiz not seen before
    is checked, and one found unlocked is fetched, with the course of its
    first attempt, and its callback goes on from the outcome of the
    fetch. *)
Lemma sync_callbacks_start_run siteId attempts :
  forall quizIds st r st' t,
    sync_callbacks_start siteId attempts quizIds st = (r, st', t) ->
    exists callbacks,
      r = Ok callbacks
      /\ (forall ev, ev ∈ t ->
            (exists quizId blocked,
                ev = EvIsBlocked COMPONENT quizId siteId blocked)
            \/ exists courseId quizId res,
                ev = EvGetQuizById courseId quizId siteId res
                /\ res ∈ callbacks)
      /\ (forall attempt,
            attempt ∈ attempts ->
            oa_quizid attempt ∉ quizIds ->
            exists blocked,
              EvIsBlocked COMPONENT (oa_quizid attempt) siteId blocked ∈ t
              /\ (blocked = false ->
                  exists courseId res,
                    EvGetQuizById courseId (oa_quizid attempt) siteId res ∈ t
                    /\ res ∈ callbacks)).
Proof.
  induction attempts as [| attempt attempts IH];
    intros quizIds st r st' t Hrun; simpl in Hrun.
  - run_all. exists []. repeat split; try done.
    + intros ev []%elem_of_nil.
    + intros a []%elem_of_nil.
  - destruct (decide (oa_quizid attempt ∈ quizIds)) as [Hseen | Hnew].
    + destruct (IH _ _ _ _ _ Hrun) as (callbacks & -> & Hev & Hall).
      exists callbacks. repeat split; try done.
      intros a [-> | Ha]%elem_of_cons Hfresh; [done | by apply Hall].
    + unfold CoreSync_isBlocked, AddonModQuiz_getQuizById in Hrun.
      assert (Hlater : forall a (t0 : list Event)
                 (callbacks : list (result AddonModQuizQuizWSData)),
                 (forall a,
                     a ∈ attempts ->
                     oa_quizid a ∉ {[oa_quizid attempt]} ∪ quizIds ->
                     exists blocked,
                       EvIsBlocked COMPONENT (oa_quizid a) siteId blocked ∈ t0
                       /\ (blocked = false ->
                           exists courseId res,
                             EvGetQuizById courseId (oa_quizid a) siteId res
                             ∈ t0
                             /\ res ∈ callbacks)) ->
                 a ∈ attempts ->
                 oa_quizid a ∉ quizIds ->
                 oa_quizid a <> oa_quizid attempt ->
                 exists blocked,
                   EvIsBlocked COMPONENT (oa_quizid a) siteId blocked ∈ t0
                   /\ (blocked = false ->
                       exists courseId res,
                         EvGetQuizById courseId (oa_quizid a) siteId res ∈ t0
                         /\ res ∈ callbacks)).
      { intros a t0 callbacks Hall Ha Hfresh Hne. apply Hall; [done |].
        by intros [?%elem_of_singleton | ?]%elem_of_union. }
      run_all;
        repeat match goal with
        | Hs : sync_callbacks_start _ _ _ _ = _ |- _ =>
            destruct (IH _ _ _ _ _ Hs) as (callbacks & ? & Hev & Hall);
            clear Hs
        end; simplify_eq/=.
      * (* locked *)
        eexists. split; [done |]. split.
        -- intros ev [-> | Hin]%elem_of_cons; [left; eauto |].
           by apply Hev.
        -- intros a Ha Hfresh.
           destruct (decide (oa_quizid a = oa_quizid attempt)) as [Heq | Hne].
           ++ exists true. split; [rewrite Heq; apply list_elem_of_here |].
              done.
           ++ apply elem_of_cons in Ha as [-> | Ha]; [done |].
              destruct (Hlater a _ _ Hall Ha Hfresh Hne)
                as (blocked & Hin & Hfetch).
              exists blocked. split; [by apply list_elem_of_further |].
              intros Hb. destruct (Hfetch Hb) as (c & res & Hres & Hcb).
              exists c, res. split; [by apply list_elem_of_further | done].
      * (* not locked: the quiz is fetched *)
        eexists. split; [done |]. rewrite app_nil_r. split.
        -- intros ev [-> | [-> | Hin]%elem_of_cons]%elem_of_cons.
           ++ left. eauto.
           ++ right. do 3 eexists. split; [done |]. apply list_elem_of_here.
           ++ destruct (Hev ev Hin) as [? | (c & q & res & -> & Hres)];
                [by left |].
              right. do 3 eexists. split; [done |].
              by apply list_elem_of_further.
        -- intros a Ha Hfresh.
           destruct (decide (oa_quizid a = oa_quizid attempt)) as [Heq | Hne].
           ++ exists false. split; [rewrite Heq; apply list_elem_of_here |].
              intros _. do 2 eexists. rewrite Heq.
              split; [apply list_elem_of_further, list_elem_of_here |].
              apply list_elem_of_here.
           ++ apply elem_of_cons in Ha as [-> | Ha]; [done |].
              destruct (Hlater a _ _ Hall Ha Hfresh Hne)
                as (blocked & Hin & Hfetch).
              exists blocked. split; [by do 2 apply list_elem_of_further |].
              intros Hb. destruct (Hfetch Hb) as (c & res & Hres & Hcb).
              exists c, res.
              split; [by do 2 apply list_elem_of_further |].
              by apply list_elem_of_further.
Qed.

Lemma sync_requested_app_l quiz (t1 t2 : list Event) :
  sync_requested quiz t1 -> sync_requested quiz (t1 ++ t2).
Proof.
  intros (site & current & Hlook & Hthen). exists site, current.
  split; [apply elem_of_app; by left |].
  destruct Hthen as [Hlocked | (promise & outcome & Hfrom & Hwait)].
  - left. apply elem_of_app. by left.
  - right. exists promise, outcome. split.
    + destruct Hfrom as [-> | Hadd]; [by left |].
      right. apply elem_of_app. by left.
    + apply elem_of_app. by left.
Qed.

Lemma sync_requested_app_r quiz (t1 t2 : list Event) :
  sync_requested quiz t2 -> sync_requested quiz (t1 ++ t2).
Proof.
  intros (site & current & Hlook & Hthen). exists site, current.
  split; [apply elem_of_app; by right |].
  destruct Hthen as [Hlocked | (promise & outcome & Hfrom & Hwait)].
  - left. apply elem_of_app. by right.
  - right. exists promise, outcome. split.
    + destruct Hfrom as [-> | Hadd]; [by left |].
      right. apply elem_of_app. by right.
    + apply elem_of_app. by right.
Qed.

(** A callback that goes on: it makes no fetch and never lists the
    attempts, rejects when the fetch it waited for or the synchronisation
    rejects, asks to store the warnings of a result that has some, and
    requests the synchronisation of the quiz fetched. *)
Lemma sync_callback_rest_facts force siteId fetched st r st' t :
  (let* quiz := waited fetched in sync_callback_rest force siteId quiz) st
  = (r, st', t) ->
  (forall c q s res, EvGetQuizById c q s res ∉ t)
  /\ (forall site res, EvGetAllAttempts site res ∉ t)
  /\ (forall e, fetched = Err e -> r = Err e)
  /\ (forall promise e, EvAwait promise (Err e) ∈ t -> r = Err e)
  /\ (forall promise result,
         EvAwait promise (Ok result) ∈ t ->
         warnings result <> [] ->
         exists quizId res,
           EvSetSyncWarnings quizId (warnings result) siteId res ∈ t)
  /\ (forall quiz, fetched = Ok quiz -> quiz_processed force siteId quiz t).
Proof.
  unfold quiz_processed, sync_callback_rest, syncQuizIfNeeded, syncQuiz,
    this_isSyncNeeded, this_setSyncWarnings, CoreSync_isBlocked,
    CoreSites_getCurrentSiteId.
  intros Hrun. destruct force; run_callback.
  all: rewrite ?app_nil_r, <- ?app_assoc; simpl.
  all: split; [intros c0 q0 s0 res0 Hin; by repeat mem_promise_step |].
  all: split; [intros site0 res0 Hin; by repeat mem_promise_step |].
  all: split; [by intros e [= <-] |].
  all: split; [intros promise e Hin; by repeat mem_promise_step |].
  all: split;
    [ intros promise result Hin Hw; repeat mem_promise_step; try done;
      do 2 eexists;
      repeat match goal with
             | Hw : warnings ?x = _ |- context [warnings ?x] => rewrite Hw
             end;
      mem_find |].
  all: intros quiz Hfetched; try discriminate Hfetched;
    injection Hfetched as <-.
  all: try (eexists; split; [solve [mem_find] |]; intros Hneeded;
            try discriminate Hneeded).
  all: do 2 eexists; (split; [solve [mem_find] |]).
  all: first
    [ left; solve [mem_find]
    | right; do 2 eexists;
      split; [first [by left | right; solve [mem_find]] | solve [mem_find]] ].
Qed.

Lemma quiz_processed_app_l force siteId quiz (t1 t2 : list Event) :
  quiz_processed force siteId quiz t1 ->
  quiz_processed force siteId quiz (t1 ++ t2).
Proof.
  unfold quiz_processed. destruct force; [apply sync_requested_app_l |].
  intros (needed & Hin & Hthen). exists needed.
  split; [apply elem_of_app; by left |].
  intros Hneeded. by apply sync_requested_app_l, Hthen.
Qed.

Lemma quiz_processed_app_r force siteId quiz (t1 t2 : list Event) :
  quiz_processed force siteId quiz t2 ->
  quiz_processed force siteId quiz (t1 ++ t2).
Proof.
  unfold quiz_processed. destruct force; [apply sync_requested_app_r |].
  intros (needed & Hin & Hthen). exists needed.
  split; [apply elem_of_app; by right |].
  intros Hneeded. by apply sync_requested_app_r, Hthen.
Qed.

(** The callbacks that go on, run one after the other whatever the
    others do. *)
Lemma sync_callbacks_run force siteId callbacks :
  forall st r st' t,
    Promise_all
      (map (fun fetched =>
              let* quiz := waited fetched in
              sync_callback_rest force siteId quiz)
         callbacks) st = (r, st', t) ->
    (forall c q s res, EvGetQuizById c q s res ∉ t)
    /\ (forall site res, EvGetAllAttempts site res ∉ t)
    /\ (forall e, Err e ∈ callbacks -> exists e', r = Err e')
    /\ (forall promise e, EvAwait promise (Err e) ∈ t -> exists e', r = Err e')
    /\ (forall promise result,
           EvAwait promise (Ok result) ∈ t ->
           warnings result <> [] ->
           exists quizId res,
             EvSetSyncWarnings quizId (warnings result) siteId res ∈ t)
    /\ (forall quiz,
           Ok quiz ∈ callbacks -> quiz_processed force siteId quiz t).
Proof.
  induction callbacks as [| fetched callbacks IH]; intros st r st' t Hrun.
  - apply Promise_all_nil_run in Hrun as (-> & -> & ->).
    split; [by intros c q s res ?%elem_of_nil |].
    split; [by intros site res ?%elem_of_nil |].
    split; [by intros e ?%elem_of_nil |].
    split; [by intros promise e ?%elem_of_nil |].
    split; [by intros promise result ?%elem_of_nil |].
    by intros quiz ?%elem_of_nil.
  - cbn [map] in Hrun.
    apply Promise_all_cons_run in Hrun
      as (r1 & st1 & t1 & rs & t2 & Hcb & Hrest & -> & ->).
    apply sync_callback_rest_facts in Hcb
      as (Hfetch & Hno & Hfailed & Herr & Hw & Hdone).
    apply IH in Hrest as (Hfetch' & Hno' & Hfailed' & Herr' & Hw' & Hdone').
    split; [| split; [| split; [| split; [| split]]]].
    + intros c q s res [Hin | Hin]%elem_of_app;
        [by eapply Hfetch | by eapply Hfetch'].
    + intros site res [Hin | Hin]%elem_of_app; [by eapply Hno | by eapply Hno'].
    + intros e [<- | Hin]%elem_of_cons.
      * rewrite (Hfailed e eq_refl). eauto.
      * destruct (Hfailed' _ Hin) as [e' ->]. destruct r1; eauto.
    + intros promise e [Hin | Hin]%elem_of_app.
      * rewrite (Herr _ _ Hin). eauto.
      * destruct (Herr' _ _ Hin) as [e' ->]. destruct r1; eauto.
    + intros promise result [Hin | Hin]%elem_of_app Hne.
      * destruct (Hw _ _ Hin Hne) as (q & res' & Hin').
        exists q, res'. apply elem_of_app. by left.
      * destruct (Hw' _ _ Hin Hne) as (q & res' & Hin').
        exists q, res'. apply elem_of_app. by right.
    + intros quiz [<- | Hin]%elem_of_cons.
      * by apply quiz_processed_app_l, Hdone.
      * by apply quiz_processed_app_r, Hdone'.
Qed.

(** C6, as the code has it. In the batch operation a failure while
    syncing one quiz is not caught: when the synchronisation a callback
    waited for rejects, or the fetch of a quiz does, the batch operation
    rejects. The other quizzes are processed all the same: every listed
    quiz has its lock checked and, if it is not locked, is fetched; a quiz
    whose fetch succeeded has its synchronisation requested, at once when
    the batch is forced and otherwise when the check says that it is
    needed, and a request that is not refused because the quiz is locked
    by then is waited for; and for every synchronisation that resolved
    with warnings the service asks to store them. *)
Theorem batch_rejects_with_quiz_failure force siteId st r st' t attempts :
  syncAllQuizzesFunc force siteId st = (r, st', t) ->
  EvGetAllAttempts siteId (Ok attempts) ∈ t ->
  (forall promise e, EvAwait promise (Err e) ∈ t -> exists e', r = Err e')
  /\ (forall courseId quizId site e,
         EvGetQuizById courseId quizId site (Err e) ∈ t ->
         exists e', r = Err e')
  /\ (forall attempt,
         attempt ∈ attempts ->
         exists blocked,
           EvIsBlocked COMPONENT (oa_quizid attempt) siteId blocked ∈ t
           /\ (blocked = false ->
               exists courseId res,
                 EvGetQuizById courseId (oa_quizid attempt) siteId res ∈ t
                 /\ forall quiz,
                     res = Ok quiz ->
                     if force then sync_requested quiz t
                     else
                       exists needed,
                         EvIsSyncNeeded (quiz_id quiz) (Some siteId) needed
                         ∈ t
                         /\ (needed = Ok true -> sync_requested quiz t)))
  /\ (forall promise result,
         EvAwait promise (Ok result) ∈ t ->
         warnings result <> [] ->
         exists quizId res,
           EvSetSyncWarnings quizId (warnings result) siteId res ∈ t).
Proof.
  unfold syncAllQuizzesFunc, AddonModQuizOffline_getAllAttempts.
  intros Hrun Hin. run_all.
  all: repeat match goal with
         | Hs : sync_callbacks_start _ _ _ _ = _ |- _ =>
             apply sync_callbacks_start_run in Hs
               as (callbacks & ? & Hev & Hstart)
         | Hs : Promise_all (map _ _) _ = _ |- _ =>
             apply sync_callbacks_run in Hs
               as (Hfetch & Hno & Hfailed & Herr & Hw & Hdone)
         end; simplify_eq/=.
  all: rewrite ?app_nil_r in *.
  3: by repeat mem_step.
  all: apply elem_of_cons in Hin as [Hin | [Hin | Hin]%elem_of_app];
    [ injection Hin as ->
    | by destruct (Hev _ Hin) as [(? & ? & [=]) | (? & ? & ? & [=] & _)]
    | by apply Hno in Hin ].
  all: split; [| split; [| split]].
  all: try (intros promise e [Heq | [Hi | Hi]%elem_of_app]%elem_of_cons;
            [ discriminate Heq
            | by destruct (Hev _ Hi) as [(? & ? & [=]) | (? & ? & ? & [=] & _)]
            | first [ by eauto | by destruct (Herr _ _ Hi) ] ]).
  all: try (intros courseId quizId site e
              [Heq | [Hi | Hi]%elem_of_app]%elem_of_cons;
            [ discriminate Heq
            | destruct (Hev _ Hi)
                as [(? & ? & [=]) | (? & ? & ? & [= <- <- <- <-] & Hcb)];
              first [ by eauto | by destruct (Hfailed _ Hcb) ]
            | by apply Hfetch in Hi ]).
  all: try (intros promise result
              [Heq | [Hi | Hi]%elem_of_app]%elem_of_cons Hne;
            [ discriminate Heq
            | by destruct (Hev _ Hi) as [(? & ? & [=]) | (? & ? & ? & [=] & _)]
            | destruct (Hw _ _ Hi Hne) as (q & res & Hres);
              exists q, res;
              apply list_elem_of_further, elem_of_app; by right ]).
  all: intros a Ha; destruct (Hstart a Ha) as (b & Hb & Hfetched);
    [apply not_elem_of_empty |];
    exists b; split;
    [ apply list_elem_of_further, elem_of_app; by left |];
    intros Hb'; destruct (Hfetched Hb') as (c & res & Hres & Hcb);
    exists c, res; split;
    [ apply list_elem_of_further, elem_of_app; by left |];
    intros quiz ->;
    apply (quiz_processed_app_r _ siteId quiz [_]),
      quiz_processed_app_r, (Hdone _ Hcb).
Qed.

End Batch.

(** ** Single flight *)

Section SingleFlight.
Context {W : Type} `{Collaborators W}.

Lemma no_submission (P : Event -> bool) t :
  Forall (fun ev => P ev = true) t ->
  (forall ev, P ev = true -> is_submission ev = false) ->
  List.filter is_submission t = [].
Proof.
  intros Hall HP. induction Hall as [| ev t Hev _ IH]; [done |].
  simpl. by rewrite (HP ev Hev).
Qed.

Ltac count_submissions :=
  repeat match goal with
         | Hf : finishSync _ _ _ _ _ _ = _ |- _ =>
             apply finishSync_only, (no_submission _ _) in Hf;
               [| by intros []]
         | Hf : validateQuestions _ _ _ _ _ = _ |- _ =>
             apply validateQuestions_only, (no_submission _ _) in Hf;
               [| by intros []]
         | Hf : Promise_all_map (prepare_slot _ _ _) _ _ _ = _ |- _ =>
             apply (only_Promise_all_map prepare_event),
               (no_submission _ _) in Hf;
               [| by intros [] | intros; apply prepare_slot_only]
         end;
  unfold submissions;
  rewrite ?List.filter_app; simpl;
  rewrite ?List.filter_app; simpl;
  repeat match goal with
         | Hf : List.filter is_submission _ = [] |- _ => rewrite Hf; clear Hf
         end; simpl.

(** The rest of a reconciliation submits at most once. *)
Lemma performSyncQuiz_rest_submits_once quiz askPreflight siteId st r st' t :
  performSyncQuiz_rest quiz askPreflight siteId st = (r, st', t) ->
  (submissions t <= 1)%nat.
Proof.
  unfold performSyncQuiz_rest. unfold_calls. intros Hrun.
  run_all.
  all: count_submissions; lia.
Qed.

(** The rest of a reconciliation that resolves after it read stored
    answers has submitted them, once. *)
Lemma performSyncQuiz_rest_submits quiz askPreflight siteId st result st' t
  attemptId site answer answers :
  performSyncQuiz_rest quiz askPreflight siteId st = (Ok result, st', t) ->
  EvGetAttemptAnswers attemptId site (Ok (answer :: answers)) ∈ t ->
  submissions t = 1%nat.
Proof.
  unfold performSyncQuiz_rest. unfold_calls. intros Hrun Hin.
  run_all; repeat mem_step.
  all: count_submissions; lia.
Qed.

Lemma string_or_again siteId current :
  string_or (Some (string_or siteId current)) current
  = string_or siteId current.
Proof.
  unfold string_or. destruct siteId as [s |].
  - destruct (String.eqb_spec s "") as [-> | Hs].
    + by destruct (String.eqb current "").
    + by destruct (String.eqb_spec s "").
  - by destruct (String.eqb_spec current "") as [-> | ?].
Qed.

(** C8, as the code has it. Single flight. A call to [syncQuiz] for a
    quiz and a site with no synchronisation in flight, in a state whose
    next promise is a new one, looks the registry up, checks the lock,
    starts the reconciliation, which makes the call that syncs the offline
    logs, and registers its promise: the synchronisation is in flight. A
    second call for the same quiz and site, made in any state in which it
    still is, whatever the collaborators have done since, returns the
    promise in the registry: the look-up is its only call, so it checks no
    lock and starts no reconciliation, and it leaves the state as it was.
    The first wait on the promise runs the rest of the one reconciliation,
    which starts nothing again and submits at most once, and exactly once
    when it resolves after reading stored answers; the synchronisation
    then leaves the registry. Every other wait on the promise makes no
    call and observes the same outcome. *)
Theorem syncQuiz_single_flight quiz askPreflight siteId st promise st1 t1 :
  syncQuiz quiz askPreflight siteId st = (Ok promise, st1, t1) ->
  let site := string_or siteId (getCurrentSiteId (world st)) in
  syncPromises st !! (site, quiz_id quiz) = None ->
  settled st !! nextPromise st = None ->
  (exists logs,
      t1 = [EvGetOngoingSync (quiz_id quiz) site None;
            EvIsBlocked COMPONENT (quiz_id quiz) site false;
            EvSyncActivity COMPONENT (quiz_id quiz) site logs;
            EvAddOngoingSync (quiz_id quiz) promise site])
  /\ in_flight quiz askPreflight site promise st1
  /\ (forall st2 askPreflight2 siteId2,
         in_flight quiz askPreflight site promise st2 ->
         string_or siteId2 (getCurrentSiteId (world st2)) = site ->
         syncQuiz quiz askPreflight2 siteId2 st2
         = (Ok promise, st2,
            [EvGetOngoingSync (quiz_id quiz) site (Some promise)]))
  /\ (forall st2 r st3 t3,
         in_flight quiz askPreflight site promise st2 ->
         await promise st2 = (r, st3, t3) ->
         (exists calls,
             t3 = calls ++ [EvAwait promise r]
             /\ forall ev, ev ∈ calls -> is_start ev = false)
         /\ (submissions t3 <= 1)%nat
         /\ (forall result attemptId s answer answers,
                r = Ok result ->
                EvGetAttemptAnswers attemptId s (Ok (answer :: answers)) ∈ t3 ->
                submissions t3 = 1%nat)
         /\ syncPromises st3 !! (site, quiz_id quiz) = None
         /\ settled st3 !! promise = Some r)
  /\ (forall st4 r,
         settled st4 !! promise = Some r ->
         await promise st4 = (r, st4, [EvAwait promise r])).
Proof.
  intros Hfirst site Hnone Hfresh.
  assert (Hstarted :
            (exists logs,
                t1 = [EvGetOngoingSync (quiz_id quiz) site None;
                      EvIsBlocked COMPONENT (quiz_id quiz) site false;
                      EvSyncActivity COMPONENT (quiz_id quiz) site logs;
                      EvAddOngoingSync (quiz_id quiz) promise site])
            /\ in_flight quiz askPreflight site promise st1).
  { unfold syncQuiz, CoreSites_getCurrentSiteId, CoreSync_isBlocked in Hfirst.
    run_callback; [subst site; congruence |].
    pose proof (string_or_again siteId (getCurrentSiteId (world st)))
      as Hagain.
    cbn [string_or] in Hagain. rewrite Hagain. fold site.
    split; [eauto |]. unfold in_flight. simpl.
    by rewrite !lookup_insert_eq. }
  destruct Hstarted as [Htrace Hflight].
  split; [done |]. split; [done |]. split; [| split].
  - intros st2 askPreflight2 siteId2 (Hregistered & _ & _) Hsite.
    unfold syncQuiz, CoreSites_getCurrentSiteId, bind, gets, getOngoingSync,
      ret.
    rewrite Hsite. by rewrite Hregistered.
  - intros st2 r st3 t3 (Hregistered & Hpending & Hunsettled) Hawait.
    unfold await in Hawait. rewrite Hunsettled, Hpending in Hawait.
    cbn [ps_quiz ps_askPreflight ps_siteId] in Hawait.
    destruct (performSyncQuiz_rest _ _ _ st2) as [[r1 st2'] t2'] eqn:Hrun.
    injection Hawait as <- <- <-.
    split; [| split; [| split; [| split]]].
    + exists t2'. split; [done |].
      apply performSyncQuiz_rest_quiet in Hrun.
      rewrite Forall_forall in Hrun. intros ev Hin.
      apply Hrun in Hin. apply andb_true_iff in Hin as [_ Hin].
      by apply negb_true_iff in Hin.
    + apply performSyncQuiz_rest_submits_once in Hrun.
      unfold submissions in *. rewrite List.filter_app, length_app.
      simpl. lia.
    + intros result attemptId s answer answers -> Hin.
      apply elem_of_app in Hin as [Hin | Hin];
        [| by apply list_elem_of_singleton in Hin].
      apply (performSyncQuiz_rest_submits _ _ _ _ _ _ _ _ _ _ _ Hrun) in Hin.
      unfold submissions in *. rewrite List.filter_app, length_app.
      simpl. lia.
    + unfold settle. simpl. by rewrite lookup_delete_eq.
    + unfold settle. simpl. by rewrite lookup_insert_eq.
  - intros st4 r Hsettled. unfold await. by rewrite Hsettled.
Qed.
End SingleFlight.

(** ** The entry points *)

Section EntryPoints.
Context {W : Type} `{Collaborators W}.

(** X1. [hasDataToSync] makes one call, the read of the attempts stored
    for the quiz, and never rejects: it resolves with true exactly when the
    read gave a list that is not empty, and with false when the list is
    empty or the read failed. *)
Theorem hasDataToSync_never_rejects quizId siteId st r st' t :
  hasDataToSync quizId siteId st = (r, st', t) ->
  exists res b,
    t = [EvGetQuizAttempts quizId siteId res]
    /\ r = Ok b
    /\ (b = true <-> exists attempts, res = Ok attempts /\ attempts <> []).
Proof.
  unfold hasDataToSync, AddonModQuizOffline_getQuizAttempts.
  intros Hrun. run_all; do 2 eexists; (split; [reflexivity |]);
    (split; [reflexivity |]); simpl.
  - destruct x as [| a l]; simpl; split; [done | | | ]; eauto.
    intros (l' & [= <-] & Hne). done.
  - split; [done |]. intros (l & [=] & _).
Qed.

(** X2. [syncQuizIfNeeded] first asks whether the time for a
    synchronisation has come.  It resolves with nothing exactly when the
    answer is no, and has made no other call then; a failure of the check is
    the rejection, with no other call either; when the answer is yes it goes
    on with [syncQuiz], whose first call looks for a synchronisation in
    flight. *)
Theorem syncQuizIfNeeded_skips quiz askPreflight siteId st r st' t :
  syncQuizIfNeeded quiz askPreflight siteId st = (r, st', t) ->
  exists res rest,
    t = EvIsSyncNeeded (quiz_id quiz) siteId res :: rest
    /\ (r = Ok None <-> res = Ok false)
    /\ (res = Ok false -> rest = [])
    /\ (forall e, res = Err e -> r = Err e /\ rest = [])
    /\ (res = Ok true ->
        exists site cur rest',
          rest = EvGetOngoingSync (quiz_id quiz) site cur :: rest').
Proof.
  unfold syncQuizIfNeeded, this_isSyncNeeded, syncQuiz, CoreSync_isBlocked,
    CoreSites_getCurrentSiteId.
  intros Hrun. run_callback.
  all: rewrite ?app_nil_r, <- ?app_assoc; simpl.
  all: do 2 eexists; (split; [reflexivity |]).
  all: repeat split; try done; try (intros; simplify_eq; eauto; fail).
Qed.

(** X3. When no synchronisation of the quiz is in flight and the quiz is
    locked, [syncQuiz] rejects with core.errorsyncblocked: the look-up and
    the lock check are its only calls, and nothing is registered. *)
Theorem syncQuiz_blocked quiz askPreflight siteId st r st' t :
  syncQuiz quiz askPreflight siteId st = (r, st', t) ->
  let site := string_or siteId (getCurrentSiteId (world st)) in
  EvGetOngoingSync (quiz_id quiz) site None ∈ t ->
  EvIsBlocked COMPONENT (quiz_id quiz) site true ∈ t ->
  r = Err (CoreError "core.errorsyncblocked")
  /\ st' = st
  /\ t = [EvGetOngoingSync (quiz_id quiz) site None;
          EvIsBlocked COMPONENT (quiz_id quiz) site true].
Proof.
  unfold syncQuiz, CoreSync_isBlocked, CoreSites_getCurrentSiteId.
  cbv zeta. intros Hrun Hnone Hblocked. run_callback.
  all: repeat mem_promise_step.
  all: done.
Qed.

End EntryPoints.

(** ** The finalisation *)

Section Finalisation.
Context {W : Type} `{Collaborators W}.

Lemma delete_promises_run (onlineQuestions : OnlineQuestions) cmId siteId keys :
  forall st rs st' t,
    Promise_all
      (omap (fun slot =>
               question ← onlineQuestions !! slot;
               Some (CoreQuestionDelegate_deleteOfflineData question
                       COMPONENT cmId siteId)) keys) st = (rs, st', t) ->
    (forall ev, ev ∈ t ->
       exists slot question res,
         slot ∈ keys /\ onlineQuestions !! slot = Some question
         /\ ev = EvDeleteOfflineData question COMPONENT cmId siteId res)
    /\ (forall slot question,
          slot ∈ keys -> onlineQuestions !! slot = Some question ->
          exists res,
            EvDeleteOfflineData question COMPONENT cmId siteId res ∈ t)
    /\ (forall e, rs = Err e ->
          exists ev, ev ∈ t /\ finish_failure ev = Some e)
    /\ (forall ev, ev ∈ t -> is_Some (finish_failure ev) ->
          exists e, rs = Err e).
Proof.
  induction keys as [| k keys IH]; intros st rs st' t Hrun.
  - simpl in Hrun. apply Promise_all_nil_run in Hrun as (-> & -> & ->).
    split; [by intros ev ?%elem_of_nil |].
    split; [by intros slot q ?%elem_of_nil |].
    split; [done | by intros ev ?%elem_of_nil].
  - simpl in Hrun. destruct (onlineQuestions !! k) as [q |] eqn:Hq;
      simpl in Hrun.
    + apply Promise_all_cons_run in Hrun
        as (r1 & st1 & t1 & rs' & t2 & Hcall & Hrest & -> & ->).
      unfold CoreQuestionDelegate_deleteOfflineData in Hcall.
      apply call_run in Hcall as (_ & _ & ->).
      destruct (IH _ _ _ _ Hrest) as (Hev & Hall & Herr & Hfail).
      split; [| split; [| split]].
      * intros ev [-> | Hin]%elem_of_cons.
        -- exists k, q, r1. split; [apply list_elem_of_here | done].
        -- destruct (Hev _ Hin) as (slot & q' & res & ? & ? & ?).
           exists slot, q', res. split; [by apply list_elem_of_further | done].
      * intros slot q' [-> | Hslot]%elem_of_cons Hq'.
        -- simplify_eq. exists r1. apply list_elem_of_here.
        -- destruct (Hall _ _ Hslot Hq') as [res Hin].
           exists res. by apply list_elem_of_further.
      * intros e He. destruct r1 as [u | e1].
        -- destruct rs' as [l | e2]; [done |]. injection He as <-.
           destruct (Herr _ eq_refl) as (ev & Hin & Hf).
           exists ev. split; [by apply list_elem_of_further | done].
        -- injection He as <-. eexists. split; [apply list_elem_of_here | done].
      * intros ev [-> | Hin]%elem_of_cons Hf.
        -- destruct r1 as [u | e1]; [by destruct Hf | eauto].
        -- destruct (Hfail _ Hin Hf) as [e ->].
           destruct r1; eauto.
    + destruct (IH _ _ _ _ Hrun) as (Hev & Hall & Herr & Hfail).
      split; [| split; [| split]]; try done.
      * intros ev Hin. destruct (Hev _ Hin) as (slot & q' & res & ? & ? & ?).
        exists slot, q', res. split; [by apply list_elem_of_further | done].
      * intros slot q' [-> | Hslot]%elem_of_cons Hq'; [congruence | eauto].
Qed.

Lemma removal_promises_run siteId quiz attemptId onlineQuestions st rs st' t :
  Promise_all (removal_promises siteId quiz attemptId onlineQuestions) st
  = (rs, st', t) ->
  (exists res rest,
      t = EvRemoveAttemptAndAnswers attemptId siteId res :: rest
      /\ forall ev, ev ∈ rest ->
           exists question res',
             ev = EvDeleteOfflineData question COMPONENT
                    (quiz_coursemodule quiz) siteId res')
  /\ (forall questions slot question,
        onlineQuestions = Some questions ->
        questions !! slot = Some question ->
        exists res,
          EvDeleteOfflineData question COMPONENT (quiz_coursemodule quiz)
            siteId res ∈ t)
  /\ (forall e, rs = Err e -> exists ev, ev ∈ t /\ finish_failure ev = Some e)
  /\ (forall ev, ev ∈ t -> is_Some (finish_failure ev) -> exists e, rs = Err e).
Proof.
  unfold removal_promises. intros Hrun.
  apply Promise_all_cons_run in Hrun
    as (r1 & st1 & t1 & rs' & t2 & Hcall & Hrest & -> & ->).
  unfold AddonModQuizOffline_removeAttemptAndAnswers in Hcall.
  apply call_run in Hcall as (_ & _ & ->).
  destruct onlineQuestions as [questions |].
  - destruct (delete_promises_run _ _ _ _ _ _ _ _ Hrest)
      as (Hev & Hall & Herr & Hfail).
    split; [| split; [| split]].
    + exists r1, t2. split; [done |]. intros ev Hin.
      destruct (Hev _ Hin) as (slot & q & res & _ & _ & ->). eauto.
    + intros qs slot q [= <-] Hq.
      destruct (Hall slot q) as [res Hin]; [| done |].
      * apply Object_keys_elem. eauto.
      * exists res. by apply list_elem_of_further.
    + intros e He. destruct r1 as [u | e1].
      * destruct rs' as [l | e2]; [done |]. injection He as <-.
        destruct (Herr _ eq_refl) as (ev & Hin & Hf).
        exists ev. split; [by apply list_elem_of_further | done].
      * injection He as <-. eexists. split; [apply list_elem_of_here | done].
    + intros ev [-> | Hin]%elem_of_cons Hf.
      * destruct r1 as [u | e1]; [by destruct Hf | eauto].
      * destruct (Hfail _ Hin Hf) as [e ->]. destruct r1; eauto.
  - apply Promise_all_nil_run in Hrest as (-> & -> & ->).
    split; [| split; [| split]].
    + exists r1, []. split; [done |]. by intros ev ?%elem_of_nil.
    + done.
    + intros e He. destruct r1 as [u | e1]; [done |]. injection He as <-.
      eexists. split; [apply list_elem_of_here | done].
    + intros ev [-> | []%elem_of_nil]%elem_of_cons Hf.
      destruct r1 as [u | e1]; [by destruct Hf | eauto].
Qed.

Lemma prefetch_no_failure module quiz courseId siteId st r st' t ev :
  prefetchAfterUpdateQuiz module quiz courseId siteId st = (r, st', t) ->
  ev ∈ t -> prefetch_event ev = true.
Proof.
  intros Hrun Hin. apply prefetchAfterUpdateQuiz_only in Hrun.
  rewrite Forall_forall in Hrun. auto.
Qed.

(** X4. [finishSync] rejects exactly when a removal of offline data or
    the read of the online attempts failed, and then with the error of such
    a call.  When it resolves, the warnings are the ones it was given and
    [updated] is [!!options.updated || !!options.removeAttempt]. *)
Theorem finishSync_rejection siteId quiz courseId warnings0 options
  st r st' t :
  finishSync siteId quiz courseId warnings0 options st = (r, st', t) ->
  let o := default no_options options in
  (forall e, r = Err e -> exists ev, ev ∈ t /\ finish_failure ev = Some e)
  /\ (forall ev, ev ∈ t -> is_Some (finish_failure ev) -> exists e, r = Err e)
  /\ (forall result,
         r = Ok result ->
         warnings result = warnings0
         /\ updated result
            = truthy_bool (fo_updated o) || truthy_bool (fo_removeAttempt o)).
Proof.
  unfold finishSync. generalize (default no_options options) as o.
  intros o Hrun. cbv zeta. unfold_calls. run_all.
  all: repeat match goal with
         | Hp : Promise_all (removal_promises _ _ _ _) _ = _ |- _ =>
             apply removal_promises_run in Hp
               as ((res & rest & -> & Hrest) & _ & Herr & Hfail)
         end.
  all: rewrite ?app_nil_r, <- ?app_assoc; simpl.
  all: split; [| split].
  all: try (intros result [= <-]; simpl; split; [done |];
            repeat match goal with
                   | Hb : truthy_bool _ = _ |- _ => rewrite Hb
                   | Hb : _ && _ = true |- _ =>
                       apply andb_true_iff in Hb as [Hb _]
                   end; simpl; rewrite ?orb_true_r; done).
  all: try (intros ? [=]; fail).
  all: try (intros ev Hin Hf; eauto; fail).
  all: try (intros ev Hin Hf; exfalso;
            repeat first
              [ match goal with
                | Hi : _ ∈ [] |- _ => apply elem_of_nil in Hi; destruct Hi
                | Hi : _ ∈ _ :: _ |- _ => apply elem_of_cons in Hi as [-> | Hi]
                | Hi : _ ∈ _ ++ _ |- _ => apply elem_of_app in Hi as [Hi | Hi]
                | Hi : ?ev ∈ ?t,
                  Hp : prefetchAfterUpdateQuiz _ _ _ _ _ = (_, _, ?t) |- _ =>
                    apply (prefetch_no_failure _ _ _ _ _ _ _ _ _ Hp) in Hi;
                    destruct ev; try discriminate Hi; by destruct Hf
                | Hi : ?ev ∈ ?rest,
                  Hfail : forall ev, ev ∈ _ :: ?rest -> _ |- _ =>
                    destruct (Hfail _ (list_elem_of_further _ _ _ Hi) Hf)
                      as [? [=]]
                | Hfail : forall ev, ev ∈ ?x :: _ -> _ ,
                  Hf' : is_Some (finish_failure ?x) |- _ =>
                    destruct (Hfail _ (list_elem_of_here _ _) Hf') as [? [=]]
                | Hf' : is_Some (finish_failure _) |- _ =>
                    by destruct Hf'
                end ]; fail).
  all: intros e [= <-].
  all: first
    [ eexists (EvGetUserAttempts _ _ (Err _)); split; [solve [mem_find] | done]
    | match goal with
      | Herr : forall e, Err ?e0 = Err e -> _ |- _ =>
          destruct (Herr _ eq_refl) as (ev & Hin & Hf);
          exists ev; split; [by apply list_elem_of_further | done]
      end ].
Qed.

Ltac fin_mem :=
  match goal with
  | Hi : _ ∈ [] |- _ => apply elem_of_nil in Hi; destruct Hi
  | Hi : _ ∈ _ :: _ |- _ => apply elem_of_cons in Hi as [Hi | Hi]
  | Hi : _ ∈ _ ++ _ |- _ => apply elem_of_app in Hi as [Hi | Hi]
  | Hi : ?ev ∈ ?t,
    Hp : prefetchAfterUpdateQuiz _ _ _ _ _ = (_, _, ?t) |- _ =>
      apply (prefetch_no_failure _ _ _ _ _ _ _ _ _ Hp) in Hi; simpl in Hi
  | Hi : ?ev ∈ ?rest,
    Hrest : forall ev, ev ∈ ?rest -> exists _ _, ev = _ |- _ =>
      destruct (Hrest _ Hi) as (? & ? & ?); clear Hi
  end; event_eq; simplify_eq/=.

(** X5. The [attemptFinished] flag of the result of [finishSync] is true
    exactly when an online attempt was given that was not finished, the
    attempts were read again, and the attempt with the same identifier is
    found finished among them.  When no online attempt is given, or a
    finished one, the attempts are not read again. *)
Theorem finishSync_attemptFinished siteId quiz courseId warnings0 options
  st result st' t :
  finishSync siteId quiz courseId warnings0 options st = (Ok result, st', t) ->
  let o := default no_options options in
  (attemptFinished result = true <->
   exists onlineAttempt attempts attempt,
     fo_onlineAttempt o = Some onlineAttempt
     /\ isAttemptFinished (at_state onlineAttempt) = false
     /\ EvGetUserAttempts (quiz_id quiz)
          (mkModOptions (quiz_coursemodule quiz) None siteId) (Ok attempts) ∈ t
     /\ Array_find (fun a => Z.eqb (at_id a) (at_id onlineAttempt)) attempts
        = Some attempt
     /\ isAttemptFinished (at_state attempt) = true)
  /\ ((forall onlineAttempt,
         fo_onlineAttempt o = Some onlineAttempt ->
         isAttemptFinished (at_state onlineAttempt) = true) ->
      forall quizId modOptions res,
        EvGetUserAttempts quizId modOptions res ∉ t).
Proof.
  unfold finishSync. generalize (default no_options options) as o.
  intros o Hrun. cbv zeta. unfold_calls. run_all.
  all: repeat match goal with
         | Hp : Promise_all (removal_promises _ _ _ _) _ = _ |- _ =>
             apply removal_promises_run in Hp
               as ((res & rest & -> & Hrest) & _ & _ & _)
         end.
  all: rewrite ?app_nil_r, <- ?app_assoc; simpl.
  all: repeat match goal with
         | Hb : negb _ = true |- _ => apply negb_true_iff in Hb
         | Hb : negb _ = false |- _ => apply negb_false_iff in Hb
         end.
  all: split;
    [ split;
      [ intros Hfin
      | intros (onlineAttempt & attempts & attempt & Ho & Hnot & Hin & Hfind
                & Hfin); simplify_eq; try congruence; repeat fin_mem ]
    | intros Hall quizId modOptions res' Hin;
      try match goal with
          | Ho : fo_onlineAttempt _ = Some ?a |- _ =>
              specialize (Hall _ Ho); try congruence
          end;
      repeat fin_mem ].
  all: try done.
  all: try congruence.
  all: try match goal with
           | Hf : Array_find _ _ = Some _ |- _ => by rewrite Hf
           end.
  all: try (destruct (Array_find _ _) eqn:Hfind; [| done];
            do 3 eexists; split; [reflexivity |]; split; [done |];
            split; [solve [mem_find] |]; split; [exact Hfind | done]).
  all: specialize (Hall _ eq_refl); congruence.
Qed.

(** X6. [finishSync] removes offline data only when [removeAttempt] and
    the attempt identifier are both truthy.  Then the removal of the attempt
    and the removal of the data of every online question given are all
    asked for; when one of them fails [finishSync] rejects and the sync time
    is not set. *)
Theorem finishSync_removal siteId quiz courseId warnings0 options
  st r st' t :
  finishSync siteId quiz courseId warnings0 options st = (r, st', t) ->
  let o := default no_options options in
  let removing :=
    truthy_bool (fo_removeAttempt o) && truthy_number (fo_attemptId o) in
  (removing = false -> forall ev, ev ∈ t -> is_removal ev = false)
  /\ (removing = true ->
      exists attemptId res,
        fo_attemptId o = Some attemptId
        /\ EvRemoveAttemptAndAnswers attemptId siteId res ∈ t
        /\ forall questions slot question,
             fo_onlineQuestions o = Some questions ->
             questions !! slot = Some question ->
             exists res',
               EvDeleteOfflineData question COMPONENT (quiz_coursemodule quiz)
                 siteId res' ∈ t)
  /\ (forall ev e,
         ev ∈ t -> is_removal ev = true -> finish_failure ev = Some e ->
         (exists e', r = Err e')
         /\ forall quizId site res, EvSetSyncTime quizId site res ∉ t).
Proof.
  unfold finishSync. generalize (default no_options options) as o.
  intros o Hrun. cbv zeta. unfold_calls. run_all.
  all: repeat match goal with
         | Hp : Promise_all (removal_promises _ _ _ _) _ = _ |- _ =>
             apply removal_promises_run in Hp
               as ((res & rest & -> & Hrest) & Hall & Herr & Hfail)
         end.
  all: rewrite ?app_nil_r, <- ?app_assoc; simpl.
  all: unfold truthy_number.
  all: repeat match goal with
         | Hb : _ && _ = _ |- _ => rewrite Hb
         end.
  all: split; [| split].
  all: try (intros Hrm; rewrite ?andb_false_r in Hrm; discriminate Hrm).
  all: try (intros _ ev Hin; repeat fin_mem; try done;
            match goal with
            | |- is_removal ?ev = false => by destruct ev
            end).
  all: try (intros _; do 2 eexists; split; [reflexivity |];
            split; [solve [mem_find] |];
            intros qs slot q Hqs Hq;
            destruct (Hall qs slot q Hqs Hq) as [res' Hin];
            exists res';
            apply elem_of_cons in Hin as [Heq | Hin]; [discriminate Heq |];
            do 2 apply list_elem_of_further;
            first [exact Hin | apply elem_of_app; by left]).
  all: intros ev e Hin Hrem Hf.
  all: try (exfalso; repeat fin_mem; try done;
            match goal with
            | Hi : prefetch_event ?ev = true |- _ => by destruct ev
            end).
  all: match goal with
       | Hfail : forall ev, ev ∈ ?l -> _ |- _ =>
           assert (Hin' : ev ∈ l);
           [ clear Hfail Herr Hall;
             repeat match goal with
                    | Hi : _ ∈ [] |- _ => by apply elem_of_nil in Hi
                    | Hi : _ ∈ _ :: _ |- _ =>
                        apply elem_of_cons in Hi as [-> | Hi];
                        [first [discriminate Hrem | apply list_elem_of_here] |]
                    | Hi : _ ∈ _ ++ _ |- _ =>
                        apply elem_of_app in Hi as [Hi | Hi];
                        [try (by apply list_elem_of_further) |]
                    | Hi : ?ev ∈ ?t,
                      Hp : prefetchAfterUpdateQuiz _ _ _ _ _ = (_, _, ?t)
                      |- _ =>
                        apply (prefetch_no_failure _ _ _ _ _ _ _ _ _ Hp) in Hi;
                        by destruct ev
                    end;
             try by apply list_elem_of_further
           | destruct (Hfail _ Hin') as [e' He']; [by rewrite Hf |];
             try discriminate He' ]
       end.
  all: split; [eauto |].
  all: intros quizId site res0 Hin2; repeat fin_mem.
Qed.

End Finalisation.

(** ** What a reconciliation leaves behind *)

Section Outcome.
Context {W : Type} `{Collaborators W}.

(** X7. A submission made by [performSyncQuiz] is for the quiz being
    synchronised, with [timeUp] and [offline] false, made while the device
    is online, and the attempt it sends to is the online attempt, among the
    ones fetched from the network, that has the identifier of the last
    stored attempt and is not finished. *)
Theorem performSyncQuiz_submission_target quiz askPreflight siteId
  st r st' t q attempt answers preflightData finish timeUp offline site res :
  performSyncQuiz quiz askPreflight siteId st = (r, st', t) ->
  EvProcessAttempt q attempt answers preflightData finish timeUp offline site
    res ∈ t ->
  q = quiz /\ timeUp = false /\ offline = false
  /\ EvIsOnline true ∈ t
  /\ exists offlineAttempts offlineAttempt onlineAttempts,
      EvGetQuizAttempts (quiz_id quiz) site (Ok offlineAttempts) ∈ t
      /\ Array_pop offlineAttempts = Some offlineAttempt
      /\ EvGetUserAttempts (quiz_id quiz)
           (mkModOptions (quiz_coursemodule quiz) (Some ONLY_NETWORK) site)
           (Ok onlineAttempts) ∈ t
      /\ Array_find (fun a => Z.eqb (at_id a) (oa_id offlineAttempt))
           onlineAttempts = Some attempt
      /\ at_id attempt = oa_id offlineAttempt
      /\ isAttemptFinished (at_state attempt) = false.
Proof.
  unfold performSyncQuiz, performSyncQuiz_rest. unfold_calls. intros Hrun Hin.
  run_all; repeat mem_step.
  all: repeat match goal with
         | Hb : negb _ = false |- _ => apply negb_false_iff in Hb
         end.
  all: repeat match goal with
         | Hb : isOnline _ = true |- _ => rewrite Hb
         end.
  all: repeat split; try done.
  all: try (solve [mem_find]).
  all: do 3 eexists; split; [solve [mem_find] |]; split; [eassumption |];
    split; [solve [mem_find] |]; split; [eassumption |]; split; [| done].
  all: match goal with
       | Hf : Array_find _ _ = Some _ |- _ =>
           unfold Array_find in Hf; apply find_some in Hf as [_ Hf];
           by apply Z.eqb_eq in Hf
       end.
Qed.

Lemma Promise_all_map_resolved {L K} (f : K -> L -> M W L)
  (P : Event -> Prop) :
  (forall k vars st vars' st' t,
      f k vars st = (Ok vars', st', t) -> forall ev, ev ∈ t -> P ev) ->
  forall keys vars st vars' st' t,
    Promise_all_map f keys vars st = (Ok vars', st', t) ->
    forall ev, ev ∈ t -> P ev.
Proof.
  intros Hf. induction keys as [| k keys IH]; intros vars st vars' st' t Hrun.
  - apply Promise_all_map_nil_run in Hrun as (_ & _ & ->).
    by intros ev ?%elem_of_nil.
  - apply Promise_all_map_cons_run in Hrun
      as (r1 & st1 & t1 & r2 & t2 & Hk & Hrest & -> & Hr).
    destruct r1 as [vars1 | e]; [| done]. subst r2.
    intros ev [Hin | Hin]%elem_of_app; [eapply Hf | eapply IH]; eauto.
Qed.

Lemma validateQuestions_resolved attemptId onlineQuestions offlineQuestions
  siteId st x st' t ev :
  validateQuestions attemptId onlineQuestions offlineQuestions siteId st
  = (Ok x, st', t) ->
  ev ∈ t -> reconcile_failure ev = None.
Proof.
  unfold validateQuestions. intros Hrun0 Hin0.
  eapply (Promise_all_map_resolved _ (fun ev => reconcile_failure ev = None));
    [| exact Hrun0 | exact Hin0].
  clear. intros slot [d q] st [d' q'] st' t Hrun ev Hin.
  unfold validate_slot, AddonModQuizOffline_removeQuestionAndAnswers in Hrun.
  run_all; repeat mem_step; done.
Qed.

Lemma prepare_resolved quiz onlineQuestions siteId keys offlineQuestions
  st x st' t ev :
  Promise_all_map (prepare_slot quiz onlineQuestions siteId) keys
    offlineQuestions st = (Ok x, st', t) ->
  ev ∈ t -> reconcile_failure ev = None.
Proof.
  intros Hrun0 Hin0.
  eapply (Promise_all_map_resolved _ (fun ev => reconcile_failure ev = None));
    [| exact Hrun0 | exact Hin0].
  clear. intros slot q st q' st' t Hrun ev Hin.
  unfold prepare_slot, CoreQuestionDelegate_prepareSyncData in Hrun.
  run_all; repeat mem_step; done.
Qed.

Lemma finish_event_no_failure attemptId ev :
  finish_event attemptId ev = true -> reconcile_failure ev = None.
Proof.
  destruct ev; simpl; try done.
  intros Hs%bool_decide_eq_true. destruct r; [done |]. by rewrite Hs.
Qed.

Ltac mem_plain :=
  match goal with
  | Hi : _ ∈ [] |- _ => apply elem_of_nil in Hi; destruct Hi
  | Hi : _ ∈ _ :: _ |- _ => apply elem_of_cons in Hi as [-> | Hi]
  | Hi : _ ∈ _ ++ _ |- _ => apply elem_of_app in Hi as [Hi | Hi]
  end.

Ltac no_failure :=
  repeat first
    [ mem_plain
    | match goal with
      | Hi : ?ev ∈ ?t,
        Hv : validateQuestions _ _ _ _ _ = (Ok _, _, ?t) |- _ =>
          apply (validateQuestions_resolved _ _ _ _ _ _ _ _ _ Hv) in Hi
      | Hi : ?ev ∈ ?t,
        Hv : Promise_all_map (prepare_slot _ _ _) _ _ _ = (Ok _, _, ?t)
        |- _ =>
          apply (prepare_resolved _ _ _ _ _ _ _ _ _ _ Hv) in Hi
      | Hi : ?ev ∈ ?t,
        Hv : finishSync _ _ _ _ _ _ = (_, _, ?t) |- _ =>
          apply (finishSync_event _ _ _ _ _ _ _ _ _ _ Hv) in Hi;
          apply finish_event_no_failure in Hi
      end ];
  match goal with
  | Hf : is_Some (reconcile_failure _) |- _ =>
      first [ by destruct Hf
            | match goal with
              | Hi : reconcile_failure _ = None |- _ =>
                  rewrite Hi in Hf; by destruct Hf
              end ]
  end.

Lemma validate_event_not_final ev :
  validate_event ev = true -> is_finalisation ev = false.
Proof. by destruct ev. Qed.

Lemma prepare_event_not_final ev :
  prepare_event ev = true -> is_finalisation ev = false.
Proof. by destruct ev. Qed.

(** X8. When a call [performSyncQuiz] waits for before the finalisation
    fails (a read of the store, the fetch of the online attempts, of the
    access information, of the preflight data or of the questions, the
    removal of a question, the preparation or the submission of the
    answers), the synchronisation rejects and none of the calls of the
    finalisation is made: no invalidation, no removal of the stored
    attempt with its answers, no deletion of the offline data of a
    question by the question delegate, no sync time. The stored answers of
    the slots that the validation rejected are another matter:
    [validateQuestions] has them removed as it goes, before the
    preparation and the submission. *)
Theorem performSyncQuiz_failure_keeps_attempt quiz askPreflight siteId
  st r st' t ev :
  performSyncQuiz quiz askPreflight siteId st = (r, st', t) ->
  ev ∈ t ->
  is_Some (reconcile_failure ev) ->
  (exists e, r = Err e)
  /\ forall ev', ev' ∈ t -> is_finalisation ev' = false.
Proof.
  unfold performSyncQuiz, performSyncQuiz_rest. unfold_calls. intros Hrun Hin Hf.
  run_all.
  all: try (exfalso; no_failure; fail).
  all: split; [eauto |].
  all: clear Hin Hf; intros ev' Hin.
  all: repeat first
    [ mem_plain
    | match goal with
      | Hi : ?ev ∈ ?t,
        Hv : validateQuestions _ _ _ _ _ = (_, _, ?t) |- _ =>
          apply (validateQuestions_event _ _ _ _ _ _ _ _ _ Hv) in Hi;
          by apply validate_event_not_final
      | Hi : ?ev ∈ ?t,
        Hv : Promise_all_map (prepare_slot _ _ _) _ _ _ = (_, _, ?t)
        |- _ =>
          apply (prepare_event_of _ _ _ _ _ _ _ _ _ _ Hv) in Hi;
          by apply prepare_event_not_final
      end ].
  all: try done.
Qed.

Lemma finishSync_fields siteId quiz courseId warnings0 options
  st result st' t :
  finishSync siteId quiz courseId warnings0 options st = (Ok result, st', t) ->
  warnings result = warnings0
  /\ updated result
     = truthy_bool (fo_updated (default no_options options))
       || truthy_bool (fo_removeAttempt (default no_options options)).
Proof.
  unfold finishSync. generalize (default no_options options) as o.
  intros o Hrun. unfold_calls. run_all; done.
Qed.

(** X9. A synchronisation that resolves reports [updated] exactly when
    the store listed an attempt for the quiz. *)
Theorem performSyncQuiz_updated quiz askPreflight siteId st result st' t
  quizId site offlineAttempts :
  performSyncQuiz quiz askPreflight siteId st = (Ok result, st', t) ->
  EvGetQuizAttempts quizId site (Ok offlineAttempts) ∈ t ->
  updated result = true <-> offlineAttempts <> [].
Proof.
  unfold performSyncQuiz, performSyncQuiz_rest. unfold_calls. intros Hrun Hin.
  run_all; repeat mem_step.
  all: match goal with
       | Hf : finishSync _ _ _ _ _ _ = _ |- _ =>
           apply finishSync_fields in Hf as [_ ->]; simpl
       end.
  all: match goal with
       | Hp : Array_pop ?l = None |- _ =>
           unfold Array_pop in Hp; apply last_None in Hp; by subst
       | Hp : Array_pop ?l = Some _ |- _ =>
           unfold Array_pop in Hp; by destruct l
       end.
Qed.

Lemma validateQuestions_calls attemptId onlineQuestions offlineQuestions
  siteId st r st' t ev :
  validateQuestions attemptId onlineQuestions offlineQuestions siteId st
  = (r, st', t) ->
  ev ∈ t ->
  exists slot res, ev = EvRemoveQuestionAndAnswers attemptId slot siteId res.
Proof.
  unfold validateQuestions. intros Hrun Hin.
  assert (Hdom : forall slot,
             slot ∈ Object_keys offlineQuestions ->
             is_Some (offlineQuestions !! slot))
    by (by intros slot ?%Object_keys_elem).
  destruct (validate_slots_run _ _ _ _ _ _ _ _ _ _ Hrun
              (Object_keys_NoDup _) Hdom) as (Hev & _ & _).
  destruct (Hev _ Hin) as (slot & q & res & -> & _). eauto.
Qed.

(** X10. The warnings of a synchronisation that found a stored attempt:
    the single warning for an attempt finished on the site when the stored
    answers were never read; none when they were read and no question was
    dropped; otherwise the single warning for discarded data, in its
    variant for finished attempts when the stored attempt was marked
    finished. *)
Theorem performSyncQuiz_warnings quiz askPreflight siteId st result st' t
  quizId site offlineAttempts offlineAttempt :
  performSyncQuiz quiz askPreflight siteId st = (Ok result, st', t) ->
  EvGetQuizAttempts quizId site (Ok offlineAttempts) ∈ t ->
  Array_pop offlineAttempts = Some offlineAttempt ->
  let dropped :=
    exists attemptId slot s res,
      EvRemoveQuestionAndAnswers attemptId slot s res ∈ t in
  let answers_read :=
    exists attemptId s res, EvGetAttemptAnswers attemptId s res ∈ t in
  (~ answers_read ->
   warnings result = ["addon.mod_quiz.warningattemptfinished"])
  /\ (answers_read -> ~ dropped -> warnings result = [])
  /\ (dropped ->
      warnings result
      = [if oa_finished offlineAttempt
         then "addon.mod_quiz.warningdatadiscardedfromfinished"
         else "addon.mod_quiz.warningdatadiscarded"]).
Proof.
  unfold performSyncQuiz, performSyncQuiz_rest. unfold_calls. intros Hrun Hin Hpop.
  run_all; repeat mem_step.
  all: match goal with
       | Hf : finishSync _ _ _ _ _ _ = _ |- _ =>
           pose proof (finishSync_fields _ _ _ _ _ _ _ _ _ Hf) as [-> _]
       end.
  all: cbv zeta.
  all: try match goal with
       | Hv : validateQuestions _ _ _ _ _ = (Ok ?x, _, _) |- _ =>
           destruct x as [discarded validated];
           pose proof (validateQuestions_discarded _ _ _ _ _ _ _ _ _ Hv)
             as [Hdisc Hrem]; cbn zeta in Hdisc, Hrem; simpl in *
       end.
  all: split; [| split].
  all: match goal with
       | |- ~ _ -> _ =>
           intros Hno;
           first [ done
                 | exfalso; apply Hno; do 3 eexists; solve [mem_find] ]
       | |- _ -> ~ _ -> _ =>
           intros (id & s & res & Hin') Hnd;
           first
             [ done
             | by repeat mem_step
             | destruct discarded; [exfalso; apply Hnd | done];
               destruct Hdisc as [Hdisc _]; destruct Hrem as [_ Hrem];
               destruct (Hrem (Hdisc eq_refl)) as (slot & res' & Hin2);
               do 4 eexists;
               repeat first
                 [ apply list_elem_of_further
                 | apply elem_of_app; left; exact Hin2
                 | apply elem_of_app; right ] ]
       | _ => idtac
       end.
  all: intros (att & slot & s & res & Hin').
  all: repeat first
    [ match goal with
      | Hi : ?ev ∈ ?t,
        Hv : validateQuestions _ _ _ _ _ = (_, _, ?t) |- _ =>
          destruct (validateQuestions_calls _ _ _ _ _ _ _ _ _ Hv Hi)
            as (slot' & res'' & Heq);
          injection Heq as -> -> -> ->;
          assert (Hd : discarded = true) by (apply Hdisc, Hrem; eauto);
          rewrite Hd; by destruct (oa_finished _)
      end
    | mem_step ].
Qed.

(** X11. After a submission that succeeded, [performSyncQuiz] logs the
    view of the page of the stored attempt exactly when the submission did
    not finish the attempt: on the online attempt, with the preflight data
    of the submission.  A view is logged only after such a submission, and
    the finalisation follows. *)
Theorem performSyncQuiz_logs_page quiz askPreflight siteId st r st' t :
  performSyncQuiz quiz askPreflight siteId st = (r, st', t) ->
  (forall q attempt answers preflightData finish timeUp offline site u,
      EvProcessAttempt q attempt answers preflightData finish timeUp offline
        site (Ok u) ∈ t ->
      if finish
      then forall attemptId page preflightData' offline' site' res,
             EvLogViewAttempt attemptId page preflightData' offline' site' res
             ∉ t
      else exists offlineAttempts offlineAttempt res,
             EvGetQuizAttempts (quiz_id quiz) site (Ok offlineAttempts) ∈ t
             /\ Array_pop offlineAttempts = Some offlineAttempt
             /\ EvLogViewAttempt (at_id attempt)
                  (oa_currentpage offlineAttempt) preflightData false site res
                ∈ t)
  /\ (forall attemptId page preflightData offline site res,
         EvLogViewAttempt attemptId page preflightData offline site res ∈ t ->
         (exists q attempt answers timeUp offline',
             EvProcessAttempt q attempt answers preflightData false timeUp
               offline' site (Ok tt) ∈ t)
         /\ exists courseId attempt' r',
             EvInvalidateAllQuizData (quiz_id quiz) courseId attempt' site r'
             ∈ t).
Proof.
  unfold performSyncQuiz, performSyncQuiz_rest. unfold_calls. intros Hrun.
  run_all.
  all: split;
    [ intros q attempt answers pf finish timeUp offline site u Hin
    | intros attemptId page pf offline site res Hin ];
    repeat mem_step.
  all: repeat match goal with
         | Hb : negb _ = true |- _ => apply negb_true_iff in Hb
         | Hb : negb _ = false |- _ => apply negb_false_iff in Hb
         end.
  all: repeat match goal with
         | Hb : oa_finished _ && negb _ = _ |- _ => rewrite Hb
         end.
  all: try (intros attemptId page pf' offline' site' res Hin;
            by repeat mem_step).
  all: try (do 3 eexists; split; [solve [mem_find] |];
            split; [eassumption |]; solve [mem_find]).
  all: repeat match goal with u : () |- _ => destruct u end.
  all: split; [do 5 eexists; solve [mem_find] |].
  all: match goal with
       | Hf : finishSync _ _ _ _ _ _ = _ |- _ =>
           apply finishSync_starts in Hf as (? & ? & ->)
       end.
  all: do 3 eexists; solve [mem_find].
Qed.

End Outcome.

(** ** The batch operation, quiz by quiz *)

Section BatchOrder.
Context {W : Type} `{Collaborators W}.

(** X12. [prefetchAfterUpdateQuiz] sets the status only of this quiz and
    module, and its outcome is then the outcome of that call: with the
    strategy PREFER_CACHE after a download that succeeded, without a
    strategy when nothing was downloaded.  The status is set exactly when
    the update check resolved and no download failed; a failure of the
    check or of the download is the rejection. *)
Theorem prefetchAfterUpdateQuiz_status module quiz courseId siteId
  st r st' t :
  prefetchAfterUpdateQuiz module quiz courseId siteId st = (r, st', t) ->
  (forall quiz' cmId strategy site res,
      EvSetStatusAfterPrefetch quiz' cmId strategy site res ∈ t ->
      quiz' = quiz /\ cmId = module_id module /\ site = siteId /\ r = res
      /\ (strategy = Some PREFER_CACHE
          /\ (exists u, EvDownload module courseId (Ok u) ∈ t)
          \/ strategy = None
             /\ forall module' courseId' res',
                  EvDownload module' courseId' res' ∉ t))
  /\ ((exists quiz' cmId strategy site res,
          EvSetStatusAfterPrefetch quiz' cmId strategy site res ∈ t)
      <-> (exists updates,
              EvGetModuleUpdates module courseId true siteId (Ok updates) ∈ t)
          /\ forall e, EvDownload module courseId (Err e) ∉ t)
  /\ (forall e,
         EvGetModuleUpdates module courseId true siteId (Err e) ∈ t
         \/ EvDownload module courseId (Err e) ∈ t ->
         r = Err e).
Proof.
  unfold prefetchAfterUpdateQuiz,
    CoreCourseModulePrefetchDelegate_getModuleUpdates,
    AddonModQuizPrefetchHandler_download,
    AddonModQuizPrefetchHandler_setStatusAfterPrefetch.
  intros Hrun. run_all.
  all: split; [| split].
  all: try (intros quiz' cmId strategy site res Hin; by repeat mem_step).
  all: try (intros quiz' cmId strategy site res Hin; repeat mem_step;
            repeat match goal with u : () |- _ => destruct u end;
            do 4 (split; [done |]);
            first
              [ left; split; [done |]; eexists; solve [mem_find]
              | right; split; [done |];
                intros module' courseId' res' Hin; by repeat mem_step ]).
  all: try (intros e [Hin | Hin]; by repeat mem_step).
  all: split.
  all: try (intros (quiz' & cmId & strategy & site & res & Hin);
            by repeat mem_step).
  all: try (intros _; do 5 eexists; solve [mem_find]).
  all: try (intros [(updates & Hin) Hno]; exfalso; repeat mem_step;
            eapply Hno; solve [mem_find]).
  all: try (intros _; split; [eexists; solve [mem_find] |];
            intros e Hin; by repeat mem_step).
Qed.

(** The first part of the callbacks fetches a quiz right after the lock
    check that found it unlocked, on the site of the batch, with the quiz
    and the course of a listed attempt. *)
Lemma sync_callbacks_start_order siteId attempts :
  forall quizIds st r st' t c q s res,
    sync_callbacks_start siteId attempts quizIds st = (r, st', t) ->
    EvGetQuizById c q s res ∈ t ->
    s = siteId
    /\ (exists attempt,
           attempt ∈ attempts /\ oa_quizid attempt = q
           /\ oa_courseid attempt = c)
    /\ exists before after,
        t = before
            ++ EvIsBlocked COMPONENT q siteId false
               :: EvGetQuizById c q s res :: after.
Proof.
  induction attempts as [| attempt attempts IH];
    intros quizIds st r st' t c q s res Hrun Hin; simpl in Hrun.
  - run_all. by apply elem_of_nil in Hin.
  - assert (Hlater : forall (t0 : list Event),
               (s = siteId
                /\ (exists a, a ∈ attempts /\ oa_quizid a = q
                              /\ oa_courseid a = c)
                /\ exists before after,
                    t0 = before
                         ++ EvIsBlocked COMPONENT q siteId false
                            :: EvGetQuizById c q s res :: after) ->
               forall front,
                 s = siteId
                 /\ (exists a, a ∈ attempt :: attempts /\ oa_quizid a = q
                               /\ oa_courseid a = c)
                 /\ exists before after,
                     front ++ t0
                     = before
                       ++ EvIsBlocked COMPONENT q siteId false
                          :: EvGetQuizById c q s res :: after).
    { intros t0 (Hs & (a & Ha & Hq & Hc) & before & after & ->) front.
      split; [done |]. split.
      - exists a. split; [by apply list_elem_of_further | done].
      - exists (front ++ before), after. by rewrite <- app_assoc. }
    destruct (decide (oa_quizid attempt ∈ quizIds)) as [Hseen | Hnew].
    + apply (Hlater t (IH _ _ _ _ _ _ _ _ _ Hrun Hin) []).
    + unfold CoreSync_isBlocked, AddonModQuiz_getQuizById in Hrun.
      run_all; rewrite ?app_nil_r in *.
      all: apply elem_of_cons in Hin as [[=] | Hin].
      all: try (match goal with
                | Hs : sync_callbacks_start _ _ _ _ = _ |- _ =>
                    apply (Hlater _ (IH _ _ _ _ _ _ _ _ _ Hs Hin) [_])
                end; fail).
      all: apply elem_of_cons in Hin as [[= -> -> -> ->] | Hin];
        [ split; [done |]; split;
          [ exists attempt; split; [apply list_elem_of_here | done]
          | by eexists [], _ ]
        | match goal with
          | Hs : sync_callbacks_start _ _ _ _ = _ |- _ =>
              apply (Hlater _ (IH _ _ _ _ _ _ _ _ _ Hs Hin) [_; _])
          end ].
Qed.

(** The first part of the callbacks fetches no quiz seen before, and no
    quiz twice. *)
Lemma sync_callbacks_start_fetches siteId attempts :
  forall quizIds st r st' t quizId,
    sync_callbacks_start siteId attempts quizIds st = (r, st', t) ->
    (quizId ∈ quizIds -> quiz_fetches quizId t = 0%nat)
    /\ (quiz_fetches quizId t <= 1)%nat.
Proof.
  induction attempts as [| attempt attempts IH];
    intros quizIds st r st' t quizId Hrun; simpl in Hrun.
  - run_all. unfold quiz_fetches. simpl. split; [done | lia].
  - destruct (decide (oa_quizid attempt ∈ quizIds)) as [Hseen | Hnew].
    + by eapply IH.
    + unfold CoreSync_isBlocked, AddonModQuiz_getQuizById in Hrun.
      run_all;
        match goal with
        | Hs : sync_callbacks_start _ _ _ _ = _ |- _ =>
            destruct (IH _ _ _ _ _ quizId Hs) as [Hzero Hone]
        end.
      all: rewrite ?app_nil_r; unfold quiz_fetches in *;
        cbn [List.filter is_fetch_of].
      all: try (split; [| done];
                intros Hin; apply Hzero, elem_of_union; by right).
      all: destruct (Z.eqb_spec (oa_quizid attempt) quizId) as [<- | Hne];
        cbn [length];
        [ split; [done |];
          rewrite Hzero; [lia |];
          apply elem_of_union; left; by apply elem_of_singleton
        | split; [| done];
          intros Hin; apply Hzero, elem_of_union; by right ].
Qed.

Lemma no_fetch_filter quizId (t : list Event) :
  (forall c q s res, EvGetQuizById c q s res ∉ t) ->
  List.filter (is_fetch_of quizId) t = [].
Proof.
  induction t as [| ev t IH]; intros Hno; [done |].
  cbn [List.filter].
  assert (Hev : is_fetch_of quizId ev = false).
  { destruct ev; try done. exfalso. eapply Hno, list_elem_of_here. }
  rewrite Hev. apply IH. intros c q s res Hin.
  eapply Hno. by apply list_elem_of_further.
Qed.

(** X13. The batch operation fetches each quiz at most once, however many
    stored attempts of it are listed. *)
Theorem syncAllQuizzesFunc_once_per_quiz force siteId st r st' t quizId :
  syncAllQuizzesFunc force siteId st = (r, st', t) ->
  (quiz_fetches quizId t <= 1)%nat.
Proof.
  unfold syncAllQuizzesFunc, AddonModQuizOffline_getAllAttempts.
  intros Hrun. run_all.
  all: try (unfold quiz_fetches; simpl; lia).
  all: match goal with
       | Hs : sync_callbacks_start _ _ _ _ = _ |- _ =>
           pose proof (sync_callbacks_start_run _ _ _ _ _ _ _ Hs)
             as (callbacks & Heq & _);
           try discriminate Heq;
           apply (sync_callbacks_start_fetches _ _ _ _ _ _ _ quizId) in Hs
             as [_ Hone]
       end.
  all: match goal with
       | Hp : Promise_all _ _ = _ |- _ =>
           apply sync_callbacks_run in Hp as (Hfetch & _)
       end.
  all: unfold quiz_fetches in *; cbn [List.filter is_fetch_of].
  all: rewrite ?app_nil_r, List.filter_app, length_app,
         (no_fetch_filter _ _ Hfetch); simpl.
  all: lia.
Qed.

(** X14. The batch operation fetches a quiz only on the site it works on,
    only right after the lock check of that quiz answered that it is not
    locked, the lock check being the call just before the fetch, and only
    for a quiz and course of a listed attempt. *)
Theorem syncAllQuizzesFunc_fetches_unlocked force siteId st r st' t
  attempts courseId quizId site res :
  syncAllQuizzesFunc force siteId st = (r, st', t) ->
  EvGetAllAttempts siteId (Ok attempts) ∈ t ->
  EvGetQuizById courseId quizId site res ∈ t ->
  site = siteId
  /\ (exists before after,
         t = before
             ++ EvIsBlocked COMPONENT quizId siteId false
                :: EvGetQuizById courseId quizId site res :: after)
  /\ exists attempt,
      attempt ∈ attempts /\ oa_quizid attempt = quizId
      /\ oa_courseid attempt = courseId.
Proof.
  unfold syncAllQuizzesFunc, AddonModQuizOffline_getAllAttempts.
  intros Hrun Hlist Hin. run_all.
  all: try (by repeat mem_step).
  all: match goal with
       | Hs : sync_callbacks_start _ _ _ _ = _ |- _ =>
           pose proof (sync_callbacks_start_run _ _ _ _ _ _ _ Hs)
             as (callbacks & Heq & Hev & _);
           try discriminate Heq; injection Heq as <-;
           pose proof (fun c q s res =>
                         sync_callbacks_start_order _ _ _ _ _ _ _ c q s res Hs)
             as Horder; clear Hs
       end.
  all: match goal with
       | Hp : Promise_all _ _ = _ |- _ =>
           apply sync_callbacks_run in Hp as (Hfetch & Hno & _)
       end.
  all: rewrite ?app_nil_r in *.
  all: apply elem_of_cons in Hlist as [Hlist | [Hlist | Hlist]%elem_of_app];
    [ injection Hlist as <-
    | by destruct (Hev _ Hlist) as [(? & ? & [=]) | (? & ? & ? & [=] & _)]
    | by apply Hno in Hlist ].
  all: apply elem_of_cons in Hin as [Hin | [Hin | Hin]%elem_of_app];
    [ discriminate Hin
    |
    | by apply Hfetch in Hin ].
  all: destruct (Horder _ _ _ _ Hin)
         as (-> & (a & Ha & <- & <-) & before & after & ->).
  all: split; [done |].
  all: split; [| by exists a].
  all: eexists (_ :: before), (after ++ _).
  all: by rewrite <- app_assoc.
Qed.

End BatchOrder.

(** ** The helpers of the utilities provider *)

Lemma getUniqueId_other name name' ids :
  name' <> name -> snd (getUniqueId name ids) !! name' = ids !! name'.
Proof.
  intros Hne. unfold getUniqueId, set_property. simpl.
  repeat case_match; rewrite ?lookup_insert_ne by done; done.
Qed.

Lemma getUniqueId_step name ids k :
  bool_decide (name ∈ Object_prototype_names) = false ->
  ids !! name = (if Z.eqb k 0 then None else Some (Num k)) ->
  0 <= k < 2 ^ 53 ->
  getUniqueId name ids = (Num (k + 1), <[name := Num (k + 1)]> ids).
Proof.
  intros Hown Hk Hrange. unfold getUniqueId, get_property, set_property.
  assert (Hname : String.eqb name "__proto__" = false).
  { apply String.eqb_neq. intros ->. by vm_compute in Hown. }
  rewrite Hname, Hk, Hown.
  destruct (Z.eqb_spec k 0) as [-> | Hne]; simpl.
  - rewrite lookup_insert_eq. simpl. by rewrite insert_insert_eq.
  - apply Z.eqb_neq in Hne. rewrite Hne. simpl. rewrite Hk.
    apply Z.eqb_neq in Hne.
    destruct (Z.eqb_spec k 0); [done |]. simpl.
    destruct (Z.ltb_spec k (2 ^ 53)); [done | lia].
Qed.

Lemma getUniqueIds_counter names name :
  bool_decide (name ∈ Object_prototype_names) = false ->
  Z.of_nat (length names) < 2 ^ 53 ->
  forall ids k,
    ids !! name = (if Z.eqb k 0 then None else Some (Num k)) ->
    0 <= k -> k + Z.of_nat (length names) < 2 ^ 53 ->
    let k' := k + Z.of_nat (requests name names) in
    getUniqueIds names ids !! name
    = (if Z.eqb k' 0 then None else Some (Num k')).
Proof.
  intros Hown _. induction names as [| n names IH]; intros ids k Hk H0 Hlen.
  - simpl. by rewrite Z.add_0_r.
  - cbn [getUniqueIds fold_left requests List.filter length] in *.
    destruct (String.eqb_spec name n) as [<- | Hne].
    + rewrite (getUniqueId_step name ids k) by (done || lia). cbn [snd].
      cbn [length]. fold (getUniqueIds names (<[name := Num (k + 1)]> ids)).
      specialize (IH (<[name := Num (k + 1)]> ids) (k + 1)).
      rewrite lookup_insert_eq in IH.
      destruct (Z.eqb_spec (k + 1) 0); [lia |].
      unfold requests in IH. rewrite IH by (done || lia).
      replace (k + 1 + Z.of_nat (length (List.filter (String.eqb name) names)))
        with (k + Z.of_nat (S (length (List.filter (String.eqb name) names))))
        by lia.
      done.
    + fold (getUniqueIds names (snd (getUniqueId n ids))).
      unfold requests in IH. apply IH; [| done | lia].
      by rewrite getUniqueId_other.
Qed.

(** X15. Under a name that [Object.prototype] does not define, and fewer
    than 2^53 requests, [getUniqueId] numbers the requests of each name on
    their own: after any series of requests it returns one more than the
    number of requests made under that name, whatever was asked under other
    names. *)
Theorem getUniqueId_counts names name :
  name ∉ Object_prototype_names ->
  Z.of_nat (length names) < 2 ^ 53 ->
  fst (getUniqueId name (getUniqueIds names ∅))
  = Num (Z.of_nat (requests name names) + 1).
Proof.
  intros Hown Hlen.
  assert (Hown' : bool_decide (name ∈ Object_prototype_names) = false)
    by (by apply bool_decide_eq_false_2).
  pose proof (getUniqueIds_counter names name Hown' Hlen ∅ 0) as Hk.
  cbv zeta in Hk. rewrite Z.add_0_l in Hk.
  assert (Hreq : (requests name names <= length names)%nat)
    by apply List.filter_length_le.
  erewrite getUniqueId_step; [done | done | apply Hk; (done || lia) | lia].
Qed.

Lemma prefixKeys_fold {V} (data : gmap string V) prefix keys :
  NoDup keys ->
  forall newObj key' v,
    fold_left
      (fun newObj key =>
         match data !! key with
         | Some v => set_property newObj ((prefix ++ key)%string) v
         | None => newObj
         end) keys newObj !! key' = Some v
    <-> (key' <> "__proto__"
         /\ exists key, key ∈ keys /\ key' = (prefix ++ key)%string
                        /\ data !! key = Some v)
        \/ ((forall key, key ∈ keys -> is_Some (data !! key) ->
               key' = (prefix ++ key)%string -> key' = "__proto__")
            /\ newObj !! key' = Some v).
Proof.
  induction 1 as [| k keys Hk Hnodup IH]; intros newObj key' v.
  - simpl. split.
    + intros Hv. right. split; [by intros key ?%elem_of_nil | done].
    + intros [(_ & key & []%elem_of_nil & _) | [_ Hv]]. done.
  - cbn [fold_left]. rewrite IH. clear IH. split.
    + intros [(Hne & key & Hin & -> & Hv) | [Hnone Hv]].
      * left. split; [done |]. exists key.
        split; [by apply list_elem_of_further | done].
      * destruct (data !! k) as [vk |] eqn:Hvk.
        -- unfold set_property in Hv.
           destruct (String.eqb_spec ((prefix ++ k)%string) "__proto__") as [Hp | Hp].
           ++ right. split; [| done].
              intros key [-> | Hin]%elem_of_cons Hsome Heq; [congruence |].
              eauto.
           ++ destruct (decide (key' = (prefix ++ k)%string)) as [-> | Hother].
              ** rewrite lookup_insert_eq in Hv. injection Hv as ->.
                 left. split; [done |]. exists k.
                 split; [apply list_elem_of_here | done].
              ** rewrite lookup_insert_ne in Hv by done.
                 right. split; [| done].
                 intros key [-> | Hin]%elem_of_cons Hsome Heq; [done |].
                 eauto.
        -- right. split; [| done].
           intros key [-> | Hin]%elem_of_cons Hsome Heq.
           ++ rewrite Hvk in Hsome. by destruct Hsome.
           ++ eauto.
    + intros [(Hne & key & [-> | Hin]%elem_of_cons & -> & Hv) | [Hnone Hv]].
      * right. split.
        -- intros key Hin Hsome Heq.
           apply (inj (String.app prefix)) in Heq. by subst key.
        -- rewrite Hv. unfold set_property.
           destruct (String.eqb_spec (prefix ++ k)%string "__proto__");
             [done |].
           by rewrite lookup_insert_eq.
      * left. split; [done |]. eauto.
      * right. split.
        -- intros key Hin. apply Hnone. by apply list_elem_of_further.
        -- destruct (data !! k) as [vk |] eqn:Hvk; [| done].
           unfold set_property.
           destruct (String.eqb_spec ((prefix ++ k)%string) "__proto__"); [done |].
           rewrite lookup_insert_ne; [done |].
           intros <-. 
           assert ((prefix ++ k)%string = "__proto__"); [| done].
           eapply (Hnone k); [apply list_elem_of_here | by rewrite Hvk | done].
Qed.

(** X16. The object [prefixKeys] returns has an own property exactly for
    every property of the data, under the prefixed name and with the same
    value; the one exception is a prefixed name that reads [__proto__],
    which creates no property. *)
Theorem prefixKeys_lookup {V} (data : gmap string V) prefix key' v :
  prefixKeys data prefix !! key' = Some v
  <-> key' <> "__proto__"
      /\ exists key, key' = (prefix ++ key)%string /\ data !! key = Some v.
Proof.
  unfold prefixKeys. rewrite prefixKeys_fold by apply NoDup_fst_map_to_list.
  split.
  - intros [(Hne & key & _ & -> & Hv) | [_ Hv]]; [eauto |].
    by rewrite lookup_empty in Hv.
  - intros (Hne & key & -> & Hv). left. split; [done |]. exists key.
    split; [| done]. apply list_elem_of_fmap. exists (key, v).
    split; [done |]. by apply elem_of_map_to_list.
Qed.

(** X17. No value is both true-or-one and false-or-zero. *)
Theorem isTrueOrOne_isFalseOrZero_exclusive value :
  isTrueOrOne value = true -> isFalseOrZero value = false.
Proof.
  unfold isTrueOrOne, isFalseOrZero.
  destruct value as [| | [] | n | s]; try done.
  - cbn -[parseInt]. destruct (parseInt (JSNumber n)) as [k |]; [| done].
    simpl. intros ->%Z.eqb_eq. done.
  - cbn -[parseInt String.eqb].
    destruct (String.eqb_spec s "true") as [-> | _]; [done |].
    destruct (String.eqb_spec s "false") as [-> | _]; [done |].
    destruct (parseInt (JSString s)) as [k |]; [| done].
    simpl. intros ->%Z.eqb_eq. done.
Qed.

Lemma skip_whitespace_app ws s :
  Forall (fun c => is_whitespace c = true) (list_ascii_of_string ws) ->
  skip_whitespace (ws ++ s) = skip_whitespace s.
Proof.
  induction ws as [| c ws IH]; [done |]. cbn [list_ascii_of_string].
  intros [Hc Hws]%Forall_cons.
  change (String c ws ++ s)%string with (String c (ws ++ s)).
  cbn [skip_whitespace]. rewrite Hc. auto.
Qed.

Lemma parseInt10_leading_digit ws c d rest :
  Forall (fun c => is_whitespace c = true) (list_ascii_of_string ws) ->
  digit_value c = Some d ->
  starts_with_digit rest = false ->
  parseInt10 (ws ++ String c rest) = Some d.
Proof.
  intros Hws Hc Hrest.
  assert (Hread : forall acc, read_digits rest acc = acc).
  { intros acc. destruct rest as [| c' rest]; [done |]. simpl in *.
    destruct (digit_value c'); [| done].
    by rewrite bool_decide_eq_true_2 in Hrest by eauto. }
  assert (Hkind : is_whitespace c = false /\ Ascii.eqb c "-" = false
                  /\ Ascii.eqb c "+" = false).
  { unfold digit_value in Hc.
    destruct (48 <=? Z.of_nat (nat_of_ascii c)) eqn:Hlo; [| done].
    destruct (Z.of_nat (nat_of_ascii c) <=? 57) eqn:Hhi; [| done].
    apply Z.leb_le in Hlo, Hhi. clear Hc.
    assert (Hn : (48 <= nat_of_ascii c <= 57)%nat) by lia.
    split; [| split].
    - unfold is_whitespace. apply bool_decide_eq_false_2.
      rewrite !elem_of_cons, elem_of_nil. lia.
    - apply Ascii.eqb_neq. intros ->. vm_compute in Hn. lia.
    - apply Ascii.eqb_neq. intros ->. vm_compute in Hn. lia. }
  destruct Hkind as (Hw & Hminus & Hplus).
  unfold parseInt10. rewrite skip_whitespace_app by done.
  cbn [skip_whitespace]. rewrite Hw, Hminus, Hplus.
  cbn [read_digits]. rewrite Hc, Hread. simpl. f_equal; lia.
Qed.

(** X18. The two tests read a string as [parseInt] does: a 1 (a 0) after
    any white space and before anything that does not start with a digit
    counts as true (as false). *)
Theorem isTrueOrOne_reads_leading_integer ws rest :
  Forall (fun c => is_whitespace c = true) (list_ascii_of_string ws) ->
  starts_with_digit rest = false ->
  isTrueOrOne (JSString (ws ++ String "1" rest)) = true
  /\ isFalseOrZero (JSString (ws ++ String "0" rest)) = true.
Proof.
  intros Hws Hrest.
  unfold isTrueOrOne, isFalseOrZero, parseInt.
  cbn [is_undefined negb andb strict_equal_boolean orb ToString].
  rewrite (parseInt10_leading_digit ws "1" 1 rest) by done.
  rewrite (parseInt10_leading_digit ws "0" 0 rest) by done.
  simpl. by rewrite !orb_true_r.
Qed.

Lemma string_app_assoc (s1 s2 s3 : string) :
  ((s1 ++ s2) ++ s3 = s1 ++ (s2 ++ s3))%string.
Proof.
  induction s1 as [| c s1 IH]; [done |].
  change (String c (s1 ++ s2) ++ s3 = String c (s1 ++ s2 ++ s3))%string.
  change (String c ((s1 ++ s2) ++ s3) = String c (s1 ++ s2 ++ s3))%string.
  by rewrite IH.
Qed.

Lemma string_app_empty (s : string) : (s ++ "")%string = s.
Proof.
  induction s as [| c s IH]; [done |].
  change (String c (s ++ "") = String c s)%string. by rewrite IH.
Qed.

Lemma split_from_item c item rest part :
  c ∉ list_ascii_of_string item ->
  split_from (String c "") (item ++ rest) 0 part
  = split_from (String c "") rest 0 (part ++ item).
Proof.
  revert part. induction item as [| a item IH]; intros part Hc.
  - by rewrite string_app_empty.
  - cbn [list_ascii_of_string] in Hc.
    apply not_elem_of_cons in Hc as [Hne Hc].
    change (String a item ++ rest)%string with (String a (item ++ rest)).
    cbn [split_from String.prefix].
    destruct (ascii_dec c a) as [-> | _]; [done |].
    rewrite IH by done. rewrite string_app_assoc. done.
Qed.

Lemma split_from_separator c rest part :
  split_from (String c "") (String c rest) 0 part
  = part :: split_from (String c "") rest 0 "".
Proof.
  cbn [split_from String.prefix String.length Nat.sub].
  destruct (ascii_dec c c); [| done]. by destruct rest.
Qed.

Lemma split_from_join c items :
  Forall (fun item => c ∉ list_ascii_of_string item) items ->
  forall item part,
    c ∉ list_ascii_of_string item ->
    split_from (String c "") (Array_join (String c "") (item :: items)) 0 part
    = (part ++ item)%string :: items.
Proof.
  induction 1 as [| item' items Hitem' Hitems IH]; intros item part Hitem.
  - cbn [Array_join]. rewrite <- (string_app_empty item) at 1.
    by rewrite split_from_item.
  - change (Array_join (String c "") (item :: item' :: items))
      with (item ++ String c (Array_join (String c "") (item' :: items)))%string.
    rewrite split_from_item by done. rewrite split_from_separator.
    by rewrite IH.
Qed.

(** X19. For a separator of one character, [makeMenuFromList] undoes
    [join]: the entries joined by the separator, none of which contains it,
    give one item each, in order, with the entry trimmed as label and its
    position from 1 as value, after the item of the default label when one
    is given.  An empty list gives one item with an empty label. *)
Theorem makeMenuFromList_entries items c defaultLabel separator defaultValue :
  default "," separator = String c "" ->
  Forall (fun item => c ∉ list_ascii_of_string item) items ->
  makeMenuFromList (Array_join (String c "") items) defaultLabel separator
    defaultValue
  = (if truthy_string defaultLabel
     then [mkMenuItem (default "" defaultLabel) (number_or defaultValue 0)]
     else [])
    ++ imap (fun index item =>
               mkMenuItem (String_trim item) (Z.of_nat index + 1))
         (match items with [] => [""] | _ => items end).
Proof.
  intros Hsep Hitems. unfold makeMenuFromList. rewrite Hsep.
  assert (Hsplit : String_split (Array_join (String c "") items) (String c "")
                   = match items with [] => [""] | _ => items end).
  { unfold String_split. destruct Hitems as [| item items Hitem Hitems];
      [done |].
    by rewrite split_from_join. }
  rewrite Hsplit. by destruct (truthy_string defaultLabel).
Qed.

(** *** formatTree *)

Lemma fold_seq_invariant {S} (f : S -> nat -> S) (P : nat -> S -> Prop) n s0 :
  P 0%nat s0 ->
  (forall k s, (k < n)%nat -> P k s -> P (Datatypes.S k) (f s k)) ->
  P n (fold_left f (seq 0 n) s0).
Proof.
  intros H0 Hstep. induction n as [| n IH]; [done |].
  rewrite seq_S, fold_left_app. simpl. apply Hstep; [lia |].
  apply IH. intros k s Hk. apply Hstep. lia.
Qed.

Lemma place_nodes_invariant r m (P : nat -> TreeState -> Prop) n :
  (forall k s s',
      (k < n)%nat -> P k s -> place_node r m s k = Returns s' ->
      P (S k) s') ->
  forall s s',
    P 0%nat s -> place_nodes r m s (seq 0 n) = Returns s' -> P n s'.
Proof.
  intros Hstep.
  assert (Hgen : forall len a s s',
             (a + len = n)%nat -> P a s ->
             place_nodes r m s (seq a len) = Returns s' -> P n s').
  { induction len as [| len IH]; intros a s s' Hlen Ha Hrun.
    - simpl in Hrun. injection Hrun as <-. by replace n with a by lia.
    - simpl in Hrun.
      destruct (place_node r m s a) as [s1 | s1] eqn:Hplace; [| done].
      apply (IH (S a) s1); [lia | | done].
      apply (Hstep a s); [lia | done | done]. }
  intros s s'. by apply Hgen.
Qed.

Lemma place_nodes_returns r m (P : nat -> TreeState -> Prop) n :
  (forall k s,
      (k < n)%nat -> P k s ->
      exists s', place_node r m s k = Returns s' /\ P (S k) s') ->
  forall s,
    P 0%nat s -> exists s', place_nodes r m s (seq 0 n) = Returns s' /\ P n s'.
Proof.
  intros Hstep.
  assert (Hgen : forall len a s,
             (a + len = n)%nat -> P a s ->
             exists s', place_nodes r m s (seq a len) = Returns s' /\ P n s').
  { induction len as [| len IH]; intros a s Hlen Ha.
    - exists s. split; [done |]. by replace n with a by lia.
    - simpl. destruct (Hstep a s) as (s1 & -> & H1); [lia | done |].
      apply IH; [lia | done]. }
  intros s. by apply Hgen.
Qed.

Lemma index_node_run nodes k s :
  (k < length nodes)%nat ->
  indexed_upto nodes k s -> indexed_upto nodes (S k) (index_node s k).
Proof.
  intros Hk [Hlist Hmap Hdepth Htree Herrors].
  destruct (lookup_lt_is_Some_2 nodes k Hk) as [node Hnode].
  assert (Hlen : length (indexed <$> take k nodes) = k).
  { rewrite length_fmap, length_take. lia. }
  assert (Hat : ts_list s !! k = Some node).
  { rewrite Hlist, lookup_app_r by lia.
    rewrite Hlen, Nat.sub_diag, lookup_drop, Nat.add_0_r. done. }
  assert (Htake : take (S k) nodes = take k nodes ++ [node])
    by (by apply take_S_r).
  assert (Hnew : <[k := indexed node]> (ts_list s)
                 = (indexed <$> take (S k) nodes) ++ drop (S k) nodes).
  { rewrite Hlist, Htake, fmap_app, <- app_assoc. simpl.
    rewrite insert_app_r_alt by lia. rewrite Hlen, Nat.sub_diag.
    rewrite (drop_S nodes node k Hnode). done. }
  assert (Hsame : node_children node <> None -> indexed node = node).
  { destruct node as [id parent [children |]]; done. }
  unfold index_node. rewrite Hat.
  split.
  - destruct (node_children node) as [children |] eqn:Hchildren.
    + destruct (is_undefined_number (node_id node)); simpl;
        rewrite <- Hnew, Hsame by congruence;
        symmetry; by apply list_insert_id.
    + destruct (is_undefined_number (node_id node)); simpl;
        rewrite <- Hnew; unfold indexed; by rewrite Hchildren.
  - intros key p.
    assert (Hmap' : ts_map
                      (match node_children node with
                       | Some _ =>
                           if is_undefined_number (node_id node)
                           then logger_error (IncorrectId (node_id node)) s
                           else s
                       | None =>
                           set_node k
                             (mkTreeNode (node_id node) (node_parent node)
                                (Some []))
                             (if is_undefined_number (node_id node)
                              then logger_error (IncorrectId (node_id node)) s
                              else s)
                       end) = ts_map s).
    { by destruct (node_children node), (is_undefined_number (node_id node)). }
    cbn [ts_map]. rewrite Hmap'.
    destruct (decide (key = node_id node)) as [-> | Hne].
    + rewrite lookup_insert_eq. split.
      * intros [= <-]. split; [lia |]. split; [by rewrite Hnode |].
        intros q Hq. lia.
      * intros (Hp & Hid & Hlast).
        destruct (decide (p = k)) as [-> | Hpk]; [done |].
        exfalso. apply (Hlast k); [lia |]. by rewrite Hnode.
    + rewrite lookup_insert_ne by done. rewrite Hmap. split.
      * intros (Hp & Hid & Hlast). split; [lia |]. split; [done |].
        intros q Hq. destruct (decide (q = k)) as [-> | Hqk].
        -- rewrite Hnode. simpl. congruence.
        -- apply Hlast. lia.
      * intros (Hp & Hid & Hlast).
        assert (p <> k).
        { intros ->. rewrite Hnode in Hid. simpl in Hid. congruence. }
        split; [lia |]. split; [done |]. intros q Hq. apply Hlast. lia.
  - by destruct (node_children node), (is_undefined_number (node_id node)).
  - by destruct (node_children node), (is_undefined_number (node_id node)).
  - rewrite Htake. unfold id_errors. rewrite omap_app. simpl.
    fold (id_errors (take k nodes)). rewrite <- Herrors.
    destruct (node_children node), (is_undefined_number (node_id node));
      simpl; by rewrite ?app_nil_r.
Qed.

Lemma index_nodes_run nodes :
  indexed_upto nodes (length nodes)
    (fold_left index_node (seq 0 (length nodes))
       (mkTreeState nodes ∅ ∅ [] [])).
Proof.
  apply (fold_seq_invariant index_node (indexed_upto nodes)).
  - split; simpl; try done.
    intros key p. rewrite lookup_empty. split; [done |]. intros [? _]. lia.
  - intros k s Hk. by apply index_node_run.
Qed.

Lemma depth_equals_spec depth maxDepth :
  depth_equals depth maxDepth = true <-> depth = Some (Num maxDepth).
Proof.
  destruct depth as [[d |] |]; simpl; [| done | done].
  rewrite Z.eqb_eq. split; [by intros -> | by intros [= ->]].
Qed.

Lemma list_alter_insert {A} (f : A -> A) (l : list A) i x :
  l !! i = Some x -> <[i := f x]> l = alter f i l.
Proof.
  intros Hx. apply list_eq. intros j.
  destruct (decide (i = j)) as [<- | Hne].
  - rewrite list_lookup_alter_eq, Hx. simpl.
    apply list_lookup_insert_eq. by eapply lookup_lt_Some.
  - by rewrite list_lookup_insert_ne, list_lookup_alter_ne.
Qed.

Lemma place_node_step r m s k node :
  indexed_state s ->
  ts_list s !! k = Some node ->
  match place_node r m s k with
  | Returns s' =>
      exists how, placement_of r m s node how /\ s' = placed m s k node how
  | ThrowsTypeError _ =>
      node_parent node <> Some r
      /\ ts_mapDepth s !! node_parent node = Some (Num m)
      /\ exists position parentNode,
          ts_map s !! node_parent node = Some position
          /\ ts_list s !! position = Some parentNode
          /\ truthy_number (node_parent parentNode) = true
          /\ ts_map s !! node_parent parentNode = None
  end.
Proof.
  intros [Hmap Hchildren] Hnode. unfold place_node. rewrite Hnode.
  set (s0 := if is_undefined_number (node_id node)
                || is_undefined_number (node_parent node)
             then logger_error
                    (IncorrectIdOrParent (node_id node) (node_parent node)) s
             else s).
  assert (Hs0 : s0 = mkTreeState (ts_list s) (ts_map s) (ts_mapDepth s)
                       (ts_tree s) (ts_errors s ++ field_errors node)).
  { subst s0. unfold field_errors.
    destruct (is_undefined_number (node_id node)
              || is_undefined_number (node_parent node)); [done |].
    rewrite app_nil_r. by destruct s. }
  clearbody s0. subst s0.
  destruct (decide (node_parent node = Some r)) as [Hroot | Hroot].
  { rewrite bool_decide_eq_true_2 by done. simpl. by exists Rooted. }
  rewrite bool_decide_eq_false_2 by done. cbn [negb].
  unfold node_of. cbn [ts_map ts_list].
  destruct (ts_map s !! node_parent node) as [p |] eqn:Hp;
    cbn [mbind option_bind]; [| by exists Orphan].
  destruct (Hmap _ _ Hp) as [pn Hpn]. rewrite Hpn. cbn [mbind option_bind].
  cbn [ts_mapDepth snd].
  destruct (depth_equals (ts_mapDepth s !! node_parent node) m) eqn:Hdepth.
  - apply depth_equals_spec in Hdepth.
    destruct (truthy_number (node_parent pn)) eqn:Hpp.
    + destruct (ts_map s !! node_parent pn) as [g |] eqn:Hg;
        cbn [mbind option_bind].
      * destruct (Hmap _ _ Hg) as [gn Hgn]. rewrite Hgn.
        cbn [mbind option_bind children_push].
        destruct (Hchildren _ _ Hgn) as [children Hc]. rewrite Hc.
        exists (Flattened g (node_parent pn)).
        split; [repeat split; eauto |].
        unfold set_parent, set_depth, set_node, placed. cbn.
        rewrite Hdepth.
        assert (Hpush : <[g := mkTreeNode (node_id gn) (node_parent gn)
                                  (Some (children ++ [k]))]> (ts_list s)
                        = alter (push_node k) g (ts_list s)).
        { rewrite <- (list_alter_insert (push_node k) _ _ gn) by done.
          unfold push_node, children_of. by rewrite Hc. }
        rewrite Hpush.
        destruct (alter (push_node k) g (ts_list s) !! k) as [node' |]
          eqn:Hnode'.
        -- cbn.
           by rewrite <- (list_alter_insert (with_parent (node_parent pn))
                            _ k node' Hnode').
        -- exfalso. apply lookup_ge_None in Hnode'.
           rewrite length_alter in Hnode'.
           apply lookup_lt_Some in Hnode. lia.
      * cbn [children_push]. split; [done |]. split; [done |].
        exists p, pn. done.
    + exists (Unplaced (node_parent pn)). split; [repeat split; eauto | done].
  - cbn [children_push]. destruct (Hchildren _ _ Hpn) as [children Hc].
    rewrite Hc. exists (Attached p). split.
    + split; [done |]. split; [| done].
      intros Heq. apply depth_equals_spec in Heq. congruence.
    + unfold set_depth, set_node, placed. cbn.
      rewrite <- (list_alter_insert (push_node k) _ _ pn) by done.
      unfold push_node, children_of. by rewrite Hc.
Qed.

Lemma placing_indexed nodes r k s : placing nodes r k s -> indexed_state s.
Proof.
  intros Hs. split; [| apply (pl_children _ _ _ _ Hs)].
  intros key p Hp. apply (pl_map _ _ _ _ Hs) in Hp as [Hp _].
  apply lookup_lt_is_Some_2. by rewrite (pl_length _ _ _ _ Hs).
Qed.

Lemma placing_map_id nodes r k s key p node :
  placing nodes r k s ->
  ts_map s !! key = Some p -> ts_list s !! p = Some node ->
  node_id node = key.
Proof.
  intros Hs Hp Hnode. apply (pl_map _ _ _ _ Hs) in Hp as (_ & Hid & _).
  rewrite <- (pl_ids _ _ _ _ Hs), Hnode in Hid. by injection Hid.
Qed.

Lemma lookup_alter_field {B} (proj : TreeNode -> B) f (l : list TreeNode) i j :
  (forall node, proj (f node) = proj node) ->
  proj <$> alter f i l !! j = proj <$> l !! j.
Proof.
  intros Hproj. destruct (decide (i = j)) as [<- | Hne].
  - rewrite list_lookup_alter_eq. destruct (l !! i); simpl; by rewrite ?Hproj.
  - by rewrite list_lookup_alter_ne.
Qed.

Lemma lookup_alter_Some (f : TreeNode -> TreeNode) (l : list TreeNode)
  (i j : nat) node' :
  alter f i l !! j = Some node' ->
  exists node,
    l !! j = Some node /\ node' = (if decide (i = j) then f node else node).
Proof.
  destruct (decide (i = j)) as [<- | Hne].
  - rewrite list_lookup_alter_eq. destruct (l !! i) as [node |]; [| done].
    intros [= <-]. eauto.
  - rewrite list_lookup_alter_ne by done. eauto.
Qed.

Lemma placing_start nodes r :
  placing nodes r 0
    (fold_left index_node (seq 0 (length nodes))
       (mkTreeState nodes ∅ ∅ [] [])).
Proof.
  destruct (index_nodes_run nodes) as [Hlist Hmap Hdepth Htree Herrors].
  rewrite firstn_all, drop_all, app_nil_r in Hlist.
  split.
  - by rewrite Hlist, length_fmap.
  - intros i node. rewrite Hlist, list_lookup_fmap.
    destruct (nodes !! i); [| done]. intros [= <-]. by eexists.
  - done.
  - intros i. rewrite Hlist, list_lookup_fmap. by destruct (nodes !! i).
  - intros i _. rewrite Hlist, list_lookup_fmap. by destruct (nodes !! i).
  - done.
Qed.

Lemma placing_step nodes r m k s node how :
  placing nodes r k s ->
  ts_list s !! k = Some node ->
  placement_of r m s node how ->
  placing nodes r (S k) (placed m s k node how).
Proof.
  intros Hs Hnode Hhow.
  assert (Hparent : node_parent <$> nodes !! k = Some (node_parent node)).
  { rewrite <- (pl_parents _ _ _ _ Hs) by lia. by rewrite Hnode. }
  assert (Htree : forall tree,
             tree = ts_tree s ++ (if is_root r nodes k then [k] else []) ->
             tree = List.filter (is_root r nodes) (seq 0 (S k))).
  { intros tree ->. rewrite seq_S, List.filter_app, <- (pl_tree _ _ _ _ Hs).
    simpl. by destruct (is_root r nodes k). }
  assert (Hroot : is_root r nodes k = bool_decide (node_parent node = Some r)).
  { unfold is_root. rewrite Hparent. apply bool_decide_ext.
    split; congruence. }
  destruct Hs as [Hlength Hchildren Hmap Hids Hparents _].
  destruct how as [| | pp | p | g pp]; simpl in Hhow.
  - split; simpl; try done.
    + intros i Hi. apply Hparents. lia.
    + apply Htree. by rewrite Hroot, bool_decide_eq_true_2.
  - destruct Hhow as [Hne _]. split; simpl; try done.
    + intros i Hi. apply Hparents. lia.
    + apply Htree. rewrite Hroot, bool_decide_eq_false_2 by done.
      by rewrite app_nil_r.
  - destruct Hhow as [Hne _]. split; simpl; try done.
    + intros i Hi. apply Hparents. lia.
    + apply Htree. rewrite Hroot, bool_decide_eq_false_2 by done.
      by rewrite app_nil_r.
  - destruct Hhow as [Hne _]. split; simpl; try done.
    + by rewrite length_alter.
    + intros i node' (node0 & Hnode0 & ->)%lookup_alter_Some.
      destruct (decide (p = i)); [by eexists | eauto].
    + intros i. by rewrite lookup_alter_field.
    + intros i Hi. rewrite lookup_alter_field by done. apply Hparents. lia.
    + apply Htree. rewrite Hroot, bool_decide_eq_false_2 by done.
      by rewrite app_nil_r.
  - destruct Hhow as [Hne _]. split; simpl; try done.
    + by rewrite !length_alter.
    + intros i node' (node1 & (node0 & Hnode0 & ->)%lookup_alter_Some & ->)
        %lookup_alter_Some.
      destruct (decide (k = i)), (decide (g = i)); simpl; eauto.
    + intros i. by rewrite !lookup_alter_field.
    + intros i Hi. rewrite list_lookup_alter_ne by lia.
      rewrite lookup_alter_field by done. apply Hparents. lia.
    + apply Htree. rewrite Hroot, bool_decide_eq_false_2 by done.
      by rewrite app_nil_r.
Qed.

Lemma placing_node nodes r k s :
  placing nodes r k s -> (k < length nodes)%nat ->
  exists node, ts_list s !! k = Some node.
Proof.
  intros Hs Hk. apply lookup_lt_is_Some_2. by rewrite (pl_length _ _ _ _ Hs).
Qed.

(** X20. The array [formatTree] returns holds the nodes whose parent is
    the root identifier, and only those, in the order of the list. *)
Theorem formatTree_roots nodes rootParentId maxDepth s :
  formatTree nodes rootParentId maxDepth = Returns s ->
  ts_tree s
  = List.filter (is_root (default 0 rootParentId) nodes)
      (seq 0 (length nodes)).
Proof.
  unfold formatTree. intros Hrun.
  apply (place_nodes_invariant _ _
           (placing nodes (default 0 rootParentId)) (length nodes))
    in Hrun; [by apply pl_tree in Hrun | | apply placing_start].
  intros k s0 s' Hk Hs Hplace.
  destruct (placing_node _ _ _ _ Hs Hk) as [node Hnode].
  pose proof (place_node_step (default 0 rootParentId) (default 5 maxDepth)
                s0 k node (placing_indexed _ _ _ _ Hs) Hnode) as Hstep.
  rewrite Hplace in Hstep. destruct Hstep as (how & Hhow & ->).
  by eapply placing_step.
Qed.

Lemma all_children_cons node (l : list TreeNode) :
  all_children (node :: l) = children_of node ++ all_children l.
Proof. done. Qed.

Lemma all_children_push k p (l : list TreeNode) :
  (p < length l)%nat ->
  all_children (alter (push_node k) p l) ≡ₚ k :: all_children l.
Proof.
  revert p. induction l as [| node l IH]; intros p Hp; [simpl in Hp; lia |].
  destruct p as [| p].
  - change (alter (push_node k) 0%nat (node :: l)) with (push_node k node :: l).
    rewrite !all_children_cons.
    change (children_of (push_node k node)) with (children_of node ++ [k]).
    rewrite <- app_assoc. simpl. by rewrite <- Permutation_middle.
  - change (alter (push_node k) (S p) (node :: l))
      with (node :: alter (push_node k) p l).
    rewrite !all_children_cons. simpl in Hp. rewrite IH by lia.
    by rewrite <- Permutation_middle.
Qed.

Lemma all_children_with_parent parent i (l : list TreeNode) :
  all_children (alter (with_parent parent) i l) = all_children l.
Proof.
  revert i. induction l as [| node l IH]; intros i; [done |].
  destruct i as [| i].
  - done.
  - change (alter (with_parent parent) (S i) (node :: l))
      with (node :: alter (with_parent parent) i l).
    by rewrite !all_children_cons, IH.
Qed.

Lemma elem_of_all_children c (l : list TreeNode) :
  c ∈ all_children l
  <-> exists p node, l !! p = Some node /\ c ∈ children_of node.
Proof.
  induction l as [| node l IH].
  - split; [by intros ?%elem_of_nil | by intros (p & node & ? & _)].
  - rewrite all_children_cons, elem_of_app, IH. split.
    + intros [Hc | (p & node' & Hp & Hc)].
      * by exists 0%nat, node.
      * by exists (S p), node'.
    + intros ([| p] & node' & Hp & Hc).
      * left. by injection Hp as <-.
      * right. by exists p, node'.
Qed.

Lemma placed_once_start nodes s :
  Forall (fun node => children_of node = []) nodes ->
  ts_list s = indexed <$> nodes -> ts_tree s = [] ->
  placed_once 0 s.
Proof.
  intros Hnone Hlist Htree.
  assert (Hall : forall p node c,
             ts_list s !! p = Some node -> c ∈ children_of node -> False).
  { intros p node c. rewrite Hlist, list_lookup_fmap.
    destruct (nodes !! p) as [node0 |] eqn:Hp; [| done]. intros [= <-].
    rewrite Forall_forall in Hnone.
    unfold indexed, children_of at 1. simpl. fold (children_of node0).
    rewrite (Hnone node0) by (by eapply list_elem_of_lookup_2).
    by intros ?%elem_of_nil. }
  assert (Hempty : placements s = []).
  { unfold placements. rewrite Htree. simpl.
    destruct (all_children (ts_list s)) as [| c l] eqn:Hc; [done |].
    assert (Hin : c ∈ all_children (ts_list s))
      by (rewrite Hc; apply list_elem_of_here).
    apply elem_of_all_children in Hin as (p & node & Hp & Hin).
    by destruct (Hall p node c). }
  split.
  - intros c. rewrite Hempty. by intros ?%elem_of_nil.
  - rewrite Hempty. apply NoDup_nil_2.
  - intros p node c Hp Hc. by destruct (Hall p node c).
Qed.

Lemma placed_once_step nodes r m k s node how :
  placing nodes r k s ->
  placed_once k s ->
  ts_list s !! k = Some node ->
  placement_of r m s node how ->
  placed_once (S k) (placed m s k node how).
Proof.
  intros Hs [Hbound Hnodup Hparent] Hnode Hhow.
  assert (Hweaken : forall c, c ∈ placements s -> (c < S k)%nat).
  { intros c Hc. apply Hbound in Hc. lia. }
  assert (Hfresh : k ∉ placements s).
  { intros Hk. apply Hbound in Hk. lia. }
  assert (Hchild : forall p node0 c,
             ts_list s !! p = Some node0 -> c ∈ children_of node0 ->
             c <> k).
  { intros p node0 c Hp Hc ->. apply Hfresh. unfold placements.
    apply elem_of_app. right. apply elem_of_all_children. eauto. }
  assert (Hpush : forall p,
             is_Some (ts_list s !! p) ->
             ts_tree s ++ all_children (alter (push_node k) p (ts_list s))
             ≡ₚ k :: placements s).
  { intros p Hp%lookup_lt_is_Some. rewrite all_children_push by done.
    unfold placements. by rewrite <- Permutation_middle. }
  destruct how as [| | pp | p | g pp]; simpl in Hhow.
  - assert (Hperm : placements (placed m s k node Rooted) ≡ₚ k :: placements s).
    { unfold placements. simpl. rewrite <- app_assoc. simpl.
      by rewrite <- Permutation_middle. }
    split.
    + intros c. rewrite Hperm. intros [-> | Hc]%elem_of_cons; [lia | auto].
    + rewrite Hperm. by apply NoDup_cons_2.
    + done.
  - by split.
  - by split.
  - destruct Hhow as (_ & _ & Hp).
    destruct (is_map _ (placing_indexed _ _ _ _ Hs) _ _ Hp) as [pn Hpn].
    assert (Hperm : placements (placed m s k node (Attached p))
                    ≡ₚ k :: placements s) by (apply Hpush; eauto).
    split.
    + intros c. rewrite Hperm. intros [-> | Hc]%elem_of_cons; [lia | auto].
    + rewrite Hperm. by apply NoDup_cons_2.
    + simpl. intros q node' c (node0 & Hq & ->)%lookup_alter_Some Hc.
      rewrite lookup_alter_field by done.
      destruct (decide (p = q)) as [<- | Hne]; [| eauto].
      unfold push_node, children_of at 1 in Hc. simpl in Hc.
      apply elem_of_app in Hc as [Hc | Hc%list_elem_of_singleton];
        [exact (Hparent _ _ _ Hq Hc) |].
      subst c. rewrite Hnode. simpl. f_equal. symmetry.
      eapply placing_map_id; eauto.
  - destruct Hhow as (_ & _ & _ & Hg & _).
    destruct (is_map _ (placing_indexed _ _ _ _ Hs) _ _ Hg) as [gn Hgn].
    assert (Hperm : placements (placed m s k node (Flattened g pp))
                    ≡ₚ k :: placements s).
    { unfold placements at 1. simpl. rewrite all_children_with_parent.
      apply Hpush. eauto. }
    split.
    + intros c. rewrite Hperm. intros [-> | Hc]%elem_of_cons; [lia | auto].
    + rewrite Hperm. by apply NoDup_cons_2.
    + simpl.
      intros q node' c
        (node1 & (node0 & Hq & ->)%lookup_alter_Some & ->)%lookup_alter_Some
        Hc.
      assert (Hid : node_id (if decide (k = q)
                             then with_parent pp
                                    (if decide (g = q)
                                     then push_node k node0 else node0)
                             else if decide (g = q)
                                  then push_node k node0 else node0)
                    = node_id node0)
        by (by destruct (decide (k = q)), (decide (g = q))).
      rewrite Hid.
      assert (Hc' : c ∈ children_of node0 \/ c = k /\ g = q).
      { destruct (decide (k = q)), (decide (g = q)); simpl in Hc;
          unfold with_parent, push_node, children_of at 1 in Hc;
          simpl in Hc; fold (children_of node0) in Hc; auto.
        - apply elem_of_app in Hc as [Hc | Hc%list_elem_of_singleton]; auto.
        - apply elem_of_app in Hc as [Hc | Hc%list_elem_of_singleton]; auto. }
      destruct Hc' as [Hc' | [Hck Hgq]]; [| subst c q].
      * rewrite list_lookup_alter_ne by (intros <-; by eapply Hchild).
        rewrite lookup_alter_field by done. eauto.
      * rewrite list_lookup_alter_eq.
        destruct (lookup_lt_is_Some_2 (alter (push_node k) g (ts_list s)) k)
          as [node1 Hnode1].
        { rewrite length_alter. by eapply lookup_lt_Some. }
        rewrite Hnode1. simpl. f_equal. symmetry.
        eapply placing_map_id; eauto.
Qed.

(** X21. For nodes that come without children: no node is stored twice
    among the roots and the children of all the nodes, and every child
    stored has, as its parent field, the identifier of the node that holds
    it. *)
Theorem formatTree_children nodes rootParentId maxDepth s :
  Forall (fun node => children_of node = []) nodes ->
  formatTree nodes rootParentId maxDepth = Returns s ->
  NoDup (ts_tree s ++ all_children (ts_list s))
  /\ (forall c,
         c ∈ ts_tree s ++ all_children (ts_list s) -> (c < length nodes)%nat)
  /\ forall p node c,
      ts_list s !! p = Some node -> c ∈ children_of node ->
      exists child,
        ts_list s !! c = Some child /\ node_parent child = node_id node.
Proof.
  unfold formatTree. intros Hnone Hrun.
  apply (place_nodes_invariant _ _
           (fun k s => placing nodes (default 0 rootParentId) k s
                       /\ placed_once k s) (length nodes)) in Hrun.
  - destruct Hrun as [_ [Hbound Hnodup Hparent]].
    split; [done |]. split; [done |].
    intros p node c Hp Hc. specialize (Hparent p node c Hp Hc).
    destruct (ts_list s !! c) as [child |]; [| done].
    injection Hparent as Hparent. eauto.
  - intros k s0 s' Hk [Hs Honce] Hplace.
    destruct (placing_node _ _ _ _ Hs Hk) as [node Hnode].
    pose proof (place_node_step (default 0 rootParentId) (default 5 maxDepth)
                  s0 k node (placing_indexed _ _ _ _ Hs) Hnode) as Hstep.
    rewrite Hplace in Hstep. destruct Hstep as (how & Hhow & ->).
    split; [by eapply placing_step | by eapply placed_once_step].
  - split; [apply placing_start |].
    destruct (index_nodes_run nodes) as [Hlist _ _ Htree _].
    rewrite firstn_all, drop_all, app_nil_r in Hlist.
    by apply (placed_once_start nodes).
Qed.

Lemma last_index (P : nat -> Prop) `{!forall i, Decision (P i)} k p :
  (p < k)%nat -> P p ->
  exists q, (q < k)%nat /\ P q /\ forall q', (q < q' < k)%nat -> ~ P q'.
Proof.
  induction k as [| k IH]; [lia |]. intros Hp HP.
  destruct (decide (P k)) as [Hk | Hk].
  - exists k. split; [lia |]. split; [done |]. intros q'. lia.
  - destruct (decide (p = k)) as [-> | Hne]; [done |].
    destruct IH as (q & Hq & HPq & Hlast); [lia | done |].
    exists q. split; [lia |]. split; [done |].
    intros q' Hq'. destruct (decide (q' = k)) as [-> | ?]; [done |].
    apply Hlast. lia.
Qed.

Lemma placing_map_total nodes r k s key :
  placing nodes r k s ->
  key ∈ node_id <$> nodes -> is_Some (ts_map s !! key).
Proof.
  intros Hs (node & -> & Hin)%list_elem_of_fmap.
  apply list_elem_of_lookup in Hin as [p Hp].
  destruct (last_index (fun q => node_id <$> nodes !! q = Some (node_id node))
              (length nodes) p) as (q & Hq & Hid & Hlast).
  { by eapply lookup_lt_Some. }
  { by rewrite Hp. }
  exists q. apply (pl_map _ _ _ _ Hs). done.
Qed.

Lemma placing_map_elem nodes r k s key p :
  placing nodes r k s ->
  ts_map s !! key = Some p -> key ∈ node_id <$> nodes.
Proof.
  intros Hs (_ & Hid & _)%(pl_map _ _ _ _ Hs).
  destruct (nodes !! p) as [node |] eqn:Hp; [| done].
  injection Hid as <-. apply list_elem_of_fmap. exists node.
  split; [done |]. by eapply list_elem_of_lookup_2.
Qed.

Lemma placing_ids_inj nodes r k s i j ni nj :
  NoDup (node_id <$> nodes) ->
  placing nodes r k s ->
  ts_list s !! i = Some ni -> ts_list s !! j = Some nj ->
  node_id ni = node_id nj -> i = j.
Proof.
  intros Hnodup Hs Hi Hj Heq.
  pose proof (pl_ids _ _ _ _ Hs i) as Hidi.
  pose proof (pl_ids _ _ _ _ Hs j) as Hidj.
  rewrite Hi in Hidi. rewrite Hj in Hidj. simpl in *.
  eapply (NoDup_lookup _ i j (node_id ni) Hnodup).
  - by rewrite list_lookup_fmap, <- Hidi.
  - by rewrite list_lookup_fmap, <- Hidj, Heq.
Qed.

Lemma increment_two d :
  (d = 1 \/ 2 <= d) -> forall d', increment (Num d) = Num d' -> 2 <= d'.
Proof.
  intros Hd d'. unfold increment. intros [= <-].
  destruct (Z.ltb_spec d (2 ^ 53)); lia.
Qed.

Lemma depths_sound_step nodes r m k s node how :
  NoDup (node_id <$> nodes) ->
  placing nodes r k s ->
  depths_sound r s ->
  ts_list s !! k = Some node ->
  placement_of r m s node how ->
  depths_sound r (placed m s k node how).
Proof.
  intros Hnodup Hs Hdepths Hnode Hhow.
  assert (Hother : forall i node',
             ts_list s !! i = Some node' -> i <> k ->
             node_id node' <> node_id node).
  { intros i node' Hi Hne Heq. apply Hne.
    by eapply (placing_ids_inj nodes r k s i k). }
  destruct how as [| | pp | p | g pp]; simpl in Hhow.
  - intros i node' d Hi. simpl in *.
    destruct (decide (i = k)) as [-> | Hne].
    + assert (node' = node) as -> by congruence.
      rewrite lookup_insert_eq. intros [= <-]. by left.
    + rewrite lookup_insert_ne by (by apply not_eq_sym, (Hother i)).
      by apply (Hdepths i).
  - done.
  - done.
  - destruct Hhow as (Hroot & Hdepth & Hp).
    destruct (is_map _ (placing_indexed _ _ _ _ Hs) _ _ Hp) as [pn Hpn].
    pose proof (placing_map_id _ _ _ _ _ _ _ Hs Hp Hpn) as Hidp.
    intros i node' d (node0 & Hi & ->)%lookup_alter_Some. simpl.
    assert (Hfields :
             node_id (if decide (p = i) then push_node k node0 else node0)
             = node_id node0
             /\ node_parent (if decide (p = i) then push_node k node0
                             else node0)
                = node_parent node0) by (by destruct (decide (p = i))).
    destruct Hfields as [-> ->].
    destruct (decide (i = k)) as [-> | Hne].
    + assert (node0 = node) as -> by congruence.
      rewrite lookup_insert_eq. intros [= Hd]. right.
      split; [| by rewrite Hp].
      destruct (ts_mapDepth s !! node_parent node) as [[d0 |] |] eqn:Hd0;
        [| done | done].
      apply (increment_two d0); [| done].
      rewrite <- Hidp in Hd0.
      destruct (Hdepths p pn d0 Hpn Hd0) as [[-> _] | [? _]]; auto.
    + rewrite lookup_insert_ne by (by apply not_eq_sym, (Hother i)).
      by apply (Hdepths i).
  - destruct Hhow as (Hroot & Hdepth & Htruthy & Hg & p & pn & Hp & Hpn & Hpp).
    pose proof (placing_map_id _ _ _ _ _ _ _ Hs Hp Hpn) as Hidp.
    intros i node' d
      (node1 & (node0 & Hi & ->)%lookup_alter_Some & ->)%lookup_alter_Some.
    simpl.
    destruct (decide (i = k)) as [-> | Hne].
    + assert (node0 = node) as -> by congruence.
      destruct (decide (k = k)); [| done].
      assert (Hid : node_id (with_parent pp
                               (if decide (g = k) then push_node k node
                                else node)) = node_id node)
        by (by destruct (decide (g = k))).
      rewrite Hid, lookup_insert_eq. intros [= <-]. cbn [with_parent node_parent].
      rewrite <- Hidp in Hdepth. rewrite <- Hpp.
      apply (Hdepths p pn m Hpn Hdepth).
    + destruct (decide (k = i)); [congruence |].
      assert (Hfields :
               node_id (if decide (g = i) then push_node k node0 else node0)
               = node_id node0
               /\ node_parent (if decide (g = i) then push_node k node0
                               else node0)
                  = node_parent node0) by (by destruct (decide (g = i))).
      destruct Hfields as [-> ->].
      rewrite lookup_insert_ne by (by apply not_eq_sym, (Hother i)).
      by apply (Hdepths i).
Qed.

(** The second pass does not throw at a node when the depth is not 1, or
    the root identifier is 0 or the identifier of a node. *)
Lemma place_node_returns nodes r m k s node :
  placing nodes r k s ->
  depths_sound r s ->
  m <> 1 \/ r = 0 \/ Some r ∈ node_id <$> nodes ->
  ts_list s !! k = Some node ->
  exists how,
    placement_of r m s node how
    /\ place_node r m s k = Returns (placed m s k node how).
Proof.
  intros Hs Hdepths Hfree Hnode.
  pose proof (place_node_step r m s k node (placing_indexed _ _ _ _ Hs) Hnode)
    as Hstep.
  destruct (place_node r m s k) as [s' | s'].
  - destruct Hstep as (how & Hhow & ->). eauto.
  - exfalso.
    destruct Hstep as (Hroot & Hdepth & p & pn & Hp & Hpn & Htruthy & Hnone).
    pose proof (placing_map_id _ _ _ _ _ _ _ Hs Hp Hpn) as Hidp.
    rewrite <- Hidp in Hdepth.
    destruct (Hdepths p pn m Hpn Hdepth) as [[-> Hpp] | [_ Hsome]].
    + rewrite Hpp in Htruthy, Hnone. simpl in Htruthy.
      destruct Hfree as [? | [-> | Hin]]; [done | done |].
      apply (placing_map_total _ _ _ _ _ Hs) in Hin.
      rewrite Hnone in Hin. by destruct Hin.
    + rewrite Hnone in Hsome. by destruct Hsome.
Qed.

(** X22. When the identifiers are all different, [formatTree] returns,
    throwing nothing, if the maximum depth is not 1, or the root identifier
    is 0, or the root identifier is the identifier of a node. *)
Theorem formatTree_returns nodes rootParentId maxDepth :
  NoDup (node_id <$> nodes) ->
  default 5 maxDepth <> 1 \/ default 0 rootParentId = 0
  \/ Some (default 0 rootParentId) ∈ node_id <$> nodes ->
  exists s, formatTree nodes rootParentId maxDepth = Returns s.
Proof.
  intros Hnodup Hfree. unfold formatTree.
  destruct (place_nodes_returns (default 0 rootParentId) (default 5 maxDepth)
              (fun k s => placing nodes (default 0 rootParentId) k s
                          /\ depths_sound (default 0 rootParentId) s)
              (length nodes)) with
    (s := fold_left index_node (seq 0 (length nodes))
            (mkTreeState nodes ∅ ∅ [] [])) as (s' & Hrun & _).
  - intros k s Hk [Hs Hdepths].
    destruct (placing_node _ _ _ _ Hs Hk) as [node Hnode].
    destruct (place_node_returns nodes _ _ k s node Hs Hdepths Hfree Hnode)
      as (how & Hhow & Hplace).
    eexists. split; [exact Hplace |].
    split; [by eapply placing_step | by eapply depths_sound_step].
  - split; [apply placing_start |].
    intros i node d _.
    destruct (index_nodes_run nodes) as [_ _ -> _ _].
    by rewrite lookup_empty.
  - eauto.
Qed.

Lemma placements_placed nodes r m k s node how :
  placing nodes r k s ->
  ts_list s !! k = Some node ->
  placement_of r m s node how ->
  placements (placed m s k node how)
  ≡ₚ match how with
     | Orphan | Unplaced _ => placements s
     | _ => k :: placements s
     end.
Proof.
  intros Hs Hnode Hhow.
  assert (Hpush : forall p,
             is_Some (ts_list s !! p) ->
             ts_tree s ++ all_children (alter (push_node k) p (ts_list s))
             ≡ₚ k :: placements s).
  { intros p Hp%lookup_lt_is_Some. rewrite all_children_push by done.
    unfold placements. by rewrite <- Permutation_middle. }
  destruct how as [| | pp | p | g pp]; simpl in Hhow; try done.
  - unfold placements. simpl. rewrite <- app_assoc. simpl.
    by rewrite <- Permutation_middle.
  - destruct Hhow as (_ & _ & Hp). apply Hpush.
    by apply (is_map _ (placing_indexed _ _ _ _ Hs) _ _ Hp).
  - destruct Hhow as (_ & _ & _ & Hg & _).
    unfold placements at 1. simpl. rewrite all_children_with_parent.
    apply Hpush. by apply (is_map _ (placing_indexed _ _ _ _ Hs) _ _ Hg).
Qed.

Lemma id_errors_nil nodes :
  (forall node, node ∈ nodes -> is_Some (node_id node)) ->
  id_errors nodes = [].
Proof.
  induction nodes as [| node nodes IH]; intros Hids; [done |].
  unfold id_errors. simpl.
  destruct (Hids node) as [id ->]; [apply list_elem_of_here |]. simpl.
  apply IH. intros node' Hin. apply Hids. by apply list_elem_of_further.
Qed.

Lemma placing_original nodes r k s node :
  placing nodes r k s ->
  ts_list s !! k = Some node ->
  exists node0,
    nodes !! k = Some node0 /\ node_id node0 = node_id node
    /\ node_parent node0 = node_parent node.
Proof.
  intros Hs Hnode.
  pose proof (pl_ids _ _ _ _ Hs k) as Hid.
  pose proof (pl_parents _ _ _ _ Hs k (Nat.le_refl k)) as Hparent.
  rewrite Hnode in Hid, Hparent. simpl in *.
  destruct (nodes !! k) as [node0 |]; [| done]. simpl in *.
  exists node0. split; [done |]. split; congruence.
Qed.

Lemma placing_map_position nodes r k s i node :
  NoDup (node_id <$> nodes) ->
  placing nodes r k s ->
  ts_list s !! i = Some node ->
  ts_map s !! node_id node = Some i.
Proof.
  intros Hnodup Hs Hi.
  destruct (placing_map_total nodes r k s (node_id node) Hs) as [p Hp].
  { pose proof (pl_ids _ _ _ _ Hs i) as Hid. rewrite Hi in Hid. simpl in Hid.
    destruct (nodes !! i) as [node0 |] eqn:Hnode0; [| done].
    injection Hid as ->. apply list_elem_of_fmap. exists node0.
    split; [done |]. by eapply list_elem_of_lookup_2. }
  destruct (is_map _ (placing_indexed _ _ _ _ Hs) _ _ Hp) as [pn Hpn].
  pose proof (placing_map_id _ _ _ _ _ _ _ Hs Hp Hpn) as Hid.
  by rewrite (placing_ids_inj nodes r k s i p node pn Hnodup Hs Hi Hpn).
Qed.

Lemma placed_lookup m s k node how i node' :
  ts_list s !! k = Some node ->
  ts_list (placed m s k node how) !! i = Some node' ->
  exists node0,
    ts_list s !! i = Some node0
    /\ node_id node' = node_id node0
    /\ node_parent node'
       = (if decide (i = k) then new_parent how node else node_parent node0)
    /\ forall c,
        c ∈ children_of node' ->
        c ∈ children_of node0 \/ c = k /\ holder how = Some i.
Proof.
  intros Hnode.
  assert (Hsame : ts_list s !! i = Some node' ->
                  node_parent node'
                  = (if decide (i = k) then node_parent node
                     else node_parent node')).
  { intros Hi. destruct (decide (i = k)) as [-> | _]; congruence. }
  assert (Hpush : forall node0 c,
             c ∈ children_of (push_node k node0) ->
             c ∈ children_of node0 \/ c = k).
  { intros node0 c [Hc | Hc%list_elem_of_singleton]%elem_of_app; auto. }
  destruct how as [| | pp | p | g pp]; simpl;
    try (intros Hi; exists node'; split; [done |]; split; [done |];
         split; [by apply Hsame | by left]).
  - intros (node0 & Hi & ->)%lookup_alter_Some. exists node0.
    split; [done |].
    destruct (decide (p = i)) as [-> | Hne].
    + split; [done |]. split.
      * simpl. destruct (decide (i = k)) as [-> | _]; [congruence | done].
      * intros c [Hc | ->]%Hpush; auto.
    + split; [done |]. split; [| by left].
      destruct (decide (i = k)) as [-> | _]; [congruence | done].
  - intros (node1 & (node0 & Hi & ->)%lookup_alter_Some & ->)
      %lookup_alter_Some.
    exists node0. split; [done |].
    destruct (decide (k = i)) as [<- | Hki], (decide (g = k)) as [-> | Hgk];
      repeat match goal with
        | |- context [decide (?a = ?b)] => destruct (decide (a = b)); try done
        end;
      try subst; simpl; split; try done; split; try done;
      try (by left);
      try (intros c [Hc | ->]%Hpush; auto).
Qed.

Lemma placed_lookup_fwd m s k node how i node0 :
  ts_list s !! k = Some node ->
  ts_list s !! i = Some node0 ->
  exists node',
    ts_list (placed m s k node how) !! i = Some node'
    /\ node_id node' = node_id node0.
Proof.
  intros Hnode Hi.
  assert (Hlen : length (ts_list (placed m s k node how))
                 = length (ts_list s)).
  { destruct how; simpl; by rewrite ?length_alter. }
  destruct (lookup_lt_is_Some_2 (ts_list (placed m s k node how)) i)
    as [node' Hi'].
  { rewrite Hlen. by eapply lookup_lt_Some. }
  exists node'. split; [done |].
  destruct (placed_lookup _ _ _ _ _ _ _ Hnode Hi') as (node1 & Hi1 & Hid & _).
  congruence.
Qed.

Lemma placed_depth_ne m s k node how key :
  key <> node_id node ->
  ts_mapDepth (placed m s k node how) !! key = ts_mapDepth s !! key.
Proof.
  intros Hne. destruct how; simpl; by rewrite ?lookup_insert_ne.
Qed.

(** X23. With the maximum depth 1 and a root identifier other than 0
    that no node has, [formatTree] throws a [TypeError] as soon as the list
    has a child of a root after that root (the identifiers being all
    different). *)
Theorem formatTree_throws nodes rootParentId maxDepth p k parentNode node :
  NoDup (node_id <$> nodes) ->
  default 5 maxDepth = 1 ->
  default 0 rootParentId <> 0 ->
  Some (default 0 rootParentId) ∉ node_id <$> nodes ->
  (p < k)%nat ->
  nodes !! p = Some parentNode ->
  nodes !! k = Some node ->
  node_parent parentNode = Some (default 0 rootParentId) ->
  node_parent node = node_id parentNode ->
  exists s, formatTree nodes rootParentId maxDepth = ThrowsTypeError s.
Proof.
  set (r := default 0 rootParentId).
  intros Hnodup Hm Hr Hfree Hpk Hp Hk Hroot Hparent.
  unfold formatTree. fold r. rewrite Hm.
  destruct (place_nodes r 1 _ _) as [s | s] eqn:Hrun;
    [exfalso | by exists s].
  assert (Hkn : (k < length nodes)%nat) by (by eapply lookup_lt_Some).
  apply (place_nodes_invariant r 1
           (fun i s =>
              placing nodes r i s /\ (i <= k)%nat
              /\ (forall pn, ts_list s !! p = Some pn ->
                             node_parent pn = Some r)
              /\ ((p < i)%nat ->
                  ts_mapDepth s !! node_id parentNode = Some (Num 1)))
           (length nodes)) in Hrun.
  - destruct Hrun as (_ & Hle & _). lia.
  - intros i s0 s' Hi (Hs & Hik & Hpn & Hdepth) Hplace.
    destruct (placing_node _ _ _ _ Hs Hi) as [ni Hni].
    pose proof (place_node_step r 1 s0 i ni (placing_indexed _ _ _ _ Hs) Hni)
      as Hstep.
    rewrite Hplace in Hstep. destruct Hstep as (how & Hhow & ->).
    destruct (placing_original _ _ _ _ _ Hs Hni)
      as (ni0 & Hni0 & Hid0 & Hparent0).
    assert (Hps : exists pn, ts_list s0 !! p = Some pn
                             /\ node_id pn = node_id parentNode).
    { pose proof (pl_ids _ _ _ _ Hs p) as Hid. rewrite Hp in Hid.
      destruct (ts_list s0 !! p) as [pn |]; [| done].
      injection Hid as Hid. eauto. }
    destruct Hps as (pn & Hpn0 & Hidp).
    pose proof (Hpn pn Hpn0) as Hpr.
    pose proof (placing_map_position nodes r i s0 p pn Hnodup Hs Hpn0) as Hmp.
    destruct (decide (i = k)) as [-> | Hne].
    + exfalso. assert (ni0 = node) as -> by congruence.
      assert (Hpi : node_parent ni = node_id pn) by congruence.
      specialize (Hdepth Hpk). rewrite <- Hidp in Hdepth.
      destruct how as [| | pp | q | g pp]; simpl in Hhow;
        rewrite ?Hpi in Hhow.
      * apply Hfree. rewrite <- Hhow, Hidp. apply list_elem_of_fmap.
        exists parentNode. split; [done |]. by eapply list_elem_of_lookup_2.
      * destruct Hhow as [_ Hnone]. congruence.
      * destruct Hhow as (_ & _ & Hfalsy & q & qn & Hq & Hqn & <-).
        assert (q = p) as -> by congruence.
        assert (qn = pn) as -> by congruence.
        rewrite Hpr in Hfalsy. simpl in Hfalsy.
        apply negb_false_iff, Z.eqb_eq in Hfalsy. done.
      * destruct Hhow as (_ & Hd & _). done.
      * destruct Hhow as (_ & _ & _ & Hg & q & qn & Hq & Hqn & <-).
        assert (q = p) as -> by congruence.
        assert (qn = pn) as -> by congruence.
        rewrite Hpr in Hg. apply Hfree.
        by apply (placing_map_elem _ _ _ _ _ _ Hs) in Hg.
    + split; [by eapply placing_step |]. split; [lia |]. split.
      * intros pn' Hpn'.
        destruct (placed_lookup _ _ _ _ _ _ _ Hni Hpn')
          as (pn0 & Hpn0' & _ & Hpp & _).
        assert (pn0 = pn) as -> by congruence.
        rewrite Hpp. destruct (decide (p = i)) as [-> | _]; [| done].
        assert (ni = pn) as -> by congruence.
        destruct how; simpl in *; try done.
        by destruct Hhow as [? _].
      * intros Hlt. destruct (decide (p = i)) as [-> | Hpi].
        -- assert (ni = pn) as -> by congruence.
           destruct how as [| | pp | q | g pp]; simpl in Hhow;
             [| by destruct Hhow as [? _] ..].
           simpl. by rewrite <- Hidp, lookup_insert_eq.
        -- rewrite placed_depth_ne; [apply Hdepth; lia |].
           rewrite <- Hidp. intros Heq. apply Hpi.
           by eapply (placing_ids_inj nodes r i s0 p i pn ni).
  - split; [apply placing_start |]. split; [lia |]. split; [| lia].
    destruct (index_nodes_run nodes) as [Hlist _ _ _ _].
    rewrite firstn_all, drop_all, app_nil_r in Hlist.
    intros pn. rewrite Hlist, list_lookup_fmap, Hp. by intros [= <-].
Qed.

(** On the lists the function is meant for every node is placed. *)
Lemma placement_well_formed nodes r m k s node how :
  well_formed r nodes -> m <> 1 ->
  placing nodes r k s -> depths_sound r s ->
  ts_list s !! k = Some node ->
  placement_of r m s node how ->
  field_errors node = []
  /\ match how with
     | Orphan | Unplaced _ => False
     | _ => True
     end.
Proof.
  intros [Hnodup Hids Hparents Hchildren] Hm Hs Hdepths Hnode Hhow.
  destruct (placing_original _ _ _ _ _ Hs Hnode)
    as (node0 & Hnode0 & Hid0 & Hparent0).
  apply list_elem_of_lookup_2 in Hnode0.
  destruct (Hids _ Hnode0) as (id & Hid & _). rewrite Hid0 in Hid.
  specialize (Hparents _ Hnode0). rewrite Hparent0 in Hparents.
  assert (Hdefined : is_Some (node_parent node)).
  { destruct Hparents as [-> | (n & -> & Hn)%list_elem_of_fmap]; [done |].
    destruct (Hids _ Hn) as (id' & -> & _). done. }
  split.
  { unfold field_errors. rewrite Hid. by destruct Hdefined as [? ->]. }
  destruct how as [| | pp | p | g pp]; simpl in Hhow; try done.
  - destruct Hhow as [Hroot Hnone].
    destruct Hparents as [? | Hin]; [done |].
    apply (placing_map_total _ _ _ _ _ Hs) in Hin.
    rewrite Hnone in Hin. by destruct Hin.
  - destruct Hhow as (_ & Hdepth & Hfalsy & p & pn & Hp & Hpn & <-).
    pose proof (placing_map_id _ _ _ _ _ _ _ Hs Hp Hpn) as Hidp.
    rewrite <- Hidp in Hdepth.
    destruct (Hdepths p pn m Hpn Hdepth) as [[? _] | [_ [g Hg]]]; [done |].
    apply (placing_map_elem _ _ _ _ _ _ Hs) in Hg
      as (n & Hpp & Hn)%list_elem_of_fmap.
    destruct (Hids _ Hn) as (id' & Hid' & Hne).
    rewrite Hpp, Hid' in Hfalsy. simpl in Hfalsy.
    by apply negb_false_iff, Z.eqb_eq in Hfalsy.
Qed.

(** X24. On a list whose identifiers are numbers other than 0, all
    different, whose parents are the root identifier or identifiers of the
    list, and whose nodes come without children, [formatTree] with a
    maximum depth other than 1 returns, logs no error, and stores every
    node exactly once, as a root or as a child. *)
Theorem formatTree_complete nodes rootParentId maxDepth :
  well_formed (default 0 rootParentId) nodes ->
  default 5 maxDepth <> 1 ->
  exists s,
    formatTree nodes rootParentId maxDepth = Returns s
    /\ ts_errors s = []
    /\ ts_tree s ++ all_children (ts_list s) ≡ₚ seq 0 (length nodes).
Proof.
  set (r := default 0 rootParentId). set (m := default 5 maxDepth).
  intros Hwf Hm. unfold formatTree. fold r m.
  destruct (place_nodes_returns r m
              (fun k s => placing nodes r k s /\ depths_sound r s
                          /\ ts_errors s = []
                          /\ placements s ≡ₚ seq 0 k)
              (length nodes)) with
    (s := fold_left index_node (seq 0 (length nodes))
            (mkTreeState nodes ∅ ∅ [] [])) as (s' & Hrun & _ & _ & He & Hp).
  - intros k s Hk (Hs & Hdepths & Herrors & Hperm).
    destruct (placing_node _ _ _ _ Hs Hk) as [node Hnode].
    destruct (place_node_returns nodes r m k s node Hs Hdepths
                (or_introl Hm) Hnode) as (how & Hhow & Hplace).
    eexists. split; [exact Hplace |].
    split; [by eapply placing_step |].
    split; [eapply depths_sound_step; eauto; apply Hwf |].
    destruct (placement_well_formed nodes r m k s node how Hwf Hm Hs Hdepths
                Hnode Hhow) as [Hfields Hplaced].
    pose proof (placements_placed _ _ _ _ _ _ _ Hs Hnode Hhow) as Hnew.
    assert (Hnext : k :: placements s ≡ₚ seq 0 (S k)).
    { rewrite seq_S, Hperm. simpl. apply Permutation_cons_append. }
    destruct how; try done;
      (split; [simpl; by rewrite Herrors, Hfields | by rewrite Hnew]).
  - destruct (index_nodes_run nodes) as [Hlist Hmap Hdepth Htree Herrors].
    rewrite firstn_all, drop_all, app_nil_r in Hlist.
    rewrite firstn_all in Herrors.
    split; [apply placing_start |].
    split; [intros i node d _; by rewrite Hdepth, lookup_empty |].
    split.
    + rewrite Herrors. apply id_errors_nil. intros node Hin.
      destruct (wf_ids _ _ Hwf _ Hin) as (id & -> & _). done.
    + destruct (placed_once_start nodes _ (wf_children _ _ Hwf) Hlist Htree)
        as [Hbound _ _].
      simpl. destruct (placements _) as [| c l]; [done |].
      specialize (Hbound c (list_elem_of_here _ _)). lia.
  - exists s'. done.
Qed.

Lemma placed_tree m s k node how :
  ts_tree (placed m s k node how)
  = ts_tree s ++ match how with Rooted => [k] | _ => [] end.
Proof. destruct how; simpl; by rewrite ?app_nil_r. Qed.

Lemma leveled_depth nodes r m k s node how :
  well_formed r nodes -> sorted_by_depth r nodes ->
  2 <= m -> Z.of_nat (length nodes) < 2 ^ 53 ->
  placing nodes r k s -> leveled m k s ->
  (k < length nodes)%nat ->
  ts_list s !! k = Some node ->
  placement_of r m s node how ->
  match how with Orphan | Unplaced _ => False | _ => True end ->
  exists d,
    ts_mapDepth (placed m s k node how)
    = <[node_id node := Num d]> (ts_mapDepth s)
    /\ 1 <= d <= m /\ d <= Z.of_nat (S k)
    /\ (how = Rooted -> d = 1)
    /\ (how <> Rooted ->
        2 <= d
        /\ exists g gn,
            (g < k)%nat /\ ts_map s !! new_parent how node = Some g
            /\ ts_list s !! g = Some gn
            /\ ts_mapDepth s !! node_id gn = Some (Num (d - 1))).
Proof.
  intros Hwf Hsorted Hm Hlen Hs Hlv Hk Hnode Hhow Hplaced.
  pose proof (wf_nodup _ _ Hwf) as Hnodup.
  assert (Hbefore : forall g gn,
             ts_list s !! g = Some gn ->
             is_Some (ts_mapDepth s !! node_id gn) -> (g < k)%nat).
  { intros g gn Hg Hsome. destruct (decide (g < k)%nat); [done |].
    rewrite (lv_unprocessed _ _ _ Hlv g gn) in Hsome by (done || lia).
    by destruct Hsome. }
  destruct how as [| | pp | p | g pp]; simpl in Hhow; try done.
  - exists 1. split; [done |]. split; [lia |]. split; [lia |]. by split.
  - destruct Hhow as (Hroot & Hdepth & Hp).
    destruct (is_map _ (placing_indexed _ _ _ _ Hs) _ _ Hp) as [pn Hpn].
    pose proof (placing_map_id _ _ _ _ _ _ _ Hs Hp Hpn) as Hidp.
    destruct (placing_original _ _ _ _ _ Hs Hnode)
      as (node0 & Hnode0 & Hid0 & Hparent0).
    destruct (Hsorted k node0 Hnode0) as [? | (j & jn & Hj & Hjn & Hpj)];
      [congruence |].
    assert (Hjs : exists jn', ts_list s !! j = Some jn'
                              /\ node_id jn' = node_id jn).
    { pose proof (pl_ids _ _ _ _ Hs j) as Hid. rewrite Hjn in Hid.
      destruct (ts_list s !! j) as [jn' |]; [| done].
      injection Hid as Hid. eauto. }
    destruct Hjs as (jn' & Hjn' & Hidj).
    assert (j = p) as ->.
    { eapply (placing_ids_inj nodes r k s j p jn' pn); eauto. congruence. }
    assert (jn' = pn) as -> by congruence.
    destruct (lv_processed _ _ _ Hlv p pn Hj Hpn) as (dp & Hdp & Hrange & Hdk).
    rewrite Hidp in Hdp.
    assert (dp <> m) by (intros ->; congruence).
    exists (dp + 1). simpl. rewrite Hdp. simpl.
    destruct (Z.ltb_spec dp (2 ^ 53)); [| lia].
    split; [done |]. split; [lia |]. split; [lia |]. split; [done |].
    intros _. split; [lia |]. exists p, pn.
    replace (dp + 1 - 1) with dp by lia. by rewrite Hidp.
  - destruct Hhow as (Hroot & Hdepth & Htruthy & Hg & p & pn & Hp & Hpn & Hpp).
    pose proof (placing_map_id _ _ _ _ _ _ _ Hs Hp Hpn) as Hidp.
    rewrite <- Hidp in Hdepth.
    assert (Hpk : (p < k)%nat) by (eapply Hbefore; eauto).
    destruct (lv_processed _ _ _ Hlv p pn Hpk Hpn) as (dp & Hdp & Hrange & Hdk).
    assert (dp = m) as -> by congruence.
    destruct (lv_parent _ _ _ Hlv p pn m Hpn Hdepth Hm)
      as (g' & gn & Hg' & Hgn & Hdg).
    rewrite Hpp in Hg'. assert (g' = g) as -> by congruence.
    exists m. simpl. split; [done |]. split; [lia |]. split; [lia |].
    split; [done |]. intros _. split; [done |]. exists g, gn.
    split; [eapply Hbefore; eauto |]. done.
Qed.

Lemma leveled_step nodes r m k s node how :
  well_formed r nodes -> sorted_by_depth r nodes ->
  2 <= m -> Z.of_nat (length nodes) < 2 ^ 53 ->
  placing nodes r k s -> placed_once k s -> leveled m k s ->
  (k < length nodes)%nat ->
  ts_list s !! k = Some node ->
  placement_of r m s node how ->
  match how with Orphan | Unplaced _ => False | _ => True end ->
  leveled m (S k) (placed m s k node how).
Proof.
  intros Hwf Hsorted Hm Hlen Hs Honce Hlv Hk Hnode Hhow Hplaced.
  pose proof (wf_nodup _ _ Hwf) as Hnodup.
  destruct (leveled_depth _ _ _ _ _ _ _ Hwf Hsorted Hm Hlen Hs Hlv Hk Hnode
              Hhow Hplaced) as (dk & Hdepth & Hrange & Hdk & Hrooted & Hnot).
  assert (Hother : forall i node',
             ts_list s !! i = Some node' -> i <> k ->
             node_id node <> node_id node').
  { intros i node' Hi Hne Heq. apply Hne. symmetry.
    by eapply (placing_ids_inj nodes r k s k i). }
  assert (Hbefore : forall g gn,
             ts_list s !! g = Some gn ->
             is_Some (ts_mapDepth s !! node_id gn) -> (g < k)%nat).
  { intros g gn Hg Hsome. destruct (decide (g < k)%nat); [done |].
    rewrite (lv_unprocessed _ _ _ Hlv g gn) in Hsome by (done || lia).
    by destruct Hsome. }
  assert (Hkeep : forall g gn d,
             (g < k)%nat -> ts_list s !! g = Some gn ->
             ts_mapDepth s !! node_id gn = Some (Num d) ->
             exists gn',
               ts_list (placed m s k node how) !! g = Some gn'
               /\ ts_mapDepth (placed m s k node how) !! node_id gn'
                  = Some (Num d)).
  { intros g gn d Hgk Hg Hd.
    destruct (placed_lookup_fwd m s k node how g gn Hnode Hg)
      as (gn' & Hgn' & Hid).
    exists gn'. split; [done |].
    rewrite Hdepth, Hid, lookup_insert_ne; [done |].
    apply (Hother g); [done | lia]. }
  assert (Hnew : exists node',
             ts_list (placed m s k node how) !! k = Some node'
             /\ node_id node' = node_id node).
  { by apply placed_lookup_fwd. }
  split.
  - intros i node' Hi Hi'.
    destruct (placed_lookup _ _ _ _ _ _ _ Hnode Hi')
      as (node0 & Hi0 & Hid & _).
    rewrite Hdepth, Hid. destruct (decide (i = k)) as [-> | Hne].
    + assert (node0 = node) as -> by congruence.
      rewrite lookup_insert_eq. exists dk. done.
    + rewrite lookup_insert_ne by (by apply (Hother i)).
      destruct (lv_processed _ _ _ Hlv i node0) as (d & Hd & Hr & Hle);
        [lia | done |].
      exists d. split; [done |]. split; [done | lia].
  - intros i node' Hi Hi'.
    destruct (placed_lookup _ _ _ _ _ _ _ Hnode Hi')
      as (node0 & Hi0 & Hid & _).
    rewrite Hdepth, Hid, lookup_insert_ne by (apply (Hother i); [done | lia]).
    apply (lv_unprocessed _ _ _ Hlv i); [lia | done].
  - intros i node' d Hi'.
    destruct (placed_lookup _ _ _ _ _ _ _ Hnode Hi')
      as (node0 & Hi0 & Hid & Hparent & _).
    rewrite Hdepth at 1. rewrite Hid, Hparent.
    destruct (decide (i = k)) as [-> | Hne].
    + assert (node0 = node) as -> by congruence.
      rewrite lookup_insert_eq. intros [= <-] Hd.
      destruct Hnot as (_ & g & gn & Hgk & Hg & Hgn & Hdg).
      { intros ->. specialize (Hrooted eq_refl). lia. }
      destruct (Hkeep g gn _ Hgk Hgn Hdg) as (gn' & Hgn' & Hdg').
      exists g, gn'. split; [| done].
      by destruct how.
    + rewrite lookup_insert_ne by (by apply (Hother i)). intros Hd Hd2.
      destruct (lv_parent _ _ _ Hlv i node0 d Hi0 Hd Hd2)
        as (g & gn & Hg & Hgn & Hdg).
      assert (Hgk : (g < k)%nat) by (eapply Hbefore; eauto).
      destruct (Hkeep g gn _ Hgk Hgn Hdg) as (gn' & Hgn' & Hdg').
      exists g, gn'. split; [| done]. by destruct how.
  - intros c. rewrite placed_tree.
    intros [Hc | Hc]%elem_of_app.
    + destruct (lv_root _ _ _ Hlv c Hc) as (cn & Hcn & Hd).
      assert (Hck : (c < k)%nat).
      { apply (po_bound _ _ Honce). unfold placements.
        apply elem_of_app. by left. }
      apply (Hkeep c cn 1 Hck Hcn Hd).
    + destruct how; try by apply elem_of_nil in Hc.
      apply list_elem_of_singleton in Hc as ->.
      destruct Hnew as (node' & Hnode' & Hid). exists node'.
      split; [done |].
      by rewrite Hdepth, Hid, lookup_insert_eq, (Hrooted eq_refl).
  - intros p node' c Hp' Hc'.
    destruct (placed_lookup _ _ _ _ _ _ _ Hnode Hp')
      as (node0 & Hp0 & Hid & _ & Hchildren).
    destruct (Hchildren c Hc') as [Hc | [-> Hholder]].
    + destruct (lv_child _ _ _ Hlv p node0 c Hp0 Hc)
        as (child & d & Hchild & Hd & Hd2).
      assert (Hck : (c < k)%nat).
      { apply (po_bound _ _ Honce). unfold placements.
        apply elem_of_app. right. apply elem_of_all_children. eauto. }
      destruct (Hkeep c child d Hck Hchild Hd) as (child' & Hchild' & Hd').
      exists child', d. done.
    + destruct Hnew as (node1 & Hnode1 & Hid1).
      exists node1, dk. split; [done |]. split.
      * by rewrite Hdepth, Hid1, lookup_insert_eq.
      * apply Hnot. intros ->. done.
Qed.

Lemma at_level_depth nodes r m s level index :
  NoDup (node_id <$> nodes) ->
  placing nodes r (length nodes) s ->
  placed_once (length nodes) s ->
  leveled m (length nodes) s ->
  at_level s level index ->
  exists node,
    ts_list s !! index = Some node
    /\ ts_mapDepth s !! node_id node = Some (Num (Z.of_nat level)).
Proof.
  intros Hnodup Hs Honce Hlv.
  induction 1 as [c Hc | level p pn c Hp IH Hpn Hc].
  - by apply (lv_root _ _ _ Hlv).
  - destruct IH as (pn' & Hpn' & Hdp).
    assert (pn' = pn) as -> by congruence.
    destruct (lv_child _ _ _ Hlv p pn c Hpn Hc)
      as (child & d & Hchild & Hd & Hd2).
    exists child. split; [done |].
    destruct (lv_parent _ _ _ Hlv c child d Hchild Hd Hd2)
      as (g & gn & Hg & Hgn & Hdg).
    pose proof (po_parent _ _ Honce p pn c Hpn Hc) as Hparent.
    rewrite Hchild in Hparent. injection Hparent as Hparent.
    rewrite Hparent in Hg.
    rewrite (placing_map_position nodes r _ s p pn Hnodup Hs Hpn) in Hg.
    injection Hg as <-. assert (gn = pn) as -> by congruence.
    rewrite Hd. do 2 f_equal. rewrite Hdp in Hdg. injection Hdg as Hdg. lia.
Qed.

(** X25. On such a list sorted by depth, with a maximum depth of 2 or
    more, no node of the tree returned is below the maximum depth: the
    roots being at level 1 and children one level below their node, every
    level is at most the maximum depth. *)
Theorem formatTree_depth nodes rootParentId maxDepth s level index :
  well_formed (default 0 rootParentId) nodes ->
  sorted_by_depth (default 0 rootParentId) nodes ->
  2 <= default 5 maxDepth ->
  Z.of_nat (length nodes) < 2 ^ 53 ->
  formatTree nodes rootParentId maxDepth = Returns s ->
  at_level s level index ->
  Z.of_nat level <= default 5 maxDepth.
Proof.
  set (r := default 0 rootParentId). set (m := default 5 maxDepth).
  intros Hwf Hsorted Hm Hlen Hrun Hlevel. unfold formatTree in Hrun.
  fold r m in Hrun.
  apply (place_nodes_invariant r m
           (fun k s => placing nodes r k s /\ depths_sound r s
                       /\ placed_once k s /\ leveled m k s)
           (length nodes)) in Hrun.
  - destruct Hrun as (Hs & _ & Honce & Hlv).
    destruct (at_level_depth nodes r m s level index (wf_nodup _ _ Hwf) Hs
                Honce Hlv Hlevel) as (node & Hnode & Hd).
    destruct (lv_processed _ _ _ Hlv index node) as (d & Hd' & Hrange & _);
      [rewrite <- (pl_length _ _ _ _ Hs); by eapply lookup_lt_Some | done |].
    rewrite Hd in Hd'. injection Hd' as <-. lia.
  - intros k s0 s' Hk (Hs & Hdepths & Honce & Hlv) Hplace.
    destruct (placing_node _ _ _ _ Hs Hk) as [node Hnode].
    pose proof (place_node_step r m s0 k node (placing_indexed _ _ _ _ Hs)
                  Hnode) as Hstep.
    rewrite Hplace in Hstep. destruct Hstep as (how & Hhow & ->).
    destruct (placement_well_formed nodes r m k s0 node how Hwf
                ltac:(lia) Hs Hdepths Hnode Hhow) as [_ Hplaced].
    split; [by eapply placing_step |].
    split; [eapply depths_sound_step; eauto; apply Hwf |].
    split; [by eapply placed_once_step |].
    by eapply leveled_step.
  - destruct (index_nodes_run nodes) as [Hlist Hmap Hdepth Htree Herrors].
    rewrite firstn_all, drop_all, app_nil_r in Hlist.
    split; [apply placing_start |].
    split; [intros i node d _; by rewrite Hdepth, lookup_empty |].
    pose proof (placed_once_start nodes _ (wf_children _ _ Hwf) Hlist Htree)
      as Honce.
    split; [done |].
    split.
    + intros i node Hi. lia.
    + intros i node _ _. by rewrite Hdepth, lookup_empty.
    + intros i node d _. by rewrite Hdepth, lookup_empty.
    + intros c. rewrite Htree. by intros ?%elem_of_nil.
    + intros p node c Hp Hc. exfalso.
      assert (Hin : c ∈ placements
                      (fold_left index_node (seq 0 (length nodes))
                         (mkTreeState nodes ∅ ∅ [] []))).
      { unfold placements. apply elem_of_app. right.
        apply elem_of_all_children. eauto. }
      apply (po_bound _ _ Honce) in Hin. lia.
Qed.

(** *** debounce, throttle *)

(** A delay below 2^31 ms is kept by the host, at least. *)
Lemma timer_delay_kept delay :
  delay < 2 ^ 31 -> Z.max 0 delay <= timer_delay delay.
Proof.
  intros Hdelay. unfold timer_delay.
  destruct (Z.lt_ge_cases delay (- 2 ^ 31)) as [Hlow | Hlow]; [lia |].
  rewrite Z.mod_small by lia. lia.
Qed.

Lemma debouncing_tick {A} delay (ticks : list (Tick A)) st tick st' :
  debouncing delay ticks st ->
  debounce_tick delay st tick = Some st' ->
  debouncing delay (ticks ++ [tick]) st'.
Proof.
  intros [Htimer Hquiet] Htick. unfold debounce_tick in Htick.
  destruct (tick_time tick <? db_clock st); [done |].
  assert (Hold : forall t args,
             (t, args) ∈ db_applied st ->
             exists i j t0 id,
               (ticks ++ [tick]) !! i = Some (Called t0 args)
               /\ (ticks ++ [tick]) !! j = Some (Expired t id)
               /\ (i < j)%nat
               /\ t0 + timer_delay delay <= t
               /\ forall l tick',
                   (i < l < j)%nat -> (ticks ++ [tick]) !! l = Some tick' ->
                   is_call tick' = false).
  { intros t args (i & j & t0 & id & Hi & Hj & Hij & Ht & Hbetween)%Hquiet.
    pose proof (lookup_lt_Some _ _ _ Hj) as Hjlen.
    exists i, j, t0, id.
    split; [by rewrite lookup_app_l by lia |].
    split; [by rewrite lookup_app_l by lia |].
    split; [done |]. split; [done |].
    intros l tick' Hl. rewrite lookup_app_l by lia. by apply Hbetween. }
  destruct tick as [now args | now id].
  - injection Htick as <-. unfold debounced, setTimeout.
    cbn [db_timeoutID db_timers db_clock db_applied tm_set tm_next].
    set (timers := clearTimeout (db_timeoutID st) (db_timers st)).
    assert (Hcleared : tm_set timers = ∅).
    { apply map_eq. intros id. rewrite lookup_empty. subst timers.
      destruct (tm_set (clearTimeout (db_timeoutID st) (db_timers st)) !! id)
        as [[due a] |] eqn:Hid; [exfalso | done].
      unfold clearTimeout in Hid.
      destruct (db_timeoutID st) as [tid |] eqn:Htid; simpl in Hid.
      - apply lookup_delete_Some in Hid as [Hne Hid].
        apply Htimer in Hid as [Heq _]. congruence.
      - apply Htimer in Hid as [Heq _]. congruence. }
    split; cbn [db_timeoutID db_timers db_clock db_applied tm_set tm_next];
      [| done].
    intros id due a. rewrite Hcleared.
    intros [[<- [= <- <-]] | [_ Hnone]]%lookup_insert_Some;
      [| by rewrite lookup_empty in Hnone].
    split; [done |]. exists (length ticks), now.
    split; [by rewrite lookup_app_r, Nat.sub_diag by lia |].
    split; [done |].
    intros l tick' Hl Hlookup. apply lookup_lt_Some in Hlookup.
    rewrite length_app in Hlookup. simpl in Hlookup. lia.
  - unfold due_timer in Htick.
    destruct (tm_set (db_timers st) !! id) as [[due args] |] eqn:Hid;
      [| done].
    destruct (Z.leb_spec due now) as [Hdue |]; [| done].
    injection Htick as <-.
    destruct (Htimer _ _ _ Hid) as (Htid & i & t0 & Hi & -> & Hafter).
    pose proof (lookup_lt_Some _ _ _ Hi) as Hilen.
    split; cbn [db_timeoutID db_timers db_clock db_applied tm_set tm_next].
    + intros id' due' a' [Hne Hid']%lookup_delete_Some.
      destruct (Htimer _ _ _ Hid') as (Htid' & _). congruence.
    + intros t a [Hin | [= -> ->]%list_elem_of_singleton]%elem_of_app;
        [by apply Hold |].
      exists i, (length ticks), t0, id.
      split; [by rewrite lookup_app_l by lia |].
      split; [by rewrite lookup_app_r, Nat.sub_diag by lia |].
      split; [done |]. split; [done |].
      intros l tick' Hl. rewrite lookup_app_l by lia. apply Hafter. lia.
Qed.

Lemma debouncing_run {A} delay (ticks done_ticks : list (Tick A)) st st' :
  debouncing delay done_ticks st ->
  debounce_run delay st ticks = Some st' ->
  debouncing delay (done_ticks ++ ticks) st'.
Proof.
  revert done_ticks st. induction ticks as [| tick ticks IH];
    intros done_ticks st Hst Hrun.
  - injection Hrun as <-. by rewrite app_nil_r.
  - simpl in Hrun.
    destruct (debounce_tick delay st tick) as [st1 |] eqn:Htick; [| done].
    rewrite cons_middle, app_assoc. apply (IH _ st1); [| done].
    by eapply debouncing_tick.
Qed.

(** X26. A function returned by [debounce] with a delay below 2^31 ms is
    applied only by a timer (never within a call), to the arguments of a
    call made at least the delay earlier, and only if no other call came
    between that call and the timer. *)
Theorem debounce_waits_for_quiet {A} delay (ticks : list (Tick A)) st t args :
  delay < 2 ^ 31 ->
  debounce_run delay debounce ticks = Some st ->
  (t, args) ∈ db_applied st ->
  exists i j t0 id,
    ticks !! i = Some (Called t0 args)
    /\ ticks !! j = Some (Expired t id)
    /\ (i < j)%nat
    /\ t0 + Z.max 0 delay <= t
    /\ forall l tick,
        (i < l < j)%nat -> ticks !! l = Some tick -> is_call tick = false.
Proof.
  intros Hdelay%timer_delay_kept Hrun Hin.
  apply (debouncing_run delay ticks []) in Hrun.
  - destruct (db_quiet _ _ _ Hrun _ _ Hin)
      as (i & j & t0 & id & Hi & Hj & Hij & Ht & Hquiet).
    exists i, j, t0, id. repeat split; try done. lia.
  - split; simpl.
    + intros id due a. by rewrite lookup_empty.
    + intros t' a. by intros ?%elem_of_nil.
Qed.

(** The host does not keep a delay of 2^31 ms: the timer of the call may
    run at once, and the function is applied with no wait at all. *)
Example debounce_long_delay :
  exists st,
    debounce_run (2 ^ 31) debounce keystrokes_long = Some st
    /\ db_applied st = [(0, "a")].
Proof. eexists. split; by vm_compute. Qed.

(** A call whose application of [fn], if there is one, returns without
    calling the throttled function. *)
Lemma throttled_returns {A} duration now (args : A) st :
  throttled duration now args returns st
  = if negb (th_shouldWait st)
    then
      mkThrottled true
        (setTimeout now duration () (th_timers st)).2 now
        (th_applied st ++ [(now, args)])
    else mkThrottled (th_shouldWait st) (th_timers st) now (th_applied st).
Proof. unfold returns. simpl. by destruct (th_shouldWait st). Qed.

Lemma throttling_tick {A} duration (ticks : list (Tick (A * Application A)))
  st tick st' :
  throttling duration ticks st ->
  (forall t args application,
      tick = Called t (args, application) -> application = returns) ->
  throttle_tick duration st tick = Some st' ->
  throttling duration (ticks ++ [tick]) st'.
Proof.
  intros [Hidle Hsingle Htimer Hrested Hspaced Hcalls] Hreturns Htick.
  unfold throttle_tick in Htick.
  destruct (Z.ltb_spec (tick_time tick) (th_clock st)) as [| Hclock];
    [done |].
  assert (Hold : forall t args,
             (t, args) ∈ th_applied st ->
             Called t (args, returns) ∈ ticks ++ [tick]).
  { intros t args Hin. apply elem_of_app. left. by apply Hcalls. }
  destruct tick as [now [args application] | now id]; simpl in Hclock.
  - rewrite (Hreturns now args application eq_refl) in *.
    injection Htick as <-. rewrite ?throttled_returns. unfold setTimeout.
    destruct (th_shouldWait st) eqn:Hwait;
      cbn [negb snd th_shouldWait th_timers th_clock th_applied tm_set].
    + split; cbn [th_shouldWait th_timers th_clock th_applied]; try done.
    + specialize (Hidle eq_refl). rewrite Hidle.
      split; cbn [th_shouldWait th_timers th_clock th_applied tm_set].
      * done.
      * intros id1 id2 timer1 timer2.
        intros [[<- _] | [_ ?]]%lookup_insert_Some;
          intros [[<- _] | [_ ?]]%lookup_insert_Some; done.
      * intros id due u [[<- [= <- _]] | [_ ?]]%lookup_insert_Some; [| done].
        exists now, args. by rewrite last_snoc.
      * done.
      * intros i t1 args1 t2 args2 H1 H2.
        destruct (decide (S i < length (th_applied st))%nat) as [Hlt | Hge].
        -- rewrite lookup_app_l in H1, H2 by lia. by eapply Hspaced.
        -- assert (Hi : S i = length (th_applied st)).
           { apply lookup_lt_Some in H2. rewrite length_app in H2.
             simpl in H2. lia. }
           rewrite lookup_app_l in H1 by lia.
           rewrite lookup_app_r, Hi, Nat.sub_diag in H2 by lia.
           injection H2 as <- <-.
           assert (Hlast : last (th_applied st) = Some (t1, args1)).
           { rewrite last_lookup. rewrite <- Hi. simpl. done. }
           specialize (Hrested t1 args1 eq_refl Hlast). lia.
      * intros t a [Hin | [= -> ->]%list_elem_of_singleton]%elem_of_app;
          [by apply Hold |].
        apply elem_of_app. right. apply list_elem_of_here.
  - unfold due_timer in Htick.
    destruct (tm_set (th_timers st) !! id) as [[due u] |] eqn:Hid; [| done].
    destruct (Z.leb_spec due now) as [Hdue |]; [| done].
    injection Htick as <-.
    assert (Hempty : delete id (tm_set (th_timers st)) = ∅).
    { apply map_eq. intros id'. rewrite lookup_empty.
      destruct (delete id (tm_set (th_timers st)) !! id') as [timer |] eqn:Hid';
        [| done].
      apply lookup_delete_Some in Hid' as [Hne Hid'].
      by destruct (Hsingle _ _ _ _ Hid Hid'). }
    split; cbn [th_shouldWait th_timers th_clock th_applied tm_set];
      rewrite ?Hempty; try done.
    intros t a _ Hlast.
    destruct (Htimer _ _ _ Hid) as (t' & a' & Hlast' & ->).
    rewrite Hlast in Hlast'. injection Hlast' as <- <-. done.
Qed.

Lemma throttling_run {A} duration
  (ticks done_ticks : list (Tick (A * Application A))) st st' :
  throttling duration done_ticks st ->
  (forall t args application,
      Called t (args, application) ∈ ticks -> application = returns) ->
  throttle_run duration st ticks = Some st' ->
  throttling duration (done_ticks ++ ticks) st'.
Proof.
  revert done_ticks st. induction ticks as [| tick ticks IH];
    intros done_ticks st Hst Hreturns Hrun.
  - injection Hrun as <-. by rewrite app_nil_r.
  - simpl in Hrun.
    destruct (throttle_tick duration st tick) as [st1 |] eqn:Htick; [| done].
    rewrite cons_middle, app_assoc. apply (IH _ st1); [| | done].
    + eapply throttling_tick; [done | | done].
      intros t args application ->. eapply Hreturns, list_elem_of_here.
    + intros t args application Hin.
      eapply Hreturns, list_elem_of_further, Hin.
Qed.

Lemma throttling_start {A} duration : throttling duration [] (@throttle A).
Proof.
  split; simpl; try done.
  - intros t a. by intros ?%elem_of_nil.
Qed.

Lemma throttle_run_first {A} duration
  (ticks : list (Tick (A * Application A))) st st' x :
  (forall t args application,
      Called t (args, application) ∈ ticks -> application = returns) ->
  th_applied st !! 0%nat = Some x ->
  throttle_run duration st ticks = Some st' ->
  th_applied st' !! 0%nat = Some x.
Proof.
  revert st. induction ticks as [| tick ticks IH]; intros st Hreturns Hx Hrun.
  - by injection Hrun as <-.
  - simpl in Hrun.
    destruct (throttle_tick duration st tick) as [st1 |] eqn:Htick; [| done].
    apply (IH st1); [| | done].
    { intros t args application Hin.
      eapply Hreturns, list_elem_of_further, Hin. }
    unfold throttle_tick in Htick.
    destruct (tick_time tick <? th_clock st); [done |].
    destruct tick as [now [args application] | now id].
    + rewrite (Hreturns now args application (list_elem_of_here _ _)) in Htick.
      injection Htick as <-. rewrite ?throttled_returns.
      destruct (negb (th_shouldWait st)); simpl; [| done].
      by apply lookup_app_l_Some.
    + destruct (due_timer now id (th_timers st)) as [[u timers] |]; [| done].
      by injection Htick as <-.
Qed.

(** X27. For a function returned by [throttle] with a duration below
    2^31 ms, whose applications all return without calling the throttled
    function: two successive applications are at least the duration apart;
    every application is made within a call, at its time and with its
    arguments; and the first call is always applied. *)
Theorem throttle_spaces_calls {A} duration
  (ticks : list (Tick (A * Application A))) st :
  duration < 2 ^ 31 ->
  (forall t args application,
      Called t (args, application) ∈ ticks -> application = returns) ->
  throttle_run duration throttle ticks = Some st ->
  (forall i t1 args1 t2 args2,
      th_applied st !! i = Some (t1, args1) ->
      th_applied st !! S i = Some (t2, args2) ->
      t1 + Z.max 0 duration <= t2)
  /\ (forall t args,
         (t, args) ∈ th_applied st -> Called t (args, returns) ∈ ticks)
  /\ (forall t args application rest,
         ticks = Called t (args, application) :: rest ->
         th_applied st !! 0%nat = Some (t, args)).
Proof.
  intros Hduration%timer_delay_kept Hreturns Hrun. split; [| split].
  - apply (throttling_run duration ticks []) in Hrun;
      [| apply throttling_start | done].
    intros i t1 args1 t2 args2 H1 H2.
    pose proof (th_spaced _ _ _ Hrun _ _ _ _ _ H1 H2). lia.
  - apply (throttling_run duration ticks []) in Hrun;
      [apply (th_calls _ _ _ Hrun) | apply throttling_start | done].
  - intros t args application rest ->.
    rewrite (Hreturns t args application (list_elem_of_here _ _)) in Hrun.
    simpl in Hrun. unfold throttle_tick in Hrun.
    cbn [tick_time throttle th_clock] in Hrun. destruct (t <? 0); [done |].
    rewrite ?throttled_returns in Hrun.
    apply (throttle_run_first duration rest _ st (t, args)) in Hrun;
      [done | | done].
    intros t' args' application' Hin.
    eapply Hreturns, list_elem_of_further, Hin.
Qed.

(** When [fn] throws, [shouldWait] is not set: the call that follows a
    millisecond later is applied as well. *)
Example throttle_after_exception :
  exists st,
    throttle_run 1000 throttle clicks_thrown = Some st
    /\ th_applied st = [(0, "a"); (1, "b")].
Proof. eexists. split; by vm_compute. Qed.

(** When [fn] calls the throttled function while it runs, that call is
    applied within the first one. *)
Example throttle_reentrant :
  exists st,
    throttle_run 1000 throttle clicks_reentrant = Some st
    /\ th_applied st = [(0, "a"); (0, "b")].
Proof. eexists. split; by vm_compute. Qed.

(** *** isWebServiceError *)

(** X28. [isWebServiceError] throws a [TypeError] exactly for an error
    without warning code whose error code is accessexception and whose
    message is undefined: the test for an expired token then reads
    [includes] of [undefined]. *)
Theorem isWebServiceError_throws error :
  isWebServiceError error = ThrowsError
  <-> exists e,
      error = Some e /\ warningcode e = None
      /\ errorcode e = Some "accessexception" /\ message e = None.
Proof.
  destruct error as [e |]; [| split; [done | by intros (e & ? & _)]].
  destruct e as [warning code msg st].
  unfold isWebServiceError, isExpiredTokenError.
  cbn [warningcode errorcode message status].
  destruct warning as [w |].
  { rewrite bool_decide_eq_true_2 by done.
    split; [done | by intros (e & [= <-] & ? & _)]. }
  rewrite bool_decide_eq_false_2 by (by intros []).
  destruct code as [c |].
  2: { rewrite bool_decide_eq_false_2 by (by intros []). cbn [andb].
       split; [done | by intros (e & [= <-] & _ & ? & _)]. }
  rewrite bool_decide_eq_true_2 by done. cbn [andb].
  destruct (forallb (fun code => negb (code_is (Some c) code))
              app_error_codes) eqn:Happ.
  2: { split; [done |]. intros (e & [= <-] & _ & [= ->] & _).
       by vm_compute in Happ. }
  unfold code_is.
  destruct (String.eqb_spec c "invalidtoken") as [-> | Hinvalid].
  { split; [done | by intros (e & [= <-] & _ & ? & _)]. }
  destruct (String.eqb_spec c "accessexception") as [-> | Haccess].
  - destruct msg as [m |].
    + destruct (String_includes m _);
        (split; [done | by intros (e & [= <-] & _ & _ & ?)]).
    + split; [| done]. intros _. by eexists.
  - split; [done |]. intros (e & [= <-] & _ & [= ->] & _). done.
Qed.

Lemma status_below_400 e :
  (forall n, status e = Some n -> n < 400) ->
  truthy_value (status_from_400 e) = false.
Proof.
  intros Hstatus. unfold status_from_400.
  destruct (status e) as [n |]; [| done]. specialize (Hstatus n eq_refl).
  destruct (Z.eqb_spec n 0) as [-> | _]; [done |]. simpl.
  apply Z.leb_gt. lia.
Qed.

(** X29. An error without warning code and with a status below 400, if any,
    is not taken for an error of the web service when its error code is
    one of the codes of the app, or when it is an expired token error. *)
Theorem isWebServiceError_app_error e :
  warningcode e = None ->
  (forall n, status e = Some n -> n < 400) ->
  (exists code, errorcode e = Some code /\ code ∈ app_error_codes)
  \/ isExpiredTokenError (Some e) = Evaluates true ->
  exists value,
    isWebServiceError (Some e) = Evaluates value
    /\ truthy_value value = false.
Proof.
  intros Hwarning Hstatus%status_below_400 Happ.
  unfold isWebServiceError. rewrite Hwarning.
  rewrite bool_decide_eq_false_2 by (by intros []).
  destruct Happ as [(code & Hcode & Hin) | Hexpired].
  - rewrite Hcode, bool_decide_eq_true_2 by done. cbn [andb].
    assert (Hnone : forallb (fun c => negb (code_is (Some code) c))
                      app_error_codes = false).
    { apply not_true_iff_false. rewrite forallb_forall. intros Hall.
      apply list_elem_of_In in Hin. specialize (Hall code Hin).
      simpl in Hall. by rewrite String.eqb_refl in Hall. }
    rewrite Hnone. eauto.
  - rewrite Hexpired.
    destruct (bool_decide (errorcode e <> None)
              && forallb (fun code => negb (code_is (errorcode e) code))
                   app_error_codes); simpl; eauto.
Qed.

(** ** The theorems on the concrete sites *)

Ltac by_running :=
  clear; vm_compute; first [reflexivity | solve [mem_find] | done].

(** With nothing stored, the synchronisation of quiz 1 makes its four calls
    and reports no change. *)
Lemma sync_nothing_to_do_witness :
  EvGetQuizAttempts 1 "site1" (Ok []) ∈ run_nothing.2
  /\ run_nothing.1.1 = Ok (mkSyncResult [] false false)
  /\ exists r0 r1 r2,
      run_nothing.2
      = [EvSyncActivity COMPONENT 1 "site1" r0;
         EvGetQuizAttempts 1 "site1" (Ok []);
         EvInvalidateAllQuizData 1 (quiz_course quiz1) None "site1" r1;
         EvSetSyncTime 1 "site1" r2].
Proof.
  split; [by_running |].
  apply (sync_nothing_to_do quiz1 None None (initial_state world_nothing)
           run_nothing.1.1 run_nothing.1.2 run_nothing.2 1 "site1");
    by_running.
Defined.

(** With the network down, the synchronisation of quiz 1 stops at the
    network check. *)
Lemma sync_offline_cannot_connect_witness :
  EvGetQuizAttempts 1 "site1" (Ok [offline7]) ∈ run_unreachable.2
  /\ [offline7] <> []
  /\ exists r0 online rest,
      run_unreachable.2
      = EvSyncActivity COMPONENT 1 "site1" r0
        :: EvGetQuizAttempts 1 "site1" (Ok [offline7])
        :: EvIsOnline online :: rest
      /\ (online = false ->
          run_unreachable.1.1 = Err (CoreError "core.cannotconnect")
          /\ rest = []).
Proof.
  split; [by_running |]. split; [done |].
  apply (sync_offline_cannot_connect quiz1 None None
           (initial_state world_unreachable)
           run_unreachable.1.1 run_unreachable.1.2 run_unreachable.2
           1 "site1" [offline7]);
    by_running.
Defined.

(** The online attempt 7 is finished: the stored attempt 7 is removed and
    one warning is returned. *)
Lemma sync_discards_stale_attempt_witness :
  EvGetQuizAttempts 1 "site1" (Ok [offline7]) ∈ run_finished.2
  /\ Array_pop [offline7] = Some offline7
  /\ oa_id offline7 <> 0
  /\ EvGetUserAttempts 1 only_network (Ok [online7 "finished"])
     ∈ run_finished.2
  /\ mo_readingStrategy only_network = Some ONLY_NETWORK
  /\ attempt_is_stale offline7 [online7 "finished"] = true
  /\ exists r0 r1 r2 rest,
      run_finished.2
      = [EvSyncActivity COMPONENT 1 "site1" r0;
         EvGetQuizAttempts 1 "site1" (Ok [offline7]);
         EvIsOnline true;
         EvGetUserAttempts 1 only_network (Ok [online7 "finished"]);
         EvInvalidateAllQuizData 1 (quiz_course quiz1)
           (Some (oa_id offline7)) "site1" r1;
         EvRemoveAttemptAndAnswers (oa_id offline7) "site1" r2] ++ rest
      /\ match r2 with
         | Ok _ =>
             run_finished.1.1
             = Ok (mkSyncResult ["addon.mod_quiz.warningattemptfinished"]
                     false true)
             /\ exists r3, rest = [EvSetSyncTime 1 "site1" r3]
         | Err e => run_finished.1.1 = Err e /\ rest = []
         end.
Proof.
  split; [by_running |]. split; [by_running |]. split; [by_running |].
  split; [by_running |]. split; [by_running |]. split; [by_running |].
  apply (sync_discards_stale_attempt quiz1 None None
           (initial_state world_finished)
           run_finished.1.1 run_finished.1.2 run_finished.2 1 "site1"
           [offline7] offline7 only_network [online7 "finished"]);
    by_running.
Defined.

(** Attempt 7 has no stored answers and the last online attempt is 8:
    finalisation is told to remove attempt 8. *)
Lemma removal_targets_last_online_attempt_witness :
  EvGetQuizAttempts 1 "site1" (Ok [offline7]) ∈ run_other_last.2
  /\ Array_pop [offline7] = Some offline7
  /\ EvGetUserAttempts 1 only_network (Ok two_online) ∈ run_other_last.2
  /\ mo_readingStrategy only_network = Some ONLY_NETWORK
  /\ attempt_is_stale offline7 two_online = false
  /\ (forall attemptId s r',
         EvRemoveAttemptAndAnswers attemptId s r' ∈ run_other_last.2 ->
         attemptId = 8)
  /\ (exists s r', EvRemoveAttemptAndAnswers 8 s r' ∈ run_other_last.2).
Proof.
  assert (Hrun : performSyncQuiz quiz1 None None
                   (initial_state world_other_last)
                 = (run_other_last.1.1, run_other_last.1.2, run_other_last.2))
    by by_running.
  assert (Hoffline : EvGetQuizAttempts 1 "site1" (Ok [offline7])
                     ∈ run_other_last.2) by by_running.
  assert (Honline : EvGetUserAttempts 1 only_network (Ok two_online)
                    ∈ run_other_last.2) by by_running.
  pose proof (removal_targets_last_online_attempt quiz1 None None
                (initial_state world_other_last)
                run_other_last.1.1 run_other_last.1.2 run_other_last.2
                1 "site1" [offline7] offline7 only_network two_online
                Hrun Hoffline eq_refl Honline eq_refl) as (_ & Hremoval & _).
  split; [exact Hoffline |]. split; [reflexivity |].
  split; [exact Honline |]. split; [reflexivity |].
  split; [by_running |]. split.
  - intros attemptId s r' Hin. specialize (Hremoval attemptId s r' Hin).
    vm_compute in Hremoval. congruence.
  - exists "site1", (Ok tt). by_running.
Defined.

(** The validation of stored answers of attempt 7 whose tokens are written
    otherwise than the site writes its counters. Slot 5 holds 04: it
    passes the check against the counter 4 and is kept, with the token 4
    and its answer. Slot 6 holds 2 where the counter is 1 and is dropped. *)
Lemma validateQuestions_per_slot_witness :
  offline_questions7_padded !! 5 = Some offline_question5_padded
  /\ oq_answers offline_question5_padded !! ":sequencecheck"
     = Some (AString "04")
  /\ (exists validated kept,
         run_validation_padded.1.1 = Ok (true, validated)
         /\ validated !! 6 = None
         /\ validated !! 5 = Some kept
         /\ oq_answers kept !! ":sequencecheck" = Some (AString "4")
         /\ oq_answers kept !! "_answer" = Some (AString "42"))
  /\ (forall slot offlineQuestion,
         offline_questions7_padded !! slot = Some offlineQuestion ->
         let removed :=
           exists res,
             EvRemoveQuestionAndAnswers 7 slot "site1" res
             ∈ run_validation_padded.2 in
         let dropped :=
           forall discarded validated,
             run_validation_padded.1.1 = Ok (discarded, validated) ->
             validated !! slot = None in
         match questions7 !! slot with
         | None => removed /\ dropped
         | Some onlineQuestion =>
             if validateSequenceCheck onlineQuestion
                  (oq_answers offlineQuestion !! ":sequencecheck")
             then
               ~ removed
               /\ (forall discarded validated,
                      run_validation_padded.1.1 = Ok (discarded, validated) ->
                      exists kept,
                        validated !! slot = Some kept
                        /\ oq_slot kept = oq_slot offlineQuestion
                        /\ oq_answers kept !! ":sequencecheck"
                           = Some (AString
                                     (String_of_number
                                        (q_sequencecheck onlineQuestion)))
                        /\ forall name,
                            name <> ":sequencecheck" ->
                            oq_answers kept !! name
                            = oq_answers offlineQuestion !! name)
             else removed /\ dropped
         end)
  /\ (forall discarded validated,
         run_validation_padded.1.1 = Ok (discarded, validated) ->
         (discarded = true <->
          exists slot,
            is_Some (offline_questions7_padded !! slot)
            /\ validated !! slot = None))
  /\ ((forall slot res,
          EvRemoveQuestionAndAnswers 7 slot "site1" res
          ∈ run_validation_padded.2 ->
          exists u, res = Ok u) ->
      exists discarded validated,
        run_validation_padded.1.1 = Ok (discarded, validated)).
Proof.
  assert (Hrun : validateQuestions 7 questions7 offline_questions7_padded
                   "site1" (initial_state world_padded)
                 = (run_validation_padded.1.1, run_validation_padded.1.2,
                    run_validation_padded.2))
    by by_running.
  split; [by_running |]. split; [by_running |].
  split; [do 2 eexists; repeat split; by_running |].
  exact (validateQuestions_per_slot 7 questions7 offline_questions7_padded
           "site1" (initial_state world_padded)
           run_validation_padded.1.1 run_validation_padded.1.2
           run_validation_padded.2 Hrun).
Defined.

(** Attempt 7 is marked finished, slot 5 is discarded: the submission is
    sent with the finish flag off. *)
Lemma finish_flag_of_submission_witness :
  EvProcessAttempt quiz1 (online7 "inprogress") sent_answers ∅ false false
    false "site1" (Ok tt) ∈ run_answers.2
  /\ exists offlineAttempts offlineAttempt answersList pages onlineQuestions,
      EvGetQuizAttempts (quiz_id quiz1) "site1" (Ok offlineAttempts)
      ∈ run_answers.2
      /\ Array_pop offlineAttempts = Some offlineAttempt
      /\ EvGetAttemptAnswers (oa_id offlineAttempt) "site1" (Ok answersList)
         ∈ run_answers.2
      /\ EvGetAllQuestionsData quiz1 (online7 "inprogress") ∅ pages
           ONLY_NETWORK "site1" (Ok onlineQuestions) ∈ run_answers.2
      /\ let offlineQuestions :=
           classifyAnswersInQuestions
             (convertAnswersArrayToObject answersList) in
         let discarded :=
           exists slot res',
             EvRemoveQuestionAndAnswers (at_id (online7 "inprogress")) slot
               "site1" res' ∈ run_answers.2 in
         (false = true <-> oa_finished offlineAttempt = true /\ ~ discarded)
         /\ (discarded <->
             exists slot offlineQuestion,
               offlineQuestions !! slot = Some offlineQuestion
               /\ validated_slot onlineQuestions slot offlineQuestion = None)
         /\ (forall slot offlineQuestion onlineQuestion,
                offlineQuestions !! slot = Some offlineQuestion ->
                onlineQuestions !! slot = Some onlineQuestion ->
                validateSequenceCheck onlineQuestion
                  (oq_answers offlineQuestion !! ":sequencecheck") = false ->
                false = false).
Proof.
  assert (Hrun : performSyncQuiz quiz1 None None (initial_state world_answers)
                 = (run_answers.1.1, run_answers.1.2, run_answers.2))
    by by_running.
  assert (Hin : EvProcessAttempt quiz1 (online7 "inprogress") sent_answers ∅
                  false false false "site1" (Ok tt) ∈ run_answers.2)
    by by_running.
  split; [exact Hin |].
  exact (finish_flag_of_submission quiz1 None None
           (initial_state world_answers)
           run_answers.1.1 run_answers.1.2 run_answers.2
           quiz1 (online7 "inprogress") sent_answers ∅ false false false
           "site1" (Ok tt) Hrun Hin).
Defined.




(** Two quizzes are listed and the synchronisation of quiz 1 rejects: the
    batch operation rejects with the same error. *)
Lemma batch_rejects_counterexample :
  syncAllQuizzesFunc true "site1" (initial_state world_two_quizzes)
  = run_two_quizzes
  /\ EvGetAllAttempts "site1" (Ok [offline7; offline9]) ∈ run_two_quizzes.2
  /\ EvAwait 0 (Err (Rejected "getUserAttempts")) ∈ run_two_quizzes.2
  /\ run_two_quizzes.1.1 = Err (Rejected "getUserAttempts").
Proof. repeat split; by_running. Qed.

(** The batch on the site with two quizzes, where the synchronisation of
    quiz 1 rejects: quiz 2 is fetched all the same, and its
    synchronisation is started and waited for. *)
Lemma batch_rejects_with_quiz_failure_witness :
  EvGetAllAttempts "site1" (Ok [offline7; offline9]) ∈ run_two_quizzes.2
  /\ EvGetQuizById 10 2 "site1" (Ok (mkQuiz 2 10 102)) ∈ run_two_quizzes.2
  /\ EvGetOngoingSync 2 "site1" None ∈ run_two_quizzes.2
  /\ EvAddOngoingSync 2 1%nat "site1" ∈ run_two_quizzes.2
  /\ EvAwait 1%nat (Ok (mkSyncResult [] false true)) ∈ run_two_quizzes.2
  /\ (forall promise e,
         EvAwait promise (Err e) ∈ run_two_quizzes.2 ->
         exists e', run_two_quizzes.1.1 = Err e')
  /\ (forall courseId quizId site e,
         EvGetQuizById courseId quizId site (Err e) ∈ run_two_quizzes.2 ->
         exists e', run_two_quizzes.1.1 = Err e')
  /\ (forall attempt,
         attempt ∈ [offline7; offline9] ->
         exists blocked,
           EvIsBlocked COMPONENT (oa_quizid attempt) "site1" blocked
           ∈ run_two_quizzes.2
           /\ (blocked = false ->
               exists courseId res,
                 EvGetQuizById courseId (oa_quizid attempt) "site1" res
                 ∈ run_two_quizzes.2
                 /\ forall quiz,
                     res = Ok quiz -> sync_requested quiz run_two_quizzes.2))
  /\ (forall promise result,
         EvAwait promise (Ok result) ∈ run_two_quizzes.2 ->
         warnings result <> [] ->
         exists quizId res,
           EvSetSyncWarnings quizId (warnings result) "site1" res
           ∈ run_two_quizzes.2).
Proof.
  assert (Hrun : syncAllQuizzesFunc true "site1"
                   (initial_state world_two_quizzes)
                 = (run_two_quizzes.1.1, run_two_quizzes.1.2,
                    run_two_quizzes.2))
    by by_running.
  assert (Hin : EvGetAllAttempts "site1" (Ok [offline7; offline9])
                ∈ run_two_quizzes.2) by by_running.
  split; [exact Hin |].
  split; [by_running |]. split; [by_running |]. split; [by_running |].
  split; [by_running |].
  exact (batch_rejects_with_quiz_failure true "site1"
           (initial_state world_two_quizzes)
           run_two_quizzes.1.1 run_two_quizzes.1.2 run_two_quizzes.2
           [offline7; offline9] Hrun Hin).
Defined.

(** Two callers ask for the synchronisation of quiz 1 where nothing is
    stored for it, the second while the first is in flight, and both wait
    for it: they observe the same result, and nothing was submitted. *)
Lemma syncQuiz_single_flight_counterexample :
  two_callers quiz1 (initial_state world_nothing) = run_two_callers_nothing
  /\ run_two_callers_nothing.1.1
     = Ok (mkSyncResult [] false false, mkSyncResult [] false false)
  /\ submissions run_two_callers_nothing.2 = 0%nat.
Proof. repeat split; by_running. Qed.

(** A second call for quiz 1 while the first synchronisation is in flight,
    on the site where attempt 7 has stored answers: the one reconciliation
    submits once. *)
Lemma syncQuiz_single_flight_witness :
  run_syncQuiz.1.1 = Ok 0%nat
  /\ syncPromises (initial_state world_answers) !! ("site1", quiz_id quiz1)
     = None
  /\ settled (initial_state world_answers)
     !! nextPromise (initial_state world_answers) = None
  /\ run_syncQuiz.2
     = [EvGetOngoingSync 1 "site1" None;
        EvIsBlocked COMPONENT 1 "site1" false;
        EvSyncActivity COMPONENT 1 "site1" (Ok tt);
        EvAddOngoingSync 1 0%nat "site1"]
  /\ syncQuiz quiz1 (Some true) (Some "site1") run_syncQuiz.1.2
     = (Ok 0%nat, run_syncQuiz.1.2, [EvGetOngoingSync 1 "site1" (Some 0%nat)])
  /\ await 0%nat run_syncQuiz.1.2 = run_await
  /\ submissions run_await.2 = 1%nat
  /\ await 0%nat run_await.1.2
     = (run_await.1.1, run_await.1.2, [EvAwait 0%nat run_await.1.1]).
Proof.
  assert (Hrun : syncQuiz quiz1 None None (initial_state world_answers)
                 = (Ok 0%nat, run_syncQuiz.1.2, run_syncQuiz.2))
    by by_running.
  assert (Hnone : syncPromises (initial_state world_answers)
                  !! (string_or None
                        (getCurrentSiteId
                           (world (initial_state world_answers))),
                      quiz_id quiz1) = None) by reflexivity.
  assert (Hfresh : settled (initial_state world_answers)
                   !! nextPromise (initial_state world_answers) = None)
    by reflexivity.
  assert (Hawait : await 0%nat run_syncQuiz.1.2
                   = (run_await.1.1, run_await.1.2, run_await.2))
    by by_running.
  assert (Hanswers : EvGetAttemptAnswers 7 "site1" (Ok answers7)
                     ∈ run_await.2) by by_running.
  destruct (syncQuiz_single_flight quiz1 None None
              (initial_state world_answers) 0%nat run_syncQuiz.1.2
              run_syncQuiz.2 Hrun Hnone Hfresh)
    as (_ & Hflight & Hsecond & Hwait & Hlater).
  destruct (Hwait _ _ _ _ Hflight Hawait)
    as (_ & _ & Hone & _ & Hsettled).
  split; [by_running |]. split; [exact Hnone |]. split; [exact Hfresh |].
  split; [by_running |].
  split; [exact (Hsecond run_syncQuiz.1.2 (Some true) (Some "site1")
                   Hflight eq_refl) |].
  split; [by_running |].
  split.
  - refine (Hone result_answers 7 "site1" _ _ _ Hanswers). by_running.
  - exact (Hlater _ _ Hsettled).
Defined.

(** Quiz 1 has a stored attempt: there is data to synchronise. *)
Lemma hasDataToSync_never_rejects_witness :
  exists res b,
    run_hasData.2 = [EvGetQuizAttempts 1 "site1" res]
    /\ run_hasData.1.1 = Ok b
    /\ (b = true <-> exists attempts, res = Ok attempts /\ attempts <> []).
Proof.
  assert (Hrun : hasDataToSync 1 "site1" (initial_state world_answers)
                 = (run_hasData.1.1, run_hasData.1.2, run_hasData.2))
    by by_running.
  exact (hasDataToSync_never_rejects 1 "site1" (initial_state world_answers)
           run_hasData.1.1 run_hasData.1.2 run_hasData.2 Hrun).
Defined.

(** Quiz 1 was synchronised a moment ago: nothing is started. *)
Lemma syncQuizIfNeeded_skips_witness :
  exists res rest,
    run_ifNeeded.2 = EvIsSyncNeeded (quiz_id quiz1) None res :: rest
    /\ (run_ifNeeded.1.1 = Ok None <-> res = Ok false)
    /\ (res = Ok false -> rest = [])
    /\ (forall e, res = Err e -> run_ifNeeded.1.1 = Err e /\ rest = [])
    /\ (res = Ok true ->
        exists site cur rest',
          rest = EvGetOngoingSync (quiz_id quiz1) site cur :: rest').
Proof.
  assert (Hrun : syncQuizIfNeeded quiz1 None None (initial_state world_recent)
                 = (run_ifNeeded.1.1, run_ifNeeded.1.2, run_ifNeeded.2))
    by by_running.
  exact (syncQuizIfNeeded_skips quiz1 None None (initial_state world_recent)
           run_ifNeeded.1.1 run_ifNeeded.1.2 run_ifNeeded.2 Hrun).
Defined.

(** Quiz 1 is locked and no synchronisation is in flight. *)
Lemma syncQuiz_blocked_witness :
  EvGetOngoingSync 1 "site1" None ∈ run_locked.2
  /\ EvIsBlocked COMPONENT 1 "site1" true ∈ run_locked.2
  /\ run_locked.1.1 = Err (CoreError "core.errorsyncblocked")
  /\ run_locked.1.2 = initial_state world_locked
  /\ run_locked.2
     = [EvGetOngoingSync 1 "site1" None; EvIsBlocked COMPONENT 1 "site1" true].
Proof.
  assert (Hrun : syncQuiz quiz1 None None (initial_state world_locked)
                 = (run_locked.1.1, run_locked.1.2, run_locked.2))
    by by_running.
  assert (Hnone : EvGetOngoingSync 1 "site1" None ∈ run_locked.2)
    by by_running.
  assert (Hlocked : EvIsBlocked COMPONENT 1 "site1" true ∈ run_locked.2)
    by by_running.
  split; [exact Hnone |]. split; [exact Hlocked |].
  exact (syncQuiz_blocked quiz1 None None (initial_state world_locked)
           run_locked.1.1 run_locked.1.2 run_locked.2 Hrun Hnone Hlocked).
Defined.

(** The finalisation after a submission, when the offline data of one
    question cannot be deleted. *)
Lemma finishSync_rejection_witness :
  (forall e,
      run_finish_stuck.1.1 = Err e ->
      exists ev, ev ∈ run_finish_stuck.2 /\ finish_failure ev = Some e)
  /\ (forall ev,
         ev ∈ run_finish_stuck.2 -> is_Some (finish_failure ev) ->
         exists e, run_finish_stuck.1.1 = Err e)
  /\ (forall result,
         run_finish_stuck.1.1 = Ok result ->
         warnings result = []
         /\ updated result
            = truthy_bool (fo_updated (default no_options (Some options_sent)))
              || truthy_bool
                   (fo_removeAttempt (default no_options (Some options_sent)))).
Proof.
  assert (Hrun : finishSync "site1" quiz1 10 [] (Some options_sent)
                   (initial_state world_stuck)
                 = (run_finish_stuck.1.1, run_finish_stuck.1.2,
                    run_finish_stuck.2))
    by by_running.
  exact (finishSync_rejection "site1" quiz1 10 [] (Some options_sent)
           (initial_state world_stuck)
           run_finish_stuck.1.1 run_finish_stuck.1.2 run_finish_stuck.2 Hrun).
Defined.

(** The finalisation finds the online attempt finished by now. *)
Lemma finishSync_attemptFinished_witness :
  (attemptFinished result_finish_closed = true <->
   exists onlineAttempt attempts attempt,
     fo_onlineAttempt (default no_options (Some options_sent))
     = Some onlineAttempt
     /\ isAttemptFinished (at_state onlineAttempt) = false
     /\ EvGetUserAttempts (quiz_id quiz1)
          (mkModOptions (quiz_coursemodule quiz1) None "site1") (Ok attempts)
        ∈ run_finish_closed.2
     /\ Array_find (fun a => Z.eqb (at_id a) (at_id onlineAttempt)) attempts
        = Some attempt
     /\ isAttemptFinished (at_state attempt) = true)
  /\ ((forall onlineAttempt,
         fo_onlineAttempt (default no_options (Some options_sent))
         = Some onlineAttempt ->
         isAttemptFinished (at_state onlineAttempt) = true) ->
      forall quizId modOptions res,
        EvGetUserAttempts quizId modOptions res ∉ run_finish_closed.2).
Proof.
  assert (Hrun : finishSync "site1" quiz1 10 [] (Some options_sent)
                   (initial_state world_finished)
                 = (Ok result_finish_closed, run_finish_closed.1.2,
                    run_finish_closed.2))
    by by_running.
  exact (finishSync_attemptFinished "site1" quiz1 10 [] (Some options_sent)
           (initial_state world_finished) result_finish_closed
           run_finish_closed.1.2 run_finish_closed.2 Hrun).
Defined.

(** The removals of the finalisation after a submission, one of which
    fails. *)
Lemma finishSync_removal_witness :
  let o := default no_options (Some options_sent) in
  let removing :=
    truthy_bool (fo_removeAttempt o) && truthy_number (fo_attemptId o) in
  (removing = false ->
   forall ev, ev ∈ run_finish_stuck.2 -> is_removal ev = false)
  /\ (removing = true ->
      exists attemptId res,
        fo_attemptId o = Some attemptId
        /\ EvRemoveAttemptAndAnswers attemptId "site1" res
           ∈ run_finish_stuck.2
        /\ forall questions slot question,
             fo_onlineQuestions o = Some questions ->
             questions !! slot = Some question ->
             exists res',
               EvDeleteOfflineData question COMPONENT
                 (quiz_coursemodule quiz1) "site1" res' ∈ run_finish_stuck.2)
  /\ (forall ev e,
         ev ∈ run_finish_stuck.2 -> is_removal ev = true ->
         finish_failure ev = Some e ->
         (exists e', run_finish_stuck.1.1 = Err e')
         /\ forall quizId site res,
             EvSetSyncTime quizId site res ∉ run_finish_stuck.2).
Proof.
  assert (Hrun : finishSync "site1" quiz1 10 [] (Some options_sent)
                   (initial_state world_stuck)
                 = (run_finish_stuck.1.1, run_finish_stuck.1.2,
                    run_finish_stuck.2))
    by by_running.
  exact (finishSync_removal "site1" quiz1 10 [] (Some options_sent)
           (initial_state world_stuck)
           run_finish_stuck.1.1 run_finish_stuck.1.2 run_finish_stuck.2 Hrun).
Defined.

(** The submission of attempt 7: sent to the very attempt fetched from the
    site, which is in progress. *)
Lemma performSyncQuiz_submission_target_witness :
  EvProcessAttempt quiz1 (online7 "inprogress") sent_answers ∅ false false
    false "site1" (Ok tt) ∈ run_answers.2
  /\ quiz1 = quiz1 /\ false = false /\ false = false
  /\ EvIsOnline true ∈ run_answers.2
  /\ exists offlineAttempts offlineAttempt onlineAttempts,
      EvGetQuizAttempts (quiz_id quiz1) "site1" (Ok offlineAttempts)
      ∈ run_answers.2
      /\ Array_pop offlineAttempts = Some offlineAttempt
      /\ EvGetUserAttempts (quiz_id quiz1)
           (mkModOptions (quiz_coursemodule quiz1) (Some ONLY_NETWORK)
              "site1")
           (Ok onlineAttempts) ∈ run_answers.2
      /\ Array_find (fun a => Z.eqb (at_id a) (oa_id offlineAttempt))
           onlineAttempts = Some (online7 "inprogress")
      /\ at_id (online7 "inprogress") = oa_id offlineAttempt
      /\ isAttemptFinished (at_state (online7 "inprogress")) = false.
Proof.
  assert (Hrun : performSyncQuiz quiz1 None None (initial_state world_answers)
                 = (run_answers.1.1, run_answers.1.2, run_answers.2))
    by by_running.
  assert (Hin : EvProcessAttempt quiz1 (online7 "inprogress") sent_answers ∅
                  false false false "site1" (Ok tt) ∈ run_answers.2)
    by by_running.
  split; [exact Hin |].
  exact (performSyncQuiz_submission_target quiz1 None None
           (initial_state world_answers)
           run_answers.1.1 run_answers.1.2 run_answers.2
           quiz1 (online7 "inprogress") sent_answers ∅ false false false
           "site1" (Ok tt) Hrun Hin).
Defined.

(** The site refuses the submission: the stored attempt stays, and the
    answers of slot 5, which the validation rejected, are gone. *)
Lemma performSyncQuiz_failure_keeps_attempt_witness :
  EvProcessAttempt quiz1 (online7 "inprogress") sent_answers ∅ false false
    false "site1" (Err (Rejected "processAttempt")) ∈ run_refused.2
  /\ tw_attempts (world run_refused.1.2) = [offline7]
  /\ EvRemoveQuestionAndAnswers 7 5 "site1" (Ok tt) ∈ run_refused.2
  /\ (exists e, run_refused.1.1 = Err e)
  /\ forall ev', ev' ∈ run_refused.2 -> is_finalisation ev' = false.
Proof.
  assert (Hrun : performSyncQuiz quiz1 None None (initial_state world_refused)
                 = (run_refused.1.1, run_refused.1.2, run_refused.2))
    by by_running.
  assert (Hin : EvProcessAttempt quiz1 (online7 "inprogress") sent_answers ∅
                  false false false "site1" (Err (Rejected "processAttempt"))
                ∈ run_refused.2)
    by by_running.
  split; [exact Hin |]. split; [by_running |]. split; [by_running |].
  apply (performSyncQuiz_failure_keeps_attempt quiz1 None None
           (initial_state world_refused)
           run_refused.1.1 run_refused.1.2 run_refused.2 _ Hrun Hin).
  by eexists.
Defined.

(** The synchronisation of attempt 7 reports an update. *)
Lemma performSyncQuiz_updated_witness :
  EvGetQuizAttempts 1 "site1" (Ok [offline7]) ∈ run_answers.2
  /\ (updated result_answers = true <-> [offline7] <> []).
Proof.
  assert (Hrun : performSyncQuiz quiz1 None None (initial_state world_answers)
                 = (Ok result_answers, run_answers.1.2, run_answers.2))
    by by_running.
  assert (Hin : EvGetQuizAttempts 1 "site1" (Ok [offline7]) ∈ run_answers.2)
    by by_running.
  split; [exact Hin |].
  exact (performSyncQuiz_updated quiz1 None None
           (initial_state world_answers) result_answers
           run_answers.1.2 run_answers.2 1 "site1" [offline7] Hrun Hin).
Defined.

(** Attempt 7 is marked finished and slot 5 is dropped: one warning. *)
Lemma performSyncQuiz_warnings_witness :
  EvGetQuizAttempts 1 "site1" (Ok [offline7]) ∈ run_answers.2
  /\ Array_pop [offline7] = Some offline7
  /\ let dropped :=
       exists attemptId slot s res,
         EvRemoveQuestionAndAnswers attemptId slot s res ∈ run_answers.2 in
     let answers_read :=
       exists attemptId s res,
         EvGetAttemptAnswers attemptId s res ∈ run_answers.2 in
     (~ answers_read ->
      warnings result_answers = ["addon.mod_quiz.warningattemptfinished"])
     /\ (answers_read -> ~ dropped -> warnings result_answers = [])
     /\ (dropped ->
         warnings result_answers
         = [if oa_finished offline7
            then "addon.mod_quiz.warningdatadiscardedfromfinished"
            else "addon.mod_quiz.warningdatadiscarded"]).
Proof.
  assert (Hrun : performSyncQuiz quiz1 None None (initial_state world_answers)
                 = (Ok result_answers, run_answers.1.2, run_answers.2))
    by by_running.
  assert (Hin : EvGetQuizAttempts 1 "site1" (Ok [offline7]) ∈ run_answers.2)
    by by_running.
  split; [exact Hin |]. split; [reflexivity |].
  exact (performSyncQuiz_warnings quiz1 None None
           (initial_state world_answers) result_answers
           run_answers.1.2 run_answers.2 1 "site1" [offline7] offline7
           Hrun Hin eq_refl).
Defined.

(** The submission of attempt 7 does not finish it: page 2 is logged. *)
Lemma performSyncQuiz_logs_page_witness :
  (forall q attempt answers preflightData finish timeUp offline site u,
      EvProcessAttempt q attempt answers preflightData finish timeUp offline
        site (Ok u) ∈ run_answers.2 ->
      if finish
      then forall attemptId page preflightData' offline' site' res,
             EvLogViewAttempt attemptId page preflightData' offline' site' res
             ∉ run_answers.2
      else exists offlineAttempts offlineAttempt res,
             EvGetQuizAttempts (quiz_id quiz1) site (Ok offlineAttempts)
             ∈ run_answers.2
             /\ Array_pop offlineAttempts = Some offlineAttempt
             /\ EvLogViewAttempt (at_id attempt)
                  (oa_currentpage offlineAttempt) preflightData false site res
                ∈ run_answers.2)
  /\ (forall attemptId page preflightData offline site res,
         EvLogViewAttempt attemptId page preflightData offline site res
         ∈ run_answers.2 ->
         (exists q attempt answers timeUp offline',
             EvProcessAttempt q attempt answers preflightData false timeUp
               offline' site (Ok tt) ∈ run_answers.2)
         /\ exists courseId attempt' r',
             EvInvalidateAllQuizData (quiz_id quiz1) courseId attempt' site r'
             ∈ run_answers.2).
Proof.
  assert (Hrun : performSyncQuiz quiz1 None None (initial_state world_answers)
                 = (run_answers.1.1, run_answers.1.2, run_answers.2))
    by by_running.
  exact (performSyncQuiz_logs_page quiz1 None None
           (initial_state world_answers)
           run_answers.1.1 run_answers.1.2 run_answers.2 Hrun).
Defined.

(** The update check reports no file change: the quiz is downloaded and
    its status set from the cache. *)
Lemma prefetchAfterUpdateQuiz_status_witness :
  (forall quiz' cmId strategy site res,
      EvSetStatusAfterPrefetch quiz' cmId strategy site res ∈ run_prefetch.2 ->
      quiz' = quiz1 /\ cmId = module_id (mkModule 101) /\ site = "site1"
      /\ run_prefetch.1.1 = res
      /\ (strategy = Some PREFER_CACHE
          /\ (exists u, EvDownload (mkModule 101) 10 (Ok u) ∈ run_prefetch.2)
          \/ strategy = None
             /\ forall module' courseId' res',
                  EvDownload module' courseId' res' ∉ run_prefetch.2))
  /\ ((exists quiz' cmId strategy site res,
          EvSetStatusAfterPrefetch quiz' cmId strategy site res
          ∈ run_prefetch.2)
      <-> (exists updates,
              EvGetModuleUpdates (mkModule 101) 10 true "site1" (Ok updates)
              ∈ run_prefetch.2)
          /\ forall e, EvDownload (mkModule 101) 10 (Err e) ∉ run_prefetch.2)
  /\ (forall e,
         EvGetModuleUpdates (mkModule 101) 10 true "site1" (Err e)
         ∈ run_prefetch.2
         \/ EvDownload (mkModule 101) 10 (Err e) ∈ run_prefetch.2 ->
         run_prefetch.1.1 = Err e).
Proof.
  assert (Hrun : prefetchAfterUpdateQuiz (mkModule 101) quiz1 10 "site1"
                   (initial_state world_answers)
                 = (run_prefetch.1.1, run_prefetch.1.2, run_prefetch.2))
    by by_running.
  exact (prefetchAfterUpdateQuiz_status (mkModule 101) quiz1 10 "site1"
           (initial_state world_answers)
           run_prefetch.1.1 run_prefetch.1.2 run_prefetch.2 Hrun).
Defined.

(** Two attempts of quiz 1 are listed: the quiz is fetched once. *)
Lemma syncAllQuizzesFunc_once_per_quiz_witness :
  (quiz_fetches 1 run_duplicates.2 <= 1)%nat.
Proof.
  assert (Hrun : syncAllQuizzesFunc true "site1"
                   (initial_state world_duplicates)
                 = (run_duplicates.1.1, run_duplicates.1.2, run_duplicates.2))
    by by_running.
  exact (syncAllQuizzesFunc_once_per_quiz true "site1"
           (initial_state world_duplicates)
           run_duplicates.1.1 run_duplicates.1.2 run_duplicates.2 1 Hrun).
Defined.

(** Quiz 2 of the site with two quizzes: fetched because it was listed and
    found unlocked, right after its lock check. *)
Lemma syncAllQuizzesFunc_fetches_unlocked_witness :
  EvGetAllAttempts "site1" (Ok [offline7; offline9]) ∈ run_two_quizzes.2
  /\ EvGetQuizById 10 2 "site1" (Ok (mkQuiz 2 10 102)) ∈ run_two_quizzes.2
  /\ "site1" = "site1"
  /\ (exists before after,
         run_two_quizzes.2
         = before
           ++ EvIsBlocked COMPONENT 2 "site1" false
              :: EvGetQuizById 10 2 "site1" (Ok (mkQuiz 2 10 102)) :: after)
  /\ exists attempt,
      attempt ∈ [offline7; offline9] /\ oa_quizid attempt = 2
      /\ oa_courseid attempt = 10.
Proof.
  assert (Hrun : syncAllQuizzesFunc true "site1"
                   (initial_state world_two_quizzes)
                 = (run_two_quizzes.1.1, run_two_quizzes.1.2,
                    run_two_quizzes.2))
    by by_running.
  assert (Hlist : EvGetAllAttempts "site1" (Ok [offline7; offline9])
                  ∈ run_two_quizzes.2) by by_running.
  assert (Hin : EvGetQuizById 10 2 "site1" (Ok (mkQuiz 2 10 102))
                ∈ run_two_quizzes.2) by by_running.
  split; [exact Hlist |]. split; [exact Hin |].
  exact (syncAllQuizzesFunc_fetches_unlocked true "site1"
           (initial_state world_two_quizzes)
           run_two_quizzes.1.1 run_two_quizzes.1.2 run_two_quizzes.2
           [offline7; offline9] 10 2 "site1" (Ok (mkQuiz 2 10 102))
           Hrun Hlist Hin).
Defined.

(** The third identifier asked for under one name, another name having
    been served in between. *)
Lemma getUniqueId_counts_witness :
  ("a" ∉ Object_prototype_names)
  /\ Z.of_nat (length ["a"; "b"; "a"]) < 2 ^ 53
  /\ fst (getUniqueId "a" (getUniqueIds ["a"; "b"; "a"] ∅))
     = Num (Z.of_nat (requests "a" ["a"; "b"; "a"]) + 1).
Proof.
  assert (Hname : "a" ∉ Object_prototype_names)
    by (apply (bool_decide_eq_false_1 _); by vm_compute).
  assert (Hlen : Z.of_nat (length ["a"; "b"; "a"]) < 2 ^ 53) by by vm_compute.
  split; [exact Hname |]. split; [exact Hlen |].
  exact (getUniqueId_counts ["a"; "b"; "a"] "a" Hname Hlen).
Defined.

(** The string 1 counts as true, so it does not count as false. *)
Lemma isTrueOrOne_isFalseOrZero_exclusive_witness :
  isTrueOrOne (JSString "1") = true /\ isFalseOrZero (JSString "1") = false.
Proof.
  assert (Htrue : isTrueOrOne (JSString "1") = true) by by vm_compute.
  split; [exact Htrue |].
  exact (isTrueOrOne_isFalseOrZero_exclusive (JSString "1") Htrue).
Defined.

(** A digit between a blank and a word. *)
Lemma isTrueOrOne_reads_leading_integer_witness :
  Forall (fun c => is_whitespace c = true) (list_ascii_of_string " ")
  /\ starts_with_digit "st" = false
  /\ isTrueOrOne (JSString (" " ++ String "1" "st")) = true
  /\ isFalseOrZero (JSString (" " ++ String "0" "st")) = true.
Proof.
  assert (Hws : Forall (fun c => is_whitespace c = true)
                  (list_ascii_of_string " "))
    by (repeat constructor).
  assert (Hrest : starts_with_digit "st" = false) by by vm_compute.
  split; [exact Hws |]. split; [exact Hrest |].
  exact (isTrueOrOne_reads_leading_integer " " "st" Hws Hrest).
Defined.

(** A list of three entries, the last one empty, with a default label. *)
Lemma makeMenuFromList_entries_witness :
  default "," None = String "," ""
  /\ Forall (fun item => ","%char ∉ list_ascii_of_string item)
       ["1st"; " 2nd "; ""]
  /\ makeMenuFromList "1st, 2nd ," (Some "Choose") None None
     = [mkMenuItem "Choose" 0; mkMenuItem "1st" 1; mkMenuItem "2nd" 2;
        mkMenuItem "" 3].
Proof.
  assert (Hsep : default "," None = String "," "") by reflexivity.
  assert (Hitems : Forall (fun item => ","%char ∉ list_ascii_of_string item)
                     ["1st"; " 2nd "; ""])
    by (apply (bool_decide_unpack _); vm_compute; exact I).
  split; [exact Hsep |]. split; [exact Hitems |].
  exact (makeMenuFromList_entries ["1st"; " 2nd "; ""] "," (Some "Choose")
           None None Hsep Hitems).
Defined.

Lemma chain_run : formatTree chain None (Some 2) = Returns chain_tree.
Proof. by vm_compute. Qed.

Lemma chain_well_formed : well_formed 0 chain.
Proof.
  split.
  - apply (bool_decide_unpack _). by vm_compute.
  - intros node Hin. unfold chain in Hin.
    repeat (apply elem_of_cons in Hin as [-> | Hin]);
      [by exists 1 | by exists 2 | by exists 3 | by exists 4 |].
    by apply elem_of_nil in Hin.
  - intros node Hin. unfold chain in Hin.
    repeat (apply elem_of_cons in Hin as [-> | Hin]);
      [by left | right | right | right |];
      [apply (bool_decide_unpack _); by vm_compute .. |].
    by apply elem_of_nil in Hin.
  - by repeat constructor.
Qed.

Lemma chain_sorted : sorted_by_depth 0 chain.
Proof.
  intros k node Hk.
  destruct k as [| [| [| [| k]]]]; simpl in Hk; [| | | | done];
    injection Hk as <-.
  - by left.
  - right. exists 0%nat, (mkTreeNode (Some 1) (Some 0) None).
    split; [lia | done].
  - right. exists 1%nat, (mkTreeNode (Some 2) (Some 1) None).
    split; [lia | done].
  - right. exists 2%nat, (mkTreeNode (Some 3) (Some 2) None).
    split; [lia | done].
Qed.

(** The chain has one root, its first node. *)
Lemma formatTree_roots_witness :
  formatTree chain None (Some 2) = Returns chain_tree
  /\ ts_tree chain_tree = [0%nat].
Proof.
  split; [exact chain_run |].
  exact (formatTree_roots chain None (Some 2) chain_tree chain_run).
Defined.

(** The chain cut at depth 2: the last three nodes are the children of the
    first, and have it as parent. *)
Lemma formatTree_children_witness :
  Forall (fun node => children_of node = []) chain
  /\ formatTree chain None (Some 2) = Returns chain_tree
  /\ NoDup (ts_tree chain_tree ++ all_children (ts_list chain_tree))
  /\ (forall c,
         c ∈ ts_tree chain_tree ++ all_children (ts_list chain_tree) ->
         (c < length chain)%nat)
  /\ forall p node c,
      ts_list chain_tree !! p = Some node -> c ∈ children_of node ->
      exists child,
        ts_list chain_tree !! c = Some child
        /\ node_parent child = node_id node.
Proof.
  assert (Hnone : Forall (fun node => children_of node = []) chain)
    by (by repeat constructor).
  split; [exact Hnone |]. split; [exact chain_run |].
  exact (formatTree_children chain None (Some 2) chain_tree Hnone chain_run).
Defined.

(** The chain, with the maximum depth 2. *)
Lemma formatTree_returns_witness :
  NoDup (node_id <$> chain)
  /\ (default 5 (Some 2) <> 1 \/ default 0 None = 0
      \/ Some (default 0 None) ∈ node_id <$> chain)
  /\ exists s, formatTree chain None (Some 2) = Returns s.
Proof.
  assert (Hnodup : NoDup (node_id <$> chain))
    by (apply (bool_decide_unpack _); by vm_compute).
  assert (Hfree : default 5 (Some 2) <> 1 \/ default 0 None = 0
                  \/ Some (default 0 None) ∈ node_id <$> chain)
    by (by left).
  split; [exact Hnodup |]. split; [exact Hfree |].
  exact (formatTree_returns chain None (Some 2) Hnodup Hfree).
Defined.

(** A root and its child, under a root identifier that no node has, with
    the maximum depth 1. *)
Lemma formatTree_throws_witness :
  NoDup (node_id <$> stray)
  /\ default 5 (Some 1) = 1
  /\ default 0 (Some 9) <> 0
  /\ (Some (default 0 (Some 9)) ∉ node_id <$> stray)
  /\ (0 < 1)%nat
  /\ stray !! 0%nat = Some (mkTreeNode (Some 1) (Some 9) None)
  /\ stray !! 1%nat = Some (mkTreeNode (Some 2) (Some 1) None)
  /\ exists s, formatTree stray (Some 9) (Some 1) = ThrowsTypeError s.
Proof.
  assert (Hnodup : NoDup (node_id <$> stray))
    by (apply (bool_decide_unpack _); by vm_compute).
  assert (Hfree : Some (default 0 (Some 9)) ∉ node_id <$> stray)
    by (apply (bool_decide_unpack _); by vm_compute).
  assert (Hr : default 0 (Some 9) <> 0) by done.
  assert (Hlt : (0 < 1)%nat) by lia.
  repeat (split; [done |]).
  exact (formatTree_throws stray (Some 9) (Some 1) 0 1
           (mkTreeNode (Some 1) (Some 9) None)
           (mkTreeNode (Some 2) (Some 1) None)
           Hnodup eq_refl Hr Hfree Hlt eq_refl eq_refl eq_refl eq_refl).
Defined.

(** The chain is placed whole, without an error. *)
Lemma formatTree_complete_witness :
  well_formed (default 0 None) chain
  /\ default 5 (Some 2) <> 1
  /\ exists s,
      formatTree chain None (Some 2) = Returns s
      /\ ts_errors s = []
      /\ ts_tree s ++ all_children (ts_list s) ≡ₚ seq 0 (length chain).
Proof.
  assert (Hm : default 5 (Some 2) <> 1) by done.
  split; [exact chain_well_formed |]. split; [exact Hm |].
  exact (formatTree_complete chain None (Some 2) chain_well_formed Hm).
Defined.

(** The last node of the chain is at level 2. *)
Lemma formatTree_depth_witness :
  well_formed (default 0 None) chain
  /\ sorted_by_depth (default 0 None) chain
  /\ 2 <= default 5 (Some 2)
  /\ Z.of_nat (length chain) < 2 ^ 53
  /\ formatTree chain None (Some 2) = Returns chain_tree
  /\ at_level chain_tree 2 3
  /\ Z.of_nat 2 <= default 5 (Some 2).
Proof.
  assert (Hm : 2 <= default 5 (Some 2)) by done.
  assert (Hlen : Z.of_nat (length chain) < 2 ^ 53) by done.
  assert (Hlevel : at_level chain_tree 2 3).
  { apply (level_child chain_tree 1 0
             (mkTreeNode (Some 1) (Some 0) (Some [1; 2; 3]%nat)) 3).
    - apply level_root. apply list_elem_of_here.
    - done.
    - apply (bool_decide_unpack _). by vm_compute. }
  split; [exact chain_well_formed |]. split; [exact chain_sorted |].
  split; [exact Hm |]. split; [exact Hlen |]. split; [exact chain_run |].
  split; [exact Hlevel |].
  exact (formatTree_depth chain None (Some 2) chain_tree 2 3
           chain_well_formed chain_sorted Hm Hlen chain_run Hlevel).
Defined.

(** The function is applied once, to the arguments of the second call. *)
Lemma debounce_waits_for_quiet_witness :
  300 < 2 ^ 31
  /\ debounce_run 300 debounce keystrokes = Some keystrokes_end
  /\ (400, "ab") ∈ db_applied keystrokes_end
  /\ exists i j t0 id,
      keystrokes !! i = Some (Called t0 "ab")
      /\ keystrokes !! j = Some (Expired 400 id)
      /\ (i < j)%nat
      /\ t0 + Z.max 0 300 <= 400
      /\ forall l tick,
          (i < l < j)%nat -> keystrokes !! l = Some tick ->
          is_call tick = false.
Proof.
  assert (Hdelay : 300 < 2 ^ 31) by reflexivity.
  assert (Hrun : debounce_run 300 debounce keystrokes = Some keystrokes_end)
    by (by vm_compute).
  assert (Hin : (400, "ab") ∈ db_applied keystrokes_end)
    by apply list_elem_of_here.
  split; [exact Hdelay |]. split; [exact Hrun |]. split; [exact Hin |].
  exact (debounce_waits_for_quiet 300 keystrokes keystrokes_end 400 "ab"
           Hdelay Hrun Hin).
Defined.

(** The first and the third call are applied, 1200 ms apart. *)
Lemma throttle_spaces_calls_witness :
  1000 < 2 ^ 31
  /\ (forall t args application,
         Called t (args, application) ∈ clicks -> application = returns)
  /\ throttle_run 1000 throttle clicks = Some clicks_end
  /\ th_applied clicks_end = [(0, "a"); (1200, "c")]
  /\ (forall i t1 args1 t2 args2,
         th_applied clicks_end !! i = Some (t1, args1) ->
         th_applied clicks_end !! S i = Some (t2, args2) ->
         t1 + Z.max 0 1000 <= t2)
  /\ (forall t args,
         (t, args) ∈ th_applied clicks_end ->
         Called t (args, returns) ∈ clicks)
  /\ (forall t args application rest,
         clicks = Called t (args, application) :: rest ->
         th_applied clicks_end !! 0%nat = Some (t, args)).
Proof.
  assert (Hduration : 1000 < 2 ^ 31) by reflexivity.
  assert (Hreturns : forall t args application,
             Called t (args, application) ∈ clicks -> application = returns).
  { intros t args application Hin. unfold clicks in Hin.
    repeat (apply elem_of_cons in Hin as [Hin | Hin];
            [by first [injection Hin as _ _ -> | discriminate Hin] |]).
    by apply elem_of_nil in Hin. }
  assert (Hrun : throttle_run 1000 throttle clicks = Some clicks_end)
    by (by vm_compute).
  split; [exact Hduration |]. split; [exact Hreturns |].
  split; [exact Hrun |]. split; [reflexivity |].
  exact (throttle_spaces_calls 1000 clicks clicks_end Hduration Hreturns
           Hrun).
Defined.

(** The error of a site under maintenance is an error of the app. *)
Lemma isWebServiceError_app_error_witness :
  warningcode maintenance_error = None
  /\ (forall n, status maintenance_error = Some n -> n < 400)
  /\ ((exists code,
          errorcode maintenance_error = Some code /\ code ∈ app_error_codes)
      \/ isExpiredTokenError (Some maintenance_error) = Evaluates true)
  /\ exists value,
      isWebServiceError (Some maintenance_error) = Evaluates value
      /\ truthy_value value = false.
Proof.
  assert (Hstatus : forall n, status maintenance_error = Some n -> n < 400)
    by (intros n [= <-]; lia).
  assert (Hcode : (exists code,
                      errorcode maintenance_error = Some code
                      /\ code ∈ app_error_codes)
                  \/ isExpiredTokenError (Some maintenance_error)
                     = Evaluates true).
  { left. exists "sitemaintenance". split; [done |].
    apply (bool_decide_unpack _). by vm_compute. }
  split; [done |]. split; [exact Hstatus |]. split; [exact Hcode |].
  exact (isWebServiceError_app_error maintenance_error eq_refl Hstatus Hcode).
Defined.
